(** * btc_stamps: SRC-20 format check, processor, ledger string, base64
      codec, cpid derivation and stamp numbering

    A shallow embedding of
      - [indexer/src/index_core/src20.py]  (check_format, Src20Validator,
        Src20Processor, update_src20_balances, process_balance_updates,
        format_decimal),
      - [indexer/src/index_core/stamp.py]  (get_cpid, decode_base64,
        decode_base64_with_repair, the classification and numbering tail
        of parse_stamp),
      - [stamp.py]                          (base62_encode,
        create_base62_hash)
    and of the parts of Python's [decimal] and [json] modules that the
    code relies on.

    Conventions.
      - A Python [str] is a Rocq [string]; its characters are read as the
        code points U+0000..U+00FF.  Code points above U+00FF are outside
        the model.
      - A Python [Decimal] is a [Decimal] below: sign, coefficient and
        exponent as [decimal] keeps them, with infinities and NaNs.  The
        arithmetic context is Python's default one (28 significant
        digits, ROUND_HALF_EVEN); no module of the repository changes it.
        [Dec.plus], [Dec.minus] and [Dec.norm] do the rounding of that
        context; its exponent limits ([Dec.Emax], [Dec.Etiny]) are
        stated apart, in [Dec.context_fix], and the arithmetic below is
        the arithmetic of the context on the Decimals that stay inside
        them ([Dec.within]).  A theorem that depends on the arithmetic
        of an amount bounds its exponent in a hypothesis.  The limits of
        the constructor are modelled.
      - A Python dict that the code uses as a record (the SRC-20
        operation, a balance update) is a Rocq record whose optional keys
        are [option] fields; the JSON payload that [check_format]
        inspects key by key is a [gmap string pyval]. *)

From Stdlib Require Import ZArith NArith Bool List Ascii String Lia Permutation Sorted.
From stdpp Require Import base option list gmap strings.

Local Open Scope Z_scope.

(* ===================================================================== *)
(** * Strings *)
(* ===================================================================== *)

Module Str.

Definition chars (s : string) : list ascii := list_ascii_of_string s.
Definition of_chars (l : list ascii) : string := string_of_list_ascii l.

Definition code (c : ascii) : N := N_of_ascii c.

(** [str.isdigit()] on U+0000..U+00FF: the ten ASCII digits and the
    superscripts U+00B2, U+00B3, U+00B9. *)
Definition isdigit (c : ascii) : bool :=
  let n := code c in
  ((48 <=? n) && (n <=? 57) || (n =? 178) || (n =? 179) || (n =? 185))%N.

(** The decimal digits [\d] of U+0000..U+00FF. *)
Definition isdecimal (c : ascii) : bool :=
  let n := code c in ((48 <=? n) && (n <=? 57))%N.

(** [str.isspace()] on U+0000..U+00FF. *)
Definition isspace (c : ascii) : bool :=
  let n := code c in
  ((9 <=? n) && (n <=? 13) || (28 <=? n) && (n <=? 32)
   || (n =? 133) || (n =? 160))%N.

(** [str.lower()] on ASCII letters. *)
Definition lower_char (c : ascii) : ascii :=
  let n := code c in
  if ((65 <=? n) && (n <=? 90))%N then ascii_of_N (n + 32) else c.

Definition upper_char (c : ascii) : ascii :=
  let n := code c in
  if ((97 <=? n) && (n <=? 122))%N then ascii_of_N (n - 32) else c.

Definition lower (s : string) : string := of_chars (map lower_char (chars s)).
Definition upper (s : string) : string := of_chars (map upper_char (chars s)).

(** [c in s] for a one-character needle. *)
Definition contains_char (c : ascii) (s : string) : bool :=
  existsb (Ascii.eqb c) (chars s).

Fixpoint drop_while (p : ascii -> bool) (l : list ascii) : list ascii :=
  match l with
  | [] => []
  | c :: r => if p c then drop_while p r else l
  end.

Fixpoint span (p : ascii -> bool) (l : list ascii) : list ascii * list ascii :=
  match l with
  | [] => ([], [])
  | c :: r => if p c then let '(a, b) := span p r in (c :: a, b) else ([], l)
  end.

(** [str.strip()] *)
Definition strip (l : list ascii) : list ascii :=
  rev (drop_while isspace (rev (drop_while isspace l))).

(** [str.rstrip(c)] for a one-character argument. *)
Definition rstrip_char (c : ascii) (l : list ascii) : list ascii :=
  rev (drop_while (Ascii.eqb c) (rev l)).

(** [sep.join(parts)] *)
Fixpoint join (sep : string) (parts : list string) : string :=
  match parts with
  | [] => EmptyString
  | [p] => p
  | p :: rest => String.append p (String.append sep (join sep rest))
  end.

(** [s.split(sep)] for a one-character separator: never empty. *)
Fixpoint split_chars (sep : ascii) (l : list ascii) : list (list ascii) :=
  match l with
  | [] => [[]]
  | c :: r =>
      match split_chars sep r with
      | [] => [[]]
      | w :: ws => if Ascii.eqb c sep then [] :: w :: ws else (c :: w) :: ws
      end
  end.

Definition split (sep : ascii) (s : string) : list string :=
  map of_chars (split_chars sep (chars s)).

(** Lexicographic order on code points: Python's [<] on [str]. *)
Fixpoint ltb_chars (a b : list ascii) : bool :=
  match a, b with
  | [], [] => false
  | [], _ :: _ => true
  | _ :: _, [] => false
  | x :: a', y :: b' =>
      if (code x <? code y)%N then true
      else if (code y <? code x)%N then false
      else ltb_chars a' b'
  end.

Definition ltb (a b : string) : bool := ltb_chars (chars a) (chars b).
Definition leb (a b : string) : bool := negb (ltb b a).

Definition digit_char (d : N) : ascii := ascii_of_N (48 + d).

(** Decimal numeral of a natural number, most significant digit first. *)
Fixpoint digits_aux (fuel : nat) (n : N) (acc : list ascii) : list ascii :=
  let acc' := digit_char (n mod 10) :: acc in
  match fuel with
  | O => acc'
  | S f => if (n <? 10)%N then acc' else digits_aux f (n / 10)%N acc'
  end.

Definition digits_of_N (n : N) : list ascii := digits_aux (N.size_nat n) n [].

(** [str(i)] for a Python int *)
Definition of_Z (z : Z) : string :=
  of_chars (if z <? 0 then "-"%char :: digits_of_N (Z.abs_N z)
            else digits_of_N (Z.abs_N z)).

(** Value of a run of decimal digits. *)
Definition digit_val (c : ascii) : N := (code c - 48)%N.

Definition N_of_digits (l : list ascii) : N :=
  fold_left (fun acc c => (10 * acc + digit_val c)%N) l 0%N.

End Str.

(* ===================================================================== *)
(** * Python's Decimal *)
(* ===================================================================== *)

Module Dec.

(** A finite decimal: [(-1)^sign * coef * 10^exp]. *)
Record fdec := FDec { fsign : bool; fcoef : N; fexp : Z }.

Inductive Decimal :=
| DFin (d : fdec)
| DInf (neg : bool)
| DNaN (neg signaling : bool).

Definition fdec_eq_dec (a b : fdec) : {a = b} + {a <> b}.
Proof. decide equality; [apply Z.eq_dec | apply N.eq_dec | apply Bool.bool_dec]. Defined.

Definition of_Z (z : Z) : fdec := FDec (z <? 0) (Z.abs_N z) 0.
Definition zero : fdec := FDec false 0 0.

(** Number of decimal digits of the coefficient ([len(self._int)]). *)
Fixpoint ndigits_aux (fuel : nat) (c : N) : nat :=
  match fuel with
  | O => 1
  | S f => if (c <? 10)%N then 1%nat else S (ndigits_aux f (c / 10)%N)
  end.

Definition ndigits (c : N) : nat := ndigits_aux (N.size_nat c) c.

(** The coefficient aligned at exponent [e <= fexp d], signed. *)
Definition aligned (e : Z) (d : fdec) : Z :=
  let v := Z.of_N (fcoef d) * 10 ^ (fexp d - e) in
  if fsign d then - v else v.

(** [a < b], [a == b] ...: comparisons are exact. *)
Definition cmp (a b : fdec) : comparison :=
  let e := Z.min (fexp a) (fexp b) in
  Z.compare (aligned e a) (aligned e b).

Definition ltb (a b : fdec) : bool := match cmp a b with Lt => true | _ => false end.
Definition leb (a b : fdec) : bool := match cmp a b with Gt => false | _ => true end.
Definition gtb (a b : fdec) : bool := ltb b a.
Definition geb (a b : fdec) : bool := leb b a.
Definition eqb (a b : fdec) : bool := match cmp a b with Eq => true | _ => false end.

(** [lo <= d <= hi] for integers [lo] and [hi], read off the coefficient
    scaled to an exponent that is not positive. *)
Definition between (lo hi : Z) (d : fdec) : Prop :=
  let e := Z.min (fexp d) 0 in
  lo * 10 ^ (- e) <= aligned e d <= hi * 10 ^ (- e).

(** [bool(d)]: a Decimal is falsy exactly when it is zero. *)
Definition truthy (d : fdec) : bool := negb (fcoef d =? 0)%N.

(** [min(a, b)] of the builtins: [b] when [b < a], else [a]. *)
Definition min (a b : fdec) : fdec := if ltb b a then b else a.

(** ** The context: rounding to [prec] significant digits, half even

    [fix_] is the rounding step of [Decimal._fix]; the exponent limits
    that [_fix] enforces as well are in [context_fix] below. *)

Definition default_prec : nat := 28.

Definition fix_ (prec : nat) (d : fdec) : fdec :=
  let n := ndigits (fcoef d) in
  if (n <=? prec)%nat then d
  else
    let drop := N.of_nat (n - prec) in
    let p := (10 ^ drop)%N in
    let q := (fcoef d / p)%N in
    let r := (fcoef d mod p)%N in
    let half := (p / 2)%N in
    let q' := if (half <? r)%N then (q + 1)%N
              else if (r =? half)%N && N.odd q then (q + 1)%N
              else q in
    if (q' =? 10 ^ N.of_nat prec)%N
    then FDec (fsign d) (q' / 10)%N (fexp d + Z.of_N drop + 1)
    else FDec (fsign d) q' (fexp d + Z.of_N drop).

Definition neg (d : fdec) : fdec := FDec (negb (fsign d)) (fcoef d) (fexp d).

(** [a + b]: the exact sum at the smaller exponent, then rounded.  The
    sign of a zero sum is that of [decimal] under ROUND_HALF_EVEN. *)
Definition add_exact (a b : fdec) : fdec :=
  let e := Z.min (fexp a) (fexp b) in
  let s := aligned e a + aligned e b in
  if s =? 0 then
    FDec (if (fcoef a =? 0)%N && (fcoef b =? 0)%N then fsign a && fsign b else false) 0 e
  else FDec (s <? 0) (Z.abs_N s) e.

Definition add (prec : nat) (a b : fdec) : fdec := fix_ prec (add_exact a b).
Definition sub (prec : nat) (a b : fdec) : fdec := add prec a (neg b).

(** [d.normalize()] *)
Fixpoint strip_zeros (fuel : nat) (c : N) (e : Z) : N * Z :=
  match fuel with
  | O => (c, e)
  | S f => if (c mod 10 =? 0)%N then strip_zeros f (c / 10)%N (e + 1) else (c, e)
  end.

Definition normalize (prec : nat) (d : fdec) : fdec :=
  let d' := fix_ prec d in
  if (fcoef d' =? 0)%N then FDec (fsign d') 0 0
  else
    let '(c, e) := strip_zeros (ndigits (fcoef d')) (fcoef d') (fexp d') in
    FDec (fsign d') c e.

(** The value of [d] in units of [10^-E], for [-E <= fexp d]. *)
Definition value (E : Z) (d : fdec) : Z := aligned (- E) d.

(** The operations in the default context, for operands and results
    inside its exponent limits (see [within] below). *)
Definition plus (a b : fdec) : fdec := add default_prec a b.
Definition minus (a b : fdec) : fdec := sub default_prec a b.
Definition norm (d : fdec) : fdec := normalize default_prec d.

(** ** The exponent limits of the default context

    [Emax] and [Emin] of [decimal.DefaultContext]; [Etiny] is the least
    exponent of a result and [Etop] the largest exponent of a result of
    full precision. *)
Definition Emax : Z := 999999.
Definition Emin : Z := -999999.
Definition Etiny : Z := Emin - Z.of_nat default_prec + 1.
Definition Etop : Z := Emax - Z.of_nat default_prec + 1.

(** [d.adjusted()]: the exponent of the leading digit. *)
Definition adjusted (d : fdec) : Z := fexp d + Z.of_nat (ndigits (fcoef d)) - 1.

(** [Decimal._fix] in the default context, which ends every arithmetic
    operation: a zero has its exponent brought into [Etiny..Emax]; a
    result whose adjusted exponent exceeds [Emax] is the trapped
    [decimal.Overflow] ([None]); a result is rounded half even to
    [prec] digits, and to the exponent [Etiny] when its exponent is
    below it (which makes a small one zero). *)
Definition context_fix (d : fdec) : option fdec :=
  if (fcoef d =? 0)%N
  then Some (FDec (fsign d) 0 (Z.min (Z.max (fexp d) Etiny) Emax))
  else
    let exp_min := Z.of_nat (ndigits (fcoef d)) + fexp d - Z.of_nat default_prec in
    if Etop <? exp_min then None
    else
      let exp_min := Z.max exp_min Etiny in
      if fexp d <? exp_min then
        let p := (10 ^ Z.to_N (exp_min - fexp d))%N in
        let q := (fcoef d / p)%N in
        let r := (fcoef d mod p)%N in
        let half := (p / 2)%N in
        let q' := if (half <? r)%N then (q + 1)%N
                  else if (r =? half)%N && N.odd q then (q + 1)%N
                  else q in
        if (q' =? 10 ^ N.of_nat default_prec)%N
        then if Etop <? exp_min + 1 then None
             else Some (FDec (fsign d) (q' / 10)%N (exp_min + 1))
        else Some (FDec (fsign d) q' exp_min)
      else Some d.

(** [a + b], [a - b] and [d.normalize()] as the default context computes
    them, with its exponent limits: the exact sum goes through [_fix];
    [normalize] takes the trailing zeros off the result of [_fix] while
    the exponent is below [Emax].  [None] is the trapped Overflow. *)
Definition context_plus (a b : fdec) : option fdec := context_fix (add_exact a b).
Definition context_minus (a b : fdec) : option fdec := context_plus a (neg b).

Fixpoint strip_zeros_below (fuel : nat) (c : N) (e : Z) : N * Z :=
  match fuel with
  | O => (c, e)
  | S f => if (c mod 10 =? 0)%N && (e <? Emax)
           then strip_zeros_below f (c / 10)%N (e + 1) else (c, e)
  end.

Definition context_normalize (d : fdec) : option fdec :=
  match context_fix d with
  | None => None
  | Some d' =>
      if (fcoef d' =? 0)%N then Some (FDec (fsign d') 0 0)
      else
        let '(c, e) := strip_zeros_below (ndigits (fcoef d')) (fcoef d') (fexp d') in
        Some (FDec (fsign d') c e)
  end.

(** An ordinary amount: below [10^27] in absolute value, with an
    exponent that is not below [Etiny].  The amounts that [check_format]
    lets through, which are at most [2^64 - 1], are ordinary when their
    exponent is. *)
Definition ordinary (d : fdec) : Prop := Etiny <= fexp d /\ adjusted d <= 26.

(** A Decimal that is [k] steps inside the limits: its exponent is not
    below [Etiny], and its adjusted exponent stays at or below [Emax]
    after [k] steps, a normalisation being one step and a sum or a
    difference two.  On such operands the context neither rounds to
    [Etiny] nor traps [Overflow], and [plus], [minus] and [norm] are
    [context_plus], [context_minus] and [context_normalize]. *)
Definition within (k : Z) (d : fdec) : Prop :=
  Etiny <= fexp d /\ adjusted d + k <= Emax.

(** [d.quantize(Decimal('1'), rounding=ROUND_DOWN)]: [None] is
    InvalidOperation (more than [prec] digits in the result). *)
Definition quantize_int_down (prec : nat) (d : fdec) : option fdec :=
  let c := if 0 <=? fexp d then (fcoef d * 10 ^ Z.to_N (fexp d))%N
           else (fcoef d / 10 ^ Z.to_N (- fexp d))%N in
  if (c =? 0)%N then Some (FDec (fsign d) 0 0)
  else if (ndigits c <=? prec)%nat then Some (FDec (fsign d) c 0) else None.

(** [int(d)]: truncation towards zero. *)
Definition to_int (d : fdec) : Z :=
  let c := if 0 <=? fexp d then Z.of_N (fcoef d) * 10 ^ fexp d
           else Z.of_N (fcoef d) / 10 ^ (- fexp d) in
  if fsign d then - c else c.

(** [d == int(d)] *)
Definition is_integral (d : fdec) : bool := eqb d (of_Z (to_int d)).

(** [format(d, "f")] *)
Definition format_f (d : fdec) : string :=
  let d := if 0 <? fexp d then FDec (fsign d) (fcoef d * 10 ^ Z.to_N (fexp d))%N 0 else d in
  let ds := Str.digits_of_N (fcoef d) in
  let len := Z.of_nat (List.length ds) in
  let dotplace := fexp d + len in
  let '(intpart, fracpart) :=
    if dotplace <? 0 then (["0"%char], repeat "0"%char (Z.to_nat (- dotplace)) ++ ds)
    else
      let ip := firstn (Z.to_nat dotplace) ds in
      ((match ip with [] => ["0"%char] | _ => ip end), skipn (Z.to_nat dotplace) ds) in
  Str.of_chars
    ((if fsign d then ["-"%char] else []) ++ intpart ++
     (match fracpart with [] => [] | _ => "."%char :: fracpart end)).

End Dec.

(* ===================================================================== *)
(** * Exceptions *)
(* ===================================================================== *)

Inductive exn :=
| AttributeError | UnicodeDecodeError | ValueError | TypeError
| JSONDecodeError | InvalidOperation | KeyError | PyException.

Inductive outcome (A : Type) :=
| Ret (a : A)
| Raise (e : exn).
Arguments Ret {A} a.
Arguments Raise {A} e.

Definition bind {A B : Type} (m : outcome A) (f : A -> outcome B) : outcome B :=
  match m with
  | Ret a => f a
  | Raise e => Raise e
  end.

Notation "'let*' p := m 'in' k" := (bind m (fun p => k))
  (at level 10, p pattern, m at level 100, k at level 200).

(* ===================================================================== *)
(** * Decimal(str) *)
(* ===================================================================== *)

Module DecParse.
Import Dec.

(** Largest exponent of the constructor ([MAX_EMAX = MAX_PREC]). *)
Definition MAX_EMAX : Z := 999999999999999999.

(** The conversion is refused when it would clamp or round in the
    maximal context. *)
Definition within_limits (c : N) (e : Z) : bool :=
  (- (2 * MAX_EMAX - 1) <=? e) &&
  (if (c =? 0)%N then e <=? MAX_EMAX
   else e + Z.of_nat (ndigits c) - 1 <=? MAX_EMAX).

Definition parse_sign (l : list ascii) : bool * list ascii :=
  match l with
  | "-"%char :: r => (true, r)
  | "+"%char :: r => (false, r)
  | _ => (false, l)
  end.

(** Case-insensitive match of a lower-case literal at the head. *)
Fixpoint eat_ci (lit : list ascii) (l : list ascii) : option (list ascii) :=
  match lit with
  | [] => Some l
  | p :: lit' =>
      match l with
      | c :: r => if Ascii.eqb (Str.lower_char c) p then eat_ci lit' r else None
      | [] => None
      end
  end.

(** An optional sign and at least one digit, up to the end of the
    string. *)
Definition parse_exponent (l : list ascii) : option Z :=
  let '(s, r) := parse_sign l in
  let '(ds, rest) := Str.span Str.isdecimal r in
  match ds, rest with
  | _ :: _, [] => Some (if s then - Z.of_N (Str.N_of_digits ds) else Z.of_N (Str.N_of_digits ds))
  | _, _ => None
  end.

Definition parse_numeric (neg : bool) (l : list ascii) : option Decimal :=
  let '(ip, r1) := Str.span Str.isdecimal l in
  let '(fp, r2) := match r1 with
                   | "."%char :: r => Str.span Str.isdecimal r
                   | _ => ([], r1)
                   end in
  match ip ++ fp with
  | [] => None
  | ds =>
      let oe := match r2 with
                | [] => Some 0
                | c :: r => if Ascii.eqb (Str.lower_char c) "e" then parse_exponent r else None
                end in
      match oe with
      | None => None
      | Some e =>
          let c := Str.N_of_digits ds in
          let e' := e - Z.of_nat (List.length fp) in
          if within_limits c e' then Some (DFin (FDec neg c e')) else None
      end
  end.

Definition all_decimal (l : list ascii) : bool := forallb Str.isdecimal l.

Definition parse_special (neg : bool) (l : list ascii) : option Decimal :=
  match eat_ci (Str.chars "infinity") l with
  | Some [] => Some (DInf neg)
  | _ =>
  match eat_ci (Str.chars "inf") l with
  | Some [] => Some (DInf neg)
  | _ =>
  match eat_ci (Str.chars "nan") l with
  | Some diag => if all_decimal diag then Some (DNaN neg false) else None
  | None =>
  match eat_ci (Str.chars "snan") l with
  | Some diag => if all_decimal diag then Some (DNaN neg true) else None
  | None => None
  end end end end.

(** [Decimal(s)]; [None] is the InvalidOperation that the constructor
    raises.  White space is stripped at both ends and underscores are
    dropped before the numeral is read. *)
Definition of_string (s : string) : option Decimal :=
  let l := filter (fun c => negb (Ascii.eqb c "_")) (Str.strip (Str.chars s)) in
  let '(neg, r) := parse_sign l in
  match parse_numeric neg r with
  | Some d => Some d
  | None => parse_special neg r
  end.

Definition is_nan (d : Decimal) : bool :=
  match d with DNaN _ _ => true | _ => false end.

(** [a <= b] for operands that are not NaN. *)
Definition le (a b : Decimal) : bool :=
  match a, b with
  | DFin x, DFin y => Dec.leb x y
  | DInf true, _ => true
  | _, DInf false => true
  | DInf false, _ => false
  | _, DInf true => false
  | _, _ => false
  end.

End DecParse.

(* ===================================================================== *)
(** * Python values and [json.loads] with the hooks of [check_format] *)
(* ===================================================================== *)

From Stdlib Require Import Floats.SpecFloat.

#[local] Set Warnings "-register-all".

(** The values a decoded payload can hold.  A [float] is a binary64. *)
Inductive pyval :=
| PNone
| PBool (b : bool)
| PInt (z : Z)
| PFloat (f : spec_float)
| PDec (d : Dec.Decimal)
| PStr (s : string)
| PList (items : list pyval)
| PDict (members : list (string * pyval)).

Module Json.
Import Dec DecParse.

(** A number token as [json.scanner] splits it into the three groups
    of its NUMBER_RE: the integer part (an optional minus sign and
    digits), the fraction (a point and digits) and the exponent ([e] or
    [E], an optional sign and digits); an absent group is the empty
    string. *)
Record number_token := NumTok { nt_integer : string; nt_frac : string; nt_exp : string }.

Inductive constant := CNaN | CInfinity | CNegInfinity.

(** A JSON text after scanning, before the hooks run. *)
Inductive raw :=
| RNull
| RBool (b : bool)
| RNumber (t : number_token)
| RConstant (c : constant)
| RString (s : string)
| RArray (items : list raw)
| RObject (members : list (string * raw)).

Definition lexeme (t : number_token) : string :=
  String.append (nt_integer t) (String.append (nt_frac t) (nt_exp t)).

Definition is_float_token (t : number_token) : bool :=
  negb (String.eqb (nt_frac t) "") || negb (String.eqb (nt_exp t) "").

(** [D(s)] used as a hook *)
Definition D_hook (s : string) : outcome pyval :=
  match of_string s with
  | Some d => Ret (PDec d)
  | None => Raise InvalidOperation
  end.

(** [parse_no_sci_float], nested in [check_format] *)
Definition parse_no_sci_float (s : string) : outcome pyval :=
  if Str.contains_char "e" (Str.lower s) then Raise ValueError
  else D_hook s.

Definition constant_value (c : constant) : pyval :=
  match c with
  | CNaN => PFloat S754_nan
  | CInfinity => PFloat (S754_infinity false)
  | CNegInfinity => PFloat (S754_infinity true)
  end.

(** Running a decoder over the items of a list, left to right; the first
    exception ends the run. *)
Definition map_outcome {A B : Type} (f : A -> outcome B) : list A -> outcome (list B) :=
  fix go (l : list A) : outcome (list B) :=
    match l with
    | [] => Ret []
    | x :: r => let* v := f x in let* vs := go r in Ret (v :: vs)
    end.

(** [json.loads(text, parse_float=parse_no_sci_float, parse_int=D)] on a
    scanned text: values are built left to right, the first exception
    of a hook ends the decoding. *)
Fixpoint loads (j : raw) : outcome pyval :=
  match j with
  | RNull => Ret PNone
  | RBool b => Ret (PBool b)
  | RNumber t =>
      if is_float_token t then parse_no_sci_float (lexeme t)
      else D_hook (nt_integer t)
  | RConstant c => Ret (constant_value c)
  | RString s => Ret (PStr s)
  | RArray items =>
      let* vs := map_outcome loads items in
      Ret (PList vs)
  | RObject members =>
      let* ms := map_outcome (fun m => match m with
                                       | (k, x) => let* v := loads x in Ret (k, v)
                                       end) members in
      Ret (PDict ms)
  end.

(** ** Scanned texts

    What the scanner guarantees of a number token: the integer part is an
    optional minus sign and digits, the fraction is absent or a point and
    digits, the exponent is absent or [e]/[E], an optional sign and
    digits.  A token is shorter than the longest coefficient that the
    Decimal constructor takes. *)
Definition digits (l : list ascii) : bool :=
  match l with
  | [] => false
  | _ => forallb Str.isdecimal l
  end.

(** The characters of a numeral without exponent. *)
Definition plain_char (c : ascii) : bool :=
  Str.isdecimal c || Ascii.eqb c "-" || Ascii.eqb c ".".

Definition wf_integer (s : string) : bool :=
  match Str.chars s with
  | "-"%char :: r => digits r
  | l => digits l
  end.

Definition wf_frac (s : string) : bool :=
  match Str.chars s with
  | [] => true
  | "."%char :: r => digits r
  | _ => false
  end.

Definition wf_exp (s : string) : bool :=
  match Str.chars s with
  | [] => true
  | c :: r =>
      Ascii.eqb (Str.lower_char c) "e" &&
      match r with
      | "-"%char :: r' => digits r'
      | "+"%char :: r' => digits r'
      | _ => digits r
      end
  end.

Definition wf_token (t : number_token) : bool :=
  wf_integer (nt_integer t) && wf_frac (nt_frac t) && wf_exp (nt_exp t)
  && (Z.of_nat (String.length (lexeme t)) <? MAX_EMAX).

Fixpoint wf (j : raw) : bool :=
  match j with
  | RNumber t => wf_token t
  | RArray items => forallb wf items
  | RObject members => forallb (fun m => wf (snd m)) members
  | _ => true
  end.

(** A number literal of the text holds the character [e] or [E]. *)
Definition sci_token (t : number_token) : bool :=
  Str.contains_char "e" (Str.lower (lexeme t)).

Fixpoint has_sci_literal (j : raw) : bool :=
  match j with
  | RNumber t => sci_token t
  | RArray items => existsb has_sci_literal items
  | RObject members => existsb (fun m => has_sci_literal (snd m)) members
  | _ => false
  end.

(** The dict that a list of members builds: a later member replaces an
    earlier one with the same key. *)
Definition to_dict (ms : list (string * pyval)) : gmap string pyval :=
  list_to_map (rev ms).

End Json.

(* ===================================================================== *)
(** * Configuration *)
(* ===================================================================== *)

(** The constants that the code imports from [config], which is not part
    of the sources at hand; they are parameters of the development. *)
Record config := Config {
  CP_P2WSH_FEAT_BLOCK_START : Z;
  STOP_BASE64_REPAIR : Z;
  TICK_PATTERN_SET : ascii -> bool;
  INVALID_BTC_STAMP_SUFFIX : list string
}.

(* ===================================================================== *)
(** * check_format *)
(* ===================================================================== *)

Module Format.
Import Dec DecParse.

(** [format(value, "f")] of a float: six digits after the point,
    correctly rounded (ties to even). *)
Definition round_half_even_div (a b : Z) : Z :=
  let q := a / b in
  let r := a mod b in
  if 2 * r <? b then q
  else if b <? 2 * r then q + 1
  else if Z.even q then q else q + 1.

Definition scaled6 (m : positive) (e : Z) : Z :=
  if 0 <=? e then Z.pos m * 2 ^ e * 10 ^ 6
  else round_half_even_div (Z.pos m * 10 ^ 6) (2 ^ (- e)).

Definition pad6 (n : N) : list ascii :=
  let ds := Str.digits_of_N n in
  repeat "0"%char (6 - List.length ds) ++ ds.

Definition format_float_f (f : spec_float) : string :=
  match f with
  | S754_nan => "nan"
  | S754_infinity s => if s then "-inf" else "inf"
  | S754_zero s => if s then "-0.000000" else "0.000000"
  | S754_finite s m e =>
      let r := Z.to_N (scaled6 m e) in
      Str.of_chars ((if s then ["-"%char] else []) ++
                    Str.digits_of_N (r / 10 ^ 6)%N ++ "."%char :: pad6 (r mod 10 ^ 6)%N)
  end.

Definition uint64_max : fdec := Dec.of_Z (2 ^ 64 - 1).

(** [value.is_nan() or not (D("0") <= value <= uint64_max)], negated *)
Definition in_range (v : Decimal) : bool :=
  negb (is_nan v || negb (DecParse.le (DFin Dec.zero) v && DecParse.le v (DFin uint64_max))).

Section WithConfig.
Context (cfg : config).

(** The characters kept below the p2wsh activation:
    [c.isdigit() or c == "."]. *)
Definition keep_char (c : ascii) : bool := Str.isdigit c || Ascii.eqb c ".".

Definition strip_non_numeric (s : string) : string :=
  Str.of_chars (filter keep_char (Str.chars s)).

(** The conversion of one checked value; [None] is the [return None]
    of the [except InvalidOperation] and of the final [else]. *)
Definition to_decimal (block_index : Z) (value : pyval) : option Decimal :=
  match value with
  | PStr s =>
      if CP_P2WSH_FEAT_BLOCK_START cfg <=? block_index
      then (if String.eqb s "" then Some (DFin Dec.zero) else of_string s)
      else (if String.eqb s "" then Some (DFin Dec.zero)
            else of_string (strip_non_numeric s))
  | PBool b => Some (DFin (Dec.of_Z (if b then 1 else 0)))
  | PInt z => Some (DFin (Dec.of_Z z))
  | PFloat f => of_string (format_float_f f)
  | PDec d => Some d
  | _ => None
  end.

(** The types that the [isinstance] chain lets through; a [bool] is an
    [int]. *)
Definition numeric_type (value : pyval) : bool :=
  match value with
  | PStr _ | PBool _ | PInt _ | PFloat _ | PDec _ => true
  | _ => false
  end.

(** One pass of the inner loop body for [key]: [true] when the loop
    goes on, [false] when [check_format] returns [None]. *)
Definition check_key (block_index : Z) (d : gmap string pyval) (key : string) : bool :=
  match d !! key with
  | None | Some PNone => false
  | Some value =>
      match to_decimal block_index value with
      | None => false
      | Some v => in_range v
      end
  end.

Definition deploy_keys : list string := ["op"; "tick"; "max"; "lim"].
Definition transfer_keys : list string := ["op"; "tick"; "amt"].
Definition mint_keys : list string := ["op"; "tick"; "amt"].
Definition bulk_xfer_keys : list string := ["op"; "tick"; "amt"; "destinations"].

(** [key_sets] zipped with [key_values_to_check], in the order of the
    loop. *)
Definition key_sets : list (list string * list string) :=
  [ (deploy_keys, ["max"; "lim"]);
    (transfer_keys, ["amt"]);
    (mint_keys, ["amt"]);
    (bulk_xfer_keys, ["amt"]) ].

(** [input_keys >= key_set] *)
Definition has_keys (d : gmap string pyval) (ks : list string) : bool :=
  forallb (fun k => bool_decide (is_Some (d !! k))) ks.

(** The keys whose values the loop checks, in the order it does. *)
Definition checked_keys (d : gmap string pyval) : list string :=
  flat_map (fun '(ks, checks) => if has_keys d ks then checks else []) key_sets.

Definition numeric_checks (block_index : Z) (d : gmap string pyval) : bool :=
  forallb (check_key block_index d) (checked_keys d).

(** UTF-8 decoding is the runtime's; [None] is UnicodeDecodeError. *)
Context (decode_utf8 : string -> option string).

(** [convert_to_utf8_string] on a string of the model, whose characters
    are at most U+00FF: [encode("latin-1")] succeeds on it, so the
    handler of UnicodeEncodeError is not reached.  (That handler is for
    a tick with a character above U+00FF; it encodes the tick as UTF-8,
    which raises UnicodeEncodeError again on a lone surrogate.) *)
Definition convert_to_utf8_string (tick_value : string) : outcome string :=
  match decode_utf8 tick_value with
  | Some s => Ret s
  | None => Raise UnicodeDecodeError
  end.

Definition matches_any_pattern (text : string) (char_set : ascii -> bool) : bool :=
  forallb char_set (Str.chars text).

(** What [check_format] is given. *)
Inductive cf_input :=
| InText (doc : option Json.raw)   (* str or bytes; [None]: undecodable or not JSON *)
| InDict (d : gmap string pyval)
| InOther.

Definition str_method_target (v : option pyval) : outcome string :=
  match v with
  | Some (PStr s) => Ret s
  | _ => Raise AttributeError
  end.

Definition check_src20 (block_index : Z) (input_dict : gmap string pyval)
  : outcome (option (gmap string pyval)) :=
  let* t := str_method_target (Some (default (PStr "") (input_dict !! "tick"))) in
  let* tick_value := convert_to_utf8_string t in
  let input_dict := <["tick" := PStr tick_value]> input_dict in
  if String.eqb tick_value "" || negb (matches_any_pattern tick_value (TICK_PATTERN_SET cfg))
     || (5 <? String.length tick_value)%nat
  then Ret None
  else if numeric_checks block_index input_dict then Ret (Some input_dict)
  else Ret None.

Definition check_dict (block_index : Z) (input_dict : gmap string pyval)
  : outcome (option (gmap string pyval)) :=
  let* p := str_method_target (input_dict !! "p") in
  if String.eqb (Str.lower p) "src-721" then Ret (Some input_dict)
  else if String.eqb (Str.lower p) "src-20" then check_src20 block_index input_dict
  else Ret None.

Definition check_format (input : cf_input) (tx_hash : string) (block_index : Z)
  : outcome (option (gmap string pyval)) :=
  match input with
  | InOther => Ret None
  | InDict d => check_dict block_index d
  | InText None => Ret None
  | InText (Some doc) =>
      match Json.loads doc with
      | Raise JSONDecodeError | Raise TypeError | Raise ValueError => Ret None
      | Raise e => Raise e
      | Ret (PDict ms) => check_dict block_index (Json.to_dict ms)
      | Ret _ => Raise AttributeError
      end
  end.

End WithConfig.
End Format.
(* ===================================================================== *)
(** * The SRC-20 processor *)
(* ===================================================================== *)

Module Src20.
Import Dec.

(** The code that prefixes [src20_dict["status"]]; the formatted
    message after it is not kept. *)
Inductive status_code := DE | ND | OM | NA | OMA | ODL | BB | UO | ID.

(** [STATUS_MESSAGES[code][1]] *)
Definition is_invalid (c : status_code) : bool :=
  match c with
  | OMA | ODL => false
  | _ => true
  end.

(** The validated SRC-20 dict, with the stamp data appended to it.
    [valid] is [src20_dict.get("valid") == 1].  [amt], [max], [lim] and
    [dec], which the code reads with [get], are [None] when the key is
    absent or holds [None].  [total_minted], [total_balance_creator] and
    [total_balance_destination], for which the code asks [key in dict],
    are [None] when the key is absent, [Some None] when it holds [None]
    and [Some (Some d)] when it holds the Decimal [d]. *)
Record src20 := Src20 {
  tick : string;
  tick_hash : string;
  op : string;
  amt : option fdec;
  max : option fdec;
  lim : option fdec;
  dec : option Z;
  creator : string;
  destination : string;
  status : option status_code;
  valid : bool;
  total_minted : option (option fdec);
  total_balance_creator : option (option fdec);
  total_balance_destination : option (option fdec)
}.

Definition set_amt (a : fdec) (d : src20) : src20 :=
  Src20 (tick d) (tick_hash d) (op d) (Some a) (max d) (lim d) (dec d) (creator d)
        (destination d) (status d) (valid d) (total_minted d)
        (total_balance_creator d) (total_balance_destination d).
Definition set_dec (n : Z) (d : src20) : src20 :=
  Src20 (tick d) (tick_hash d) (op d) (amt d) (max d) (lim d) (Some n) (creator d)
        (destination d) (status d) (valid d) (total_minted d)
        (total_balance_creator d) (total_balance_destination d).
Definition set_status (c : status_code) (d : src20) : src20 :=
  Src20 (tick d) (tick_hash d) (op d) (amt d) (max d) (lim d) (dec d) (creator d)
        (destination d) (Some c) (valid d) (total_minted d)
        (total_balance_creator d) (total_balance_destination d).
Definition set_valid (d : src20) : src20 :=
  Src20 (tick d) (tick_hash d) (op d) (amt d) (max d) (lim d) (dec d) (creator d)
        (destination d) (status d) true (total_minted d)
        (total_balance_creator d) (total_balance_destination d).
Definition set_total_minted (t : fdec) (d : src20) : src20 :=
  Src20 (tick d) (tick_hash d) (op d) (amt d) (max d) (lim d) (dec d) (creator d)
        (destination d) (status d) (valid d) (Some (Some t))
        (total_balance_creator d) (total_balance_destination d).
Definition set_total_balance_creator (t : fdec) (d : src20) : src20 :=
  Src20 (tick d) (tick_hash d) (op d) (amt d) (max d) (lim d) (dec d) (creator d)
        (destination d) (status d) (valid d) (total_minted d)
        (Some (Some t)) (total_balance_destination d).
Definition set_total_balance_destination (t : fdec) (d : src20) : src20 :=
  Src20 (tick d) (tick_hash d) (op d) (amt d) (max d) (lim d) (dec d) (creator d)
        (destination d) (status d) (valid d) (total_minted d)
        (total_balance_creator d) (Some (Some t)).

(** A row of the balances table. *)
Record balance_row := BalanceRow {
  b_tick : string;
  b_tick_hash : string;
  b_address : string;
  b_amt : fdec;
  b_locked_amt : fdec
}.

(** The persistent store as the processor reads it, and the module-level
    [TOTAL_MINTED_CACHE]. *)
Record store := Store {
  deploys : gmap string (fdec * fdec * Z);   (* tick -> (lim, max, dec) of its DEPLOY *)
  minted : gmap string fdec;                 (* tick -> sum of the valid MINTs *)
  balances : list balance_row;
  TOTAL_MINTED_CACHE : gmap string fdec
}.

(** [bool(x)] for a value that is [None] or a Decimal. *)
Definition truthy_opt (o : option fdec) : bool :=
  match o with Some d => truthy d | None => false end.

(** [D(x)] for a value that is [None] or a Decimal: [D(None)] is a
    TypeError. *)
Definition D (o : option fdec) : outcome fdec :=
  match o with Some d => Ret d | None => Raise TypeError end.

(** Modelled from the spec: [index_core.database.get_src20_deploy] is not
    among the sources.  "Lookup the DEPLOY record for the tick (first
    searching shadow list for same-block DEPLOY, then persistent
    store)"; it yields the record's (lim, max, dec), and nothing truthy
    when there is no record. *)
Definition get_src20_deploy (db : store) (t : string) (processed : list src20)
  : option fdec * option fdec * option Z :=
  match List.find (fun r => String.eqb (op r) "DEPLOY" && String.eqb (tick r) t && valid r)
                  processed with
  | Some r => (lim r, max r, dec r)
  | None =>
      match deploys db !! t with
      | Some (l, m, d) => (Some l, Some m, Some d)
      | None => (None, None, None)
      end
  end.

(** Modelled from the spec: [get_total_src20_minted_from_db] is not among
    the sources.  "read-through cache of cumulative mint totals per
    tick": the cached total when there is one, else the stored total,
    which enters the cache. *)
Definition get_total_src20_minted_from_db (db : store) (t : string) : fdec * store :=
  match TOTAL_MINTED_CACHE db !! t with
  | Some v => (v, db)
  | None =>
      let v := default zero (minted db !! t) in
      (v, Store (deploys db) (minted db) (balances db) (<[t := v]> (TOTAL_MINTED_CACHE db)))
  end.

(** [TOTAL_MINTED_CACHE[tick] += amt] *)
Definition cache_add (t : string) (a : fdec) (db : store) : outcome store :=
  match TOTAL_MINTED_CACHE db !! t with
  | Some v => Ret (Store (deploys db) (minted db) (balances db)
                         (<[t := plus v a]> (TOTAL_MINTED_CACHE db)))
  | None => Raise KeyError
  end.

(** [get_running_mint_total]: the [total_minted] of the latest record of
    the block that is a MINT of the tick and has the key; the total of
    the store when there is none, or when it is zero.  A key that holds
    [None] is found, is not [== 0], and makes [D(total_minted)] a
    TypeError. *)
Definition get_running_mint_total (db : store) (processed : list src20) (t : string)
  : outcome (fdec * store) :=
  match List.find (fun item => String.eqb (tick item) t && String.eqb (op item) "MINT"
                               && bool_decide (is_Some (total_minted item)))
                  (rev processed) with
  | Some item =>
      match total_minted item with
      | Some (Some total) =>
          if Dec.eqb total zero then Ret (get_total_src20_minted_from_db db t)
          else Ret (total, db)
      | _ => Raise TypeError
      end
  | None => Ret (get_total_src20_minted_from_db db t)
  end.

(** [BalanceCurrent] without the constant tick *)
Record balance_current := BalanceCurrent {
  bc_address : string;
  bc_total_balance : fdec;
  bc_locked_balance : option fdec
}.

(** The balance that a valid prior record of the block holds for
    [address]: as creator when it has the key [total_balance_creator],
    else as destination when it has the key
    [total_balance_destination].  The arm that is taken yields what the
    key holds, which may be [None]: [total_balance] is then [None] and
    the address stays in the list. *)
Definition shadow_balance (t th : string) (prior_tx : src20) (address : string)
  : option fdec :=
  if String.eqb (creator prior_tx) address && String.eqb (tick prior_tx) t
     && String.eqb (tick_hash prior_tx) th
     && bool_decide (is_Some (total_balance_creator prior_tx))
  then default None (total_balance_creator prior_tx)
  else if String.eqb (destination prior_tx) address && String.eqb (tick prior_tx) t
          && String.eqb (tick_hash prior_tx) th
          && bool_decide (is_Some (total_balance_destination prior_tx))
  then default None (total_balance_destination prior_tx)
  else None.

(** [list.remove(x)]: the first occurrence goes. *)
Fixpoint list_remove (x : string) (l : list string) : list string :=
  match l with
  | [] => []
  | y :: r => if String.eqb x y then r else y :: list_remove x r
  end.

(** [for address in addresses: ... addresses.remove(address)]: the
    iterator of a list is an index into it, which moves on by one after
    every pass, also when the pass has removed the element. *)
Fixpoint scan_addresses (fuel : nat) (i : nat) (t th : string) (prior_tx : src20)
    (addresses : list string) (found : list balance_current)
  : list string * list balance_current :=
  match fuel with
  | O => (addresses, found)
  | S f =>
      match addresses !! i with
      | None => (addresses, found)
      | Some address =>
          match shadow_balance t th prior_tx address with
          | Some b =>
              scan_addresses f (S i) t th prior_tx (list_remove address addresses)
                             (found ++ [BalanceCurrent address b None])
          | None => scan_addresses f (S i) t th prior_tx addresses found
          end
      end
  end.

Fixpoint scan_block (t th : string) (reversed : list src20)
    (addresses : list string) (found : list balance_current)
  : list string * list balance_current :=
  match reversed with
  | [] => (addresses, found)
  | prior_tx :: rest =>
      if valid prior_tx then
        let '(addresses', found') :=
          scan_addresses (List.length addresses) 0 t th prior_tx addresses found in
        scan_block t th rest addresses' found'
      else scan_block t th rest addresses found
  end.

(** [get_total_user_balance_from_balances_db]: the rows of the query,
    once per address asked for. *)
Definition get_total_user_balance_from_balances_db (db : store) (t th : string)
    (addresses : list string) : list balance_row :=
  let results :=
    filter (fun r => String.eqb (b_tick r) t && String.eqb (b_tick_hash r) th
                     && existsb (String.eqb (b_address r)) addresses) (balances db) in
  flat_map (fun _ => results) addresses.

Fixpoint from_db (rows : list balance_row) (addresses : list string)
  : outcome (list balance_current) :=
  match addresses with
  | [] => Ret []
  | address :: rest =>
      let hit := List.find (fun r => String.eqb (b_address r) address) rows in
      let total_balance := match hit with Some r => b_amt r | None => zero end in
      let locked_balance := match hit with Some r => b_locked_amt r | None => zero end in
      if Dec.ltb total_balance zero then Raise PyException
      else
        let* more := from_db rows rest in
        Ret (BalanceCurrent address total_balance
               (Some (if negb (Dec.eqb total_balance zero) then locked_balance else zero))
             :: more)
  end.

(** [get_running_user_balances] *)
Definition get_running_user_balances (db : store) (t th : string)
    (addresses : list string) (processed : list src20)
  : outcome (list balance_current) :=
  if negb (bool_decide (NoDup addresses)) then Raise PyException
  else
    let '(addresses', found) :=
      if existsb (fun item => String.eqb (tick item) t) processed
      then scan_block t th (rev processed) addresses []
      else (addresses, []) in
    match addresses' with
    | [] => Ret found
    | _ =>
        let* more := from_db (get_total_user_balance_from_balances_db db t th addresses') addresses' in
        Ret (found ++ more)
    end.


(** ** The running state in the words of the specification

    "Read running balance of creator (and destination if different) from
    shadow list first, then persistent store": the balance that the
    latest valid record of the block holds for the address, else the
    amount of its row in the balances table, else zero. *)
Fixpoint shadow_lookup (t th : string) (reversed : list src20) (address : string)
  : option fdec :=
  match reversed with
  | [] => None
  | prior_tx :: rest =>
      if valid prior_tx then
        match shadow_balance t th prior_tx address with
        | Some b => Some b
        | None => shadow_lookup t th rest address
        end
      else shadow_lookup t th rest address
  end.

Definition stored_balance (db : store) (t th address : string) : fdec :=
  match List.find (fun r => String.eqb (b_tick r) t && String.eqb (b_tick_hash r) th
                            && String.eqb (b_address r) address) (balances db) with
  | Some r => b_amt r
  | None => zero
  end.

Definition running_balance (db : store) (t th : string) (processed : list src20)
    (address : string) : fdec :=
  match shadow_lookup t th (rev processed) address with
  | Some b => b
  | None => stored_balance db t th address
  end.

(** "total_minted = running cumulative MINT for tick = in-block shadow
    total if present, else persistent total": the total that the latest
    MINT record of the tick in the block carries, else the total of the
    store, read through the cache. *)
Fixpoint shadow_total (t : string) (reversed : list src20) : option fdec :=
  match reversed with
  | [] => None
  | item :: rest =>
      if String.eqb (tick item) t && String.eqb (op item) "MINT"
      then match total_minted item with
           | Some (Some total) => Some total
           | _ => shadow_total t rest
           end
      else shadow_total t rest
  end.

Definition running_total (db : store) (processed : list src20) (t : string) : fdec :=
  match shadow_total t (rev processed) with
  | Some total => total
  | None => fst (get_total_src20_minted_from_db db t)
  end.

(** The store once the running total has been read: the total of the
    store has entered the cache when the block gave none. *)
Definition total_read (db : store) (processed : list src20) (t : string) : store :=
  match shadow_total t (rev processed) with
  | Some _ => db
  | None => snd (get_total_src20_minted_from_db db t)
  end.

(** The latest MINT record of the tick that has the key [total_minted]
    holds a Decimal under it that is not zero.  (A total of zero is read
    by the code as no total, and [None] under the key is a TypeError.) *)
Definition shadow_total_usable (t : string) (reversed : list src20) : Prop :=
  forall item,
    List.find (fun item => String.eqb (tick item) t && String.eqb (op item) "MINT"
                           && bool_decide (is_Some (total_minted item))) reversed
    = Some item ->
    exists total, total_minted item = Some (Some total) /\ Dec.eqb total zero = false.

(** "Effective per-mint cap = min(deploy.lim, deploy.max)", which is zero
    when there is no limit; "clamp amt down to" a bound. *)
Definition mint_cap (lim : option fdec) (m : fdec) : fdec :=
  match lim with
  | Some l => if truthy l then Dec.min l m else zero
  | None => zero
  end.

Definition clamp (a bound : fdec) : fdec := if Dec.gtb a bound then bound else a.

(** ** Src20Processor *)

Record processor := Processor {
  src20_dict : src20;
  is_valid : bool;
  self_dec : option Z;
  deploy_lim : option fdec;
  deploy_max : option fdec
}.

Definition with_dict (d : src20) (p : processor) : processor :=
  Processor d (is_valid p) (self_dec p) (deploy_lim p) (deploy_max p).

(** [Src20Processor.__init__]; the record has no [deploy_lim] or
    [deploy_max] key, so both start at 0. *)
Definition init (d : src20) : processor :=
  Processor d true (Some (default 0 (dec d))) (Some zero) (Some zero).

(** [set_status_and_log] *)
Definition set_status_and_log (c : status_code) (p : processor) : processor :=
  Processor (set_status c (src20_dict p))
            (if is_invalid c then false else is_valid p)
            (self_dec p) (deploy_lim p) (deploy_max p).

(** [normalize_and_validate_amt]: [None] is the ValueError, raised after
    [self.dec] has been set.  [norm] is [normalize()] for an amt inside
    the exponent limits of the context ([Dec.ordinary]). *)
Definition normalize_and_validate_amt (p : processor)
  : outcome (processor * option fdec) :=
  let* a := D (amt (src20_dict p)) in
  let a := norm a in
  let n := default 18 (self_dec p) in
  let p := Processor (src20_dict p) (is_valid p) (Some n) (deploy_lim p) (deploy_max p) in
  let decimal_length := - fexp a in
  if n <? decimal_length then Ret (p, None)
  else Ret (with_dict (set_dec n (set_amt a (src20_dict p))) p, Some a).

Definition mark_valid (p : processor) : processor :=
  with_dict (set_valid (src20_dict p)) p.

(** [update_valid_src20_list], one definition per [operation] *)
Definition update_valid_transfer (running_user_balance_creator
    running_user_balance_destination : fdec) (p : processor) : outcome processor :=
  let* (p, oa) := normalize_and_validate_amt p in
  match oa with
  | None => Ret (set_status_and_log ID p)
  | Some a =>
      let d := set_total_balance_creator (minus running_user_balance_creator a) (src20_dict p) in
      let d := set_total_balance_destination (plus running_user_balance_destination a) d in
      Ret (mark_valid (with_dict d p))
  end.

Definition update_valid_mint (running_user_balance_creator : fdec) (total : fdec)
    (db : store) (p : processor) : outcome (processor * store) :=
  let* (p, oa) := normalize_and_validate_amt p in
  match oa with
  | None => Ret (set_status_and_log ID p, db)
  | Some a =>
      let* db := cache_add (tick (src20_dict p)) a db in
      let running_total_mint := plus total a in
      let running_user_balance := plus running_user_balance_creator a in
      let d := set_total_minted running_total_mint (src20_dict p) in
      let d := set_total_balance_destination running_user_balance d in
      Ret (mark_valid (with_dict d p), db)
  end.

Definition update_valid_deploy (p : processor) : processor :=
  let d := src20_dict p in
  mark_valid (with_dict (match dec d with None => set_dec 18 d | Some _ => d end) p).

(** [handle_deploy]; the metadata row that it writes is not read by the
    processor and is left out. *)
Definition handle_deploy (p : processor) : processor :=
  if negb (truthy_opt (deploy_lim p)) && negb (truthy_opt (deploy_max p))
  then update_valid_deploy p
  else set_status_and_log DE p.

(** [handle_mint] *)
Definition handle_mint (db : store) (processed : list src20) (p : processor)
  : outcome (processor * store) :=
  let* new_lim :=
    (if truthy_opt (deploy_lim p) && truthy_opt (deploy_max p)
     then let* l := D (deploy_lim p) in let* m := D (deploy_max p) in Ret (Dec.min l m)
     else Ret zero) in
  let p := Processor (src20_dict p) (is_valid p) (self_dec p) (Some new_lim) (deploy_max p) in
  let* (total, db) := get_running_mint_total db processed (tick (src20_dict p)) in
  let* mint_available :=
    (if truthy_opt (deploy_max p)
     then let* m := D (deploy_max p) in Ret (minus m total)
     else Ret zero) in
  (* [total_minted >= D(self.deploy_max) if self.deploy_max else D(0)]
     is the conditional expression
     [(total_minted >= D(self.deploy_max)) if self.deploy_max else D(0)] *)
  let* over :=
    (if truthy_opt (deploy_max p)
     then let* m := D (deploy_max p) in Ret (Dec.geb total m)
     else Ret (truthy zero)) in
  if over then Ret (set_status_and_log OM p, db)
  else
    let* a := D (amt (src20_dict p)) in
    let p := if Dec.gtb a mint_available
             then with_dict (set_amt mint_available (src20_dict (set_status_and_log OMA p)))
                            (set_status_and_log OMA p)
             else p in
    let* a := D (amt (src20_dict p)) in
    let p := if Dec.gtb a new_lim
             then with_dict (set_amt new_lim (src20_dict (set_status_and_log ODL p)))
                            (set_status_and_log ODL p)
             else p in
    let* bs := get_running_user_balances db (tick (src20_dict p)) (tick_hash (src20_dict p))
                 [destination (src20_dict p)] processed in
    let running_user_balance :=
      match bs with
      | b :: _ => bc_total_balance b
      | [] => zero
      end in
    update_valid_mint running_user_balance total db p.

(** [create_running_user_balance_dict] followed by [.get(address, 0)]:
    a later entry for an address replaces an earlier one. *)
Definition running_balance_of (bs : list balance_current) (address : string) : fdec :=
  match List.find (fun b => String.eqb (bc_address b) address) (rev bs) with
  | Some b => bc_total_balance b
  | None => zero
  end.

(** The entry of the dict for an address, if it has one. *)
Definition balance_entry (bs : list balance_current) (address : string) : option fdec :=
  match List.find (fun b => String.eqb (bc_address b) address) (rev bs) with
  | Some b => Some (bc_total_balance b)
  | None => None
  end.

(** What the scan of the block leaves for an address: it is found, with
    the balance of the record, or it stays to be asked of the table. *)
Definition scanned (t th : string) (l : list src20) (a : string)
    (res : list string * list balance_current) : Prop :=
  match shadow_lookup t th l a with
  | Some b => ~ In a (fst res) /\ balance_entry (snd res) a = Some b
  | None => In a (fst res) /\ balance_entry (snd res) a = None
  end.

(** The latest valid record (the first of the reversed list) that holds a
    balance for [c] holds none for [d]. *)
Fixpoint creator_record_free (t th c d : string) (reversed : list src20) : Prop :=
  match reversed with
  | [] => True
  | r :: rest =>
      if valid r then
        match shadow_balance t th r c with
        | Some _ => shadow_balance t th r d = None
        | None => creator_record_free t th c d rest
        end
      else creator_record_free t th c d rest
  end.

(** [handle_transfer] *)
Definition handle_transfer (db : store) (processed : list src20) (p : processor)
  : outcome processor :=
  let d := src20_dict p in
  let* bs := get_running_user_balances db (tick d) (tick_hash d)
         (if String.eqb (creator d) (destination d) then [creator d]
          else [creator d; destination d]) processed in
  let running_user_balance_creator := running_balance_of bs (creator d) in
  let running_user_balance_destination := running_balance_of bs (destination d) in
  let* a := D (amt d) in
  if Dec.ltb running_user_balance_creator a then Ret (set_status_and_log BB p)
  else update_valid_transfer running_user_balance_creator running_user_balance_destination p.

(** [validate_and_process_operation] *)
Definition validate_and_process_operation (db : store) (processed : list src20)
    (p : processor) : outcome (processor * store) :=
  let d := src20_dict p in
  let operation := Str.upper (op d) in
  let op_amt := String.eqb operation "TRANSFER" || String.eqb operation "MINT" in
  if op_amt && negb (truthy_opt (amt d)) then Ret (set_status_and_log NA p, db)
  else
    let '(l, m, dc) := get_src20_deploy db (tick d) processed in
    let p := Processor d (is_valid p) dc l m in
    if negb (truthy_opt l) && negb (truthy_opt m) && op_amt
    then Ret (set_status_and_log ND p, db)
    else if String.eqb operation "DEPLOY" then Ret (handle_deploy p, db)
    else if String.eqb operation "MINT" then handle_mint db processed p
    else if String.eqb operation "TRANSFER"
         then let* p := handle_transfer db processed p in Ret (p, db)
    else Ret (set_status_and_log UO p, db).

(** [parse_src20] from the point where [Src20Validator.process_values]
    has found the dict valid and has left the typed record: the call of
    [validate_and_process_operation] and the pair that is returned.  The
    steps of the validator are in [Validator] below; the branch of
    [process] for a dict that the validator refuses is not part of
    it. *)
Definition parse_src20 (db : store) (d : src20) (processed : list src20)
  : outcome (bool * src20 * store) :=
  let* (p, db) := validate_and_process_operation db processed (init d) in
  Ret (is_valid p, src20_dict p, db).

(** Modelled from the spec: the loop over a block's operations is not
    among the sources.  "Every processed record is appended to the
    shadow list (valid or not)". *)
Fixpoint process_block (db : store) (ops : list src20) (processed : list src20)
  : outcome (list src20 * store) :=
  match ops with
  | [] => Ret (processed, db)
  | d :: rest =>
      let* (_, d', db) := parse_src20 db d processed in
      process_block db rest (processed ++ [d'])
  end.

End Src20.

(* ===================================================================== *)
(** * The balance fold and the canonical ledger string *)
(* ===================================================================== *)

Module Ledger.
Import Dec Src20.

(** One dict of [balance_updates]; [net_change] and [original_amt] are
    the keys that [update_balance_table] adds. *)
Record balance_update := BalanceUpdate {
  u_tick : string;
  u_tick_hash : string;
  u_address : string;
  credit : fdec;
  debit : fdec;
  net_change : option fdec;
  original_amt : option fdec
}.

Definition same_row (t th a : string) (item : balance_update) : bool :=
  String.eqb (u_tick item) t && String.eqb (u_tick_hash item) th
  && String.eqb (u_address item) a.

(** [balance_dict["credit"] += x] on the first dict that [next] finds,
    or a new dict at the end of the list. *)
Fixpoint add_credit (t th a : string) (x : fdec) (l : list balance_update)
  : list balance_update :=
  match l with
  | [] => [BalanceUpdate t th a x zero None None]
  | item :: r =>
      if same_row t th a item
      then BalanceUpdate (u_tick item) (u_tick_hash item) (u_address item)
                         (plus (credit item) x) (debit item)
                         (net_change item) (original_amt item) :: r
      else item :: add_credit t th a x r
  end.

Fixpoint add_debit (t th a : string) (x : fdec) (l : list balance_update)
  : list balance_update :=
  match l with
  | [] => [BalanceUpdate t th a zero x None None]
  | item :: r =>
      if same_row t th a item
      then BalanceUpdate (u_tick item) (u_tick_hash item) (u_address item)
                         (credit item) (plus (debit item) x)
                         (net_change item) (original_amt item) :: r
      else item :: add_debit t th a x r
  end.

(** The body of the loop of [update_src20_balances] for one dict. *)
Definition fold_step (balance_updates : list balance_update) (d : src20)
  : outcome (list balance_update) :=
  if valid d then
    if String.eqb (op d) "MINT" then
      let* x := D (amt d) in
      Ret (add_credit (tick d) (tick_hash d) (destination d) x balance_updates)
    else if String.eqb (op d) "TRANSFER" then
      let* x := D (amt d) in
      Ret (add_credit (tick d) (tick_hash d) (destination d) x
             (add_debit (tick d) (tick_hash d) (creator d) x balance_updates))
    else Ret balance_updates
  else Ret balance_updates.

Fixpoint fold_balances (processed : list src20) (balance_updates : list balance_update)
  : outcome (list balance_update) :=
  match processed with
  | [] => Ret balance_updates
  | d :: rest =>
      let* balance_updates := fold_step balance_updates d in
      fold_balances rest balance_updates
  end.

(** The primary key of the balances table. *)
Definition row_id (t a : string) : string := String.append t (String.append "_" a).

(** [SELECT amt FROM balances WHERE id = ...] *)
Definition select_amt (table : list balance_row) (id : string) : option fdec :=
  b_amt <$> List.find (fun r => String.eqb (row_id (b_tick r) (b_address r)) id) table.

(** [INSERT ... ON DUPLICATE KEY UPDATE amt = amt + VALUES(amt)]; the
    sum is the exact one of the DECIMAL column. *)
Fixpoint upsert (u : balance_update) (x : fdec) (table : list balance_row)
  : list balance_row :=
  match table with
  | [] => [BalanceRow (u_tick u) (u_tick_hash u) (u_address u) x zero]
  | r :: rest =>
      if String.eqb (row_id (b_tick r) (b_address r)) (row_id (u_tick u) (u_address u))
      then BalanceRow (b_tick r) (b_tick_hash r) (b_address r)
                      (add_exact (b_amt r) x) (b_locked_amt r) :: rest
      else r :: upsert u x rest
  end.

(** [update_balance_table] *)
Fixpoint update_balance_table (table : list balance_row)
    (balance_updates : list balance_update)
  : list balance_update * list balance_row :=
  match balance_updates with
  | [] => ([], table)
  | u :: rest =>
      let nc := minus (credit u) (debit u) in
      let orig := default zero (select_amt table (row_id (u_tick u) (u_address u))) in
      let u' := BalanceUpdate (u_tick u) (u_tick_hash u) (u_address u)
                              (credit u) (debit u) (Some nc) (Some orig) in
      let '(rest', table') := update_balance_table (upsert u nc table) rest in
      (u' :: rest', table')
  end.

(** [update_src20_balances]: the updates it returns and the table it
    leaves. *)
Definition update_src20_balances (table : list balance_row) (processed : list src20)
  : outcome (list balance_update * list balance_row) :=
  let* balance_updates := fold_balances processed [] in
  match balance_updates with
  | [] => Ret ([], table)
  | _ => Ret (update_balance_table table balance_updates)
  end.

(** A record that is appended to the shadow list leaves every balance
    unchanged: no lookup of a running balance and no fold of the block's
    balance updates sees it. *)
Definition leaves_balances_unchanged (db : store) (processed : list src20) (d : src20)
  : Prop :=
  (forall t th addresses,
     get_running_user_balances db t th addresses (processed ++ [d])
     = get_running_user_balances db t th addresses processed)
  /\ (forall table,
        update_src20_balances table (processed ++ [d])
        = update_src20_balances table processed).

(** The rows [(tick, tick_hash, address)] that a record of the shadow
    list credits or debits in [update_src20_balances]. *)
Definition touched (d : src20) : list (string * string * string) :=
  if valid d then
    if String.eqb (op d) "MINT" then [(tick d, tick_hash d, destination d)]
    else if String.eqb (op d) "TRANSFER"
         then [(tick d, tick_hash d, creator d); (tick d, tick_hash d, destination d)]
         else []
  else [].

Definition touched_rows (processed : list src20) : list (string * string * string) :=
  flat_map touched processed.

(** The amounts that the records of the shadow list move, added up in
    units of [10^-E]. *)
Definition moved (E : Z) (d : src20) : Z :=
  match touched d with
  | [] => 0
  | _ => Z.abs (value E (default zero (amt d)))
  end.


Definition row_of (u : balance_update) : string * string * string :=
  (u_tick u, u_tick_hash u, u_address u).

(** The dict of a row that [next] finds in [balance_updates]. *)
Definition lookup_row (r : string * string * string) (l : list balance_update)
  : option balance_update :=
  List.find (same_row (fst (fst r)) (snd (fst r)) (snd r)) l.

(** What one record credits to, and debits from, the row [r], in units
    of [10^-E]. *)
Definition credited (E : Z) (r : string * string * string) (d : src20) : Z :=
  if valid d then
    if String.eqb (op d) "MINT" || String.eqb (op d) "TRANSFER" then
      if decide (r = (tick d, tick_hash d, destination d))
      then value E (default zero (amt d)) else 0
    else 0
  else 0.

Definition debited (E : Z) (r : string * string * string) (d : src20) : Z :=
  if valid d then
    if negb (String.eqb (op d) "MINT") && String.eqb (op d) "TRANSFER" then
      if decide (r = (tick d, tick_hash d, creator d))
      then value E (default zero (amt d)) else 0
    else 0
  else 0.

Definition total (f : src20 -> Z) (l : list src20) : Z :=
  fold_right (fun d acc => f d + acc) 0 l.

Definition volume (E : Z) (processed : list src20) : Z := total (moved E) processed.

(** [balance_updates] holds one dict for each of [rows], whose credit and
    debit have the values [cf] and [df]. *)
Definition tracked (E : Z) (l : list balance_update)
    (rows : list (string * string * string))
    (cf df : string * string * string -> Z) : Prop :=
  List.NoDup (map row_of l)
  /\ (forall r, In r (map row_of l) <-> In r rows)
  /\ (forall r u, lookup_row r l = Some u ->
        - E <= fexp (credit u) /\ - E <= fexp (debit u)
        /\ value E (credit u) = cf r /\ value E (debit u) = df r).

(** The state of the fold after the records [prefix]: one dict per row
    touched, in which credit and debit are the sums of the amounts. *)
Definition tracks (E : Z) (l : list balance_update) (prefix : list src20) : Prop :=
  tracked E l (touched_rows prefix)
    (fun r => total (credited E r) prefix) (fun r => total (debited E r) prefix).

(** What [update_balance_table] adds to one dict when the select reads
    [table]. *)
Definition annotate (table : list balance_row) (u : balance_update) : balance_update :=
  BalanceUpdate (u_tick u) (u_tick_hash u) (u_address u) (credit u) (debit u)
    (Some (minus (credit u) (debit u)))
    (Some (default zero (select_amt table (row_id (u_tick u) (u_address u))))).

(** [format_decimal], for an amount on which [normalize()] stays inside
    the exponent limits of the context ([Dec.ordinary]); outside them
    [normalize()] raises Overflow or rounds the amount to zero. *)
Definition format_decimal (a : fdec) : string :=
  let a := norm a in
  if is_integral a then Str.of_Z (to_int a)
  else
    let s := Str.rstrip_char "." (Str.rstrip_char "0" (Str.chars (format_f a))) in
    match s with
    | [] => "0"
    | _ => Str.of_chars s
    end.

Section WithUtil.
(** [index_core.util.decode_unicode_escapes] is not among the sources. *)
Context (decode_unicode_escapes : string -> string).

Definition display_tick (t : string) : string :=
  if Str.contains_char "\" t then decode_unicode_escapes t else t.

Definition ledger_amt (u : balance_update) : fdec :=
  norm (plus (default zero (net_change u)) (default zero (original_amt u))).

(** The sort key of the row [(tick, tick_hash, address)] as the spec
    has it: the tick as it is shown, [_], the address. *)
Definition row_key (r : string * string * string) : string :=
  String.append (display_tick (fst (fst r))) (String.append "_" (snd r)).

(** [f"{tick},{creator},{amt_str}"] *)
Definition ledger_entry (u : balance_update) : string :=
  String.append (display_tick (u_tick u))
    (String.append "," (String.append (u_address u)
       (String.append "," (format_decimal (ledger_amt u))))).

(** The sort key: [src20.split(",")[0] + "_" + src20.split(",")[1]].
    An entry holds two commas at least, so the last case (the
    IndexError) does not arise. *)
Definition entry_key (entry : string) : string :=
  match Str.split "," entry with
  | a :: b :: _ => String.append a (String.append "_" b)
  | _ => EmptyString
  end.

(** [sorted(l, key=...)]: the sort is stable. *)
Fixpoint insert_by (key : string -> string) (x : string) (l : list string) : list string :=
  match l with
  | [] => [x]
  | y :: r => if Str.leb (key x) (key y) then x :: y :: r else y :: insert_by key x r
  end.

Definition sorted_by (key : string -> string) (l : list string) : list string :=
  fold_right (insert_by key) [] l.

(** [process_balance_updates] *)
Definition process_balance_updates (balance_updates : list balance_update) : string :=
  Str.join ";" (sorted_by entry_key (map ledger_entry balance_updates)).

(** The ledger string of a block: the fold, the table update and the
    serialization. *)
Definition ledger_string (table : list balance_row) (processed : list src20)
  : outcome string :=
  let* (balance_updates, _) := update_src20_balances table processed in
  Ret (process_balance_updates balance_updates).

End WithUtil.
End Ledger.

(* ===================================================================== *)
(** * The base64 codec of the stamp pipeline *)
(* ===================================================================== *)

Module Codec.

(** Modelled from the spec: [index_core.util.check_valid_base64_string]
    is not among the sources.  "validate charset/length (multiple of 4,
    RFC-4648 alphabet)": every character is a letter, a digit, [+], [/]
    or the padding [=], and the length is a multiple of four. *)
Definition base64_char (c : ascii) : bool :=
  let n := Str.code c in
  ((65 <=? n) && (n <=? 90) || (97 <=? n) && (n <=? 122) || (48 <=? n) && (n <=? 57)
   || (n =? 43) || (n =? 47) || (n =? 61))%N.

Definition check_valid_base64_string (s : string) : bool :=
  forallb base64_char (Str.chars s) && (String.length s mod 4 =? 0)%nat.

Section WithDecoders.
Context (cfg : config).
(** [base64.b64decode] and [pybase64.b64decode] are library functions;
    [None] is the exception that either raises. *)
Context (b64decode : string -> option string).
Context (pybase64_b64decode : string -> option string).

(** [decode_base64_with_repair] *)
Definition repair_padding (base64_string : string) : string :=
  let missing_padding := (String.length base64_string mod 4)%nat in
  if (missing_padding =? 0)%nat then base64_string
  else String.append base64_string
         (Str.of_chars (repeat "="%char (4 - missing_padding))).

Definition decode_base64_with_repair (base64_string : string) : option string :=
  b64decode (repair_padding base64_string).

(** The call of [subprocess.run] passes both [capture_output=True] and
    [stdout=], which [subprocess] refuses with a ValueError: the third
    attempt never yields data. *)
Definition base64_cli (base64_string : string) : option string := None.

(** [decode_base64]: the data and the tri-state flag. *)
Definition decode_base64 (base64_string : string) (block_index : Z)
  : option string * option bool :=
  if (CP_P2WSH_FEAT_BLOCK_START cfg <=? block_index)
     && negb (check_valid_base64_string base64_string)
  then (None, None)
  else
    let is_valid_base64_string := Some true in
    if block_index <=? STOP_BASE64_REPAIR cfg then
      match decode_base64_with_repair base64_string with
      | None => (None, None)
      | Some image_data => (Some image_data, is_valid_base64_string)
      end
    else
      match b64decode base64_string with
      | Some image_data => (Some image_data, is_valid_base64_string)
      | None =>
          match pybase64_b64decode base64_string with
          | Some image_data => (Some image_data, is_valid_base64_string)
          | None =>
              match base64_cli base64_string with
              | Some image_data => (Some image_data, is_valid_base64_string)
              | None => (None, None)
              end
          end
      end.

End WithDecoders.
End Codec.

(* ===================================================================== *)
(** * The cpid: a base62 digest *)
(* ===================================================================== *)

Module Cpid.

Definition characters : string :=
  "0123456789abcdefghijklmnopqrstuvwxyzABCDEFGHIJKLMNOPQRSTUVWXYZ".

Definition base : N := N.of_nat (String.length characters).

(** [characters[rem]] *)
Definition char_at (rem : N) : ascii :=
  nth (N.to_nat rem) (Str.chars characters) "0"%char.

(** The [while num:] loop; [result] is the list it appends to, kept in
    reverse, so that the final [reversed] is already done. *)
Fixpoint encode_loop (fuel : nat) (num : N) (result : list ascii) : list ascii :=
  match fuel with
  | O => result
  | S f =>
      if (num =? 0)%N then result
      else encode_loop f (num / base)%N (char_at (num mod base)%N :: result)
  end.

(** [base62_encode]; its argument is an unsigned integer. *)
Definition base62_encode (num : N) : string :=
  if (num =? 0)%N then "0"
  else Str.of_chars (encode_loop (N.size_nat num) num []).

(** The base62 numerals in the words of the specification: "big-endian
    integer -> base62 alphabet 0-9a-zA-Z", the most significant digit
    first.  [digit_of] is the position of a character in the alphabet,
    [base62_value] the number that a numeral denotes. *)
Fixpoint index_of (c : ascii) (l : list ascii) : option N :=
  match l with
  | [] => None
  | x :: r => if Ascii.eqb c x then Some 0%N
              else match index_of c r with
                   | Some i => Some (i + 1)%N
                   | None => None
                   end
  end.

Definition digit_of (c : ascii) : option N := index_of c (Str.chars characters).

Definition value_step (acc : option N) (c : ascii) : option N :=
  match acc, digit_of c with
  | Some a, Some d => Some (62 * a + d)%N
  | _, _ => None
  end.

Definition base62_value (s : string) : option N :=
  fold_left value_step (Str.chars s) (Some 0%N).

(** [int.from_bytes(b, byteorder="big")] *)
Definition int_from_bytes_big (b : list ascii) : N :=
  fold_left (fun acc c => (256 * acc + Str.code c)%N) b 0%N.

(** The bytes "interpreted as a big-endian integer", in the words of the
    specification: the first byte is the most significant one, so the
    byte that has [k] bytes after it counts [256^k] times. *)
Fixpoint big_endian (b : list ascii) : N :=
  match b with
  | [] => 0
  | c :: rest => (Str.code c * 256 ^ N.of_nat (List.length rest) + big_endian rest)%N
  end.

(** "base62 alphabet 0-9a-zA-Z", in the words of the specification: the
    digits count 0 to 9, the small letters 10 to 35 and the capital
    letters 36 to 61; a numeral is read with the most significant digit
    first. *)
Definition alphabet_value (c : ascii) : option N :=
  let n := Str.code c in
  if ((48 <=? n) && (n <=? 57))%N then Some (n - 48)%N
  else if ((97 <=? n) && (n <=? 122))%N then Some (n - 97 + 10)%N
  else if ((65 <=? n) && (n <=? 90))%N then Some (n - 65 + 36)%N
  else None.

Fixpoint numeral_value_from (acc : N) (l : list ascii) : option N :=
  match l with
  | [] => Some acc
  | c :: rest =>
      match alphabet_value c with
      | Some d => numeral_value_from (62 * acc + d)%N rest
      | None => None
      end
  end.

Definition numeral_value (s : string) : option N := numeral_value_from 0 (Str.chars s).

(** A numeral in its shortest form: the single digit [0], or digits of
    which the first is not [0]. *)
Definition canonical (s : string) : Prop :=
  s = "0"%string \/ exists c rest, Str.chars s = c :: rest /\ c <> "0"%char.

(** [s[:n]] *)
Definition prefix (n : nat) (s : string) : string :=
  Str.of_chars (firstn n (Str.chars s)).

Section WithHash.
(** [hashlib.sha256(s.encode()).digest()], a library function. *)
Context (sha256 : string -> list ascii).

Definition hash_int (str1 str2 : string) : N :=
  int_from_bytes_big (sha256 (String.append str1 (String.append "|" str2))).

(** [create_base62_hash] of stamp.py *)
Definition create_base62_hash (str1 str2 : string) (length : Z) : outcome string :=
  if negb ((12 <=? length) && (length <=? 20)) then Raise ValueError
  else Ret (prefix (Z.to_nat length) (base62_encode (hash_int str1 str2))).

(** Modelled from the spec: [index_core.util.create_base62_hash], which
    [get_cpid] of index_core/stamp.py calls, is not among the sources.
    "derive a 20-character base62 digest from SHA-256(tx_hash | "|" |
    block_height) (big-endian integer -> base62 alphabet 0-9a-zA-Z)";
    the function of the same name in stamp.py is taken for it. *)
Definition util_create_base62_hash (str1 str2 : string) (length : Z) : outcome string :=
  create_base62_hash str1 str2 length.

(** [get_cpid] of index_core/stamp.py: the cpid that the upstream
    layer gave, if any, and the digest of the transaction hash and the
    block height. *)
Definition get_cpid (stamp_cpid : option string) (block_index : Z) (tx_hash : string)
  : outcome (option string * string) :=
  let* h := util_create_base62_hash tx_hash (Str.of_Z block_index) 20 in
  Ret (stamp_cpid, h).

(** Modelled from the spec: [StampData.update_cpid_and_stamp_hash] of
    [index_core.models], which takes what [get_cpid] returns, is not
    among the sources.  "If upstream provided a cpid, use it; otherwise
    derive a 20-character base62 digest". *)
Definition derived_cpid (stamp_cpid : option string) (block_index : Z) (tx_hash : string)
  : outcome string :=
  let* (cpid, stamp_hash) := get_cpid stamp_cpid block_index tx_hash in
  Ret (match cpid with Some c => c | None => stamp_hash end).

End WithHash.
End Cpid.

(* ===================================================================== *)
(** * Classification and numbering in parse_stamp *)
(* ===================================================================== *)

Module Stamp.

(** The fields of [StampData] that the end of [parse_stamp] reads and
    writes.  A flag is [None] or an integer, as the code assigns them. *)
Record stamp_data := StampData {
  ident : string;
  asset_longname : option string;
  cpid : option string;
  is_op_return : bool;
  file_suffix : option string;
  is_btc_stamp : option Z;
  is_cursed : option Z;
  stamp : option Z
}.

(** [bool(flag)] *)
Definition flag_set (f : option Z) : bool :=
  match f with
  | Some z => negb (z =? 0)
  | None => false
  end.

(** [bool(s)] for an optional string *)
Definition str_truthy (s : option string) : bool :=
  match s with
  | Some s => negb (String.eqb s "")
  | None => false
  end.

Definition startswith_A (s : option string) : bool :=
  match s with
  | Some (String c _) => Ascii.eqb c "A"
  | _ => false
  end.

(** Modelled from the spec: [get_next_stamp_number] is not among the
    sources.  "Two monotonically increasing integers, next_btc_stamp
    and next_cursed_stamp"; "Counters advance by exactly one per
    assignment". *)
Record counters := Counters { next_btc_stamp : Z; next_cursed_stamp : Z }.

Inductive counter_name := CStamp | CCursed.

Definition get_next_stamp_number (c : counters) (which : counter_name) : Z * counters :=
  match which with
  | CStamp => (next_btc_stamp c, Counters (next_btc_stamp c + 1) (next_cursed_stamp c))
  | CCursed => (next_cursed_stamp c, Counters (next_btc_stamp c) (next_cursed_stamp c + 1))
  end.

Section WithConfig.
Context (cfg : config).

(** [file_suffix in INVALID_BTC_STAMP_SUFFIX] *)
Definition invalid_suffix (s : option string) : bool :=
  match s with
  | Some s => existsb (String.eqb s) (INVALID_BTC_STAMP_SUFFIX cfg)
  | None => false
  end.

(** The cursed-or-btc rules of [parse_stamp]. *)
Definition classify (sd : stamp_data) : stamp_data :=
  if negb (String.eqb (ident sd) "UNKNOWN")
     && negb (bool_decide (is_Some (asset_longname sd)))
     && str_truthy (cpid sd) && startswith_A (cpid sd)
     && negb (is_op_return sd) && negb (invalid_suffix (file_suffix sd))
  then StampData (ident sd) (asset_longname sd) (cpid sd) (is_op_return sd)
                 (file_suffix sd) (Some 1) (is_cursed sd) (stamp sd)
  else if bool_decide (is_Some (asset_longname sd))
  then StampData (ident sd) (asset_longname sd) (asset_longname sd) (is_op_return sd)
                 (file_suffix sd) None (Some 1) (stamp sd)
  else if str_truthy (cpid sd)
          && (invalid_suffix (file_suffix sd) || negb (startswith_A (cpid sd))
              || is_op_return sd)
  then StampData (ident sd) (asset_longname sd) (cpid sd) (is_op_return sd)
                 (file_suffix sd) None (Some 1) (stamp sd)
  else sd.

(** The numbering that follows; the second component tells which
    counter was drawn from. *)
Definition assign_number (sd : stamp_data) (c : counters)
  : stamp_data * option counter_name * counters :=
  let set n := StampData (ident sd) (asset_longname sd) (cpid sd) (is_op_return sd)
                         (file_suffix sd) (is_btc_stamp sd) (is_cursed sd) n in
  if flag_set (is_btc_stamp sd) then
    let '(n, c') := get_next_stamp_number c CStamp in (set (Some n), Some CStamp, c')
  else if flag_set (is_cursed sd) then
    let '(n, c') := get_next_stamp_number c CCursed in (set (Some n), Some CCursed, c')
  else (set None, None, c).

(** What [parse_stamp] does before the rules above (validation,
    payload extraction, cpid, reissue check, identification, the
    SRC-20 and SRC-721 branches) runs through [StampData] methods and
    helpers that are not among the sources; [None] stands for its
    early [return (None,) * 4]. *)
Context (prepare : stamp_data -> option stamp_data).

(** [parse_stamp], as far as the record and the counters go. *)
Definition parse_stamp (sd : stamp_data) (c : counters)
  : option (stamp_data * option counter_name * counters) :=
  match prepare sd with
  | None => None
  | Some sd => Some (assign_number (classify sd) c)
  end.

End WithConfig.
End Stamp.

(* ===================================================================== *)
(** * What a handler of the processor leaves *)
(* ===================================================================== *)

Module Verdict.
Import Dec Src20.

(** The verdict of a handler: the processor [p'] that it leaves, from
    the processor [p] it was given. *)
Definition accepted (p p' : processor) : Prop :=
  is_valid p' = is_valid p
  /\ valid (src20_dict p') = true
  /\ (status (src20_dict p') = status (src20_dict p)).

Definition refused (p p' : processor) : Prop :=
  is_valid p' = false
  /\ valid (src20_dict p') = valid (src20_dict p)
  /\ exists c, status (src20_dict p') = Some c /\ is_invalid c = true.

(** The keys of the record that no handler writes. *)
Definition same_identity (d d' : src20) : Prop :=
  tick d' = tick d /\ tick_hash d' = tick_hash d /\ op d' = op d
  /\ creator d' = creator d /\ destination d' = destination d
  /\ max d' = max d /\ lim d' = lim d.

(** The tables of the store, which only the end of the block writes. *)
Definition same_tables (db db' : store) : Prop :=
  deploys db' = deploys db /\ minted db' = minted db /\ balances db' = balances db.

(** A reduction of the amount leaves a status that is not an error. *)
Definition reduced (p p' : processor) : Prop :=
  is_valid p' = is_valid p
  /\ valid (src20_dict p') = valid (src20_dict p)
  /\ (status (src20_dict p') = status (src20_dict p)
      \/ status (src20_dict p') = Some OMA \/ status (src20_dict p') = Some ODL)
  /\ same_identity (src20_dict p) (src20_dict p').

End Verdict.

(* ===================================================================== *)
(** * The supply that a block moves *)
(* ===================================================================== *)

Module Supply.
Import Dec Src20 Ledger.

Definition sum (l : list Z) : Z := fold_right Z.add 0 l.

(** The net change that the balance updates of a block hold, all rows
    together, in units of [10^-E]. *)
Definition net_credit (E : Z) (bu : list balance_update) : Z :=
  sum (map (fun u => value E (credit u) - value E (debit u)) bu).

(** The amount that a record of the shadow list mints. *)
Definition minted_value (E : Z) (d : src20) : Z :=
  if valid d && String.eqb (op d) "MINT" then value E (default zero (amt d)) else 0.

(** The primary key of the row that a dict of [balance_updates]
    writes. *)
Definition id_of (u : balance_update) : string := row_id (u_tick u) (u_address u).

End Supply.

(* ===================================================================== *)
(** * Src20Validator *)
(* ===================================================================== *)

Module Validator.
Import Dec DecParse.

(** [$] matches at the end of the string and just before a newline that
    ends it: what is left to match is the string without that newline. *)
Definition before_final_newline (l : list ascii) : list ascii :=
  match rev l with
  | c :: r => if Ascii.eqb c "010" then rev r else l
  | [] => l
  end.

(** [num_pattern.match(s)]: digits, then a point and digits or
    nothing, up to the end; every part may be empty. *)
Definition num_pattern (s : string) : bool :=
  let '(_, r) := Str.span Str.isdecimal (before_final_newline (Str.chars s)) in
  match r with
  | [] => true
  | c :: r' => Ascii.eqb c "." && forallb Str.isdecimal r'
  end.

(** [dec_pattern.match(s)]: one digit or more, up to the end. *)
Definition dec_pattern (s : string) : bool :=
  match before_final_newline (Str.chars s) with
  | [] => false
  | l => forallb Str.isdecimal l
  end.

(** ["%+d" % n] *)
Definition signed (n : Z) : list ascii :=
  (if n <? 0 then "-"%char else "+"%char) :: Str.digits_of_N (Z.abs_N n).

(** [str(d)] for a Decimal, in scientific notation with a capital [E];
    the diagnostic digits of a NaN, which [Decimal] of the model does
    not keep, would follow its name. *)
Definition dec_str (d : Decimal) : string :=
  match d with
  | DInf neg => if neg then "-Infinity" else "Infinity"
  | DNaN neg signaling =>
      String.append (if neg then "-" else "") (if signaling then "sNaN" else "NaN")
  | DFin x =>
      let ds := Str.digits_of_N (fcoef x) in
      let len := Z.of_nat (List.length ds) in
      let leftdigits := fexp x + len in
      let dotplace := if (fexp x <=? 0) && (-6 <? leftdigits) then leftdigits else 1 in
      let '(intpart, fracpart) :=
        if dotplace <=? 0
        then (["0"%char], "."%char :: repeat "0"%char (Z.to_nat (- dotplace)) ++ ds)
        else if len <=? dotplace
        then (ds ++ repeat "0"%char (Z.to_nat (dotplace - len)), [])
        else (firstn (Z.to_nat dotplace) ds, "."%char :: skipn (Z.to_nat dotplace) ds) in
      let exp := if leftdigits =? dotplace then []
                 else "E"%char :: signed (leftdigits - dotplace) in
      Str.of_chars ((if fsign x then ["-"%char] else []) ++ intpart ++ fracpart ++ exp)
  end.

(** [Decimal.quantize(Decimal('1'), rounding=ROUND_DOWN)] in the default
    context, whose InvalidOperation is trapped. *)
Definition quantize_down (d : Decimal) : outcome Decimal :=
  match d with
  | DFin x =>
      match quantize_int_down default_prec x with
      | Some q => Ret (DFin q)
      | None => Raise InvalidOperation
      end
  | DInf _ => Raise InvalidOperation
  | DNaN neg false => Ret (DNaN neg false)
  | DNaN _ true => Raise InvalidOperation
  end.

(** [int(f)] for a float: OverflowError for an infinity, ValueError for
    a NaN. *)
Definition float_to_int (f : spec_float) : outcome Z :=
  match f with
  | S754_zero _ => Ret 0
  | S754_finite s m e =>
      let a := if 0 <=? e then Z.pos m * 2 ^ e else Z.pos m / 2 ^ (- e) in
      Ret (if s then - a else a)
  | S754_infinity _ => Raise PyException
  | S754_nan => Raise ValueError
  end.

(** What the validator does to one key of the dict. *)
Inductive verdict :=
| Unchanged
| Cleared                        (* [src20_dict[key] = None] *)
| Stored (v : pyval)             (* [src20_dict[key] = v] *)
| Rejected (message : string)    (* [_update_status(key, message)], then [None] *)
| Ticked (tick tick_hash : string).

Section WithRuntime.
(** [repr] of a float and of a list or dict, [str.lower], [str.upper],
    [escape_non_ascii_characters] of index_core.util and the hex digest
    of SHA3-256 are the runtime's or are not among the sources. *)
Context (float_repr : spec_float -> string) (container_repr : pyval -> string).
Context (py_lower py_upper escape_non_ascii_characters sha3_256_hex : string -> string).

(** [str(value)] *)
Definition py_str (value : pyval) : string :=
  match value with
  | PNone => "None"
  | PBool b => if b then "True" else "False"
  | PInt z => Str.of_Z z
  | PFloat f => float_repr f
  | PDec d => dec_str d
  | PStr s => s
  | PList _ | PDict _ => container_repr value
  end.

(** [int(value)], for a value whose [str] the pattern of [dec] has
    matched; the digits of a string are then read up to the newline. *)
Definition py_int (value : pyval) : outcome Z :=
  match value with
  | PNone | PList _ | PDict _ => Raise TypeError
  | PBool b => Ret (if b then 1 else 0)
  | PInt z => Ret z
  | PFloat f => float_to_int f
  | PDec (DFin x) => Ret (to_int x)
  | PDec (DInf _) => Raise PyException
  | PDec (DNaN _ _) => Raise ValueError
  | PStr s => Ret (Z.of_N (Str.N_of_digits (before_final_newline (Str.chars s))))
  end.

(** [_apply_regex_validation] *)
Definition apply_regex_validation (key : string) (value : pyval) : outcome verdict :=
  if existsb (String.eqb key) ["max"; "lim"; "amt"]%string then
    let* stored :=
      match value with
      | PDec d => Ret (Some d)
      | _ =>
          if num_pattern (py_str value) then
            match of_string (py_str value) with
            | Some d => Ret (Some d)
            | None => Raise InvalidOperation
            end
          else Ret None
      end in
    match stored with
    | None => Ret (Rejected (String.append "NN: INVALID NUM for " key))
    | Some d =>
        if existsb (String.eqb key) ["max"; "lim"]%string
        then let* q := quantize_down d in Ret (Stored (PDec q))
        else Ret (Stored (PDec d))
    end
  else if String.eqb key "dec" then
    if dec_pattern (py_str value) then
      let* n := py_int value in
      if (0 <=? n) && (n <=? 18) then Ret (Stored (PInt n))
      else Ret (Rejected (String.append "NN: INVALID DEC VAL " key))
    else Ret (Rejected (String.append "NN: INVALID DEC VAL " key))
  else Ret Unchanged.

(** The body of the loop of [process_values] for one item. *)
Definition process_value (key : string) (value : pyval) : outcome verdict :=
  match value with
  | PStr EmptyString => Ret Cleared
  | _ =>
      if String.eqb key "tick" then
        match value with
        | PStr s => Ret (Ticked (escape_non_ascii_characters (py_lower s))
                                (sha3_256_hex (py_lower s)))
        | _ => Raise AttributeError
        end
      else if existsb (String.eqb key) ["p"; "op"; "holders_of"]%string then
        match value with
        | PStr s => Ret (Stored (PStr (py_upper s)))
        | _ => Raise AttributeError
        end
      else if existsb (String.eqb key) ["max"; "lim"; "amt"; "dec"]%string
      then apply_regex_validation key value
      else Ret Unchanged
  end.

End WithRuntime.
End Validator.

(* ===================================================================== *)
(** * Reading a ledger string back *)
(* ===================================================================== *)

Module Balances.
Import Dec DecParse.

(** [tick, address, balance = entry.split(",")], a ValueError when the
    entry does not hold three parts, and [D(balance)]. *)
Definition parse_entry (entry : string) : outcome (string * string * Decimal) :=
  match Str.split "," entry with
  | [t; a; b] =>
      match of_string b with
      | Some d => Ret (t, a, d)
      | None => Raise InvalidOperation
      end
  | _ => Raise ValueError
  end.

(** [balances[tick][address] = d] on the nested defaultdict *)
Definition store_balance (t a : string) (d : Decimal)
    (balances : gmap string (gmap string Decimal)) : gmap string (gmap string Decimal) :=
  <[t := <[a := d]> (default ∅ (balances !! t))]> balances.

Fixpoint parse_entries (entries : list string)
    (balances : gmap string (gmap string Decimal))
  : outcome (gmap string (gmap string Decimal)) :=
  match entries with
  | [] => Ret balances
  | entry :: rest =>
      let* (t, a, d) := parse_entry entry in
      parse_entries rest (store_balance t a d balances)
  end.

(** [parse_balances] *)
Definition parse_balances (balance_str : string)
  : outcome (gmap string (gmap string Decimal)) :=
  parse_entries (Str.split ";" balance_str) ∅.

(** [balances[tick][address]], when both keys are there *)
Definition balance (balances : gmap string (gmap string Decimal)) (t a : string)
  : option Decimal :=
  match balances !! t with
  | Some m => m !! a
  | None => None
  end.

End Balances.

(* ===================================================================== *)
(** * Sample data for the examples *)
(* ===================================================================== *)

Module Samples.
Import Dec Src20.

(** A configuration: the p2wsh activation above the repair cut-off, a
    tick class of ASCII letters and digits. *)
Definition alnum (c : ascii) : bool :=
  let n := Str.code c in
  ((48 <=? n) && (n <=? 57) || (65 <=? n) && (n <=? 90) || (97 <=? n) && (n <=? 122))%N.

Definition cfg : config :=
  Config 833000 784550 alnum ["zlib"%string].

(** An overlapping configuration, to exercise both gates at once. *)
Definition cfg_overlap : config :=
  Config 100 200 alnum ["zlib"%string].

(** A decoder that accepts exactly one padded string. *)
Definition b64_sample (s : string) : option string :=
  if String.eqb s "QUJDRA==" then Some "ABCD"%string else None.

(** The token of the scenarios: "dogs", max 1000, lim 100, dec 0, of which
    60 are minted, all held by A. *)
Definition dogs_db : Src20.store :=
  Src20.Store {[ "dogs"%string := (Dec.of_Z 100, Dec.of_Z 1000, 0) ]}
              {[ "dogs"%string := Dec.of_Z 60 ]}
              [Src20.BalanceRow "dogs" "h" "A" (Dec.of_Z 60) Dec.zero]
              ∅.

Definition dogs_op (o : string) (a : Z) (c dst : string) : Src20.src20 :=
  Src20.Src20 "dogs" "h" o (Some (Dec.of_Z a)) None None None c dst
              None false None None None.

(** The processor as [validate_and_process_operation] hands it to a
    handler. *)
Definition dogs_processor (d : Src20.src20) : Src20.processor :=
  Src20.Processor d true (Some 0) (Some (Dec.of_Z 100)) (Some (Dec.of_Z 1000)).

(** What the lookup of the balances of A and D returns there, and of B
    alone. *)
Definition dogs_lookup_A_D : list Src20.balance_current :=
  [Src20.BalanceCurrent "A" (Dec.of_Z 60) (Some Dec.zero);
   Src20.BalanceCurrent "D" Dec.zero (Some Dec.zero)].

Definition dogs_lookup_B : list Src20.balance_current :=
  [Src20.BalanceCurrent "B" Dec.zero (Some Dec.zero)].

(** The store once the mint total of "dogs" has been read through the
    cache. *)
Definition dogs_db_cached : Src20.store :=
  Src20.Store (Src20.deploys dogs_db) (Src20.minted dogs_db) (Src20.balances dogs_db)
              {[ "dogs"%string := Dec.of_Z 60 ]}.

(** A DEPLOY of a tick with max 0 and lim 0. *)
Definition deploy_zero : Src20.src20 :=
  Src20.Src20 "zero" "h0" "DEPLOY" None (Some Dec.zero) (Some Dec.zero) None "X" "X"
              None false None None None.

Definition deploy_zero_payload : gmap string pyval :=
  list_to_map [("p"%string, PStr "src-20"); ("op"%string, PStr "deploy");
               ("tick"%string, PStr "zero"); ("max"%string, PStr "0");
               ("lim"%string, PStr "0")].

Definition empty_db : Src20.store := Src20.Store ∅ ∅ [] ∅.

Definition zero_db : Src20.store :=
  Src20.Store {[ "zero"%string := (Dec.zero, Dec.zero, 18) ]} ∅ [] ∅.

(** A stamp record as it reaches the classification rules, and a
    stand-in for the steps before them. *)
Definition sd_image : Stamp.stamp_data :=
  Stamp.StampData "STAMP" None (Some "A4401067318117090000"%string) false
                  (Some "png"%string) None None None.

Definition sd_image_numbered : Stamp.stamp_data :=
  Stamp.StampData "STAMP" None (Some "A4401067318117090000"%string) false
                  (Some "png"%string) (Some 1) None (Some 10).

Definition prepare_unflagged (a : Stamp.stamp_data) : option Stamp.stamp_data :=
  if Stamp.flag_set (Stamp.is_cursed a) then None else Some a.

(** SRC-20 payloads: a MINT of the tick "abc" whose amt is [v], as the
    dict that the upstream layer hands over, and as a scanned JSON text. *)
Definition mint_payload (v : pyval) : gmap string pyval :=
  list_to_map [("p"%string, PStr "src-20"); ("op"%string, PStr "mint");
               ("tick"%string, PStr "abc"); ("amt"%string, v)].

Definition mint_text (v : Json.raw) : Json.raw :=
  Json.RObject [("p"%string, Json.RString "src-20"); ("op"%string, Json.RString "mint");
                ("tick"%string, Json.RString "abc"); ("amt"%string, v)].

(** The binary64 number -2^-30, and 2^64. *)
Definition tiny_negative : spec_float := S754_finite true 4503599627370496 (-82).
Definition two_to_64 : spec_float := S754_finite false 4503599627370496 12.

(** The UTF-8 decoder on ASCII strings. *)
Definition decode_ascii (s : string) : option string :=
  if forallb (fun c => (Str.code c <? 128)%N) (Str.chars s) then Some s else None.

(** A block of three valid operations on "dogs": B mints 40, A sends 25
    to B, B sends 5 to D; and the same records in another order. *)
Definition dogs_block : list Src20.src20 :=
  [Src20.set_valid (dogs_op "MINT" 40 "B" "B");
   Src20.set_valid (dogs_op "TRANSFER" 25 "A" "B");
   Src20.set_valid (dogs_op "TRANSFER" 5 "B" "D")].

Definition dogs_block_swapped : list Src20.src20 :=
  [Src20.set_valid (dogs_op "TRANSFER" 25 "A" "B");
   Src20.set_valid (dogs_op "MINT" 40 "B" "B");
   Src20.set_valid (dogs_op "TRANSFER" 5 "B" "D")].

(** The balance updates that the fold leaves for that block. *)
Definition dogs_updates : list Ledger.balance_update :=
  [Ledger.BalanceUpdate "dogs" "h" "B" (Dec.of_Z 65) (Dec.of_Z 5) None None;
   Ledger.BalanceUpdate "dogs" "h" "A" Dec.zero (Dec.of_Z 25) None None;
   Ledger.BalanceUpdate "dogs" "h" "D" (Dec.of_Z 5) Dec.zero None None].

(** The same updates as [update_balance_table] leaves them on the table
    of [dogs_db], where A holds 60: with the net change and the amount
    that the row had. *)
Definition dogs_ledger : list Ledger.balance_update :=
  [Ledger.BalanceUpdate "dogs" "h" "B" (Dec.of_Z 65) (Dec.of_Z 5)
                        (Some (Dec.of_Z 60)) (Some Dec.zero);
   Ledger.BalanceUpdate "dogs" "h" "A" Dec.zero (Dec.of_Z 25)
                        (Some (Dec.of_Z (-25))) (Some (Dec.of_Z 60));
   Ledger.BalanceUpdate "dogs" "h" "D" (Dec.of_Z 5) Dec.zero
                        (Some (Dec.of_Z 5)) (Some Dec.zero)].

(** Balance updates of a token with two decimals: 1.25 added to a row
    that held 0.5, and 2.50 to a new row. *)
Definition cents_ledger : list Ledger.balance_update :=
  [Ledger.BalanceUpdate "cents" "hc" "A" (Dec.FDec false 125 (-2)) Dec.zero
                        (Some (Dec.FDec false 125 (-2))) (Some (Dec.FDec false 5 (-1)));
   Ledger.BalanceUpdate "cents" "hc" "B" (Dec.FDec false 250 (-2)) Dec.zero
                        (Some (Dec.FDec false 250 (-2))) (Some Dec.zero)].

End Samples.

(* ===================================================================== *)
(** * Theorems *)
(* ===================================================================== *)

(** ** The base64 codec (C7) *)

Section CodecFacts.
Import Codec.
Context (cfg : config) (b64decode pybase64_b64decode : string -> option string).

Lemma repair_padding_spec (s : string) :
  exists pad : nat,
    (pad <= 3)%nat /\
    repair_padding s = String.append s (Str.of_chars (repeat "="%char pad)) /\
    ((String.length s + pad) mod 4 = 0)%nat.
Proof.
  unfold repair_padding.
  pose proof (Nat.mod_upper_bound (String.length s) 4 ltac:(lia)) as Hlt.
  destruct (String.length s mod 4 =? 0)%nat eqn:E.
  - apply Nat.eqb_eq in E. exists 0%nat. split; [lia|]. split.
    + simpl. clear. induction s as [|c s IH]; [reflexivity|].
      change (String c s = String c (String.append s "")). now f_equal.
    + now rewrite Nat.add_0_r.
  - apply Nat.eqb_neq in E.
    exists (4 - String.length s mod 4)%nat. split; [lia|]. split; [reflexivity|].
    pose proof (Nat.div_mod_eq (String.length s) 4) as Hdm.
    replace (String.length s + (4 - String.length s mod 4))%nat
      with ((String.length s / 4 + 1) * 4)%nat by lia.
    apply Nat.Div0.mod_mul.
Qed.

(** At or above the p2wsh activation a string that fails validation
    yields no data and the flag [None]. *)
Lemma decode_base64_invalid (s : string) (h : Z) :
  CP_P2WSH_FEAT_BLOCK_START cfg <= h ->
  check_valid_base64_string s = false ->
  decode_base64 cfg b64decode pybase64_b64decode s h = (None, None).
Proof.
  intros Hh Hv. unfold decode_base64.
  replace (CP_P2WSH_FEAT_BLOCK_START cfg <=? h) with true by (symmetry; now apply Z.leb_le).
  now rewrite Hv.
Qed.

(** At or below the cut-off, past the validation gate, the padded string
    is decoded. *)
Lemma decode_base64_repair (s : string) (h : Z) :
  h <= STOP_BASE64_REPAIR cfg ->
  h < CP_P2WSH_FEAT_BLOCK_START cfg \/ check_valid_base64_string s = true ->
  decode_base64 cfg b64decode pybase64_b64decode s h =
    match b64decode (repair_padding s) with
    | Some data => (Some data, Some true)
    | None => (None, None)
    end.
Proof.
  intros Hh Hgate. unfold decode_base64, decode_base64_with_repair.
  assert (G : (CP_P2WSH_FEAT_BLOCK_START cfg <=? h) && negb (check_valid_base64_string s) = false).
  { destruct Hgate as [Hlt | Hv].
    - replace (CP_P2WSH_FEAT_BLOCK_START cfg <=? h) with false; [reflexivity|].
      symmetry. apply Z.leb_gt. lia.
    - rewrite Hv. now rewrite andb_false_r. }
  rewrite G.
  replace (h <=? STOP_BASE64_REPAIR cfg) with true by (symmetry; now apply Z.leb_le).
  destruct (b64decode (repair_padding s)); reflexivity.
Qed.

End CodecFacts.

(** C7 (as stated, first half): at or above the p2wsh activation a string
    that fails validation makes decode_base64 return (None, invalid).
    This fails: for the three-character string "abc" at the activation
    height the flag is [None], the same as after a failed decode, and not
    the "invalid" value [Some false]. *)
Lemma C7_counterexample :
  Codec.check_valid_base64_string "abc" = false /\
  Codec.decode_base64 Samples.cfg Samples.b64_sample Samples.b64_sample "abc" 833000
    <> (None, Some false).
Proof. split; [reflexivity | discriminate]. Qed.

(** C7 (amended): for every height at or above the p2wsh activation a
    string that fails the charset/length validation makes decode_base64
    return (None, None); for every height at or below the repair cut-off
    at which that validation gate did not fire (the height is below the
    activation, or the string is valid), the string is padded with at
    most three '=' to a length that is a multiple of four and then
    decoded, and a failed decode returns (None, None). *)
Theorem C7_decode_base64_gates (cfg : config)
    (b64decode pybase64_b64decode : string -> option string) (s : string) (h : Z) :
  (CP_P2WSH_FEAT_BLOCK_START cfg <= h ->
   Codec.check_valid_base64_string s = false ->
   Codec.decode_base64 cfg b64decode pybase64_b64decode s h = (None, None))
  /\
  (h <= STOP_BASE64_REPAIR cfg ->
   h < CP_P2WSH_FEAT_BLOCK_START cfg \/ Codec.check_valid_base64_string s = true ->
   exists pad : nat,
     (pad <= 3)%nat /\
     ((String.length s + pad) mod 4 = 0)%nat /\
     Codec.decode_base64 cfg b64decode pybase64_b64decode s h =
       match b64decode (String.append s (Str.of_chars (repeat "="%char pad))) with
       | Some data => (Some data, Some true)
       | None => (None, None)
       end).
Proof.
  split.
  - apply decode_base64_invalid.
  - intros Hh Hgate.
    destruct (repair_padding_spec s) as (pad & Hpad & Hrep & Hmod).
    exists pad. split; [exact Hpad|]. split; [exact Hmod|].
    rewrite <- Hrep. now apply decode_base64_repair.
Qed.

(** The amended C7 at work: "QUJDRA" (two '=' short) is repaired and
    decoded below the cut-off; "abc" is refused above the activation. *)
Lemma C7_witness :
  Codec.decode_base64 Samples.cfg Samples.b64_sample Samples.b64_sample "abc" 833000
    = (None, None)
  /\ exists pad : nat,
     (pad <= 3)%nat /\
     ((String.length "QUJDRA" + pad) mod 4 = 0)%nat /\
     Codec.decode_base64 Samples.cfg Samples.b64_sample Samples.b64_sample "QUJDRA" 784550 =
       match Samples.b64_sample (String.append "QUJDRA" (Str.of_chars (repeat "="%char pad))) with
       | Some data => (Some data, Some true)
       | None => (None, None)
       end.
Proof.
  pose proof (C7_decode_base64_gates Samples.cfg Samples.b64_sample Samples.b64_sample) as T.
  split.
  - apply (proj1 (T "abc"%string 833000)); [simpl; lia | reflexivity].
  - apply (proj2 (T "QUJDRA"%string 784550)); [simpl; lia | left; simpl; lia].
Defined.

(** ** Classification and numbering (C10) *)

Section StampFacts.
Import Stamp.
Context (cfg : config).

Lemma classify_flags (sd : stamp_data) :
  flag_set (is_cursed sd) = false ->
  flag_set (is_btc_stamp (classify cfg sd)) && flag_set (is_cursed (classify cfg sd)) = false.
Proof.
  intros Hc. unfold classify.
  repeat match goal with
         | |- context [if ?b then _ else _] => destruct b
         end; simpl; try reflexivity.
  - now rewrite Hc.
  - rewrite Hc. apply andb_false_r.
Qed.

Lemma assign_number_flags (sd : stamp_data) (c : counters) :
  is_btc_stamp (fst (fst (assign_number sd c))) = is_btc_stamp sd /\
  is_cursed (fst (fst (assign_number sd c))) = is_cursed sd.
Proof.
  unfold assign_number.
  destruct (flag_set (is_btc_stamp sd)); [|destruct (flag_set (is_cursed sd))];
    simpl; split; reflexivity.
Qed.

Lemma assign_number_draw (sd : stamp_data) (c : counters) :
  match snd (fst (assign_number sd c)) with
  | Some CStamp =>
      flag_set (is_btc_stamp sd) = true /\
      stamp (fst (fst (assign_number sd c))) = Some (next_btc_stamp c) /\
      snd (assign_number sd c) = Counters (next_btc_stamp c + 1) (next_cursed_stamp c)
  | Some CCursed =>
      flag_set (is_btc_stamp sd) = false /\ flag_set (is_cursed sd) = true /\
      stamp (fst (fst (assign_number sd c))) = Some (next_cursed_stamp c) /\
      snd (assign_number sd c) = Counters (next_btc_stamp c) (next_cursed_stamp c + 1)
  | None =>
      flag_set (is_btc_stamp sd) = false /\ flag_set (is_cursed sd) = false /\
      stamp (fst (fst (assign_number sd c))) = None /\
      snd (assign_number sd c) = c
  end.
Proof.
  unfold assign_number.
  destruct (flag_set (is_btc_stamp sd)) eqn:Hb; [|destruct (flag_set (is_cursed sd)) eqn:Hc];
    simpl; repeat split; reflexivity.
Qed.

End StampFacts.

(** C10: a record that reaches the classification rules of parse_stamp
    with is_cursed unset never ends with both is_btc_stamp and is_cursed
    set; its number is drawn from the 'stamp' counter exactly when
    is_btc_stamp is set, from the 'cursed' counter exactly when is_cursed
    is set and is_btc_stamp is not, and it has no number otherwise.  A
    counter that is drawn from advances by one, the other one stays. *)
Theorem C10_parse_stamp_numbering (cfg : config)
    (prepare : Stamp.stamp_data -> option Stamp.stamp_data)
    (sd sd' : Stamp.stamp_data) (c c' : Stamp.counters)
    (drawn : option Stamp.counter_name) :
  (forall a b, prepare a = Some b -> Stamp.flag_set (Stamp.is_cursed b) = false) ->
  Stamp.parse_stamp cfg prepare sd c = Some (sd', drawn, c') ->
  ~ (Stamp.flag_set (Stamp.is_btc_stamp sd') = true /\
     Stamp.flag_set (Stamp.is_cursed sd') = true)
  /\ (drawn = Some Stamp.CStamp <-> Stamp.flag_set (Stamp.is_btc_stamp sd') = true)
  /\ (drawn = Some Stamp.CCursed <->
      Stamp.flag_set (Stamp.is_cursed sd') = true /\
      Stamp.flag_set (Stamp.is_btc_stamp sd') = false)
  /\ (drawn = None <-> Stamp.stamp sd' = None)
  /\ match drawn with
     | Some Stamp.CStamp =>
         Stamp.stamp sd' = Some (Stamp.next_btc_stamp c) /\
         c' = Stamp.Counters (Stamp.next_btc_stamp c + 1) (Stamp.next_cursed_stamp c)
     | Some Stamp.CCursed =>
         Stamp.stamp sd' = Some (Stamp.next_cursed_stamp c) /\
         c' = Stamp.Counters (Stamp.next_btc_stamp c) (Stamp.next_cursed_stamp c + 1)
     | None => c' = c
     end.
Proof.
  intros Hprep Hrun. unfold Stamp.parse_stamp in Hrun.
  destruct (prepare sd) as [sd0|] eqn:Hp; [|discriminate].
  specialize (Hprep _ _ Hp).
  pose proof (classify_flags cfg sd0 Hprep) as Hcl.
  set (k := Stamp.classify cfg sd0) in *.
  destruct (assign_number_flags k c) as [Hb Hc].
  pose proof (assign_number_draw k c) as Hd.
  inversion Hrun as [Heq]. rewrite Heq in Hb, Hc, Hd. simpl in Hb, Hc, Hd.
  rewrite Hb, Hc.
  destruct drawn as [[|]|].
  - destruct Hd as (H1 & H2 & H3). rewrite H1 in *. simpl in Hcl.
    unfold not; repeat split; try congruence; try tauto; intros; try discriminate;
      repeat match goal with H : _ /\ _ |- _ => destruct H end; congruence.
  - destruct Hd as (H1 & H2 & H3 & H4). rewrite H1, H2 in *.
    unfold not; repeat split; try congruence; try tauto; intros; try discriminate;
      repeat match goal with H : _ /\ _ |- _ => destruct H end; congruence.
  - destruct Hd as (H1 & H2 & H3 & H4). rewrite H1, H2 in *.
    unfold not; repeat split; try congruence; try tauto; intros; try discriminate;
      repeat match goal with H : _ /\ _ |- _ => destruct H end; congruence.
Qed.

(** C10 at work: an image stamp with an upstream cpid draws number 10
    from the 'stamp' counter. *)
Lemma C10_witness :
  (forall a b, Samples.prepare_unflagged a = Some b ->
               Stamp.flag_set (Stamp.is_cursed b) = false)
  /\ Stamp.parse_stamp Samples.cfg Samples.prepare_unflagged Samples.sd_image
       (Stamp.Counters 10 3)
     = Some (Samples.sd_image_numbered, Some Stamp.CStamp, Stamp.Counters 11 3)
  /\ ~ (Stamp.flag_set (Stamp.is_btc_stamp Samples.sd_image_numbered) = true /\
        Stamp.flag_set (Stamp.is_cursed Samples.sd_image_numbered) = true)
  /\ Stamp.stamp Samples.sd_image_numbered = Some 10.
Proof.
  assert (Hprep : forall a b, Samples.prepare_unflagged a = Some b ->
                              Stamp.flag_set (Stamp.is_cursed b) = false).
  { intros a b. unfold Samples.prepare_unflagged.
    destruct (Stamp.flag_set (Stamp.is_cursed a)) eqn:E; [discriminate|].
    intros Hab. inversion Hab; subst. exact E. }
  assert (Hrun : Stamp.parse_stamp Samples.cfg Samples.prepare_unflagged Samples.sd_image
                   (Stamp.Counters 10 3)
                 = Some (Samples.sd_image_numbered, Some Stamp.CStamp, Stamp.Counters 11 3))
    by reflexivity.
  destruct (C10_parse_stamp_numbering Samples.cfg Samples.prepare_unflagged
              Samples.sd_image Samples.sd_image_numbered (Stamp.Counters 10 3)
              (Stamp.Counters 11 3) (Some Stamp.CStamp) Hprep Hrun)
    as (Hboth & _ & _ & _ & Hnum & _).
  split; [exact Hprep | split; [exact Hrun | split; [exact Hboth | exact Hnum]]].
Defined.

(** ** Loops that run on fuel *)

Lemma pos_size_nat_bound (p : positive) : (N.pos p < 2 ^ N.of_nat (Pos.size_nat p))%N.
Proof.
  induction p as [p IH | p IH |]; cbn [Pos.size_nat].
  - rewrite Nat2N.inj_succ, N.pow_succ_r'. lia.
  - rewrite Nat2N.inj_succ, N.pow_succ_r'. lia.
  - reflexivity.
Qed.

Lemma size_nat_bound (n : N) : (n < 2 ^ N.of_nat (N.size_nat n))%N.
Proof.
  destruct n as [|p]; [reflexivity | apply pos_size_nat_bound].
Qed.

Lemma div_fuel (b n : N) (f : nat) :
  (2 <= b)%N -> (n < 2 ^ N.of_nat (S f))%N -> (n / b < 2 ^ N.of_nat f)%N.
Proof.
  intros Hb Hn. rewrite Nat2N.inj_succ, N.pow_succ_r' in Hn.
  apply N.Div0.div_lt_upper_bound.
  assert (0 < 2 ^ N.of_nat f)%N by (apply N.neq_0_lt_0, N.pow_nonzero; lia).
  nia.
Qed.

(** ** The base62 digest (C9) *)

Section Base62Facts.
Import Cpid.

Lemma digit_of_char_at (r : N) : (r < 62)%N -> digit_of (char_at r) = Some r.
Proof.
  intros Hr. rewrite <- (N2Nat.id r).
  assert (Hn : (N.to_nat r < 62)%nat) by lia.
  generalize dependent (N.to_nat r). clear. intros n Hn.
  do 62 (destruct n as [|n]; [reflexivity|]). lia.
Qed.

Lemma char_at_not_zero (r : N) : (0 < r < 62)%N -> char_at r <> "0"%char.
Proof.
  intros Hr. rewrite <- (N2Nat.id r).
  assert (Hn : (0 < N.to_nat r < 62)%nat) by lia.
  generalize dependent (N.to_nat r). clear. intros n Hn.
  destruct n as [|n]; [lia|].
  do 61 (destruct n as [|n]; [discriminate|]). lia.
Qed.

Lemma encode_loop_value (fuel : nat) :
  forall (num : N) (acc : list ascii),
    (num < 2 ^ N.of_nat fuel)%N ->
    fold_left value_step (encode_loop fuel num acc) (Some 0%N)
    = fold_left value_step acc (Some num).
Proof.
  induction fuel as [|f IH]; intros num acc Hlt.
  - simpl in *. replace num with 0%N by lia. reflexivity.
  - cbn [encode_loop]. destruct (num =? 0)%N eqn:E.
    + apply N.eqb_eq in E. now subst.
    + apply N.eqb_neq in E.
      rewrite IH by (apply div_fuel; [unfold base; simpl; lia | exact Hlt]).
      cbn [fold_left]. unfold value_step at 2.
      assert (Hb : base = 62%N) by reflexivity.
      rewrite digit_of_char_at by (rewrite Hb; apply N.mod_lt; lia).
      f_equal. f_equal. rewrite Hb. symmetry. apply N.div_mod. lia.
Qed.

Lemma encode_loop_head (fuel : nat) :
  forall (num : N) (acc : list ascii),
    (num < 2 ^ N.of_nat fuel)%N -> num <> 0%N ->
    exists d rest, encode_loop fuel num acc = char_at d :: rest /\ (0 < d < 62)%N.
Proof.
  induction fuel as [|f IH]; intros num acc Hlt Hnz.
  - simpl in Hlt. lia.
  - cbn [encode_loop]. destruct (num =? 0)%N eqn:E; [apply N.eqb_eq in E; lia|].
    assert (Hb : base = 62%N) by reflexivity.
    destruct (N.eq_dec (num / base)%N 0%N) as [Hz | Hz].
    + rewrite Hz. exists (num mod base)%N, acc. split.
      * destruct f; reflexivity.
      * rewrite Hb in *. apply N.div_small_iff in Hz; [|lia].
        rewrite N.mod_small by lia. lia.
    + apply IH; [|exact Hz]. apply div_fuel; [rewrite Hb; lia | exact Hlt].
Qed.

Lemma encode_loop_alphabet (fuel : nat) :
  forall (num : N) (acc : list ascii),
    Forall (fun c => exists d, (d < 62)%N /\ c = char_at d) acc ->
    Forall (fun c => exists d, (d < 62)%N /\ c = char_at d) (encode_loop fuel num acc).
Proof.
  induction fuel as [|f IH]; intros num acc Hacc; [exact Hacc|].
  cbn [encode_loop]. destruct (num =? 0)%N; [exact Hacc|].
  apply IH. constructor; [|exact Hacc].
  exists (num mod base)%N. split; [|reflexivity].
  apply N.mod_lt. discriminate.
Qed.

Lemma chars_of_chars (l : list ascii) : Str.chars (Str.of_chars l) = l.
Proof. apply list_ascii_of_string_of_list_ascii. Qed.

Lemma of_chars_chars (s : string) : Str.of_chars (Str.chars s) = s.
Proof. apply string_of_list_ascii_of_string. Qed.

(** base62_encode writes the numeral of its argument. *)
Lemma base62_encode_value (n : N) : base62_value (base62_encode n) = Some n.
Proof.
  unfold base62_value, base62_encode.
  destruct (n =? 0)%N eqn:E.
  - apply N.eqb_eq in E. subst. reflexivity.
  - rewrite chars_of_chars.
    change (fold_left value_step (encode_loop (N.size_nat n) n []) (Some 0%N) = Some n).
    rewrite encode_loop_value by apply size_nat_bound. reflexivity.
Qed.

(** Its characters are in the alphabet, and the first one is not the
    zero digit unless the number is zero. *)
Lemma base62_encode_canonical (n : N) :
  Forall (fun c => exists d, (d < 62)%N /\ c = char_at d) (Str.chars (base62_encode n))
  /\ (n <> 0%N -> exists c rest,
        Str.chars (base62_encode n) = c :: rest /\ c <> "0"%char).
Proof.
  unfold base62_encode. destruct (n =? 0)%N eqn:E.
  - apply N.eqb_eq in E. subst. split; [|congruence].
    constructor; [|constructor]. exists 0%N. split; [lia | reflexivity].
  - apply N.eqb_neq in E. rewrite chars_of_chars. split.
    + apply encode_loop_alphabet. constructor.
    + intros _.
      destruct (encode_loop_head (N.size_nat n) n [] (size_nat_bound n) E)
        as (d & rest & Heq & Hd).
      exists (char_at d), rest. split; [exact Heq | now apply char_at_not_zero].
Qed.

End Base62Facts.

Lemma int_from_bytes_big_acc (b : list ascii) :
  forall acc : N,
    fold_left (fun acc c => (256 * acc + Str.code c)%N) b acc
    = (acc * 256 ^ N.of_nat (List.length b) + Cpid.big_endian b)%N.
Proof.
  induction b as [|c rest IH]; intros acc.
  - cbn [fold_left List.length Cpid.big_endian]. change (N.of_nat 0) with 0%N.
    rewrite N.pow_0_r. lia.
  - cbn [fold_left List.length Cpid.big_endian]. rewrite IH.
    rewrite Nat2N.inj_succ, N.pow_succ_r by lia. lia.
Qed.

Lemma int_from_bytes_big_spec (b : list ascii) :
  Cpid.int_from_bytes_big b = Cpid.big_endian b.
Proof.
  unfold Cpid.int_from_bytes_big. rewrite int_from_bytes_big_acc. lia.
Qed.

Lemma digit_of_alphabet (c : ascii) : Cpid.digit_of c = Cpid.alphabet_value c.
Proof.
  destruct c as [b0 b1 b2 b3 b4 b5 b6 b7].
  destruct b0, b1, b2, b3, b4, b5, b6, b7; vm_compute; reflexivity.
Qed.

Lemma base62_value_numeral (l : list ascii) :
  forall acc : N,
    fold_left Cpid.value_step l (Some acc) = Cpid.numeral_value_from acc l.
Proof.
  induction l as [|c rest IH]; intros acc; cbn [fold_left Cpid.numeral_value_from].
  - reflexivity.
  - unfold Cpid.value_step at 2. rewrite digit_of_alphabet.
    destruct (Cpid.alphabet_value c) as [d|]; [apply IH|].
    clear IH. induction rest as [|x r IHr]; [reflexivity | exact IHr].
Qed.

(** C9: when the upstream layer gives no cpid, the derived cpid is the
    first 20 characters of the base62 numeral (alphabet 0-9a-zA-Z, most
    significant digit first, in its shortest form) of
    SHA-256(tx_hash | "|" | block_height) read as a big-endian integer:
    there is a numeral that denotes that integer, and the cpid is made
    of its first 20 characters. *)
Theorem C9_derived_cpid_prefix (sha256 : string -> list ascii)
    (block_index : Z) (tx_hash : string) :
  exists numeral cpid,
    Cpid.derived_cpid sha256 None block_index tx_hash = Ret cpid
    /\ Cpid.numeral_value numeral
       = Some (Cpid.big_endian
                 (sha256 (String.append tx_hash
                            (String.append "|" (Str.of_Z block_index)))))
    /\ Cpid.canonical numeral
    /\ Str.chars cpid = firstn 20 (Str.chars numeral).
Proof.
  set (h := Cpid.int_from_bytes_big
              (sha256 (String.append tx_hash (String.append "|" (Str.of_Z block_index))))).
  exists (Cpid.base62_encode h), (Cpid.prefix 20 (Cpid.base62_encode h)).
  split; [reflexivity|]. split; [|split].
  - unfold Cpid.numeral_value. rewrite <- base62_value_numeral.
    fold (Cpid.base62_value (Cpid.base62_encode h)).
    rewrite base62_encode_value. unfold h. rewrite int_from_bytes_big_spec. reflexivity.
  - unfold Cpid.canonical. destruct (N.eq_dec h 0%N) as [E|E].
    + left. rewrite E. reflexivity.
    + right. apply base62_encode_canonical. exact E.
  - unfold Cpid.prefix. apply chars_of_chars.
Qed.

(** ** Digits and numerals *)

Section DigitFacts.
Import Dec.

Lemma ndigits_aux_le (fuel : nat) :
  forall (c : N) (k : nat),
    (1 <= k)%nat -> (c < 10 ^ N.of_nat k)%N -> (ndigits_aux fuel c <= k)%nat.
Proof.
  induction fuel as [|f IH]; intros c k Hk Hc; [exact Hk|].
  cbn [ndigits_aux]. destruct (c <? 10)%N eqn:E; [exact Hk|].
  apply N.ltb_ge in E.
  destruct k as [|k]; [lia|].
  destruct k as [|k]; [simpl in Hc; lia|].
  apply le_n_S. apply IH; [lia|].
  rewrite Nat2N.inj_succ, N.pow_succ_r' in Hc.
  apply N.Div0.div_lt_upper_bound. exact Hc.
Qed.

Lemma ndigits_le (c : N) (k : nat) :
  (1 <= k)%nat -> (c < 10 ^ N.of_nat k)%N -> (ndigits c <= k)%nat.
Proof. apply ndigits_aux_le. Qed.

Lemma ndigits_pos (c : N) : (1 <= ndigits c)%nat.
Proof.
  unfold ndigits. destruct (N.size_nat c); cbn [ndigits_aux]; [lia|].
  destruct (c <? 10)%N; lia.
Qed.

(** The coefficient has no more digits than [ndigits] says. *)
Lemma ndigits_aux_upper (fuel : nat) :
  forall c : N, (c < 2 ^ N.of_nat fuel)%N -> (c < 10 ^ N.of_nat (ndigits_aux fuel c))%N.
Proof.
  induction fuel as [|f IH]; intros c Hc.
  - simpl in *. lia.
  - cbn [ndigits_aux]. destruct (c <? 10)%N eqn:E.
    + apply N.ltb_lt in E. simpl. lia.
    + apply N.ltb_ge in E.
      assert (Hq : (c / 10 < 2 ^ N.of_nat f)%N) by (apply div_fuel; [lia | exact Hc]).
      specialize (IH _ Hq).
      rewrite Nat2N.inj_succ, N.pow_succ_r'.
      pose proof (N.div_mod c 10 ltac:(lia)) as Hdm.
      pose proof (N.mod_lt c 10 ltac:(lia)) as Hm.
      lia.
Qed.

Lemma ndigits_upper (c : N) : (c < 10 ^ N.of_nat (ndigits c))%N.
Proof. apply ndigits_aux_upper, size_nat_bound. Qed.

(** ... and no fewer, when it is not zero. *)
Lemma ndigits_aux_lower (fuel : nat) :
  forall c : N, (c <> 0)%N -> (10 ^ N.of_nat (ndigits_aux fuel c - 1) <= c)%N.
Proof.
  induction fuel as [|f IH]; intros c Hc.
  - simpl. lia.
  - cbn [ndigits_aux]. destruct (c <? 10)%N eqn:E.
    + simpl. lia.
    + apply N.ltb_ge in E.
      assert (Hq : (c / 10 <> 0)%N).
      { intros Hz. apply N.div_small_iff in Hz; lia. }
      specialize (IH _ Hq).
      replace (S (ndigits_aux f (c / 10)) - 1)%nat
        with (S (ndigits_aux f (c / 10) - 1))%nat.
      2:{ assert (1 <= ndigits_aux f (c / 10))%nat; [|lia].
          destruct f; cbn [ndigits_aux]; [lia|]. destruct (c / 10 <? 10)%N; lia. }
      rewrite Nat2N.inj_succ, N.pow_succ_r'.
      pose proof (N.div_mod c 10 ltac:(lia)) as Hdm.
      set (x := (10 ^ N.of_nat (ndigits_aux f (c / 10) - 1))%N) in *.
      set (q := (c / 10)%N) in *. set (r := (c mod 10)%N) in *. lia.
Qed.

Lemma ndigits_lower (c : N) : (c <> 0)%N -> (10 ^ N.of_nat (ndigits c - 1) <= c)%N.
Proof. apply ndigits_aux_lower. Qed.

Lemma digit_val_bound (c : ascii) : Str.isdecimal c = true -> (Str.digit_val c <= 9)%N.
Proof.
  unfold Str.isdecimal, Str.digit_val. intros H.
  apply andb_true_iff in H. destruct H as [H1 H2].
  apply N.leb_le in H1, H2. lia.
Qed.

Lemma N_of_digits_fold_bound (l : list ascii) :
  forall acc : N,
    forallb Str.isdecimal l = true ->
    (fold_left (fun a c => 10 * a + Str.digit_val c) l acc
     < (acc + 1) * 10 ^ N.of_nat (List.length l))%N.
Proof.
  induction l as [|c l IH]; intros acc Hl.
  - simpl. lia.
  - simpl in Hl. apply andb_true_iff in Hl. destruct Hl as [Hc Hl].
    cbn [fold_left List.length]. specialize (IH (10 * acc + Str.digit_val c)%N Hl).
    pose proof (digit_val_bound c Hc) as Hd.
    rewrite Nat2N.inj_succ, N.pow_succ_r'.
    assert (0 < 10 ^ N.of_nat (List.length l))%N
      by (apply N.neq_0_lt_0, N.pow_nonzero; lia).
    nia.
Qed.

Lemma N_of_digits_bound (l : list ascii) :
  forallb Str.isdecimal l = true ->
  (Str.N_of_digits l < 10 ^ N.of_nat (List.length l))%N.
Proof.
  intros Hl. pose proof (N_of_digits_fold_bound l 0%N Hl) as H.
  unfold Str.N_of_digits. lia.
Qed.

End DigitFacts.

(** ** Decimal(str) on plain numerals *)

Section ParserFacts.
Import Dec DecParse Json.

Lemma chars_append (a b : string) :
  Str.chars (String.append a b) = Str.chars a ++ Str.chars b.
Proof.
  induction a as [|c a IH]; [reflexivity|].
  change (c :: Str.chars (String.append a b) = c :: (Str.chars a ++ Str.chars b)).
  now f_equal.
Qed.

Lemma plain_char_facts (c : ascii) :
  plain_char c = true ->
  Str.isspace c = false /\ Ascii.eqb c "_" = false /\
  Ascii.eqb (Str.lower_char c) "e" = false.
Proof.
  destruct c as [[] [] [] [] [] [] [] []]; intros H;
    try discriminate H; repeat split; reflexivity.
Qed.

Lemma decimal_is_plain (c : ascii) : Str.isdecimal c = true -> plain_char c = true.
Proof. unfold plain_char. intros ->. reflexivity. Qed.

Lemma forallb_weaken (p q : ascii -> bool) (l : list ascii) :
  (forall c, p c = true -> q c = true) -> forallb p l = true -> forallb q l = true.
Proof.
  intros Hpq. induction l as [|c l IH]; [reflexivity|]. simpl. intros H.
  apply andb_true_iff in H. destruct H as [Hc Hl].
  now rewrite (Hpq c Hc), (IH Hl).
Qed.

Lemma decimal_not_sign (c : ascii) :
  Str.isdecimal c = true ->
  c <> "-"%char /\ c <> "+"%char /\ c <> "."%char.
Proof.
  destruct c as [[] [] [] [] [] [] [] []]; intros H;
    try discriminate H; repeat split; discriminate.
Qed.

Lemma drop_while_head (p : ascii -> bool) (l : list ascii) :
  forallb (fun c => negb (p c)) l = true -> Str.drop_while p l = l.
Proof.
  destruct l as [|c l]; [reflexivity|]. simpl. intros H.
  apply andb_true_iff in H. destruct H as [H _].
  apply negb_true_iff in H. now rewrite H.
Qed.

Lemma strip_no_space (l : list ascii) :
  forallb (fun c => negb (Str.isspace c)) l = true -> Str.strip l = l.
Proof.
  intros H. unfold Str.strip.
  rewrite (drop_while_head _ l H).
  rewrite drop_while_head; [apply rev_involutive|].
  rewrite forallb_forall in *. intros c Hc. apply H. now apply in_rev.
Qed.

Lemma filter_all (p : ascii -> bool) (l : list ascii) :
  forallb p l = true -> filter p l = l.
Proof.
  induction l as [|c l IH]; [reflexivity|]. simpl. intros H.
  apply andb_true_iff in H. destruct H as [Hc Hl].
  rewrite filter_cons. rewrite (IH Hl).
  destruct (decide (p c)) as [|Hn]; [reflexivity|].
  exfalso. apply Hn. now rewrite Hc.
Qed.

Lemma span_decimal (ds rest : list ascii) :
  forallb Str.isdecimal ds = true ->
  match rest with [] => True | c :: _ => Str.isdecimal c = false end ->
  Str.span Str.isdecimal (ds ++ rest) = (ds, rest).
Proof.
  intros Hds Hrest. induction ds as [|d ds IH].
  - destruct rest as [|c rest]; [reflexivity|]. simpl. now rewrite Hrest.
  - simpl in Hds. apply andb_true_iff in Hds. destruct Hds as [Hd Hds].
    simpl. rewrite Hd, (IH Hds). reflexivity.
Qed.

Lemma digits_spec (l : list ascii) :
  Json.digits l = true -> l <> [] /\ forallb Str.isdecimal l = true.
Proof.
  destruct l as [|c l]; [discriminate|]. intros H. split; [discriminate | exact H].
Qed.

(** A numeral made of an optional minus sign, digits and an optional
    fraction is read by the constructor as it is written. *)
Lemma of_string_plain (neg : bool) (ds fs : list ascii) :
  Json.digits ds = true ->
  forallb Str.isdecimal fs = true ->
  Z.of_nat (List.length (ds ++ fs)) < MAX_EMAX ->
  of_string (Str.of_chars ((if neg then ["-"%char] else []) ++ ds ++
                           match fs with [] => [] | _ => "."%char :: fs end))
  = Some (DFin (FDec neg (Str.N_of_digits (ds ++ fs)) (- Z.of_nat (List.length fs)))).
Proof.
  intros Hds Hfs Hlen.
  destruct (digits_spec ds Hds) as [Hne Hall].
  set (body := ds ++ match fs with [] => [] | _ => "."%char :: fs end).
  assert (Hplain : forallb plain_char ((if neg then ["-"%char] else []) ++ body) = true).
  { rewrite forallb_app. apply andb_true_iff. split; [destruct neg; reflexivity|].
    unfold body. rewrite forallb_app. apply andb_true_iff. split.
    - exact (forallb_weaken _ _ _ decimal_is_plain Hall).
    - destruct fs as [|f fs]; [reflexivity|].
      change (true && forallb plain_char (f :: fs) = true).
      exact (forallb_weaken _ _ _ decimal_is_plain Hfs). }
  unfold of_string. rewrite chars_of_chars.
  rewrite strip_no_space.
  2:{ apply (forallb_weaken plain_char); [|exact Hplain]. intros c Hc.
      destruct (plain_char_facts c Hc) as (-> & _). reflexivity. }
  rewrite (filter_all (fun c => negb (Ascii.eqb c "_"))).
  2:{ apply (forallb_weaken plain_char); [|exact Hplain]. intros c Hc.
      destruct (plain_char_facts c Hc) as (_ & -> & _). reflexivity. }
  assert (Hsign : parse_sign ((if neg then ["-"%char] else []) ++ body) = (neg, body)).
  { destruct neg; [reflexivity|]. simpl. unfold body.
    destruct ds as [|d ds]; [congruence|]. simpl in Hall.
    apply andb_true_iff in Hall. destruct Hall as [Hd _].
    clear - Hd. cbn [app parse_sign].
    destruct d as [[] [] [] [] [] [] [] []]; try discriminate Hd; reflexivity. }
  rewrite Hsign. unfold parse_numeric, body.
  rewrite (span_decimal ds _ Hall) by (destruct fs; [exact I | reflexivity]).
  assert (Hfp : (match (match fs with [] => [] | _ => "."%char :: fs end) with
                 | "."%char :: r => Str.span Str.isdecimal r
                 | _ => ([], match fs with [] => [] | _ => "."%char :: fs end)
                 end) = (fs, [])).
  { destruct fs as [|f fs]; [reflexivity|].
    rewrite <- (app_nil_r (f :: fs)) at 1. now apply span_decimal. }
  rewrite Hfp.
  destruct (ds ++ fs) as [|x xs] eqn:Hcat.
  { destruct ds; [congruence | discriminate]. }
  rewrite <- Hcat in *.
  replace (within_limits (Str.N_of_digits (ds ++ fs)) (0 - Z.of_nat (List.length fs)))
    with true; [now rewrite Z.sub_0_l|].
  symmetry. unfold within_limits.
  assert (Hall' : forallb Str.isdecimal (ds ++ fs) = true)
    by (rewrite forallb_app; now rewrite Hall, Hfs).
  pose proof (N_of_digits_bound _ Hall') as Hb.
  assert (Hk : (1 <= List.length (ds ++ fs))%nat) by (rewrite Hcat; simpl; lia).
  pose proof (ndigits_le _ _ Hk Hb) as Hnd.
  rewrite length_app in *. unfold MAX_EMAX in *.
  apply andb_true_iff. split; [apply Z.leb_le; lia|].
  destruct (Str.N_of_digits (ds ++ fs) =? 0)%N; apply Z.leb_le; lia.
Qed.

End ParserFacts.

(** ** json.loads with the hooks of check_format (C1) *)

Section JsonFacts.
Import Dec DecParse Json.

Lemma chars_nil (s : string) : Str.chars s = [] -> s = EmptyString.
Proof. destruct s; [reflexivity | discriminate]. Qed.

Lemma string_length_chars (s : string) : String.length s = List.length (Str.chars s).
Proof. induction s as [|c s IH]; [reflexivity|]. simpl. now f_equal. Qed.

Lemma contains_lower (c : ascii) (l : list ascii) :
  Str.contains_char c (Str.lower (Str.of_chars l))
  = existsb (fun x => Ascii.eqb c (Str.lower_char x)) l.
Proof.
  unfold Str.contains_char, Str.lower. rewrite !chars_of_chars.
  induction l as [|x l IH]; [reflexivity|]. simpl. now rewrite IH.
Qed.

Lemma plain_no_e (l : list ascii) :
  forallb plain_char l = true ->
  existsb (fun x => Ascii.eqb "e" (Str.lower_char x)) l = false.
Proof.
  induction l as [|x l IH]; [reflexivity|]. cbn [existsb forallb]. intros H.
  apply andb_true_iff in H. destruct H as [Hx Hl].
  destruct (plain_char_facts x Hx) as (_ & _ & He).
  rewrite Ascii.eqb_sym, He. now apply IH.
Qed.

(** The shape of a well-formed number token. *)
Lemma wf_integer_shape (s : string) :
  wf_integer s = true ->
  exists (neg : bool) (ds : list ascii),
    Str.chars s = (if neg then ["-"%char] else []) ++ ds /\ digits ds = true.
Proof.
  unfold wf_integer. destruct (Str.chars s) as [|c r] eqn:E; [discriminate|].
  intros H.
  destruct (Ascii.eqb c "-") eqn:Ec.
  - apply Ascii.eqb_eq in Ec. subst c. exists true, r. split; [reflexivity | exact H].
  - exists false, (c :: r). split; [reflexivity|].
    destruct c as [[] [] [] [] [] [] [] []]; try exact H; discriminate Ec.
Qed.

Lemma wf_frac_shape (s : string) :
  wf_frac s = true ->
  exists fs : list ascii,
    Str.chars s = match fs with [] => [] | _ => "."%char :: fs end /\
    forallb Str.isdecimal fs = true.
Proof.
  unfold wf_frac. destruct (Str.chars s) as [|c r] eqn:E.
  - intros _. exists []. split; reflexivity.
  - intros H. destruct (Ascii.eqb c ".") eqn:Ec.
    + apply Ascii.eqb_eq in Ec. subst c.
      destruct (digits_spec r H) as [Hne Hall].
      exists r. split; [destruct r; [congruence | reflexivity] | exact Hall].
    + destruct c as [[] [] [] [] [] [] [] []]; try discriminate H; discriminate Ec.
Qed.

Lemma token_without_exponent (t : number_token) :
  wf_token t = true -> nt_exp t = EmptyString ->
  sci_token t = false /\
  (exists d, of_string (lexeme t) = Some d) /\
  (exists d, of_string (nt_integer t) = Some d).
Proof.
  unfold wf_token. intros Hwf Hexp.
  repeat (apply andb_true_iff in Hwf; destruct Hwf as [Hwf ?]).
  destruct (wf_integer_shape _ Hwf) as (neg & ds & Hint & Hds).
  destruct (wf_frac_shape _ H1) as (fs & Hfrac & Hfs).
  destruct (digits_spec ds Hds) as [_ Hall].
  assert (Hlex : Str.chars (lexeme t)
                 = (if neg then ["-"%char] else []) ++ ds ++
                   match fs with [] => [] | _ => "."%char :: fs end).
  { unfold lexeme. rewrite !chars_append, Hint, Hfrac, Hexp. simpl.
    now rewrite app_nil_r, app_assoc. }
  apply Z.ltb_lt in H. rewrite string_length_chars, Hlex in H.
  assert (Hlen : Z.of_nat (List.length (ds ++ fs)) < MAX_EMAX).
  { rewrite !length_app in *. destruct fs, neg; simpl in *; lia. }
  split; [|split].
  - unfold sci_token. rewrite <- (of_chars_chars (lexeme t)), contains_lower, Hlex.
    apply plain_no_e. rewrite !forallb_app.
    rewrite (forallb_weaken _ _ _ decimal_is_plain Hall).
    destruct neg, fs as [|f fs]; try reflexivity;
      change (true && (true && forallb plain_char (f :: fs)) = true)
      || change (true && forallb plain_char (f :: fs) = true);
      now rewrite (forallb_weaken _ _ _ decimal_is_plain Hfs).
  - rewrite <- (of_chars_chars (lexeme t)), Hlex.
    rewrite (of_string_plain neg ds fs Hds Hfs Hlen). eauto.
  - rewrite <- (of_chars_chars (nt_integer t)), Hint.
    pose proof (of_string_plain neg ds [] Hds eq_refl) as Hp.
    rewrite !app_nil_r in Hp. rewrite Hp; [eauto|].
    rewrite length_app in Hlen. lia.
Qed.

Lemma token_with_exponent (t : number_token) :
  wf_token t = true -> nt_exp t <> EmptyString ->
  sci_token t = true /\ is_float_token t = true.
Proof.
  unfold wf_token. intros Hwf Hexp.
  repeat (apply andb_true_iff in Hwf; destruct Hwf as [Hwf ?]).
  split.
  - unfold sci_token. rewrite <- (of_chars_chars (lexeme t)), contains_lower.
    unfold lexeme. rewrite !chars_append, !existsb_app.
    unfold wf_exp in H0. destruct (Str.chars (nt_exp t)) as [|c r] eqn:E.
    + apply chars_nil in E. contradiction.
    + apply andb_true_iff in H0. destruct H0 as [Hc _].
      cbn [existsb]. rewrite Ascii.eqb_sym, Hc. now rewrite !orb_true_r.
  - unfold is_float_token. destruct (nt_exp t); [contradiction|].
    simpl. apply orb_true_r.
Qed.

(** What the hooks make of one well-formed number token. *)
Lemma loads_number (t : number_token) :
  wf_token t = true ->
  (sci_token t = true -> loads (RNumber t) = Raise ValueError) /\
  (sci_token t = false -> exists v, loads (RNumber t) = Ret v).
Proof.
  intros Hwf. cbn [loads].
  destruct (string_dec (nt_exp t) EmptyString) as [He | He].
  - destruct (token_without_exponent t Hwf He) as (Hsci & (d1 & H1) & (d2 & H2)).
    rewrite Hsci. split; [discriminate|]. intros _.
    unfold parse_no_sci_float. unfold sci_token in Hsci. rewrite Hsci.
    unfold D_hook. rewrite H1, H2. destruct (is_float_token t); eauto.
  - destruct (token_with_exponent t Hwf He) as (Hsci & Hfl).
    rewrite Hsci, Hfl. split; [|discriminate]. intros _.
    unfold parse_no_sci_float. unfold sci_token in Hsci. now rewrite Hsci.
Qed.

(** Induction on a scanned text, through its arrays and objects. *)
Lemma raw_nested_ind (P : raw -> Prop) :
  P RNull ->
  (forall b, P (RBool b)) ->
  (forall t, P (RNumber t)) ->
  (forall c, P (RConstant c)) ->
  (forall s, P (RString s)) ->
  (forall items, Forall P items -> P (RArray items)) ->
  (forall members, Forall (fun m => P (snd m)) members -> P (RObject members)) ->
  forall j, P j.
Proof.
  intros Hnull Hbool Hnum Hconst Hstr Harr Hobj.
  fix IH 1. intros [| b | t | c | s | items | members].
  - exact Hnull.
  - apply Hbool.
  - apply Hnum.
  - apply Hconst.
  - apply Hstr.
  - apply Harr. revert items. fix IHl 1. intros [|x xs].
    + constructor.
    + constructor; [apply IH | apply IHl].
  - apply Hobj. revert members. fix IHl 1. intros [|[k x] xs].
    + constructor.
    + constructor; [apply IH | apply IHl].
Qed.

Lemma map_outcome_first_error {A B : Type} (f : A -> outcome B) (bad : A -> bool)
    (l : list A) :
  Forall (fun x => (bad x = true -> f x = Raise ValueError) /\
                   (bad x = false -> exists v, f x = Ret v)) l ->
  (existsb bad l = true -> map_outcome f l = Raise ValueError) /\
  (existsb bad l = false -> exists vs, map_outcome f l = Ret vs).
Proof.
  induction 1 as [|x l [Hbad Hok] _ [IHbad IHok]].
  - split; [discriminate | intros _; now exists []].
  - cbn [existsb map_outcome]. destruct (bad x) eqn:E.
    + split; [|discriminate]. intros _. now rewrite (Hbad eq_refl).
    + destruct (Hok eq_refl) as [v Hv]. rewrite Hv. cbn [bind orb]. split.
      * intros Hl. now rewrite (IHbad Hl).
      * intros Hl. destruct (IHok Hl) as [vs Hvs]. rewrite Hvs. now exists (v :: vs).
Qed.

(** Decoding a well-formed text ends in the ValueError of
    parse_no_sci_float when a number literal holds [e] or [E], and in a
    value otherwise. *)
Lemma loads_outcome (j : raw) :
  wf j = true ->
  (has_sci_literal j = true -> loads j = Raise ValueError) /\
  (has_sci_literal j = false -> exists v, loads j = Ret v).
Proof.
  induction j as [| b | t | c | s | items IH | members IH] using raw_nested_ind;
    intros Hwf; try (split; [discriminate | intros _; eexists; reflexivity]).
  - apply loads_number. exact Hwf.
  - cbn [wf] in Hwf. cbn [has_sci_literal loads].
    assert (Hall : Forall (fun x => (has_sci_literal x = true -> loads x = Raise ValueError) /\
                                    (has_sci_literal x = false -> exists v, loads x = Ret v))
                          items).
    { rewrite forallb_forall in Hwf. rewrite Forall_forall in *.
      intros x Hx. apply IH; [exact Hx | now apply Hwf, list_elem_of_In]. }
    destruct (map_outcome_first_error loads has_sci_literal items Hall) as [Hbad Hok].
    split; intros Hs.
    + now rewrite (Hbad Hs).
    + destruct (Hok Hs) as [vs ->]. eexists. reflexivity.
  - cbn [wf] in Hwf. cbn [has_sci_literal loads].
    set (f := fun m : string * raw =>
                match m with (k, x) => let* v := loads x in Ret (k, v) end).
    assert (Hall : Forall (fun m => (has_sci_literal (snd m) = true -> f m = Raise ValueError) /\
                                    (has_sci_literal (snd m) = false -> exists v, f m = Ret v))
                          members).
    { rewrite forallb_forall in Hwf. rewrite Forall_forall in *.
      intros [k x] Hx. simpl.
      destruct (IH (k, x) Hx (Hwf (k, x) ltac:(now apply list_elem_of_In))) as [Hb Ho].
      simpl in Hb, Ho. split; intros Hs.
      - now rewrite (Hb Hs).
      - destruct (Ho Hs) as [v ->]. eexists. reflexivity. }
    destruct (map_outcome_first_error f (fun m => has_sci_literal (snd m)) members Hall)
      as [Hbad Hok].
    split; intros Hs.
    + now rewrite (Hbad Hs).
    + destruct (Hok Hs) as [vs ->]. eexists. reflexivity.
Qed.

End JsonFacts.

(** C1 (as stated): for every SRC-20 payload in which a numeric field is a
    string holding 'e' or 'E', check_format returns None, at every block
    height.  This fails: the MINT payload whose amt is the string "1e3" is
    returned by check_format, at the p2wsh activation height (where
    Decimal reads "1e3" as 1000) and below it (where the 'e' is stripped
    and "13" is read), both as a dict and as a JSON text. *)
Lemma C1_counterexample :
  Samples.mint_payload (PStr "1e3") !! "amt"%string = Some (PStr "1e3")
  /\ Str.contains_char "e" "1e3" = true
  /\ (forall h, h = 833000 \/ h = 0 ->
        exists d, Format.check_format Samples.cfg Samples.decode_ascii
                    (Format.InDict (Samples.mint_payload (PStr "1e3"))) "tx" h
                  = Ret (Some d))
  /\ (forall h, h = 833000 \/ h = 0 ->
        exists d, Format.check_format Samples.cfg Samples.decode_ascii
                    (Format.InText (Some (Samples.mint_text (Json.RString "1e3")))) "tx" h
                  = Ret (Some d)).
Proof.
  split; [reflexivity|]. split; [reflexivity|].
  split; intros h [-> | ->]; eexists; vm_compute; reflexivity.
Qed.

(** C1 (amended): for every SRC-20 payload given as a JSON text in which a
    number literal holds the character 'e' or 'E', check_format returns
    None, at every block height: parse_no_sci_float, the parse_float hook
    of json.loads, raises the ValueError that check_format turns into
    None.  (A numeric field that is a quoted string is not judged by this
    rule.) *)
Theorem C1_sci_literal_rejected (cfg : config) (decode_utf8 : string -> option string)
    (doc : Json.raw) (tx_hash : string) (block_index : Z) :
  Json.wf doc = true ->
  Json.has_sci_literal doc = true ->
  Format.check_format cfg decode_utf8 (Format.InText (Some doc)) tx_hash block_index
  = Ret None.
Proof.
  intros Hwf Hsci. unfold Format.check_format.
  destruct (loads_outcome doc Hwf) as [Hbad _].
  now rewrite (Hbad Hsci).
Qed.

(** The amended C1 at work: the MINT whose amt is the literal 1e3 is
    refused at height 833000. *)
Lemma C1_witness :
  Json.wf (Samples.mint_text (Json.RNumber (Json.NumTok "1" "" "e3"))) = true
  /\ Json.has_sci_literal (Samples.mint_text (Json.RNumber (Json.NumTok "1" "" "e3"))) = true
  /\ Format.check_format Samples.cfg Samples.decode_ascii
       (Format.InText (Some (Samples.mint_text (Json.RNumber (Json.NumTok "1" "" "e3")))))
       "tx" 833000 = Ret None.
Proof.
  split; [reflexivity|]. split; [reflexivity|].
  apply C1_sci_literal_rejected; reflexivity.
Defined.

(** ** The numeric checks of check_format (C8) *)

Section FormatFacts.
Import Dec DecParse Format.
Context (cfg : config) (decode_utf8 : string -> option string).

(** The range test, read as an interval of numbers. *)
Lemma in_range_spec (v : Decimal) :
  in_range v = true <-> exists d, v = DFin d /\ between 0 (2 ^ 64 - 1) d.
Proof.
  destruct v as [d | [|] | s g];
    unfold in_range; cbn [is_nan DecParse.le orb andb negb].
  - rewrite negb_involutive. unfold leb, cmp.
    change (fexp zero) with 0. change (fexp uint64_max) with 0.
    rewrite (Z.min_comm 0 (fexp d)).
    assert (Hz : aligned (Z.min (fexp d) 0) zero = 0) by (unfold aligned; simpl; lia).
    assert (Hm : aligned (Z.min (fexp d) 0) uint64_max
                 = (2 ^ 64 - 1) * 10 ^ (- Z.min (fexp d) 0)).
    { unfold aligned. cbn [fsign fcoef fexp uint64_max of_Z].
      change (2 ^ 64 - 1 <? 0) with false. cbv iota.
      rewrite N2Z.inj_abs_N, Z.abs_eq by lia. now rewrite Z.sub_0_l. }
    rewrite Hz, Hm.
    assert (Hb : between 0 (2 ^ 64 - 1) d <->
                 0 <= aligned (Z.min (fexp d) 0) d
                 <= (2 ^ 64 - 1) * 10 ^ (- Z.min (fexp d) 0)).
    { unfold between. cbv zeta. now rewrite Z.mul_0_l. }
    set (x := aligned (Z.min (fexp d) 0) d) in *.
    set (y := (2 ^ 64 - 1) * 10 ^ (- Z.min (fexp d) 0)) in *.
    clearbody x y. split.
    + intros H. apply andb_true_iff in H. destruct H as [H1 H2].
      exists d. split; [reflexivity|]. apply Hb.
      destruct (Z.compare_spec 0 x); try discriminate H1;
        destruct (Z.compare_spec x y); try discriminate H2; lia.
    + intros (d' & Hd & Hd'). inversion Hd; subst d'. apply Hb in Hd'.
      destruct (Z.compare_spec 0 x); destruct (Z.compare_spec x y);
        try reflexivity; lia.
  - split; [discriminate | intros (d & Hd & _); discriminate].
  - split; [discriminate | intros (d & Hd & _); discriminate].
  - split; [discriminate | intros (d & Hd & _); discriminate].
Qed.

Lemma check_key_spec (h : Z) (d : gmap string pyval) (key : string) :
  check_key cfg h d key = true ->
  exists value v,
    d !! key = Some value /\ numeric_type value = true /\
    to_decimal cfg h value = Some (DFin v) /\ between 0 (2 ^ 64 - 1) v.
Proof.
  unfold check_key. destruct (d !! key) as [value|]; [|discriminate].
  intros H.
  assert (Hv : exists v, to_decimal cfg h value = Some v /\ in_range v = true).
  { destruct value; try discriminate H;
      destruct (to_decimal cfg h _) as [v|]; try discriminate H; eauto. }
  destruct Hv as (v & Hto & Hr).
  apply in_range_spec in Hr. destruct Hr as (x & -> & Hx).
  exists value, x. split; [reflexivity|]. split; [|split; assumption].
  destruct value; try reflexivity; discriminate Hto.
Qed.

Lemma check_src20_accepts (h : Z) (d d' : gmap string pyval) :
  check_src20 cfg decode_utf8 h d = Ret (Some d') ->
  numeric_checks cfg h d' = true /\ d' !! "p"%string = d !! "p"%string.
Proof.
  unfold check_src20.
  destruct (str_method_target _) as [t|]; [|discriminate]. cbn [bind].
  destruct (convert_to_utf8_string decode_utf8 t) as [tv|]; [|discriminate]. cbn [bind].
  destruct (_ || _ || _); [discriminate|].
  destruct (numeric_checks cfg h _) eqn:E; [|discriminate].
  intros H. inversion H; subst d'. split; [exact E|].
  now rewrite lookup_insert_ne.
Qed.

Lemma check_dict_accepts (h : Z) (d d' : gmap string pyval) (p : string) :
  check_dict cfg decode_utf8 h d = Ret (Some d') ->
  d' !! "p"%string = Some (PStr p) -> Str.lower p = "src-20"%string ->
  numeric_checks cfg h d' = true.
Proof.
  unfold check_dict. intros H Hp Hlow.
  destruct (d !! "p"%string) as [[| | | | | q | |]|] eqn:Eq; try discriminate H.
  cbn [str_method_target bind] in H.
  destruct (String.eqb (Str.lower q) "src-721") eqn:E721.
  - inversion H; subst d'. rewrite Eq in Hp. inversion Hp; subst q.
    rewrite Hlow in E721. discriminate.
  - destruct (String.eqb (Str.lower q) "src-20"); [|discriminate].
    now destruct (check_src20_accepts h d d' H).
Qed.

Lemma check_format_accepts (input : cf_input) (tx_hash : string) (h : Z)
    (d' : gmap string pyval) (p : string) :
  check_format cfg decode_utf8 input tx_hash h = Ret (Some d') ->
  d' !! "p"%string = Some (PStr p) -> Str.lower p = "src-20"%string ->
  numeric_checks cfg h d' = true.
Proof.
  unfold check_format. intros H Hp Hlow.
  destruct input as [[doc|] | d |]; try discriminate H.
  - destruct (Json.loads doc) as [[| | | | | | |ms] | []]; try discriminate H.
    exact (check_dict_accepts h _ d' p H Hp Hlow).
  - exact (check_dict_accepts h d d' p H Hp Hlow).
Qed.

End FormatFacts.

(** C8 (as stated): check_format accepts a checked numeric value only when
    it is a string, int, float or Decimal whose value lies in
    [0, 2^64 - 1].  This fails for a float: the MINT whose amt is the
    binary64 number -2^-30, which is below zero, is returned by
    check_format, because the float is judged by its rendering
    "-0.000000". *)
Lemma C8_counterexample :
  valid_binary 53 1024 Samples.tiny_negative = true
  /\ SFltb Samples.tiny_negative (S754_zero false) = true
  /\ Format.format_float_f Samples.tiny_negative = "-0.000000"%string
  /\ exists d,
       Format.check_format Samples.cfg Samples.decode_ascii
         (Format.InDict (Samples.mint_payload (PFloat Samples.tiny_negative))) "tx" 833000
       = Ret (Some d)
       /\ d !! "amt"%string = Some (PFloat Samples.tiny_negative)
       /\ In "amt"%string (Format.checked_keys d).
Proof.
  split; [reflexivity|]. split; [reflexivity|]. split; [vm_compute; reflexivity|].
  eexists. split; [vm_compute; reflexivity|]. split; [reflexivity|].
  vm_compute. tauto.
Qed.

(** C8 (amended): check_format returns an SRC-20 payload only when every
    checked numeric value is a string, int, float or Decimal that the code
    converts to a Decimal which is not NaN and lies in [0, 2^64 - 1],
    where the conversion is Decimal(s) for a string at or above the p2wsh
    activation, Decimal of the string with every character other than
    digits and '.' stripped below it, 0 for the empty string, and
    Decimal(format(x, "f")), the rendering with six decimals, for a
    float; in particular amt = 2^64 - 1 passes the check and amt = 2^64
    does not. *)
Theorem C8_numeric_fields_in_range (cfg : config) (decode_utf8 : string -> option string) :
  (forall (input : Format.cf_input) (tx_hash : string) (h : Z)
          (d : gmap string pyval) (p key : string),
     Format.check_format cfg decode_utf8 input tx_hash h = Ret (Some d) ->
     d !! "p"%string = Some (PStr p) -> Str.lower p = "src-20"%string ->
     In key (Format.checked_keys d) ->
     exists value v,
       d !! key = Some value /\ Format.numeric_type value = true /\
       Format.to_decimal cfg h value = Some (Dec.DFin v) /\
       Dec.between 0 (2 ^ 64 - 1) v)
  /\ (forall (h : Z) (s : string),
        Format.to_decimal cfg h (PStr s) =
          if String.eqb s "" then Some (Dec.DFin Dec.zero)
          else if CP_P2WSH_FEAT_BLOCK_START cfg <=? h then DecParse.of_string s
          else DecParse.of_string
                 (Str.of_chars (filter (fun c => Str.isdigit c || Ascii.eqb c ".")
                                       (Str.chars s))))
  /\ (forall (h : Z) (f : spec_float),
        Format.to_decimal cfg h (PFloat f) = DecParse.of_string (Format.format_float_f f))
  /\ (forall (h : Z) (d : gmap string pyval),
        d !! "amt"%string = Some (PInt (2 ^ 64 - 1)) \/
        d !! "amt"%string = Some (PStr "18446744073709551615") ->
        Format.check_key cfg h d "amt" = true)
  /\ (forall (h : Z) (d : gmap string pyval),
        d !! "amt"%string = Some (PInt (2 ^ 64)) \/
        d !! "amt"%string = Some (PStr "18446744073709551616") ->
        Format.check_key cfg h d "amt" = false).
Proof.
  split; [|split; [|split; [|split]]].
  - intros input tx_hash h d p key Hcf Hp Hlow Hkey.
    pose proof (check_format_accepts cfg decode_utf8 input tx_hash h d p Hcf Hp Hlow) as Hn.
    unfold Format.numeric_checks in Hn. rewrite forallb_forall in Hn.
    apply check_key_spec. apply Hn. exact Hkey.
  - intros h s. unfold Format.to_decimal, Format.strip_non_numeric, Format.keep_char.
    destruct (String.eqb s ""); destruct (CP_P2WSH_FEAT_BLOCK_START cfg <=? h); reflexivity.
  - intros h f. reflexivity.
  - intros h d [H | H]; unfold Format.check_key; rewrite H.
    + vm_compute. reflexivity.
    + unfold Format.to_decimal.
      destruct (CP_P2WSH_FEAT_BLOCK_START cfg <=? h); vm_compute; reflexivity.
  - intros h d [H | H]; unfold Format.check_key; rewrite H.
    + vm_compute. reflexivity.
    + unfold Format.to_decimal.
      destruct (CP_P2WSH_FEAT_BLOCK_START cfg <=? h); vm_compute; reflexivity.
Qed.

(** The amended C8 at work: the MINT of 2^64 - 1 is returned, and its amt
    is in range; the MINT of 2^64 is refused. *)
Lemma C8_witness :
  (exists d,
     Format.check_format Samples.cfg Samples.decode_ascii
       (Format.InDict (Samples.mint_payload (PStr "18446744073709551615"))) "tx" 833000
     = Ret (Some d)
     /\ d !! "p"%string = Some (PStr "src-20")
     /\ In "amt"%string (Format.checked_keys d)
     /\ exists value v,
          d !! "amt"%string = Some value /\ Format.numeric_type value = true /\
          Format.to_decimal Samples.cfg 833000 value = Some (Dec.DFin v) /\
          Dec.between 0 (2 ^ 64 - 1) v)
  /\ Format.check_format Samples.cfg Samples.decode_ascii
       (Format.InDict (Samples.mint_payload (PStr "18446744073709551616"))) "tx" 833000
     = Ret None.
Proof.
  split; [|vm_compute; reflexivity].
  eexists. split; [vm_compute; reflexivity|].
  split; [reflexivity|].
  assert (Hin : In "amt"%string
                  (Format.checked_keys
                     (<["tick"%string := PStr "abc"]>
                        (Samples.mint_payload (PStr "18446744073709551615")))))
    by (vm_compute; tauto).
  split; [vm_compute; tauto|].
  refine (proj1 (C8_numeric_fields_in_range Samples.cfg Samples.decode_ascii)
            (Format.InDict (Samples.mint_payload (PStr "18446744073709551615")))
            "tx"%string 833000 _ "src-20"%string "amt"%string _ _ _ _);
    [vm_compute; reflexivity | reflexivity | reflexivity | vm_compute; tauto].
Defined.

(** ** DEPLOY uniqueness (C3) *)

Section DeployFacts.
Import Dec Src20.

(** A DEPLOY is refused when the lookup returns a limit or a maximum that
    is not zero. *)
Lemma handle_deploy_rejects (p : processor) :
  truthy_opt (deploy_lim p) = true \/ truthy_opt (deploy_max p) = true ->
  handle_deploy p = set_status_and_log DE p.
Proof.
  intros H. unfold handle_deploy.
  destruct H as [-> | ->]; [reflexivity|].
  now rewrite andb_false_r.
Qed.

(** It is accepted when both are zero or absent, whether or not a DEPLOY
    record stands behind them. *)
Lemma handle_deploy_accepts (p : processor) :
  truthy_opt (deploy_lim p) = false -> truthy_opt (deploy_max p) = false ->
  valid (src20_dict (handle_deploy p)) = true /\
  status (src20_dict (handle_deploy p)) = status (src20_dict p).
Proof.
  intros Hl Hm. unfold handle_deploy. rewrite Hl, Hm. cbn [negb andb].
  unfold update_valid_deploy. destruct (dec (src20_dict p)); split; reflexivity.
Qed.

End DeployFacts.

(** C3 (the code at the failing input): the DEPLOY of a tick with max 0
    and lim 0 passes check_format and the numeric steps of the validator,
    and is accepted as valid; a second DEPLOY of the same tick, in the
    same block or in a later one, is accepted as valid again and gets no
    DE status. *)
Theorem C3_zero_deploy_accepted_twice :
  (exists d, Format.check_format Samples.cfg Samples.decode_ascii
               (Format.InDict Samples.deploy_zero_payload) "tx" 833000 = Ret (Some d))
  /\ DecParse.of_string "0" = Some (Dec.DFin Dec.zero)
  /\ Dec.quantize_int_down Dec.default_prec Dec.zero = Some Dec.zero
  /\ (exists d1 d2 db,
        Src20.process_block Samples.empty_db [Samples.deploy_zero; Samples.deploy_zero] []
        = Ret ([d1; d2], db)
        /\ Src20.valid d1 = true /\ Src20.valid d2 = true /\ Src20.status d2 = None)
  /\ (Src20.get_src20_deploy Samples.zero_db "zero" []
      = (Some Dec.zero, Some Dec.zero, Some 18)
      /\ exists d db,
           Src20.parse_src20 Samples.zero_db Samples.deploy_zero [] = Ret (true, d, db)
           /\ Src20.valid d = true /\ Src20.status d = None).
Proof.
  split; [eexists; vm_compute; reflexivity|].
  split; [reflexivity|]. split; [reflexivity|]. split.
  - do 3 eexists. split; [vm_compute; reflexivity|]. repeat split.
  - split; [reflexivity|]. do 2 eexists. split; [vm_compute; reflexivity|]. split; reflexivity.
Qed.

(** ** The exponent limits of the context *)

Section ContextLimits.
Import Dec.

Lemma fix_coef_bound (d : fdec) : (fcoef (fix_ default_prec d) < 10 ^ 28)%N.
Proof.
  unfold fix_. pose proof (ndigits_upper (fcoef d)) as Hu.
  destruct (ndigits (fcoef d) <=? default_prec)%nat eqn:Hn.
  - apply Nat.leb_le in Hn. eapply N.lt_le_trans; [exact Hu|].
    apply N.pow_le_mono_r; [lia|]. unfold default_prec in Hn. lia.
  - apply Nat.leb_gt in Hn. unfold default_prec in *.
    set (n := ndigits (fcoef d)) in *.
    set (p := (10 ^ N.of_nat (n - 28))%N).
    assert (Hp : (0 < p)%N) by (apply N.neq_0_lt_0, N.pow_nonzero; lia).
    assert (Hq : (fcoef d / p < 10 ^ 28)%N).
    { apply N.Div0.div_lt_upper_bound.
      replace (p * 10 ^ 28)%N with (10 ^ N.of_nat n)%N; [exact Hu|].
      subst p. rewrite <- N.pow_add_r. f_equal. lia. }
    set (q := (fcoef d / p)%N) in *.
    assert (Hq' : forall q' : N, (q' = q \/ q' = q + 1)%N ->
              (fcoef (if (q' =? 10 ^ N.of_nat 28)%N
                      then FDec (fsign d) (q' / 10) (fexp d + Z.of_N (N.of_nat (n - 28)) + 1)
                      else FDec (fsign d) q' (fexp d + Z.of_N (N.of_nat (n - 28))))
               < 10 ^ 28)%N).
    { intros q' Hc. destruct (q' =? 10 ^ N.of_nat 28)%N eqn:E; cbn [fcoef].
      - apply N.eqb_eq in E. rewrite E. vm_compute. reflexivity.
      - apply N.eqb_neq in E. change (N.of_nat 28) with 28%N in E. lia. }
    destruct (p / 2 <? fcoef d mod p)%N; [apply Hq'; right; reflexivity|].
    destruct ((fcoef d mod p =? p / 2)%N && N.odd q);
      apply Hq'; [right | left]; reflexivity.
Qed.

Lemma strip_zeros_spec (fuel : nat) :
  forall (c : N) (e : Z),
    e <= snd (strip_zeros fuel c e)
    /\ Z.of_N c = Z.of_N (fst (strip_zeros fuel c e)) * 10 ^ (snd (strip_zeros fuel c e) - e).
Proof.
  induction fuel as [|f IH]; intros c e; cbn [strip_zeros].
  - cbn [fst snd]. rewrite Z.sub_diag. simpl. lia.
  - destruct (c mod 10 =? 0)%N eqn:Hm.
    + apply N.eqb_eq in Hm. destruct (IH (c / 10)%N (e + 1)) as [H1 H2].
      split; [lia|].
      set (r := strip_zeros f (c / 10) (e + 1)) in *.
      replace (snd r - e) with (1 + (snd r - (e + 1))) by lia.
      rewrite Z.pow_add_r by lia. rewrite Z.pow_1_r.
      pose proof (N.div_mod c 10 ltac:(lia)) as Hdm. rewrite Hm in Hdm.
      assert (Hc : Z.of_N c = 10 * Z.of_N (c / 10)) by lia.
      rewrite Hc, H2. ring.
    + cbn [fst snd]. rewrite Z.sub_diag. simpl. lia.
Qed.

(** Inside the exponent limits the rounding of the model is the whole of
    [Decimal._fix]: no Overflow is trapped and nothing is rounded to
    [Etiny]. *)
Lemma fix_within (d : fdec) :
  within 1 d -> context_fix d = Some (fix_ default_prec d).
Proof.
  intros [Hlo Hhi]. unfold adjusted in Hhi.
  unfold context_fix, fix_.
  destruct (fcoef d =? 0)%N eqn:Hz.
  - apply N.eqb_eq in Hz. destruct d as [s c e]. cbn [fcoef fexp fsign] in *. subst c.
    change (ndigits 0) with 1%nat in *. cbn [Nat.leb default_prec].
    unfold Etiny, Emin, Emax, default_prec in *.
    rewrite Z.max_l, Z.min_l by lia. reflexivity.
  - set (n := ndigits (fcoef d)) in *.
    unfold Etop, Etiny, Emin, Emax, default_prec in *.
    destruct (Z.ltb_spec (999999 - Z.of_nat 28 + 1) (Z.of_nat n + fexp d - Z.of_nat 28));
      [lia|].
    destruct (Nat.leb_spec n 28).
    + destruct (Z.ltb_spec (fexp d)
                  (Z.max (Z.of_nat n + fexp d - Z.of_nat 28) (-999999 - Z.of_nat 28 + 1)));
        [lia | reflexivity].
    + rewrite Z.max_l by lia.
      destruct (Z.ltb_spec (fexp d) (Z.of_nat n + fexp d - Z.of_nat 28)); [|lia].
      replace (Z.to_N (Z.of_nat n + fexp d - Z.of_nat 28 - fexp d)) with (N.of_nat (n - 28))
        by lia.
      set (p := (10 ^ N.of_nat (n - 28))%N).
      set (q' := if (p / 2 <? fcoef d mod p)%N then (fcoef d / p + 1)%N
                 else if (fcoef d mod p =? p / 2)%N && N.odd (fcoef d / p)
                      then (fcoef d / p + 1)%N else (fcoef d / p)%N).
      destruct (q' =? 10 ^ N.of_nat 28)%N.
      * destruct (Z.ltb_spec (999999 - Z.of_nat 28 + 1)
                    (Z.of_nat n + fexp d - Z.of_nat 28 + 1)); [lia|].
        do 2 f_equal. lia.
      * do 2 f_equal. lia.
Qed.

Lemma fix_exp (d : fdec) :
  fexp d <= fexp (fix_ default_prec d)
  /\ fexp (fix_ default_prec d)
     <= fexp d + Z.max 0 (Z.of_nat (ndigits (fcoef d)) - 27).
Proof.
  unfold fix_. destruct (Nat.leb_spec (ndigits (fcoef d)) default_prec) as [H|H].
  - lia.
  - unfold default_prec in *.
    destruct (_ =? _)%N; cbn [fexp]; lia.
Qed.

Lemma fix_adjusted (d : fdec) :
  adjusted (fix_ default_prec d) <= adjusted d + 1.
Proof.
  destruct (Nat.leb_spec (ndigits (fcoef d)) default_prec) as [H|H].
  - unfold fix_. apply Nat.leb_le in H. rewrite H. lia.
  - unfold default_prec in H. pose proof (fix_exp d) as [_ He].
    pose proof (fix_coef_bound d) as Hc.
    assert (Hn : (ndigits (fcoef (fix_ default_prec d)) <= 28)%nat)
      by (apply ndigits_le; [lia | exact Hc]).
    unfold adjusted. lia.
Qed.

Lemma adjusted_exp (d : fdec) : fexp d <= adjusted d.
Proof. unfold adjusted. pose proof (ndigits_pos (fcoef d)). lia. Qed.

(** The coefficient aligned at [e] stays below the power of ten that the
    adjusted exponent gives. *)
Lemma aligned_bound (e : Z) (d : fdec) :
  e <= fexp d -> Z.abs (aligned e d) < 10 ^ (adjusted d + 1 - e).
Proof.
  intros He. unfold aligned, adjusted.
  pose proof (ndigits_upper (fcoef d)) as Hu.
  apply N2Z.inj_lt in Hu. rewrite N2Z.inj_pow in Hu.
  change (Z.of_N 10) with 10 in Hu. rewrite nat_N_Z in Hu.
  assert (Hp : 0 < 10 ^ (fexp d - e)) by (apply Z.pow_pos_nonneg; lia).
  replace (fexp d + Z.of_nat (ndigits (fcoef d)) - 1 + 1 - e)
    with (Z.of_nat (ndigits (fcoef d)) + (fexp d - e)) by lia.
  rewrite Z.pow_add_r by lia.
  destruct (fsign d); rewrite ?Z.abs_opp, Z.abs_eq by nia; nia.
Qed.

Lemma ndigits_Z (c : N) (k : Z) :
  1 <= k -> Z.of_N c < 10 ^ k -> Z.of_nat (ndigits c) <= k.
Proof.
  intros Hk Hc.
  assert (H : (ndigits c <= Z.to_nat k)%nat).
  { apply ndigits_le; [lia|].
    apply N2Z.inj_lt. rewrite N2Z.inj_pow. change (Z.of_N 10) with 10.
    rewrite nat_N_Z, Z2Nat.id by lia. exact Hc. }
  lia.
Qed.

Lemma add_exact_within (a b : fdec) :
  fexp (add_exact a b) = Z.min (fexp a) (fexp b)
  /\ adjusted (add_exact a b) <= Z.max (adjusted a) (adjusted b) + 1.
Proof.
  unfold add_exact.
  set (e := Z.min (fexp a) (fexp b)).
  pose proof (aligned_bound e a ltac:(lia)) as Ha.
  pose proof (aligned_bound e b ltac:(lia)) as Hb.
  pose proof (adjusted_exp a) as Ea. pose proof (adjusted_exp b) as Eb.
  set (M := Z.max (adjusted a) (adjusted b)).
  assert (Hpa : 10 ^ (adjusted a + 1 - e) <= 10 ^ (M + 1 - e))
    by (apply Z.pow_le_mono_r; lia).
  assert (Hpb : 10 ^ (adjusted b + 1 - e) <= 10 ^ (M + 1 - e))
    by (apply Z.pow_le_mono_r; lia).
  assert (Hp : 10 ^ (M + 2 - e) = 10 * 10 ^ (M + 1 - e)).
  { replace (M + 2 - e) with (1 + (M + 1 - e)) by lia.
    rewrite Z.pow_add_r by lia. reflexivity. }
  assert (Hpos : 0 < 10 ^ (M + 1 - e)) by (apply Z.pow_pos_nonneg; lia).
  destruct (aligned e a + aligned e b =? 0) eqn:Hs.
  - cbn [fexp]. split; [reflexivity|]. unfold adjusted. cbn [fexp fcoef].
    change (ndigits 0) with 1%nat. lia.
  - cbn [fexp]. split; [reflexivity|]. unfold adjusted. cbn [fexp fcoef].
    assert (Hn : Z.of_nat (ndigits (Z.abs_N (aligned e a + aligned e b))) <= M + 2 - e).
    { apply ndigits_Z; [lia|]. rewrite N2Z.inj_abs_N. lia. }
    lia.
Qed.

Lemma neg_within (k : Z) (d : fdec) : within k d -> within k (neg d).
Proof. intros H. exact H. Qed.

(** A sum or a difference of operands that are [k + 2] steps inside the
    limits is the one that the context computes, and is [k] steps
    inside them. *)
Lemma plus_within (k : Z) (a b : fdec) :
  0 <= k -> within (k + 2) a -> within (k + 2) b ->
  context_plus a b = Some (plus a b) /\ within k (plus a b).
Proof.
  intros Hk [La Ha] [Lb Hb].
  destruct (add_exact_within a b) as [He Hadj].
  split.
  - apply fix_within. split; [rewrite He; lia | lia].
  - unfold plus, add. pose proof (fix_exp (add_exact a b)) as [H1 _].
    pose proof (fix_adjusted (add_exact a b)) as H2.
    split; lia.
Qed.

Lemma minus_within (k : Z) (a b : fdec) :
  0 <= k -> within (k + 2) a -> within (k + 2) b ->
  context_minus a b = Some (minus a b) /\ within k (minus a b).
Proof.
  intros Hk Ha Hb. apply (plus_within k a (neg b) Hk Ha). apply neg_within, Hb.
Qed.

Lemma strip_zeros_below_eq (fuel : nat) :
  forall (c : N) (e : Z),
    c <> 0%N -> e + Z.of_nat (ndigits c) - 1 <= Emax ->
    strip_zeros_below fuel c e = strip_zeros fuel c e.
Proof.
  induction fuel as [|f IH]; intros c e Hc He; cbn [strip_zeros_below strip_zeros];
    [reflexivity|].
  destruct (c mod 10 =? 0)%N eqn:Hm; [|reflexivity].
  apply N.eqb_eq in Hm.
  pose proof (N.div_mod c 10 ltac:(lia)) as Hdm. rewrite Hm in Hdm.
  assert (Hq : (c / 10 <> 0)%N) by lia.
  pose proof (ndigits_lower c Hc) as Hl.
  pose proof (ndigits_upper c) as Hu.
  pose proof (ndigits_pos c) as Hp.
  assert (H2 : (2 <= ndigits c)%nat).
  { destruct (ndigits c) as [|[|n]] eqn:En; [lia | simpl in Hu; lia | lia]. }
  assert (Hn : (ndigits (c / 10) <= ndigits c - 1)%nat).
  { apply ndigits_le; [lia|]. apply N.Div0.div_lt_upper_bound.
    replace (10 * 10 ^ N.of_nat (ndigits c - 1))%N with (10 ^ N.of_nat (ndigits c))%N;
      [exact Hu|].
    rewrite <- N.pow_succ_r'. f_equal. lia. }
  destruct (Z.ltb_spec e Emax) as [Hlt|Hge]; [|lia].
  cbn [andb]. apply IH; [exact Hq | lia].
Qed.

Lemma strip_zeros_adjusted (fuel : nat) (c : N) (e : Z) :
  c <> 0%N ->
  e <= snd (strip_zeros fuel c e)
  /\ snd (strip_zeros fuel c e) + Z.of_nat (ndigits (fst (strip_zeros fuel c e)))
     <= e + Z.of_nat (ndigits c).
Proof.
  intros Hc. destruct (strip_zeros_spec fuel c e) as [H1 H2].
  set (c' := fst (strip_zeros fuel c e)) in *.
  set (e' := snd (strip_zeros fuel c e)) in *.
  split; [exact H1|].
  pose proof (ndigits_upper c) as Hu.
  apply N2Z.inj_lt in Hu. rewrite N2Z.inj_pow in Hu.
  change (Z.of_N 10) with 10 in Hu. rewrite nat_N_Z in Hu.
  assert (Hc' : 0 < Z.of_N c') by nia.
  assert (Hp : 0 < 10 ^ (e' - e)) by (apply Z.pow_pos_nonneg; lia).
  assert (Hlt : e' - e < Z.of_nat (ndigits c)).
  { apply (Z.pow_lt_mono_r_iff 10); [lia | lia | nia]. }
  assert (Hn : Z.of_nat (ndigits c') <= Z.of_nat (ndigits c) - (e' - e)).
  { apply ndigits_Z; [lia|].
    apply (Z.mul_lt_mono_pos_r (10 ^ (e' - e))); [exact Hp|].
    rewrite <- Z.pow_add_r by lia.
    replace (Z.of_nat (ndigits c) - (e' - e) + (e' - e)) with (Z.of_nat (ndigits c)) by lia.
    lia. }
  lia.
Qed.

(** A normalisation of an operand that is [k + 1] steps inside the
    limits is the one that the context computes, and is [k] steps
    inside them. *)
Lemma norm_within (k : Z) (d : fdec) :
  0 <= k <= Emax -> within (k + 1) d ->
  context_normalize d = Some (norm d) /\ within k (norm d).
Proof.
  intros Hk [Hlo Hhi].
  assert (Hfix : context_fix d = Some (fix_ default_prec d))
    by (apply fix_within; split; lia).
  pose proof (fix_exp d) as [He _]. pose proof (fix_adjusted d) as Ha.
  unfold context_normalize, norm, normalize. rewrite Hfix.
  set (x := fix_ default_prec d) in *.
  destruct (fcoef x =? 0)%N eqn:Hz.
  - split; [reflexivity|]. split; cbn [fexp]; unfold adjusted; cbn [fexp fcoef];
      change (ndigits 0) with 1%nat; unfold Etiny, Emin, Emax, default_prec in *; lia.
  - apply N.eqb_neq in Hz.
    rewrite (strip_zeros_below_eq _ _ _ Hz) by (unfold adjusted in *; lia).
    destruct (strip_zeros_adjusted (ndigits (fcoef x)) (fcoef x) (fexp x) Hz) as [H1 H2].
    destruct (strip_zeros (ndigits (fcoef x)) (fcoef x) (fexp x)) as [c e].
    cbn [fst snd] in H1, H2.
    split; [reflexivity|]. split; cbn [fexp]; unfold adjusted in *; cbn [fexp fcoef]; lia.
Qed.

Lemma ordinary_within (d : fdec) : ordinary d -> within 5 d.
Proof.
  unfold ordinary, within, Emax. intros [H1 H2]. split; [exact H1 | lia].
Qed.

Lemma within_le (j k : Z) (d : fdec) : j <= k -> within k d -> within j d.
Proof. unfold within. intros H [H1 H2]. split; [exact H1 | lia]. Qed.

(** The arithmetic of a TRANSFER on ordinary amounts is that of the
    context: the normalisation of amt, the difference and the sum. *)
Lemma transfer_arithmetic (a x y : fdec) :
  ordinary a -> ordinary x -> ordinary y ->
  context_normalize a = Some (norm a)
  /\ context_minus x (norm a) = Some (minus x (norm a))
  /\ context_plus y (norm a) = Some (plus y (norm a)).
Proof.
  intros Ha Hx Hy. apply ordinary_within in Ha, Hx, Hy.
  destruct (norm_within 4 a) as [Hn Hw]; [unfold Emax; lia | exact Ha |].
  split; [exact Hn|]. split.
  - apply (minus_within 2); [lia | apply (within_le 4 5); [lia | exact Hx] | exact Hw].
  - apply (plus_within 2); [lia | apply (within_le 4 5); [lia | exact Hy] | exact Hw].
Qed.

(** The arithmetic of a MINT on ordinary amounts is that of the context:
    the supply that is left, the normalisation of the clamped amt, and
    the three sums. *)
Lemma mint_arithmetic (m total a cap balance cached : fdec) :
  ordinary m -> ordinary total -> ordinary a -> ordinary cap ->
  ordinary balance -> ordinary cached ->
  let available := minus m total in
  let final := norm (Src20.clamp (Src20.clamp a available) cap) in
  context_minus m total = Some available
  /\ context_normalize (Src20.clamp (Src20.clamp a available) cap) = Some final
  /\ context_plus total final = Some (plus total final)
  /\ context_plus balance final = Some (plus balance final)
  /\ context_plus cached final = Some (plus cached final).
Proof.
  intros Hm Ht Ha Hc Hb Hk available final.
  apply ordinary_within in Hm, Ht, Ha, Hc, Hb, Hk.
  destruct (minus_within 3 m total) as [Hav Hwa]; [lia | exact Hm | exact Ht |].
  fold available in Hav, Hwa.
  assert (Hcl : within 3 (Src20.clamp (Src20.clamp a available) cap)).
  { unfold Src20.clamp.
    destruct (Dec.gtb (if Dec.gtb a available then available else a) cap);
      [apply (within_le 3 5); [lia | exact Hc]|].
    destruct (Dec.gtb a available); [exact Hwa | apply (within_le 3 5); [lia | exact Ha]]. }
  destruct (norm_within 2 _ ltac:(unfold Emax; lia) Hcl) as [Hn Hwf].
  fold final in Hn, Hwf.
  split; [exact Hav|]. split; [exact Hn|].
  split; [|split].
  - apply (plus_within 0); [lia | apply (within_le 2 5); [lia | exact Ht] | exact Hwf].
  - apply (plus_within 0); [lia | apply (within_le 2 5); [lia | exact Hb] | exact Hwf].
  - apply (plus_within 0); [lia | apply (within_le 2 5); [lia | exact Hk] | exact Hwf].
Qed.

End ContextLimits.

(** ** The running balances *)

Section LookupFacts.
Import Dec Src20.
Context (t th : string).

Lemma scan_addresses_single (r : src20) (c : string) (found : list balance_current) :
  scan_addresses 1 0 t th r [c] found =
    match shadow_balance t th r c with
    | Some b => ([], found ++ [BalanceCurrent c b None])
    | None => ([c], found)
    end.
Proof.
  cbn [scan_addresses]. change ([c] !! 0%nat) with (Some c). cbv beta iota.
  destruct (shadow_balance t th r c); [|reflexivity].
  cbn [list_remove]. now rewrite String.eqb_refl.
Qed.

Lemma scan_addresses_pair (r : src20) (c d : string) (found : list balance_current) :
  c <> d ->
  scan_addresses 2 0 t th r [c; d] found =
    match shadow_balance t th r c with
    | Some b => ([d], found ++ [BalanceCurrent c b None])
    | None =>
        match shadow_balance t th r d with
        | Some b => ([c], found ++ [BalanceCurrent d b None])
        | None => ([c; d], found)
        end
    end.
Proof.
  intros Hcd. cbn [scan_addresses]. change ([c; d] !! 0%nat) with (Some c).
  cbv beta iota. destruct (shadow_balance t th r c).
  - cbn [list_remove]. rewrite String.eqb_refl. reflexivity.
  - change ([c; d] !! 1%nat) with (Some d). cbv beta iota.
    destruct (shadow_balance t th r d); [|reflexivity].
    cbn [list_remove]. rewrite String.eqb_refl.
    assert (E : String.eqb d c = false) by (apply String.eqb_neq; congruence).
    now rewrite E.
Qed.

Lemma scan_block_nil (l : list src20) (found : list balance_current) :
  scan_block t th l [] found = ([], found).
Proof.
  induction l as [|r l IH]; [reflexivity|]. cbn [scan_block].
  destruct (valid r); [|exact IH]. cbn [List.length scan_addresses]. exact IH.
Qed.

Lemma scan_block_single (l : list src20) (c : string) :
  forall found,
    scan_block t th l [c] found =
      match shadow_lookup t th l c with
      | Some b => ([], found ++ [BalanceCurrent c b None])
      | None => ([c], found)
      end.
Proof.
  induction l as [|r l IH]; intros found; [reflexivity|].
  cbn [scan_block shadow_lookup]. destruct (valid r); [|apply IH].
  change (List.length [c]) with 1%nat. rewrite scan_addresses_single.
  destruct (shadow_balance t th r c); [apply scan_block_nil | apply IH].
Qed.

Lemma balance_entry_snoc (bs : list balance_current) (a x : string) (v : fdec)
    (k : option fdec) :
  balance_entry (bs ++ [BalanceCurrent x v k]) a =
    if String.eqb x a then Some v else balance_entry bs a.
Proof.
  unfold balance_entry. rewrite rev_app_distr. cbn [rev app List.find bc_address].
  destruct (String.eqb x a); reflexivity.
Qed.

Lemma running_balance_of_entry (bs : list balance_current) (a : string) :
  running_balance_of bs a = default zero (balance_entry bs a).
Proof.
  unfold running_balance_of, balance_entry.
  destruct (List.find _ (rev bs)); reflexivity.
Qed.

Lemma scanned_single (l : list src20) (c a : string) (found : list balance_current) :
  In a [c] -> balance_entry found a = None ->
  scanned t th l a (scan_block t th l [c] found).
Proof.
  intros [<- | []] Hf. unfold scanned. rewrite scan_block_single.
  destruct (shadow_lookup t th l c); cbn [fst snd].
  - split; [intros []|]. rewrite balance_entry_snoc. now rewrite String.eqb_refl.
  - split; [now left | exact Hf].
Qed.

(** The first address of a pair is looked for in every valid record. *)
Lemma scanned_creator (c d : string) (l : list src20) :
  c <> d ->
  forall found, balance_entry found c = None ->
    scanned t th l c (scan_block t th l [c; d] found).
Proof.
  intros Hcd. induction l as [|r l IH]; intros found Hf.
  - unfold scanned. cbn. split; [now left | exact Hf].
  - unfold scanned in *. cbn [scan_block shadow_lookup].
    destruct (valid r); [|apply IH, Hf].
    change (List.length [c; d]) with 2%nat. rewrite (scan_addresses_pair r c d found Hcd).
    destruct (shadow_balance t th r c) as [b|].
    + rewrite scan_block_single.
      assert (Hdc : String.eqb d c = false) by (apply String.eqb_neq; congruence).
      destruct (shadow_lookup t th l d); cbn [fst snd].
      * split; [intros []|]. rewrite !balance_entry_snoc, Hdc.
        now rewrite String.eqb_refl.
      * split; [intros [H | []]; congruence|]. rewrite balance_entry_snoc.
        now rewrite String.eqb_refl.
    + destruct (shadow_balance t th r d) as [b|]; [|apply IH, Hf].
      apply (scanned_single l c c); [now left|].
      rewrite balance_entry_snoc.
      assert (Hdc : String.eqb d c = false) by (apply String.eqb_neq; congruence).
      now rewrite Hdc.
Qed.

(** The record that holds the first address is not looked at for the
    second one: the second address is found as the specification says
    when that record holds no balance for it. *)
Lemma scanned_destination (c d : string) (l : list src20) :
  c <> d -> creator_record_free t th c d l ->
  forall found, balance_entry found d = None ->
    scanned t th l d (scan_block t th l [c; d] found).
Proof.
  intros Hcd. induction l as [|r l IH]; intros Hfree found Hf.
  - unfold scanned. cbn. split; [now right; left | exact Hf].
  - unfold scanned in *. cbn [scan_block shadow_lookup creator_record_free] in *.
    destruct (valid r); [|apply IH; assumption].
    change (List.length [c; d]) with 2%nat. rewrite (scan_addresses_pair r c d found Hcd).
    assert (Hcd' : String.eqb c d = false) by (now apply String.eqb_neq).
    destruct (shadow_balance t th r c) as [b|].
    + rewrite Hfree.
      apply (scanned_single l d d); [now left|].
      rewrite balance_entry_snoc. now rewrite Hcd'.
    + destruct (shadow_balance t th r d) as [b|]; [|apply IH; assumption].
      rewrite scan_block_single.
      destruct (shadow_lookup t th l c); cbn [fst snd].
      * split; [intros []|]. rewrite !balance_entry_snoc, Hcd'.
        now rewrite String.eqb_refl.
      * split; [intros [H | []]; congruence|]. rewrite balance_entry_snoc.
        now rewrite String.eqb_refl.
Qed.

End LookupFacts.

Section StoreFacts.
Import Dec Src20.
Context (db : store) (t th : string).

Lemma shadow_balance_other_tick (r : src20) (a : string) :
  String.eqb (tick r) t = false -> shadow_balance t th r a = None.
Proof.
  intros H. unfold shadow_balance. rewrite H.
  now rewrite !andb_false_r.
Qed.

Lemma shadow_lookup_other_ticks (l : list src20) (a : string) :
  existsb (fun item => String.eqb (tick item) t) l = false ->
  shadow_lookup t th l a = None.
Proof.
  induction l as [|r l IH]; [reflexivity|]. cbn [existsb shadow_lookup]. intros H.
  apply orb_false_iff in H. destruct H as [Hr Hl].
  rewrite (shadow_balance_other_tick r a Hr), (IH Hl). now destruct (valid r).
Qed.

Lemma existsb_rev {A : Type} (p : A -> bool) (l : list A) :
  existsb p (rev l) = existsb p l.
Proof.
  induction l as [|x l IH]; [reflexivity|]. cbn [rev existsb].
  rewrite existsb_app, IH. cbn [existsb]. rewrite orb_false_r. apply orb_comm.
Qed.

Lemma find_app {A : Type} (p : A -> bool) (l1 l2 : list A) :
  List.find p (l1 ++ l2) =
    match List.find p l1 with
    | Some x => Some x
    | None => List.find p l2
    end.
Proof.
  induction l1 as [|x l1 IH]; [reflexivity|]. cbn [app List.find].
  destruct (p x); [reflexivity | exact IH].
Qed.

Lemma balance_entry_app (xs ys : list balance_current) (a : string) :
  balance_entry (xs ++ ys) a =
    match balance_entry ys a with
    | Some v => Some v
    | None => balance_entry xs a
    end.
Proof.
  unfold balance_entry. rewrite rev_app_distr, find_app.
  destruct (List.find _ (rev ys)); reflexivity.
Qed.

(** The amount that the rows of the query hold for an address. *)
Lemma find_filter {A : Type} (p q : A -> bool) (l : list A) :
  List.find p (filter q l) = List.find (fun x => q x && p x) l.
Proof.
  induction l as [|x l IH]; [reflexivity|].
  rewrite filter_cons. cbn [List.find].
  destruct (decide (q x)) as [Hq | Hq].
  - apply Is_true_true in Hq. rewrite Hq. cbn [List.find andb].
    destruct (p x); [reflexivity | exact IH].
  - apply Is_true_false in Hq. rewrite Hq. exact IH.
Qed.

Lemma find_ext_in {A : Type} (p q : A -> bool) (l : list A) :
  (forall x, p x = q x) -> List.find p l = List.find q l.
Proof.
  intros H. induction l as [|x l IH]; [reflexivity|]. cbn [List.find].
  now rewrite H, IH.
Qed.

Lemma find_repeated {A B : Type} (p : A -> bool) (results : list A) (l : list B) :
  l <> [] -> List.find p (flat_map (fun _ => results) l) = List.find p results.
Proof.
  intros Hl. induction l as [|x l IH]; [congruence|]. cbn [flat_map].
  rewrite find_app. destruct (List.find p results) eqn:E; [reflexivity|].
  destruct l as [|y l]; [reflexivity|]. now rewrite IH by discriminate.
Qed.

Lemma query_finds_stored (addresses : list string) (a : string) :
  In a addresses ->
  match List.find (fun r => String.eqb (b_address r) a)
                  (get_total_user_balance_from_balances_db db t th addresses) with
  | Some r => b_amt r
  | None => zero
  end = stored_balance db t th a.
Proof.
  intros Hin. unfold get_total_user_balance_from_balances_db, stored_balance.
  rewrite find_repeated by (intros ->; contradiction).
  rewrite find_filter.
  rewrite (find_ext_in _ (fun r => String.eqb (b_tick r) t && String.eqb (b_tick_hash r) th
                                   && String.eqb (b_address r) a)); [reflexivity|].
  intros r. cbv beta. destruct (String.eqb (b_address r) a) eqn:E.
  - apply String.eqb_eq in E. rewrite !andb_true_r.
    replace (existsb (String.eqb (b_address r)) addresses) with true;
      [now rewrite andb_true_r|].
    symmetry. apply existsb_exists. exists a. split; [exact Hin|].
    now apply String.eqb_eq.
  - now rewrite !andb_false_r.
Qed.

Lemma from_db_entries (rows : list balance_row) (addresses : list string)
    (more : list balance_current) (a : string) :
  from_db rows addresses = Ret more ->
  balance_entry more a =
    if existsb (String.eqb a) addresses
    then Some (match List.find (fun r => String.eqb (b_address r) a) rows with
               | Some r => b_amt r
               | None => zero
               end)
    else None.
Proof.
  revert more. induction addresses as [|x addresses IH]; intros more H.
  - inversion H. reflexivity.
  - cbn [from_db] in H.
    destruct (Dec.ltb _ zero); [discriminate|].
    destruct (from_db rows addresses) as [more'|]; [|discriminate].
    cbn [bind] in H. inversion H; subst more. clear H.
    change (?e :: more') with ([e] ++ more').
    rewrite balance_entry_app, (IH more' eq_refl). cbn [existsb].
    destruct (existsb (String.eqb a) addresses) eqn:E.
    + now rewrite orb_true_r.
    + rewrite orb_false_r. unfold balance_entry. cbn [rev app List.find bc_address].
      rewrite (String.eqb_sym x a). destruct (String.eqb a x) eqn:Eax; [|reflexivity].
      apply String.eqb_eq in Eax. now subst x.
Qed.

(** The dict that get_running_user_balances builds holds, for an address
    that the scan of the block treated as the specification says, its
    running balance. *)
Lemma lookup_entry (addresses : list string) (processed : list src20)
    (bs : list balance_current) (a : string) :
  get_running_user_balances db t th addresses processed = Ret bs ->
  In a addresses ->
  scanned t th (rev processed) a (scan_block t th (rev processed) addresses []) ->
  balance_entry bs a = Some (running_balance db t th processed a).
Proof.
  unfold get_running_user_balances. intros H Hin Hscan.
  destruct (negb (bool_decide (NoDup addresses))); [discriminate|].
  assert (Hs : scanned t th (rev processed) a
                 (if existsb (fun item => String.eqb (tick item) t) processed
                  then scan_block t th (rev processed) addresses []
                  else (addresses, []))).
  { destruct (existsb _ processed) eqn:E; [exact Hscan|].
    unfold scanned. rewrite shadow_lookup_other_ticks by now rewrite existsb_rev.
    split; [exact Hin | reflexivity]. }
  clear Hscan.
  destruct (if existsb _ processed then _ else _) as [A F].
  unfold scanned in Hs. unfold running_balance. cbn [fst snd] in Hs.
  destruct (shadow_lookup t th (rev processed) a) as [b|]; destruct Hs as [HA HF].
  - destruct A as [|x A].
    + inversion H; subst bs. exact HF.
    + destruct (from_db _ (x :: A)) as [more|] eqn:Em; [|discriminate].
      cbn [bind] in H. inversion H; subst bs.
      rewrite balance_entry_app, (from_db_entries _ _ _ a Em).
      replace (existsb (String.eqb a) (x :: A)) with false; [exact HF|].
      symmetry. apply not_true_iff_false. intros Hex.
      apply existsb_exists in Hex. destruct Hex as (y & Hy & Hay).
      apply String.eqb_eq in Hay. subst y. contradiction.
  - destruct A as [|x A]; [contradiction|].
    destruct (from_db _ (x :: A)) as [more|] eqn:Em; [|discriminate].
    cbn [bind] in H. inversion H; subst bs.
    rewrite balance_entry_app, (from_db_entries _ _ _ a Em).
    replace (existsb (String.eqb a) (x :: A)) with true.
    + f_equal. now apply query_finds_stored.
    + symmetry. apply existsb_exists. exists a. split; [exact HA | apply String.eqb_refl].
Qed.

(** The creator's balance is always the running balance. *)
Lemma creator_balance_read (c d : string) (processed : list src20)
    (bs : list balance_current) :
  get_running_user_balances db t th
    (if String.eqb c d then [c] else [c; d]) processed = Ret bs ->
  running_balance_of bs c = running_balance db t th processed c.
Proof.
  intros H. rewrite running_balance_of_entry.
  rewrite (lookup_entry _ _ _ c H); [reflexivity | |].
  - destruct (String.eqb c d); now left.
  - destruct (String.eqb c d) eqn:E.
    + apply scanned_single; [now left | reflexivity].
    + apply scanned_creator; [now apply String.eqb_neq | reflexivity].
Qed.

(** So is the destination's, unless the record that gave the creator's
    balance also holds one for the destination. *)
Lemma destination_balance_read (c d : string) (processed : list src20)
    (bs : list balance_current) :
  get_running_user_balances db t th
    (if String.eqb c d then [c] else [c; d]) processed = Ret bs ->
  creator_record_free t th c d (rev processed) ->
  running_balance_of bs d = running_balance db t th processed d.
Proof.
  intros H Hfree. rewrite running_balance_of_entry.
  rewrite (lookup_entry _ _ _ d H); [reflexivity | |].
  - destruct (String.eqb c d) eqn:E; [apply String.eqb_eq in E; subst; now left|].
    right; now left.
  - destruct (String.eqb c d) eqn:E.
    + apply String.eqb_eq in E. subst d. apply scanned_single; [now left | reflexivity].
    + apply scanned_destination; [now apply String.eqb_neq | exact Hfree | reflexivity].
Qed.

(** The single address of a MINT. *)
Lemma mint_balance_read (d : string) (processed : list src20)
    (bs : list balance_current) :
  get_running_user_balances db t th [d] processed = Ret bs ->
  match bs with
  | b :: _ => bc_total_balance b
  | [] => zero
  end = running_balance db t th processed d.
Proof.
  intros H.
  assert (Hentry : balance_entry bs d = Some (running_balance db t th processed d)).
  { apply (lookup_entry [d]); [exact H | now left |].
    apply scanned_single; [now left | reflexivity]. }
  revert H. unfold get_running_user_balances.
  destruct (negb (bool_decide (NoDup [d]))); [discriminate|].
  assert (Hshape : forall res,
            res = scan_block t th (rev processed) [d] [] \/ res = ([d], []) ->
            exists x v k, (res = ([], [BalanceCurrent x v k]) \/ res = ([d], []))).
  { intros res [-> | ->].
    - rewrite scan_block_single. destruct (shadow_lookup t th (rev processed) d).
      + do 3 eexists. left. reflexivity.
      + exists d, zero, None. now right.
    - exists d, zero, None. now right. }
  destruct (Hshape (if existsb (fun item => String.eqb (tick item) t) processed
                    then scan_block t th (rev processed) [d] []
                    else ([d], [])))
    as (x & v & k & [-> | ->]).
  { destruct (existsb _ processed); [now left | now right]. }
  - intros H. inversion H; subst bs.
    unfold balance_entry in Hentry. cbn in Hentry.
    destruct (String.eqb x d); inversion Hentry. reflexivity.
  - cbn [from_db bind app]. destruct (Dec.ltb _ zero); [discriminate|].
    intros H. inversion H; subst bs.
    unfold balance_entry in Hentry. cbn [rev app List.find bc_address] in Hentry.
    rewrite String.eqb_refl in Hentry. now inversion Hentry.
Qed.

End StoreFacts.

(** ** Records that are not valid *)

Section InvalidFacts.
Import Dec Src20 Ledger.

Lemma scan_addresses_none (t th : string) (r : src20) (fuel : nat) :
  (forall a, shadow_balance t th r a = None) ->
  forall i addresses found,
    scan_addresses fuel i t th r addresses found = (addresses, found).
Proof.
  intros Hnone. induction fuel as [|f IH]; intros i addresses found; [reflexivity|].
  cbn [scan_addresses]. destruct (addresses !! i); [|reflexivity].
  rewrite Hnone. apply IH.
Qed.

Lemma scan_block_other_ticks (t th : string) (l : list src20) :
  existsb (fun item => String.eqb (tick item) t) l = false ->
  forall addresses found, scan_block t th l addresses found = (addresses, found).
Proof.
  induction l as [|r l IH]; intros H addresses found; [reflexivity|].
  cbn [existsb] in H. apply orb_false_iff in H. destruct H as [Hr Hl].
  cbn [scan_block]. destruct (valid r); [|now apply IH].
  rewrite scan_addresses_none by (intros a; now apply shadow_balance_other_tick).
  now apply IH.
Qed.

Lemma invalid_record_unseen (db : store) (processed : list src20) (d : src20) :
  valid d = false ->
  forall t th addresses,
    get_running_user_balances db t th addresses (processed ++ [d])
    = get_running_user_balances db t th addresses processed.
Proof.
  intros Hv t th addresses. unfold get_running_user_balances.
  destruct (negb (bool_decide (NoDup addresses))); [reflexivity|].
  rewrite rev_app_distr. cbn [rev app scan_block]. rewrite Hv.
  rewrite existsb_app. cbn [existsb]. rewrite orb_false_r.
  destruct (existsb (fun item => String.eqb (tick item) t) processed) eqn:E;
    [reflexivity|].
  cbn [orb]. destruct (String.eqb (tick d) t); [|reflexivity].
  rewrite scan_block_other_ticks by now rewrite existsb_rev. reflexivity.
Qed.

Lemma fold_balances_app (l1 l2 : list src20) :
  forall acc,
    fold_balances (l1 ++ l2) acc = bind (fold_balances l1 acc) (fold_balances l2).
Proof.
  induction l1 as [|x l1 IH]; intros acc; [reflexivity|].
  cbn [app fold_balances]. destruct (fold_step acc x); [|reflexivity].
  cbn [bind]. apply IH.
Qed.

Lemma invalid_record_no_update (processed : list src20) (d : src20) :
  valid d = false ->
  forall table,
    update_src20_balances table (processed ++ [d]) = update_src20_balances table processed.
Proof.
  intros Hv table. unfold update_src20_balances. rewrite fold_balances_app.
  destruct (fold_balances processed []) as [bu|]; [|reflexivity].
  cbn [bind fold_balances]. unfold fold_step. rewrite Hv. reflexivity.
Qed.

Lemma invalid_leaves_balances (db : store) (processed : list src20) (d : src20) :
  valid d = false -> leaves_balances_unchanged db processed d.
Proof.
  intros Hv. split; [now apply invalid_record_unseen | now apply invalid_record_no_update].
Qed.

End InvalidFacts.

(** ** TRANSFER (C4) *)

(** C4 (as stated): a TRANSFER whose creator holds at least amt records
    creator_new and destination_new.  This fails when amt has more decimal
    places than the token allows: the transfer of 0.5 dogs (dec 0) by A,
    who holds 60, gets status ID, stays invalid and records no balance. *)
Lemma C4_counterexample :
  let p := Samples.dogs_processor
             (Src20.Src20 "dogs" "h" "TRANSFER" (Some (Dec.FDec false 5 (-1)))
                          None None None "A" "D" None false None None None) in
  Src20.running_balance Samples.dogs_db "dogs" "h" [] "A" = Dec.of_Z 60
  /\ Dec.ltb (Dec.of_Z 60) (Dec.FDec false 5 (-1)) = false
  /\ exists p',
       Src20.handle_transfer Samples.dogs_db [] p = Ret p'
       /\ Src20.status (Src20.src20_dict p') = Some Src20.ID
       /\ Src20.valid (Src20.src20_dict p') = false
       /\ Src20.total_balance_creator (Src20.src20_dict p') = None
       /\ Src20.total_balance_destination (Src20.src20_dict p') = None.
Proof.
  split; [reflexivity|]. split; [reflexivity|].
  eexists. split; [vm_compute; reflexivity|]. repeat split.
Qed.

(** The lookup reads the table of balances only. *)
Lemma get_running_user_balances_store (db db1 : Src20.store) (t th : string)
    (addresses : list string) (processed : list Src20.src20) :
  Src20.balances db1 = Src20.balances db ->
  Src20.get_running_user_balances db1 t th addresses processed
  = Src20.get_running_user_balances db t th addresses processed.
Proof.
  intros H. unfold Src20.get_running_user_balances,
    Src20.get_total_user_balance_from_balances_db. rewrite H. reflexivity.
Qed.

Lemma running_balance_store (db db1 : Src20.store) (t th : string)
    (processed : list Src20.src20) (address : string) :
  Src20.balances db1 = Src20.balances db ->
  Src20.running_balance db1 t th processed address
  = Src20.running_balance db t th processed address.
Proof.
  intros H. unfold Src20.running_balance, Src20.stored_balance. rewrite H. reflexivity.
Qed.

(** C4 (amended): for every TRANSFER, with the running balances of the
    creator and of the destination read from the in-block shadow list
    first, then from the persistent store: if the creator's balance is
    less than amt the operation gets status BB, is marked invalid and,
    not being flagged valid before, leaves every balance unchanged;
    otherwise, if the normalized amt has more decimal places than the
    DEPLOY's dec (18 when absent), it gets status ID, is marked invalid
    and leaves every balance unchanged in the same way; otherwise it is
    valid and records
    creator_new = creator_balance - amt and destination_new =
    destination_balance + amt (Decimal arithmetic on the normalized
    amt, which is that of the default context).  This is stated for a
    block in which the record that gives the creator's balance holds no
    balance for the destination, and for ordinary amounts: amt and the
    two balances are below 10^27 and have no exponent below Etiny. *)
Theorem C4_handle_transfer (db : Src20.store) (processed : list Src20.src20)
    (p : Src20.processor) (a : Dec.fdec) (bs : list Src20.balance_current) :
  let d := Src20.src20_dict p in
  let creator_balance :=
    Src20.running_balance db (Src20.tick d) (Src20.tick_hash d) processed (Src20.creator d) in
  let destination_balance :=
    Src20.running_balance db (Src20.tick d) (Src20.tick_hash d) processed
      (Src20.destination d) in
  Src20.amt d = Some a ->
  Src20.get_running_user_balances db (Src20.tick d) (Src20.tick_hash d)
    (if String.eqb (Src20.creator d) (Src20.destination d) then [Src20.creator d]
     else [Src20.creator d; Src20.destination d]) processed = Ret bs ->
  (Src20.creator d <> Src20.destination d ->
   Src20.creator_record_free (Src20.tick d) (Src20.tick_hash d) (Src20.creator d)
     (Src20.destination d) (rev processed)) ->
  Dec.ordinary a -> Dec.ordinary creator_balance -> Dec.ordinary destination_balance ->
  exists p',
    Src20.handle_transfer db processed p = Ret p'
    /\ (Dec.context_normalize a = Some (Dec.norm a)
        /\ Dec.context_minus creator_balance (Dec.norm a)
           = Some (Dec.minus creator_balance (Dec.norm a))
        /\ Dec.context_plus destination_balance (Dec.norm a)
           = Some (Dec.plus destination_balance (Dec.norm a)))
    /\ if Dec.ltb creator_balance a then
         Src20.status (Src20.src20_dict p') = Some Src20.BB
         /\ Src20.is_valid p' = false
         /\ Src20.valid (Src20.src20_dict p') = Src20.valid d
         /\ (Src20.valid d = false ->
             Ledger.leaves_balances_unchanged db processed (Src20.src20_dict p'))
       else if default 18 (Src20.self_dec p) <? - Dec.fexp (Dec.norm a) then
         Src20.status (Src20.src20_dict p') = Some Src20.ID
         /\ Src20.is_valid p' = false
         /\ Src20.valid (Src20.src20_dict p') = Src20.valid d
         /\ (Src20.valid d = false ->
             Ledger.leaves_balances_unchanged db processed (Src20.src20_dict p'))
       else
         Src20.valid (Src20.src20_dict p') = true
         /\ Src20.is_valid p' = Src20.is_valid p
         /\ Src20.amt (Src20.src20_dict p') = Some (Dec.norm a)
         /\ Src20.total_balance_creator (Src20.src20_dict p')
            = Some (Some (Dec.minus creator_balance (Dec.norm a)))
         /\ Src20.total_balance_destination (Src20.src20_dict p')
            = Some (Some (Dec.plus destination_balance (Dec.norm a))).
Proof.
  intros d creator_balance destination_balance Hamt Hbs Hfree Oa Oc Od.
  pose proof (transfer_arithmetic a creator_balance destination_balance Oa Oc Od) as Harith.
  pose proof (creator_balance_read db (Src20.tick d) (Src20.tick_hash d) (Src20.creator d)
                (Src20.destination d) processed bs Hbs) as Hc.
  assert (Hd : Src20.running_balance_of bs (Src20.destination d) = destination_balance).
  { destruct (String.eqb (Src20.creator d) (Src20.destination d)) eqn:E.
    - apply String.eqb_eq in E. unfold destination_balance. rewrite <- E. exact Hc.
    - apply String.eqb_neq in E.
      refine (destination_balance_read db _ _ (Src20.creator d) _ processed bs _ (Hfree E)).
      apply String.eqb_neq in E. rewrite E. exact Hbs. }
  unfold Src20.handle_transfer. fold d. rewrite Hbs. cbn [bind].
  rewrite Hamt. cbn [Src20.D bind]. rewrite Hc, Hd. fold creator_balance.
  destruct (Dec.ltb creator_balance a) eqn:Hlt.
  - eexists. split; [reflexivity|]. split; [exact Harith|].
    cbn. repeat split.
    + apply (invalid_record_unseen db processed); assumption.
    + apply invalid_record_no_update; assumption.
  - unfold Src20.update_valid_transfer, Src20.normalize_and_validate_amt.
    fold d. rewrite Hamt. cbn [Src20.D bind].
    destruct (default 18 (Src20.self_dec p) <? - Dec.fexp (Dec.norm a)) eqn:Hdec.
    + cbn [bind]. eexists. split; [reflexivity|]. split; [exact Harith|].
      cbn. repeat split.
      * apply (invalid_record_unseen db processed); assumption.
      * apply invalid_record_no_update; assumption.
    + cbn [bind]. eexists. split; [reflexivity|]. split; [exact Harith|].
      cbn. repeat split.
Qed.

(** The amended C4 at work: A, who holds 60 dogs, sends 40 to D. *)
Lemma C4_witness :
  let p := Samples.dogs_processor (Samples.dogs_op "TRANSFER" 40 "A" "D") in
  Src20.get_running_user_balances Samples.dogs_db "dogs" "h" ["A"; "D"]%string []
    = Ret Samples.dogs_lookup_A_D
  /\ exists p',
       Src20.handle_transfer Samples.dogs_db [] p = Ret p'
       /\ Src20.valid (Src20.src20_dict p') = true
       /\ Src20.total_balance_creator (Src20.src20_dict p') = Some (Some (Dec.of_Z 20))
       /\ Src20.total_balance_destination (Src20.src20_dict p') = Some (Some (Dec.of_Z 40)).
Proof.
  intros p. split; [reflexivity|].
  destruct (C4_handle_transfer Samples.dogs_db [] p (Dec.of_Z 40) Samples.dogs_lookup_A_D
              eq_refl eq_refl (fun _ => I))
    as (p' & Hrun & _ & Hcase);
    [split; vm_compute; discriminate | split; vm_compute; discriminate
     | split; vm_compute; discriminate |].
  exists p'. split; [exact Hrun|].
  change (Src20.valid (Src20.src20_dict p') = true
          /\ Src20.is_valid p' = true
          /\ Src20.amt (Src20.src20_dict p') = Some (Dec.FDec false 4 1)
          /\ Src20.total_balance_creator (Src20.src20_dict p') = Some (Some (Dec.of_Z 20))
          /\ Src20.total_balance_destination (Src20.src20_dict p')
             = Some (Some (Dec.of_Z 40)))
    in Hcase.
  destruct Hcase as (Hv & _ & _ & Hc & Hd). repeat split; assumption.
Defined.

(** ** MINT (C2) *)

Section MintFacts.
Import Dec Src20.

Ltac proc_simpl :=
  cbn [bind D src20_dict is_valid self_dec deploy_lim deploy_max set_status_and_log
       with_dict set_amt set_dec set_status set_valid set_total_minted
       set_total_balance_creator set_total_balance_destination mark_valid
       tick tick_hash op amt max lim dec creator destination status valid
       total_minted total_balance_creator total_balance_destination is_invalid
       truthy_opt fst snd].

Lemma mint_cap_code (p : processor) (m : fdec) :
  deploy_max p = Some m -> truthy m = true ->
  (if truthy_opt (deploy_lim p) && truthy_opt (deploy_max p)
   then bind (D (deploy_lim p)) (fun l => bind (D (deploy_max p)) (fun m => Ret (Dec.min l m)))
   else Ret zero) = Ret (mint_cap (deploy_lim p) m).
Proof.
  intros Hm Ht. rewrite Hm. cbn [truthy_opt]. rewrite Ht, andb_true_r.
  unfold mint_cap. destruct (deploy_lim p) as [l|]; [|reflexivity].
  cbn [truthy_opt]. destruct (truthy l); reflexivity.
Qed.

Lemma handle_mint_run (db db1 : store) (processed : list src20) (p : processor)
    (m a total cached : fdec) (bs : list balance_current) :
  deploy_max p = Some m -> truthy m = true ->
  amt (src20_dict p) = Some a ->
  get_running_mint_total db processed (tick (src20_dict p)) = Ret (total, db1) ->
  get_running_user_balances db1 (tick (src20_dict p)) (tick_hash (src20_dict p))
    [destination (src20_dict p)] processed = Ret bs ->
  TOTAL_MINTED_CACHE db1 !! tick (src20_dict p) = Some cached ->
  let available := minus m total in
  let cap := mint_cap (deploy_lim p) m in
  let clamped := clamp (clamp a available) cap in
  let final := norm clamped in
  let balance := match bs with b :: _ => bc_total_balance b | [] => zero end in
  exists p' db',
    handle_mint db processed p = Ret (p', db')
    /\ if Dec.geb total m then
         status (src20_dict p') = Some OM /\ is_valid p' = false
         /\ valid (src20_dict p') = valid (src20_dict p)
         /\ total_minted (src20_dict p') = total_minted (src20_dict p)
       else if default 18 (self_dec p) <? - fexp final then
         status (src20_dict p') = Some ID /\ is_valid p' = false
         /\ valid (src20_dict p') = valid (src20_dict p)
         /\ total_minted (src20_dict p') = total_minted (src20_dict p)
       else
         valid (src20_dict p') = true
         /\ is_valid p' = is_valid p
         /\ status (src20_dict p') =
              (if Dec.gtb (clamp a available) cap then Some ODL
               else if Dec.gtb a available then Some OMA
               else status (src20_dict p))
         /\ amt (src20_dict p') = Some final
         /\ total_minted (src20_dict p') = Some (Some (plus total final))
         /\ total_balance_destination (src20_dict p') = Some (Some (plus balance final))
         /\ TOTAL_MINTED_CACHE db' !! tick (src20_dict p) = Some (plus cached final).
Proof.
  intros Hm Ht Hamt Htotal Hbs Hcache available cap clamped final balance.
  unfold handle_mint. rewrite (mint_cap_code p m Hm Ht). proc_simpl.
  rewrite Htotal, Hm. proc_simpl. rewrite Ht. proc_simpl.
  fold available. fold cap.
  destruct (Dec.geb total m) eqn:Hover.
  { do 2 eexists. split; [reflexivity|]. proc_simpl. repeat split. }
  rewrite Hamt. proc_simpl. unfold clamped, clamp in final.
  destruct (Dec.gtb a available) eqn:Hg1; proc_simpl.
  - destruct (Dec.gtb available cap) eqn:Hg2; proc_simpl;
      rewrite Hbs; proc_simpl; fold balance;
      unfold update_valid_mint, normalize_and_validate_amt; proc_simpl;
      fold final;
      destruct (default 18 (self_dec p) <? - fexp final) eqn:Hdec; proc_simpl.
    + do 2 eexists. split; [reflexivity|]. proc_simpl. repeat split.
    + unfold cache_add. proc_simpl. rewrite Hcache. proc_simpl.
      do 2 eexists. split; [reflexivity|]. proc_simpl.
      unfold clamp. rewrite ?Hg1, ?Hg2.
      repeat split. cbn [TOTAL_MINTED_CACHE]. apply lookup_insert_eq.
    + do 2 eexists. split; [reflexivity|]. proc_simpl. repeat split.
    + unfold cache_add. proc_simpl. rewrite Hcache. proc_simpl.
      do 2 eexists. split; [reflexivity|]. proc_simpl.
      unfold clamp. rewrite ?Hg1, ?Hg2.
      repeat split. cbn [TOTAL_MINTED_CACHE]. apply lookup_insert_eq.
  - rewrite Hamt. proc_simpl.
    destruct (Dec.gtb a cap) eqn:Hg2; proc_simpl;
      rewrite Hbs; proc_simpl; fold balance;
      unfold update_valid_mint, normalize_and_validate_amt; proc_simpl;
      try rewrite Hamt; proc_simpl; fold final;
      destruct (default 18 (self_dec p) <? - fexp final) eqn:Hdec; proc_simpl.
    + do 2 eexists. split; [reflexivity|]. proc_simpl. repeat split.
    + unfold cache_add. proc_simpl. rewrite Hcache. proc_simpl.
      do 2 eexists. split; [reflexivity|]. proc_simpl.
      unfold clamp. rewrite ?Hg1, ?Hg2.
      repeat split. cbn [TOTAL_MINTED_CACHE]. apply lookup_insert_eq.
    + do 2 eexists. split; [reflexivity|]. proc_simpl. repeat split.
    + unfold cache_add. proc_simpl. rewrite Hcache. proc_simpl.
      do 2 eexists. split; [reflexivity|]. proc_simpl.
      unfold clamp. rewrite ?Hg1, ?Hg2.
      repeat split. cbn [TOTAL_MINTED_CACHE]. apply lookup_insert_eq.
Qed.

(** The latest total of the block, as the code finds it and as the
    specification reads it. *)
Lemma shadow_total_find (t : string) (l : list src20) :
  match List.find (fun item => String.eqb (tick item) t && String.eqb (op item) "MINT"
                               && bool_decide (is_Some (total_minted item))) l with
  | Some item => forall x, total_minted item = Some (Some x) -> shadow_total t l = Some x
  | None => shadow_total t l = None
  end.
Proof.
  induction l as [|r rest IH]; cbn [List.find shadow_total]; [reflexivity|].
  destruct (String.eqb (tick r) t && String.eqb (op r) "MINT") eqn:E; cbn [andb].
  - destruct (total_minted r) as [[x|]|] eqn:Ht.
    + change (bool_decide (is_Some (Some (Some x)))) with true. cbv iota.
      intros y Hy. rewrite Ht in Hy. injection Hy as <-. reflexivity.
    + change (bool_decide (is_Some (@Some (option fdec) None))) with true. cbv iota.
      intros y Hy. rewrite Ht in Hy. discriminate Hy.
    + change (bool_decide (is_Some (@None (option fdec)))) with false. cbv iota. exact IH.
  - exact IH.
Qed.

(** The running total is what [get_running_mint_total] returns, and the
    store that it leaves is [total_read]. *)
Lemma get_running_mint_total_run (db : store) (processed : list src20) (t : string) :
  shadow_total_usable t (rev processed) ->
  get_running_mint_total db processed t
  = Ret (running_total db processed t, total_read db processed t).
Proof.
  intros Hu. unfold get_running_mint_total, running_total, total_read.
  pose proof (shadow_total_find t (rev processed)) as Hf.
  unfold shadow_total_usable in Hu.
  destruct (List.find _ (rev processed)) as [item|].
  - destruct (Hu item eq_refl) as (x & Hx & Hnz).
    rewrite (Hf x Hx), Hx, Hnz. reflexivity.
  - rewrite Hf. destruct (get_total_src20_minted_from_db db t). reflexivity.
Qed.

Lemma total_read_balances (db : store) (processed : list src20) (t : string) :
  balances (total_read db processed t) = balances db.
Proof.
  unfold total_read, get_total_src20_minted_from_db.
  destruct (shadow_total t (rev processed)); [reflexivity|].
  destruct (TOTAL_MINTED_CACHE db !! t); reflexivity.
Qed.

End MintFacts.

(** The slip that the amended C2 leaves out: with a DEPLOY whose max is 0
    (and lim 7) the test for OM is the constant D(0), so a MINT of 3 is not
    refused with OM; its amt is clamped to 0 and it is accepted as
    valid. *)
Lemma handle_mint_zero_max :
  let p := Src20.Processor
             (Src20.Src20 "z" "hz" "MINT" (Some (Dec.of_Z 3)) None None None "A" "A"
                          None false None None None)
             true (Some 0) (Some (Dec.of_Z 7)) (Some Dec.zero) in
  exists p' db',
    Src20.handle_mint Samples.empty_db [] p = Ret (p', db')
    /\ Src20.status (Src20.src20_dict p') = Some Src20.OMA
    /\ Src20.valid (Src20.src20_dict p') = true
    /\ Src20.amt (Src20.src20_dict p') = Some Dec.zero.
Proof.
  do 2 eexists. split; [vm_compute; reflexivity|]. repeat split.
Qed.

(** C2 (as stated): a MINT below the maximum is clamped and then valid.
    This fails when the clamped amt has more decimal places than the
    token allows: the MINT of 0.5 dogs (max 1000, lim 100, dec 0, 60
    minted) is neither over the supply nor over the limit, and gets
    status ID and stays invalid. *)
Lemma C2_counterexample :
  let p := Samples.dogs_processor
             (Src20.Src20 "dogs" "h" "MINT" (Some (Dec.FDec false 5 (-1)))
                          None None None "B" "B" None false None None None) in
  Src20.running_total Samples.dogs_db [] "dogs" = Dec.of_Z 60
  /\ Dec.geb (Dec.of_Z 60) (Dec.of_Z 1000) = false
  /\ Dec.gtb (Dec.FDec false 5 (-1)) (Dec.minus (Dec.of_Z 1000) (Dec.of_Z 60)) = false
  /\ Dec.gtb (Dec.FDec false 5 (-1)) (Dec.min (Dec.of_Z 100) (Dec.of_Z 1000)) = false
  /\ exists p' db',
       Src20.handle_mint Samples.dogs_db [] p = Ret (p', db')
       /\ Src20.status (Src20.src20_dict p') = Some Src20.ID
       /\ Src20.is_valid p' = false
       /\ Src20.valid (Src20.src20_dict p') = false
       /\ Src20.total_minted (Src20.src20_dict p') = None.
Proof.
  split; [reflexivity|]. split; [reflexivity|]. split; [reflexivity|].
  split; [reflexivity|].
  do 2 eexists. split; [vm_compute; reflexivity|]. repeat split.
Qed.

(** C2 (amended): for every MINT on a tick whose DEPLOY has a max that is
    not zero, with running cumulative total_minted (the total of the
    latest MINT of the tick in the block, else the total of the store):
    if total_minted >= max the mint gets status OM and is invalid;
    otherwise, if amt exceeds max - total_minted it is clamped to that
    remaining supply with status OMA, then if it still exceeds
    min(lim, max) (zero when lim is zero or absent) it is clamped to that
    cap with status ODL; then, if the normalized amt has more decimal
    places than the DEPLOY's dec (18 when absent), the mint gets status
    ID and is invalid; otherwise the mint is valid, with new running
    total total_minted + final amt and the destination's running balance
    credited by final amt (Decimal arithmetic, final amt being the
    normalized clamped amt, and the arithmetic that of the default
    context).  This is stated for a block whose latest total, if it has
    one, is not zero, and for ordinary amounts: max, the total, amt,
    the cap, the balance and the cached total are below 10^27 and have
    no exponent below Etiny. *)
Theorem C2_handle_mint (db : Src20.store) (processed : list Src20.src20)
    (p : Src20.processor) (m a cached : Dec.fdec) (bs : list Src20.balance_current) :
  let d := Src20.src20_dict p in
  let total_minted := Src20.running_total db processed (Src20.tick d) in
  let available := Dec.minus m total_minted in
  let cap := Src20.mint_cap (Src20.deploy_lim p) m in
  let final := Dec.norm (Src20.clamp (Src20.clamp a available) cap) in
  let balance :=
    Src20.running_balance db (Src20.tick d) (Src20.tick_hash d) processed
      (Src20.destination d) in
  Src20.deploy_max p = Some m -> Dec.truthy m = true ->
  Src20.amt d = Some a ->
  Src20.shadow_total_usable (Src20.tick d) (rev processed) ->
  Src20.get_running_user_balances db (Src20.tick d) (Src20.tick_hash d)
    [Src20.destination d] processed = Ret bs ->
  Src20.TOTAL_MINTED_CACHE (Src20.total_read db processed (Src20.tick d)) !! Src20.tick d
    = Some cached ->
  Dec.ordinary m -> Dec.ordinary total_minted -> Dec.ordinary a -> Dec.ordinary cap ->
  Dec.ordinary balance -> Dec.ordinary cached ->
  exists p' db',
    Src20.handle_mint db processed p = Ret (p', db')
    /\ (Dec.context_minus m total_minted = Some available
        /\ Dec.context_normalize (Src20.clamp (Src20.clamp a available) cap) = Some final
        /\ Dec.context_plus total_minted final = Some (Dec.plus total_minted final)
        /\ Dec.context_plus balance final = Some (Dec.plus balance final)
        /\ Dec.context_plus cached final = Some (Dec.plus cached final))
    /\ if Dec.geb total_minted m then
         Src20.status (Src20.src20_dict p') = Some Src20.OM
         /\ Src20.is_valid p' = false
         /\ Src20.valid (Src20.src20_dict p') = Src20.valid d
         /\ Src20.total_minted (Src20.src20_dict p') = Src20.total_minted d
       else if default 18 (Src20.self_dec p) <? - Dec.fexp final then
         Src20.status (Src20.src20_dict p') = Some Src20.ID
         /\ Src20.is_valid p' = false
         /\ Src20.valid (Src20.src20_dict p') = Src20.valid d
         /\ Src20.total_minted (Src20.src20_dict p') = Src20.total_minted d
       else
         Src20.valid (Src20.src20_dict p') = true
         /\ Src20.is_valid p' = Src20.is_valid p
         /\ Src20.status (Src20.src20_dict p') =
              (if Dec.gtb (Src20.clamp a available) cap then Some Src20.ODL
               else if Dec.gtb a available then Some Src20.OMA
               else Src20.status d)
         /\ Src20.amt (Src20.src20_dict p') = Some final
         /\ Src20.total_minted (Src20.src20_dict p')
            = Some (Some (Dec.plus total_minted final))
         /\ Src20.total_balance_destination (Src20.src20_dict p')
            = Some (Some (Dec.plus balance final))
         /\ Src20.TOTAL_MINTED_CACHE db' !! Src20.tick d = Some (Dec.plus cached final).
Proof.
  intros d total_minted available cap final balance Hm Ht Hamt Hu Hbs Hcache
         Om Ot Oa Oc Ob Ok.
  pose proof (mint_arithmetic m total_minted a cap balance cached Om Ot Oa Oc Ob Ok)
    as Harith.
  pose proof (total_read_balances db processed (Src20.tick d)) as Hb.
  rewrite <- (get_running_user_balances_store db _ _ _ _ _ Hb) in Hbs.
  destruct (handle_mint_run db (Src20.total_read db processed (Src20.tick d)) processed p
              m a total_minted cached bs Hm Ht Hamt
              (get_running_mint_total_run db processed (Src20.tick d) Hu) Hbs Hcache)
    as (p' & db' & Hrun & Hcase).
  exists p', db'. split; [exact Hrun|]. split; [exact Harith|].
  rewrite (mint_balance_read _ _ _ _ processed bs Hbs) in Hcase.
  rewrite (running_balance_store db _ _ _ _ _ Hb) in Hcase.
  exact Hcase.
Qed.

(** The amended C2 at work: of a MINT of 950 dogs (max 1000, lim 100, 60
    minted) 940 remain after the clamp to the supply and 100 after the
    clamp to the limit; the total becomes 160 and B holds 100. *)
Lemma C2_witness :
  let p := Samples.dogs_processor (Samples.dogs_op "MINT" 950 "B" "B") in
  Src20.running_total Samples.dogs_db [] "dogs" = Dec.of_Z 60
  /\ Src20.get_running_user_balances Samples.dogs_db "dogs" "h" ["B"%string] []
     = Ret Samples.dogs_lookup_B
  /\ exists p' db',
       Src20.handle_mint Samples.dogs_db [] p = Ret (p', db')
       /\ Src20.valid (Src20.src20_dict p') = true
       /\ Src20.status (Src20.src20_dict p') = Some Src20.ODL
       /\ Src20.amt (Src20.src20_dict p') = Some (Dec.FDec false 1 2)
       /\ Src20.total_minted (Src20.src20_dict p') = Some (Some (Dec.of_Z 160))
       /\ Src20.total_balance_destination (Src20.src20_dict p')
          = Some (Some (Dec.of_Z 100)).
Proof.
  intros p. split; [reflexivity|]. split; [reflexivity|].
  destruct (C2_handle_mint Samples.dogs_db [] p (Dec.of_Z 1000) (Dec.of_Z 950)
              (Dec.of_Z 60) Samples.dogs_lookup_B eq_refl eq_refl eq_refl)
    as (p' & db' & Hrun & _ & Hcase);
    [intros item Hitem; discriminate Hitem | reflexivity | reflexivity
     | split; vm_compute; discriminate | split; vm_compute; discriminate
     | split; vm_compute; discriminate | split; vm_compute; discriminate
     | split; vm_compute; discriminate | split; vm_compute; discriminate |].
  exists p', db'. split; [exact Hrun|].
  change (Src20.valid (Src20.src20_dict p') = true
          /\ Src20.is_valid p' = true
          /\ Src20.status (Src20.src20_dict p') = Some Src20.ODL
          /\ Src20.amt (Src20.src20_dict p') = Some (Dec.FDec false 1 2)
          /\ Src20.total_minted (Src20.src20_dict p') = Some (Some (Dec.of_Z 160))
          /\ Src20.total_balance_destination (Src20.src20_dict p')
             = Some (Some (Dec.of_Z 100))
          /\ Src20.TOTAL_MINTED_CACHE db' !! "dogs"%string = Some (Dec.of_Z 160))
    in Hcase.
  destruct Hcase as (H1 & _ & H2 & H3 & H4 & H5 & _). repeat split; assumption.
Defined.
(* ===================================================================== *)
(** * Further properties of the code *)
(* ===================================================================== *)

(** ** Exact Decimal arithmetic below the precision of the context *)

Section DecimalFacts.
Import Dec.

Lemma aligned_scale (e E : Z) (d : fdec) :
  - E <= e -> e <= fexp d -> aligned (- E) d = aligned e d * 10 ^ (e + E).
Proof.
  intros H1 H2. unfold aligned.
  replace (fexp d - - E) with ((fexp d - e) + (e + E)) by lia.
  rewrite Z.pow_add_r by lia.
  destruct (fsign d); lia.
Qed.

Lemma value_neg (E : Z) (d : fdec) : value E (neg d) = - value E d.
Proof.
  unfold value, aligned, neg. cbn [fsign fcoef fexp]. destruct (fsign d); cbn [negb]; lia.
Qed.

Lemma value_abs (E : Z) (d : fdec) :
  Z.abs (value E d) = Z.of_N (fcoef d) * 10 ^ (fexp d + E).
Proof.
  unfold value, aligned. replace (fexp d - - E) with (fexp d + E) by lia.
  assert (0 <= 10 ^ (fexp d + E)) by (apply Z.pow_nonneg; lia).
  destruct (fsign d); [rewrite Z.abs_opp|]; apply Z.abs_eq; nia.
Qed.

Lemma value_coef_bound (E : Z) (d : fdec) :
  - E <= fexp d -> Z.abs (value E d) < 10 ^ 28 -> (fcoef d < 10 ^ 28)%N.
Proof.
  intros He Hv. rewrite value_abs in Hv.
  assert (0 < 10 ^ (fexp d + E)) by (apply Z.pow_pos_nonneg; lia).
  assert (Z.of_N (fcoef d) < 10 ^ 28) by nia.
  apply N2Z.inj_lt. rewrite N2Z.inj_pow. exact H0.
Qed.

Lemma value_zero (E : Z) (d : fdec) :
  - E <= fexp d -> (value E d = 0 <-> fcoef d = 0%N).
Proof.
  intros He. pose proof (value_abs E d) as Ha.
  assert (0 < 10 ^ (fexp d + E)) by (apply Z.pow_pos_nonneg; lia).
  split; intros Hz.
  - rewrite Hz in Ha. simpl in Ha. nia.
  - rewrite Hz in Ha. simpl in Ha. lia.
Qed.

Lemma value_sign (E : Z) (d : fdec) :
  - E <= fexp d -> fcoef d <> 0%N -> (value E d <? 0) = fsign d.
Proof.
  intros He Hc. unfold value, aligned.
  replace (fexp d - - E) with (fexp d + E) by lia.
  assert (0 < 10 ^ (fexp d + E)) by (apply Z.pow_pos_nonneg; lia).
  destruct (fsign d); [apply Z.ltb_lt | apply Z.ltb_ge]; nia.
Qed.

Lemma fix_small (d : fdec) : (fcoef d < 10 ^ 28)%N -> fix_ default_prec d = d.
Proof.
  intros Hc. unfold fix_.
  assert (H : (ndigits (fcoef d) <= default_prec)%nat).
  { apply ndigits_le; [unfold default_prec; lia | exact Hc]. }
  apply Nat.leb_le in H. rewrite H. reflexivity.
Qed.

Lemma add_exact_value (E : Z) (a b : fdec) :
  - E <= fexp a -> - E <= fexp b ->
  - E <= fexp (add_exact a b)
  /\ value E (add_exact a b) = value E a + value E b.
Proof.
  intros Ha Hb. unfold value.
  set (e := Z.min (fexp a) (fexp b)).
  rewrite (aligned_scale e E a), (aligned_scale e E b) by (subst e; lia).
  unfold add_exact. fold e.
  set (s := aligned e a + aligned e b).
  destruct (s =? 0) eqn:Hs.
  - apply Z.eqb_eq in Hs. cbn [fexp]. split; [subst e; lia|].
    unfold aligned at 1. cbn [fsign fcoef fexp].
    replace (aligned e a * 10 ^ (e + E) + aligned e b * 10 ^ (e + E))
      with (s * 10 ^ (e + E)) by (subst s; ring).
    rewrite Hs. destruct (_ : bool); reflexivity.
  - apply Z.eqb_neq in Hs. cbn [fexp]. split; [subst e; lia|].
    unfold aligned at 1. cbn [fsign fcoef fexp].
    replace (aligned e a * 10 ^ (e + E) + aligned e b * 10 ^ (e + E))
      with (s * 10 ^ (e + E)) by (subst s; ring).
    replace (e - - E) with (e + E) by lia.
    rewrite N2Z.inj_abs_N.
    destruct (s <? 0) eqn:Hn; [apply Z.ltb_lt in Hn | apply Z.ltb_ge in Hn].
    + rewrite Z.abs_neq by lia. ring.
    + rewrite Z.abs_eq by lia. ring.
Qed.

(** Below 28 digits the sum of the context is the exact one. *)
Lemma plus_value (E : Z) (a b : fdec) :
  - E <= fexp a -> - E <= fexp b ->
  Z.abs (value E a + value E b) < 10 ^ 28 ->
  - E <= fexp (plus a b) /\ value E (plus a b) = value E a + value E b.
Proof.
  intros Ha Hb Hs.
  destruct (add_exact_value E a b Ha Hb) as [He Hv].
  unfold plus, add. rewrite fix_small; [split; assumption|].
  apply (value_coef_bound E); [exact He | rewrite Hv; exact Hs].
Qed.

Lemma minus_value (E : Z) (a b : fdec) :
  - E <= fexp a -> - E <= fexp b ->
  Z.abs (value E a - value E b) < 10 ^ 28 ->
  - E <= fexp (minus a b) /\ value E (minus a b) = value E a - value E b.
Proof.
  intros Ha Hb Hs. unfold minus, sub. fold (plus a (neg b)).
  assert (Hn : - E <= fexp (neg b)) by exact Hb.
  destruct (plus_value E a (neg b) Ha Hn) as [He Hv].
  - rewrite value_neg. replace (value E a + - value E b) with (value E a - value E b) by lia.
    exact Hs.
  - split; [exact He|]. rewrite Hv, value_neg. lia.
Qed.

(** ** normalize *)

Lemma strip_zeros_done (fuel : nat) :
  forall (c : N) (e : Z),
    c <> 0%N -> (c < 10 ^ N.of_nat fuel)%N ->
    (fst (strip_zeros fuel c e) mod 10 <> 0)%N.
Proof.
  induction fuel as [|f IH]; intros c e Hc Hb.
  - simpl in Hb. lia.
  - cbn [strip_zeros]. destruct (c mod 10 =? 0)%N eqn:Hm.
    + apply N.eqb_eq in Hm.
      pose proof (N.div_mod c 10 ltac:(lia)) as Hdm. rewrite Hm in Hdm.
      apply IH.
      * intros Hz. rewrite Hz in Hdm. lia.
      * rewrite Nat2N.inj_succ, N.pow_succ_r' in Hb.
        apply N.Div0.div_lt_upper_bound. exact Hb.
    + apply N.eqb_neq in Hm. exact Hm.
Qed.

(** A coefficient with no trailing zero and its exponent are determined
    by the value. *)
Lemma canonical_unique_le (c1 c2 : N) (k1 k2 : Z) :
  0 <= k1 <= k2 -> (c1 mod 10 <> 0)%N ->
  Z.of_N c1 * 10 ^ k1 = Z.of_N c2 * 10 ^ k2 -> c1 = c2 /\ k1 = k2.
Proof.
  intros Hk H1 Heq.
  replace k2 with ((k2 - k1) + k1) in Heq by lia.
  rewrite Z.pow_add_r in Heq by lia.
  assert (Hp : 0 < 10 ^ k1) by (apply Z.pow_pos_nonneg; lia).
  assert (Hc : Z.of_N c1 = Z.of_N c2 * 10 ^ (k2 - k1)) by nia.
  destruct (Z.eq_dec k1 k2) as [->|Hne].
  - rewrite Z.sub_diag in Hc. simpl in Hc. split; [lia | reflexivity].
  - exfalso. apply H1.
    replace (k2 - k1) with (1 + (k2 - k1 - 1)) in Hc by lia.
    rewrite Z.pow_add_r, Z.pow_1_r in Hc by lia.
    assert (0 <= 10 ^ (k2 - k1 - 1)) by (apply Z.pow_nonneg; lia).
    set (m := Z.of_N c2 * 10 ^ (k2 - k1 - 1)) in *.
    assert (Hm : 0 <= m) by (subst m; nia).
    assert (Hc' : c1 = (10 * Z.to_N m)%N) by lia.
    rewrite Hc', N.mul_comm. apply N.Div0.mod_mul.
Qed.

Lemma canonical_unique (c1 c2 : N) (k1 k2 : Z) :
  0 <= k1 -> 0 <= k2 -> (c1 mod 10 <> 0)%N -> (c2 mod 10 <> 0)%N ->
  Z.of_N c1 * 10 ^ k1 = Z.of_N c2 * 10 ^ k2 -> c1 = c2 /\ k1 = k2.
Proof.
  intros H1 H2 Hc1 Hc2 Heq.
  destruct (Z.le_ge_cases k1 k2) as [Hle|Hle].
  - apply canonical_unique_le; [lia | assumption | assumption].
  - destruct (canonical_unique_le c2 c1 k2 k1) as [-> ->]; auto with zarith.
Qed.

(** Two decimals of the same value that is not zero have the same normal
    form. *)
Lemma norm_value_eq (E : Z) (x y : fdec) :
  - E <= fexp x -> - E <= fexp y ->
  value E x = value E y -> Z.abs (value E x) < 10 ^ 28 ->
  fcoef x <> 0%N -> norm x = norm y.
Proof.
  intros Hx Hy Hv Hb Hc.
  assert (Hcy : fcoef y <> 0%N).
  { intros Hz. apply (value_zero E y Hy) in Hz. rewrite <- Hv in Hz.
    apply (value_zero E x Hx) in Hz. contradiction. }
  assert (Hs : fsign x = fsign y).
  { rewrite <- (value_sign E x Hx Hc), <- (value_sign E y Hy Hcy), Hv. reflexivity. }
  unfold norm, normalize.
  rewrite (fix_small x) by (apply (value_coef_bound E); assumption).
  rewrite (fix_small y) by (apply (value_coef_bound E); [assumption | rewrite <- Hv; assumption]).
  apply N.eqb_neq in Hc, Hcy. rewrite Hc, Hcy. apply N.eqb_neq in Hc, Hcy.
  pose proof (strip_zeros_spec (ndigits (fcoef x)) (fcoef x) (fexp x)) as [Hx1 Hx2].
  pose proof (strip_zeros_spec (ndigits (fcoef y)) (fcoef y) (fexp y)) as [Hy1 Hy2].
  pose proof (strip_zeros_done (ndigits (fcoef x)) (fcoef x) (fexp x) Hc (ndigits_upper _)) as Hx3.
  pose proof (strip_zeros_done (ndigits (fcoef y)) (fcoef y) (fexp y) Hcy (ndigits_upper _)) as Hy3.
  destruct (strip_zeros (ndigits (fcoef x)) (fcoef x) (fexp x)) as [c1 e1].
  destruct (strip_zeros (ndigits (fcoef y)) (fcoef y) (fexp y)) as [c2 e2].
  cbn [fst snd] in *.
  assert (Ha : Z.abs (value E x) = Z.abs (value E y)) by (rewrite Hv; reflexivity).
  rewrite !value_abs in Ha. rewrite Hx2, Hy2 in Ha.
  rewrite <- !Z.mul_assoc, <- !Z.pow_add_r in Ha by lia.
  destruct (canonical_unique c1 c2 (e1 - fexp x + (fexp x + E)) (e2 - fexp y + (fexp y + E)))
    as [-> He]; try lia; try assumption.
  rewrite Hs. f_equal. lia.
Qed.

End DecimalFacts.

(** ** The order on strings and the sort *)

Section SortFacts.
Import Ledger.

Lemma code_inj (x y : ascii) : Str.code x = Str.code y -> x = y.
Proof.
  unfold Str.code. intros H.
  rewrite <- (ascii_N_embedding x), <- (ascii_N_embedding y), H. reflexivity.
Qed.

Lemma ltb_chars_asym (a : list ascii) :
  forall b, Str.ltb_chars a b = true -> Str.ltb_chars b a = false.
Proof.
  induction a as [|x a IH]; intros [|y b] H; cbn [Str.ltb_chars] in *; try congruence.
  destruct (Str.code x <? Str.code y)%N eqn:E1.
  - apply N.ltb_lt in E1.
    assert (E2 : (Str.code y <? Str.code x)%N = false) by (apply N.ltb_ge; lia).
    rewrite E2. reflexivity.
  - destruct (Str.code y <? Str.code x)%N eqn:E2; [discriminate|]. apply IH, H.
Qed.

Lemma ltb_chars_total (a : list ascii) :
  forall b, Str.ltb_chars a b = false -> Str.ltb_chars b a = false -> a = b.
Proof.
  induction a as [|x a IH]; intros [|y b] H1 H2; cbn [Str.ltb_chars] in *; try congruence.
  destruct (Str.code x <? Str.code y)%N eqn:E1; [discriminate|].
  destruct (Str.code y <? Str.code x)%N eqn:E2; [discriminate|].
  apply N.ltb_ge in E1, E2.
  assert (x = y) by (apply code_inj; lia). subst y.
  f_equal. apply IH; assumption.
Qed.

Lemma ltb_chars_cotrans (a : list ascii) :
  forall b c, Str.ltb_chars a c = true ->
    Str.ltb_chars a b = true \/ Str.ltb_chars b c = true.
Proof.
  induction a as [|x a IH]; intros b c H.
  - destruct c as [|z c]; [discriminate|]. destruct b as [|y b]; [right|left]; reflexivity.
  - destruct c as [|z c]; [discriminate|].
    destruct b as [|y b]; [right; reflexivity|].
    cbn [Str.ltb_chars] in *.
    destruct (Str.code x <? Str.code z)%N eqn:E1.
    + apply N.ltb_lt in E1.
      destruct (Str.code x <? Str.code y)%N eqn:E2; [left; reflexivity|].
      apply N.ltb_ge in E2.
      destruct (Str.code y <? Str.code x)%N eqn:E3.
      * apply N.ltb_lt in E3. right.
        assert (E4 : (Str.code y <? Str.code z)%N = true) by (apply N.ltb_lt; lia).
        rewrite E4. reflexivity.
      * apply N.ltb_ge in E3. right.
        assert (E4 : (Str.code y <? Str.code z)%N = true) by (apply N.ltb_lt; lia).
        rewrite E4. reflexivity.
    + destruct (Str.code z <? Str.code x)%N eqn:E2; [discriminate|].
      apply N.ltb_ge in E1, E2.
      assert (Hxz : Str.code x = Str.code z) by lia.
      rewrite <- Hxz.
      destruct (Str.code x <? Str.code y)%N eqn:E3; [left; reflexivity|].
      destruct (Str.code y <? Str.code x)%N eqn:E4; [right; reflexivity|].
      destruct (IH b c H) as [Hl|Hr]; [left|right]; assumption.
Qed.

Lemma leb_total (a b : string) : Str.leb a b = false -> Str.leb b a = true.
Proof.
  unfold Str.leb, Str.ltb. intros H. apply negb_false_iff in H.
  apply negb_true_iff. apply ltb_chars_asym, H.
Qed.

Lemma leb_trans (a b c : string) :
  Str.leb a b = true -> Str.leb b c = true -> Str.leb a c = true.
Proof.
  unfold Str.leb, Str.ltb. intros H1 H2.
  apply negb_true_iff in H1, H2. apply negb_true_iff.
  destruct (Str.ltb_chars (Str.chars c) (Str.chars a)) eqn:E; [|reflexivity].
  destruct (ltb_chars_cotrans _ (Str.chars b) _ E); congruence.
Qed.

Lemma chars_inj (a b : string) : Str.chars a = Str.chars b -> a = b.
Proof.
  intros H. rewrite <- (of_chars_chars a), <- (of_chars_chars b), H. reflexivity.
Qed.

Lemma leb_antisym (a b : string) :
  Str.leb a b = true -> Str.leb b a = true -> a = b.
Proof.
  unfold Str.leb, Str.ltb. intros H1 H2.
  apply negb_true_iff in H1, H2. apply chars_inj, ltb_chars_total; assumption.
Qed.

Lemma leb_strict (a b : string) :
  a <> b -> Str.leb a b = true -> Str.leb b a = false.
Proof.
  intros Hne H. destruct (Str.leb b a) eqn:E; [|reflexivity].
  exfalso. apply Hne, leb_antisym; assumption.
Qed.

Section WithKey.
Context (key : string -> string).

Lemma insert_by_perm (x : string) (l : list string) :
  Permutation (insert_by key x l) (x :: l).
Proof.
  induction l as [|y l IH]; cbn [insert_by]; [reflexivity|].
  destruct (Str.leb (key x) (key y)); [reflexivity|].
  rewrite IH. apply perm_swap.
Qed.

Lemma sorted_by_perm (l : list string) : Permutation (sorted_by key l) l.
Proof.
  unfold sorted_by. induction l as [|x l IH]; cbn [fold_right]; [reflexivity|].
  rewrite insert_by_perm. apply perm_skip, IH.
Qed.

Local Abbreviation key_le := (fun x y : string => Str.leb (key x) (key y) = true).

Lemma insert_by_sorted (x : string) (l : list string) :
  Sorted key_le l -> Sorted key_le (insert_by key x l).
Proof.
  induction l as [|y l IH]; intros Hs; cbn [insert_by].
  - repeat constructor.
  - destruct (Str.leb (key x) (key y)) eqn:E.
    + constructor; [exact Hs|]. constructor. exact E.
    + apply Sorted_inv in Hs. destruct Hs as [Hs Hh].
      constructor; [apply IH, Hs|].
      destruct l as [|z l]; cbn [insert_by].
      * constructor. apply leb_total, E.
      * destruct (Str.leb (key x) (key z)).
        -- constructor. apply leb_total, E.
        -- constructor. apply HdRel_inv in Hh. exact Hh.
Qed.

Lemma sorted_by_sorted (l : list string) : Sorted key_le (sorted_by key l).
Proof.
  unfold sorted_by. induction l as [|x l IH]; cbn [fold_right]; [constructor|].
  apply insert_by_sorted, IH.
Qed.

(** Two insertions of entries with different keys commute. *)
Lemma insert_by_comm (x y : string) (l : list string) :
  key x <> key y ->
  insert_by key x (insert_by key y l) = insert_by key y (insert_by key x l).
Proof.
  intros Hne.
  induction l as [|z l IH]; cbn [insert_by].
  - destruct (Str.leb (key x) (key y)) eqn:E1.
    + rewrite (leb_strict _ _ Hne E1). reflexivity.
    + rewrite (leb_total _ _ E1). reflexivity.
  - destruct (Str.leb (key y) (key z)) eqn:Ey; destruct (Str.leb (key x) (key z)) eqn:Ex;
      cbn [insert_by]; rewrite ?Ey, ?Ex.
    + destruct (Str.leb (key x) (key y)) eqn:E1.
      * rewrite (leb_strict _ _ Hne E1). reflexivity.
      * rewrite (leb_total _ _ E1). reflexivity.
    + assert (E1 : Str.leb (key x) (key y) = false).
      { destruct (Str.leb (key x) (key y)) eqn:E; [|reflexivity].
        rewrite (leb_trans _ _ _ E Ey) in Ex. discriminate. }
      rewrite E1. reflexivity.
    + assert (E1 : Str.leb (key y) (key x) = false).
      { destruct (Str.leb (key y) (key x)) eqn:E; [|reflexivity].
        rewrite (leb_trans _ _ _ E Ex) in Ey. discriminate. }
      rewrite E1. reflexivity.
    + rewrite IH. reflexivity.
Qed.

(** The sort of a list whose keys are pairwise different does not depend
    on the order of the list. *)
Lemma sorted_by_permutation (l l' : list string) :
  Permutation l l' -> List.NoDup (map key l) -> sorted_by key l = sorted_by key l'.
Proof.
  unfold sorted_by. induction 1 as [|x l l' Hp IH|x y l|l l' l'' Hp1 IH1 Hp2 IH2];
    intros Hnd; cbn [fold_right map] in *.
  - reflexivity.
  - apply List.NoDup_cons_iff in Hnd. rewrite IH by apply Hnd. reflexivity.
  - apply insert_by_comm.
    apply List.NoDup_cons_iff in Hnd. destruct Hnd as [Hin _].
    intros Heq. apply Hin. left. congruence.
  - rewrite IH1 by exact Hnd. apply IH2.
    eapply Permutation_NoDup; [|exact Hnd]. apply Permutation_map, Hp1.
Qed.

End WithKey.
End SortFacts.

Section EntryFacts.
Import Dec Src20 Ledger.

Lemma split_chars_cons (sep : ascii) (l : list ascii) :
  exists w ws, Str.split_chars sep l = w :: ws.
Proof.
  induction l as [|c l IH]; cbn [Str.split_chars]; [eauto|].
  destruct IH as (w & ws & ->). destruct (Ascii.eqb c sep); eauto.
Qed.

Lemma split_chars_app (sep : ascii) (l1 l2 : list ascii) :
  existsb (Ascii.eqb sep) l1 = false ->
  Str.split_chars sep (l1 ++ sep :: l2) = l1 :: Str.split_chars sep l2.
Proof.
  induction l1 as [|c l1 IH]; intros H.
  - cbn [app Str.split_chars].
    destruct (split_chars_cons sep l2) as (w & ws & Hs). rewrite Hs.
    rewrite Ascii.eqb_refl. reflexivity.
  - cbn [existsb] in H. apply orb_false_iff in H. destruct H as [Hc Hl].
    cbn [app Str.split_chars]. rewrite (IH Hl).
    rewrite Ascii.eqb_sym, Hc. reflexivity.
Qed.

Lemma chars_cons (c : ascii) (s : string) : Str.chars (String c s) = c :: Str.chars s.
Proof. reflexivity. Qed.

Lemma append_cons (c : ascii) (s : string) :
  String.append (String c EmptyString) s = String c s.
Proof. reflexivity. Qed.

Lemma split_entry (a b c : string) :
  Str.contains_char "," a = false -> Str.contains_char "," b = false ->
  Str.split "," (String.append a (String.append "," (String.append b (String.append "," c))))
  = a :: b :: Str.split "," c.
Proof.
  unfold Str.contains_char. intros Ha Hb. unfold Str.split.
  rewrite !append_cons, chars_append, chars_cons, chars_append, chars_cons.
  rewrite (split_chars_app _ _ _ Ha), (split_chars_app _ _ _ Hb).
  cbn [map]. rewrite !of_chars_chars. reflexivity.
Qed.

Context (decode_unicode_escapes : string -> string).

(** The sort key of an entry is the tick as shown, [_] and the address,
    when neither holds a comma. *)
Lemma entry_key_row (u : balance_update) :
  Str.contains_char "," (display_tick decode_unicode_escapes (u_tick u)) = false ->
  Str.contains_char "," (u_address u) = false ->
  entry_key (ledger_entry decode_unicode_escapes u)
  = row_key decode_unicode_escapes (row_of u).
Proof.
  intros Ht Ha. unfold entry_key, ledger_entry.
  rewrite (split_entry _ _ _ Ht Ha). reflexivity.
Qed.

End EntryFacts.

(** ** The fold of [update_src20_balances] *)

Section FoldFacts.
Import Dec Src20 Ledger.

Lemma same_row_spec (t th a : string) (u : balance_update) :
  same_row t th a u = true <-> row_of u = (t, th, a).
Proof.
  unfold same_row, row_of. rewrite !andb_true_iff, !String.eqb_eq.
  split.
  - intros [[-> ->] ->]. reflexivity.
  - intros H. inversion H. auto.
Qed.

Lemma lookup_row_cons (r : string * string * string) (u : balance_update)
    (l : list balance_update) :
  lookup_row r (u :: l) = if decide (row_of u = r) then Some u else lookup_row r l.
Proof.
  unfold lookup_row. cbn [find]. destruct r as [[t th] a]. cbn [fst snd].
  destruct (same_row t th a u) eqn:E.
  - apply same_row_spec in E. rewrite decide_True by exact E. reflexivity.
  - rewrite decide_False; [reflexivity|].
    intros H. apply same_row_spec in H. congruence.
Qed.

Lemma lookup_row_in (r : string * string * string) (l : list balance_update)
    (u : balance_update) :
  lookup_row r l = Some u -> In u l /\ row_of u = r.
Proof.
  induction l as [|v l IH]; [discriminate|].
  rewrite lookup_row_cons. destruct (decide (row_of v = r)) as [Hr|Hr].
  - intros [= ->]. split; [left; reflexivity | exact Hr].
  - intros H. destruct (IH H) as [Hin Hrow]. split; [right; exact Hin | exact Hrow].
Qed.

Lemma lookup_row_none (r : string * string * string) (l : list balance_update) :
  lookup_row r l = None <-> ~ In r (map row_of l).
Proof.
  induction l as [|v l IH].
  - split; [intros _ [] | reflexivity].
  - rewrite lookup_row_cons. cbn [map In].
    destruct (decide (row_of v = r)) as [Hr|Hr].
    + split; [discriminate | intros H; exfalso; apply H; left; exact Hr].
    + rewrite IH. split; [intros H [Hc|Hc]; contradiction | intros H Hc; apply H; right; exact Hc].
Qed.

Lemma lookup_row_self (l : list balance_update) (u : balance_update) :
  List.NoDup (map row_of l) -> In u l -> lookup_row (row_of u) l = Some u.
Proof.
  induction l as [|v l IH]; intros Hnd Hin; [destruct Hin|].
  cbn [map] in Hnd. apply List.NoDup_cons_iff in Hnd. destruct Hnd as [Hv Hnd].
  rewrite lookup_row_cons. destruct Hin as [->|Hin].
  - rewrite decide_True by reflexivity. reflexivity.
  - rewrite decide_False; [apply IH; assumption|].
    intros Heq. apply Hv. rewrite Heq. apply in_map, Hin.
Qed.

Lemma add_credit_lookup (t th a : string) (x : fdec) (l : list balance_update)
    (r : string * string * string) :
  lookup_row r (add_credit t th a x l) =
  if decide (r = (t, th, a)) then
    Some (match lookup_row (t, th, a) l with
          | Some u => BalanceUpdate (u_tick u) (u_tick_hash u) (u_address u)
                        (plus (credit u) x) (debit u) (net_change u) (original_amt u)
          | None => BalanceUpdate t th a x zero None None
          end)
  else lookup_row r l.
Proof.
  induction l as [|u l IH]; cbn [add_credit].
  - rewrite lookup_row_cons. unfold row_of. cbn [u_tick u_tick_hash u_address].
    change (lookup_row r []) with (@None balance_update).
    change (lookup_row (t, th, a) []) with (@None balance_update).
    destruct (decide ((t, th, a) = r)), (decide (r = (t, th, a))); congruence.
  - destruct (same_row t th a u) eqn:E.
    + apply same_row_spec in E. rewrite !lookup_row_cons.
      change (row_of (BalanceUpdate (u_tick u) (u_tick_hash u) (u_address u)
                        (plus (credit u) x) (debit u) (net_change u) (original_amt u)))
        with (row_of u).
      rewrite (decide_True (P := row_of u = (t, th, a))) by exact E.
      destruct (decide (row_of u = r)), (decide (r = (t, th, a))); congruence.
    + assert (Hne : row_of u <> (t, th, a)).
      { intros H. apply same_row_spec in H. congruence. }
      rewrite !lookup_row_cons, IH.
      rewrite (decide_False (P := row_of u = (t, th, a))) by exact Hne.
      destruct (decide (row_of u = r)), (decide (r = (t, th, a))); congruence.
Qed.

Lemma add_debit_lookup (t th a : string) (x : fdec) (l : list balance_update)
    (r : string * string * string) :
  lookup_row r (add_debit t th a x l) =
  if decide (r = (t, th, a)) then
    Some (match lookup_row (t, th, a) l with
          | Some u => BalanceUpdate (u_tick u) (u_tick_hash u) (u_address u)
                        (credit u) (plus (debit u) x) (net_change u) (original_amt u)
          | None => BalanceUpdate t th a zero x None None
          end)
  else lookup_row r l.
Proof.
  induction l as [|u l IH]; cbn [add_debit].
  - rewrite lookup_row_cons. unfold row_of. cbn [u_tick u_tick_hash u_address].
    change (lookup_row r []) with (@None balance_update).
    change (lookup_row (t, th, a) []) with (@None balance_update).
    destruct (decide ((t, th, a) = r)), (decide (r = (t, th, a))); congruence.
  - destruct (same_row t th a u) eqn:E.
    + apply same_row_spec in E. rewrite !lookup_row_cons.
      change (row_of (BalanceUpdate (u_tick u) (u_tick_hash u) (u_address u)
                        (credit u) (plus (debit u) x) (net_change u) (original_amt u)))
        with (row_of u).
      rewrite (decide_True (P := row_of u = (t, th, a))) by exact E.
      destruct (decide (row_of u = r)), (decide (r = (t, th, a))); congruence.
    + assert (Hne : row_of u <> (t, th, a)).
      { intros H. apply same_row_spec in H. congruence. }
      rewrite !lookup_row_cons, IH.
      rewrite (decide_False (P := row_of u = (t, th, a))) by exact Hne.
      destruct (decide (row_of u = r)), (decide (r = (t, th, a))); congruence.
Qed.

Lemma add_credit_rows (t th a : string) (x : fdec) (l : list balance_update) :
  map row_of (add_credit t th a x l)
  = map row_of l ++ match lookup_row (t, th, a) l with Some _ => [] | None => [(t, th, a)] end.
Proof.
  induction l as [|u l IH]; cbn [add_credit]; [reflexivity|].
  rewrite lookup_row_cons. destruct (same_row t th a u) eqn:E.
  - apply same_row_spec in E. rewrite decide_True by exact E.
    cbn [map]. rewrite app_nil_r. reflexivity.
  - rewrite decide_False.
    + cbn [map app]. rewrite IH. reflexivity.
    + intros H. apply same_row_spec in H. congruence.
Qed.

Lemma add_debit_rows (t th a : string) (x : fdec) (l : list balance_update) :
  map row_of (add_debit t th a x l)
  = map row_of l ++ match lookup_row (t, th, a) l with Some _ => [] | None => [(t, th, a)] end.
Proof.
  induction l as [|u l IH]; cbn [add_debit]; [reflexivity|].
  rewrite lookup_row_cons. destruct (same_row t th a u) eqn:E.
  - apply same_row_spec in E. rewrite decide_True by exact E.
    cbn [map]. rewrite app_nil_r. reflexivity.
  - rewrite decide_False.
    + cbn [map app]. rewrite IH. reflexivity.
    + intros H. apply same_row_spec in H. congruence.
Qed.

(** The rows after one more dict was looked up or added. *)
Lemma rows_after (r : string * string * string) (l : list balance_update)
    (rows : list (string * string * string)) :
  List.NoDup (map row_of l) ->
  (forall r', In r' (map row_of l) <-> In r' rows) ->
  let l' := map row_of l ++ match lookup_row r l with Some _ => [] | None => [r] end in
  List.NoDup l' /\ (forall r', In r' l' <-> In r' (rows ++ [r])).
Proof.
  intros Hnd Hrows l'. subst l'.
  destruct (lookup_row r l) as [u|] eqn:Hl.
  - rewrite app_nil_r. split; [exact Hnd|].
    intros r'. rewrite in_app_iff, Hrows. cbn [In].
    apply lookup_row_in in Hl. destruct Hl as [Hin Hrow].
    assert (Hr : In r rows) by (apply Hrows; rewrite <- Hrow; apply in_map, Hin).
    split; [tauto|]. intros [H|[<-|[]]]; assumption.
  - apply lookup_row_none in Hl. split.
    + apply (Permutation_NoDup (Permutation_cons_append _ _)).
      constructor; assumption.
    + intros r'. rewrite !in_app_iff, Hrows. reflexivity.
Qed.

Lemma tracked_ext (E : Z) (l : list balance_update)
    (rows rows' : list (string * string * string))
    (cf df cf' df' : string * string * string -> Z) :
  tracked E l rows cf df ->
  (forall r, In r rows <-> In r rows') ->
  (forall r, cf r = cf' r) -> (forall r, df r = df' r) ->
  tracked E l rows' cf' df'.
Proof.
  intros (Hnd & Hrows & Hval) Hr Hc Hd. split; [exact Hnd|]. split.
  - intros r. rewrite Hrows. apply Hr.
  - intros r u Hl. rewrite <- Hc, <- Hd. apply Hval, Hl.
Qed.

Lemma value_of_zero (E : Z) : value E zero = 0.
Proof. unfold value, aligned, zero. cbn [fsign fcoef fexp]. lia. Qed.

Lemma add_credit_tracked (E : Z) (t th a : string) (x : fdec) (l : list balance_update)
    (rows : list (string * string * string))
    (cf df : string * string * string -> Z) :
  0 <= E ->
  tracked E l rows cf df ->
  - E <= fexp x ->
  (~ In (t, th, a) rows -> cf (t, th, a) = 0 /\ df (t, th, a) = 0) ->
  Z.abs (cf (t, th, a) + value E x) < 10 ^ 28 ->
  tracked E (add_credit t th a x l) (rows ++ [(t, th, a)])
    (fun r => if decide (r = (t, th, a)) then cf r + value E x else cf r) df.
Proof.
  intros HE (Hnd & Hrows & Hval) Hx Hzero Hb.
  destruct (rows_after (t, th, a) l rows Hnd Hrows) as [Hnd' Hrows'].
  split; [rewrite add_credit_rows; exact Hnd'|]. split.
  - intros r. rewrite add_credit_rows. apply Hrows'.
  - intros r u. rewrite add_credit_lookup.
    destruct (decide (r = (t, th, a))) as [->|Hne]; [|apply Hval].
    destruct (lookup_row (t, th, a) l) as [v|] eqn:Hl; intros [= <-].
    + destruct (Hval _ _ Hl) as (H1 & H2 & H3 & H4).
      cbn [credit debit].
      destruct (plus_value E (credit v) x H1 Hx) as [H5 H6].
      { rewrite H3. exact Hb. }
      rewrite H6, H3. auto.
    + cbn [credit debit]. apply lookup_row_none in Hl.
      destruct Hzero as [Hc Hd]; [rewrite <- Hrows; exact Hl|].
      rewrite Hc, Hd, value_of_zero. cbn [zero fexp]. repeat split; lia.
Qed.

Lemma add_debit_tracked (E : Z) (t th a : string) (x : fdec) (l : list balance_update)
    (rows : list (string * string * string))
    (cf df : string * string * string -> Z) :
  0 <= E ->
  tracked E l rows cf df ->
  - E <= fexp x ->
  (~ In (t, th, a) rows -> cf (t, th, a) = 0 /\ df (t, th, a) = 0) ->
  Z.abs (df (t, th, a) + value E x) < 10 ^ 28 ->
  tracked E (add_debit t th a x l) (rows ++ [(t, th, a)])
    cf (fun r => if decide (r = (t, th, a)) then df r + value E x else df r).
Proof.
  intros HE (Hnd & Hrows & Hval) Hx Hzero Hb.
  destruct (rows_after (t, th, a) l rows Hnd Hrows) as [Hnd' Hrows'].
  split; [rewrite add_debit_rows; exact Hnd'|]. split.
  - intros r. rewrite add_debit_rows. apply Hrows'.
  - intros r u. rewrite add_debit_lookup.
    destruct (decide (r = (t, th, a))) as [->|Hne]; [|apply Hval].
    destruct (lookup_row (t, th, a) l) as [v|] eqn:Hl; intros [= <-].
    + destruct (Hval _ _ Hl) as (H1 & H2 & H3 & H4).
      cbn [credit debit].
      destruct (plus_value E (debit v) x H2 Hx) as [H5 H6].
      { rewrite H4. exact Hb. }
      rewrite H6, H4. auto.
    + cbn [credit debit]. apply lookup_row_none in Hl.
      destruct Hzero as [Hc Hd]; [rewrite <- Hrows; exact Hl|].
      rewrite Hc, Hd, value_of_zero. cbn [zero fexp]. repeat split; lia.
Qed.

(** ** Sums over the records of a block *)

Lemma total_app (f : src20 -> Z) (l1 l2 : list src20) :
  total f (l1 ++ l2) = total f l1 + total f l2.
Proof.
  unfold total. induction l1 as [|d l1 IH]; cbn [app fold_right]; lia.
Qed.

Lemma total_one (f : src20 -> Z) (d : src20) : total f [d] = f d.
Proof. unfold total. cbn [fold_right]. lia. Qed.

Lemma total_permutation (f : src20 -> Z) (l l' : list src20) :
  Permutation l l' -> total f l = total f l'.
Proof.
  unfold total. induction 1; cbn [fold_right]; lia.
Qed.

Lemma touched_rows_app (l1 l2 : list src20) :
  touched_rows (l1 ++ l2) = touched_rows l1 ++ touched_rows l2.
Proof. unfold touched_rows. apply flat_map_app. Qed.

Lemma touched_rows_one (d : src20) : touched_rows [d] = touched d.
Proof. unfold touched_rows. cbn [flat_map]. apply app_nil_r. Qed.

Lemma moved_nonneg (E : Z) (d : src20) : 0 <= moved E d.
Proof. unfold moved. destruct (touched d); lia. Qed.

Lemma volume_nonneg (E : Z) (l : list src20) : 0 <= volume E l.
Proof.
  unfold volume, total. induction l as [|d l IH]; cbn [fold_right]; [lia|].
  pose proof (moved_nonneg E d). lia.
Qed.

Lemma credited_bound (E : Z) (r : string * string * string) (d : src20) :
  Z.abs (credited E r d) <= moved E d
  /\ (credited E r d <> 0 -> In r (touched d)).
Proof.
  unfold credited, moved, touched.
  destruct (valid d); [|split; [lia | congruence]].
  destruct (String.eqb (op d) "MINT"); cbn [orb].
  - destruct (decide (r = (tick d, tick_hash d, destination d))) as [->|];
      split; try lia; try congruence. intros _. left. reflexivity.
  - destruct (String.eqb (op d) "TRANSFER"); [|split; [lia | congruence]].
    destruct (decide (r = (tick d, tick_hash d, destination d))) as [->|];
      split; try lia; try congruence. intros _. right. left. reflexivity.
Qed.

Lemma debited_bound (E : Z) (r : string * string * string) (d : src20) :
  Z.abs (debited E r d) <= moved E d
  /\ (debited E r d <> 0 -> In r (touched d)).
Proof.
  unfold debited, moved, touched.
  destruct (valid d); [|split; [lia | congruence]].
  destruct (String.eqb (op d) "MINT"); cbn [negb andb]; [split; [lia | congruence]|].
  destruct (String.eqb (op d) "TRANSFER"); [|split; [lia | congruence]].
  destruct (decide (r = (tick d, tick_hash d, creator d))) as [->|];
    split; try lia; try congruence. intros _. left. reflexivity.
Qed.

Lemma total_bound (E : Z) (f : src20 -> Z) (l : list src20) :
  (forall d, Z.abs (f d) <= moved E d) -> Z.abs (total f l) <= volume E l.
Proof.
  intros Hf. unfold volume, total.
  induction l as [|d l IH]; cbn [fold_right]; [lia|].
  specialize (Hf d). lia.
Qed.

Lemma total_untouched (f : src20 -> Z) (r : string * string * string) (l : list src20) :
  (forall d, f d <> 0 -> In r (touched d)) ->
  ~ In r (touched_rows l) -> total f l = 0.
Proof.
  intros Hf. unfold total, touched_rows.
  induction l as [|d l IH]; cbn [fold_right flat_map]; [reflexivity|].
  rewrite in_app_iff. intros Hn.
  rewrite IH by tauto.
  destruct (Z.eq_dec (f d) 0) as [->|Hne]; [reflexivity|].
  exfalso. apply Hn. left. apply Hf, Hne.
Qed.

Lemma tracks_nil (E : Z) : tracks E [] [].
Proof.
  split; [constructor|]. split; [reflexivity|]. intros r u. discriminate.
Qed.

End FoldFacts.

Section FoldRun.
Import Dec Src20 Ledger.

Lemma fold_step_tracks (E : Z) (bu : list balance_update) (prefix : list src20)
    (d : src20) :
  0 <= E ->
  tracks E bu prefix ->
  (touched d <> [] -> exists a, amt d = Some a /\ - E <= fexp a) ->
  volume E (prefix ++ [d]) < 10 ^ 28 ->
  exists bu', fold_step bu d = Ret bu' /\ tracks E bu' (prefix ++ [d]).
Proof.
  intros HE Ht Hamt Hvol. unfold tracks in *.
  assert (Hcb : forall r, Z.abs (total (credited E r) (prefix ++ [d])) < 10 ^ 28).
  { intros r. pose proof (total_bound E (credited E r) (prefix ++ [d])
                            (fun d => proj1 (credited_bound E r d))). lia. }
  assert (Hdb : forall r, Z.abs (total (debited E r) (prefix ++ [d])) < 10 ^ 28).
  { intros r. pose proof (total_bound E (debited E r) (prefix ++ [d])
                            (fun d => proj1 (debited_bound E r d))). lia. }
  assert (Hz : forall r, ~ In r (touched_rows prefix) ->
                 total (credited E r) prefix = 0 /\ total (debited E r) prefix = 0).
  { intros r Hr. split; apply (total_untouched _ r); try exact Hr; intros d'.
    - apply credited_bound. - apply debited_bound. }
  unfold fold_step.
  destruct (valid d) eqn:Hv.
  2:{ exists bu. split; [reflexivity|].
      eapply tracked_ext; [exact Ht| | |].
      - intros r. rewrite touched_rows_app, touched_rows_one. unfold touched. rewrite Hv.
        rewrite app_nil_r. reflexivity.
      - intros r. rewrite total_app, total_one. unfold credited. rewrite Hv. lia.
      - intros r. rewrite total_app, total_one. unfold debited. rewrite Hv. lia. }
  destruct (String.eqb (op d) "MINT") eqn:Hm.
  - destruct Hamt as (a & Ha & Hfa).
    { unfold touched. rewrite Hv, Hm. discriminate. }
    rewrite Ha. cbn [D bind]. eexists. split; [reflexivity|].
    set (r0 := (tick d, tick_hash d, destination d)).
    assert (Hc0 : credited E r0 d = value E a).
    { unfold credited. rewrite Hv, Hm, Ha. cbn [orb default].
      rewrite decide_True by reflexivity. reflexivity. }
    eapply tracked_ext.
    + apply (add_credit_tracked E (tick d) (tick_hash d) (destination d) a bu _ _ _ HE Ht Hfa).
      * apply Hz.
      * fold r0. specialize (Hcb r0). rewrite total_app, total_one, Hc0 in Hcb. exact Hcb.
    + intros r. rewrite touched_rows_app, touched_rows_one. unfold touched.
      rewrite Hv, Hm. reflexivity.
    + intros r. cbv beta. rewrite total_app, total_one. fold r0.
      destruct (decide (r = r0)) as [->|Hne]; [rewrite Hc0; reflexivity|].
      unfold credited. rewrite Hv, Hm. cbn [orb]. fold r0.
      rewrite decide_False by exact Hne. lia.
    + intros r. rewrite total_app, total_one. unfold debited. rewrite Hv, Hm.
      cbn [negb andb]. lia.
  - destruct (String.eqb (op d) "TRANSFER") eqn:Hx.
    2:{ exists bu. split; [reflexivity|].
        eapply tracked_ext; [exact Ht| | |].
        - intros r. rewrite touched_rows_app, touched_rows_one. unfold touched.
          rewrite Hv, Hm, Hx. rewrite app_nil_r. reflexivity.
        - intros r. rewrite total_app, total_one. unfold credited. rewrite Hv, Hm, Hx.
          cbn [orb]. lia.
        - intros r. rewrite total_app, total_one. unfold debited. rewrite Hv, Hm, Hx.
          cbn [negb andb]. lia. }
    destruct Hamt as (a & Ha & Hfa).
    { unfold touched. rewrite Hv, Hm, Hx. discriminate. }
    rewrite Ha. cbn [D bind]. eexists. split; [reflexivity|].
    set (rc := (tick d, tick_hash d, creator d)).
    set (rd := (tick d, tick_hash d, destination d)).
    assert (Hc0 : credited E rd d = value E a).
    { unfold credited. rewrite Hv, Hm, Hx, Ha. cbn [orb default].
      rewrite decide_True by reflexivity. reflexivity. }
    assert (Hd0 : debited E rc d = value E a).
    { unfold debited. rewrite Hv, Hm, Hx, Ha. cbn [negb andb default].
      rewrite decide_True by reflexivity. reflexivity. }
    pose proof (add_debit_tracked E (tick d) (tick_hash d) (creator d) a bu _ _ _ HE Ht Hfa)
      as Hdeb.
    fold rc in Hdeb. cbv beta in Hdeb.
    specialize (Hdeb (Hz rc)).
    assert (Hdb1 : Z.abs (total (debited E rc) prefix + value E a) < 10 ^ 28).
    { specialize (Hdb rc). rewrite total_app, total_one, Hd0 in Hdb. exact Hdb. }
    specialize (Hdeb Hdb1).
    eapply tracked_ext.
    + apply (add_credit_tracked E (tick d) (tick_hash d) (destination d) a _ _ _ _ HE Hdeb Hfa).
      * fold rd. intros Hn. rewrite in_app_iff in Hn. cbn [In] in Hn.
        destruct (Hz rd) as [H1 H2]; [tauto|].
        split; [exact H1|].
        rewrite decide_False by (intros Heq; apply Hn; right; left; congruence).
        exact H2.
      * fold rd. specialize (Hcb rd). rewrite total_app, total_one, Hc0 in Hcb. exact Hcb.
    + intros r. rewrite touched_rows_app, touched_rows_one. unfold touched.
      rewrite Hv, Hm, Hx. fold rc rd. rewrite <- app_assoc. reflexivity.
    + intros r. cbv beta. rewrite total_app, total_one. fold rd.
      destruct (decide (r = rd)) as [->|Hne]; [rewrite Hc0; reflexivity|].
      unfold credited. rewrite Hv, Hm, Hx. cbn [orb]. fold rd.
      rewrite decide_False by exact Hne. lia.
    + intros r. cbv beta. rewrite total_app, total_one.
      destruct (decide (r = rc)) as [->|Hne]; [rewrite Hd0; reflexivity|].
      unfold debited. rewrite Hv, Hm, Hx. cbn [negb andb]. fold rc.
      rewrite decide_False by exact Hne. lia.
Qed.

Lemma volume_app (E : Z) (l1 l2 : list src20) :
  volume E (l1 ++ l2) = volume E l1 + volume E l2.
Proof. apply total_app. Qed.

(** The fold ends, and its result holds the sums of the block. *)
Lemma fold_balances_tracks (E : Z) (rest : list src20) :
  forall (bu : list balance_update) (prefix : list src20),
    0 <= E ->
    tracks E bu prefix ->
    (forall d, In d rest -> touched d <> [] -> exists a, amt d = Some a /\ - E <= fexp a) ->
    volume E (prefix ++ rest) < 10 ^ 28 ->
    exists bu', fold_balances rest bu = Ret bu' /\ tracks E bu' (prefix ++ rest).
Proof.
  induction rest as [|d rest IH]; intros bu prefix HE Ht Hamt Hvol.
  - exists bu. rewrite app_nil_r. split; [reflexivity | exact Ht].
  - cbn [fold_balances].
    destruct (fold_step_tracks E bu prefix d HE Ht) as (bu1 & Hs & Ht1).
    + apply Hamt. left. reflexivity.
    + rewrite volume_app in *. change (d :: rest) with ([d] ++ rest) in Hvol.
      rewrite volume_app in Hvol. pose proof (volume_nonneg E rest). lia.
    + rewrite Hs. cbn [bind].
      destruct (IH bu1 (prefix ++ [d]) HE Ht1) as (bu' & Hf & Ht').
      * intros d' Hin. apply Hamt. right. exact Hin.
      * rewrite <- app_assoc. exact Hvol.
      * exists bu'. split; [exact Hf|]. rewrite <- app_assoc in Ht'. exact Ht'.
Qed.

(** ** The table update *)

Lemma select_amt_upsert (u : balance_update) (x : fdec) (table : list balance_row)
    (id : string) :
  row_id (u_tick u) (u_address u) <> id ->
  select_amt (upsert u x table) id = select_amt table id.
Proof.
  intros Hne. unfold select_amt. f_equal.
  induction table as [|r table IH]; cbn [upsert find].
  - cbn [b_tick b_address].
    destruct (String.eqb (row_id (u_tick u) (u_address u)) id) eqn:E; [|reflexivity].
    apply String.eqb_eq in E. contradiction.
  - destruct (String.eqb (row_id (b_tick r) (b_address r)) (row_id (u_tick u) (u_address u)))
      eqn:E.
    + apply String.eqb_eq in E. cbn [find b_tick b_address].
      destruct (String.eqb (row_id (b_tick r) (b_address r)) id) eqn:E2; [|reflexivity].
      apply String.eqb_eq in E2. congruence.
    + cbn [find]. rewrite IH. reflexivity.
Qed.

(** With one dict per row id, every dict is annotated with the amount
    that its row had before the block. *)
Lemma update_balance_table_annotate (bu : list balance_update) :
  forall table : list balance_row,
    List.NoDup (map (fun u => row_id (u_tick u) (u_address u)) bu) ->
    fst (update_balance_table table bu) = map (annotate table) bu.
Proof.
  induction bu as [|u bu IH]; intros table Hnd; [reflexivity|].
  cbn [map] in Hnd. apply List.NoDup_cons_iff in Hnd. destruct Hnd as [Hu Hnd].
  cbn [update_balance_table].
  specialize (IH (upsert u (minus (credit u) (debit u)) table) Hnd).
  destruct (update_balance_table (upsert u (minus (credit u) (debit u)) table) bu)
    as [rest' table'].
  cbn [fst] in *. cbn [map]. f_equal. rewrite IH.
  apply map_ext_in. intros v Hv. unfold annotate.
  rewrite select_amt_upsert; [reflexivity|].
  intros Heq. apply Hu. rewrite Heq.
  apply (in_map (fun u => row_id (u_tick u) (u_address u))), Hv.
Qed.

End FoldRun.

Section LedgerOrder.
Import Dec Src20 Ledger.

Lemma format_decimal_zero_coef (s : bool) : format_decimal (FDec s 0 0) = "0"%string.
Proof. destruct s; vm_compute; reflexivity. Qed.

Lemma norm_zero (x : fdec) : fcoef x = 0%N -> norm x = FDec (fsign x) 0 0.
Proof.
  intros Hz. unfold norm, normalize. rewrite fix_small by (rewrite Hz; reflexivity).
  rewrite Hz. reflexivity.
Qed.

(** The rendering of an amount depends on its value only. *)
Lemma format_norm_value (E : Z) (x y : fdec) :
  - E <= fexp x -> - E <= fexp y ->
  value E x = value E y -> Z.abs (value E x) < 10 ^ 28 ->
  format_decimal (norm x) = format_decimal (norm y).
Proof.
  intros Hx Hy Hv Hb.
  destruct (N.eq_dec (fcoef x) 0%N) as [Hz|Hnz].
  - assert (Hzy : fcoef y = 0%N).
    { apply (value_zero E y Hy). rewrite <- Hv. apply (value_zero E x Hx), Hz. }
    rewrite (norm_zero x Hz), (norm_zero y Hzy), !format_decimal_zero_coef. reflexivity.
  - rewrite (norm_value_eq E x y Hx Hy Hv Hb Hnz). reflexivity.
Qed.

Lemma select_amt_in (table : list balance_row) (id : string) (a : fdec) :
  select_amt table id = Some a -> exists r, In r table /\ b_amt r = a.
Proof.
  unfold select_amt. destruct (find _ table) as [r|] eqn:Hf; [|discriminate].
  intros [= <-]. exists r. split; [|reflexivity]. apply (find_some _ _ Hf).
Qed.

Context (decode_unicode_escapes : string -> string).

Lemma annotate_entry_eq (E B V : Z) (table : list balance_row) (u1 u2 : balance_update) :
  0 <= E -> 0 <= B ->
  (forall r, In r table -> - E <= fexp (b_amt r) /\ Z.abs (value E (b_amt r)) <= B) ->
  row_of u1 = row_of u2 ->
  - E <= fexp (credit u1) -> - E <= fexp (debit u1) ->
  - E <= fexp (credit u2) -> - E <= fexp (debit u2) ->
  value E (credit u1) = value E (credit u2) ->
  value E (debit u1) = value E (debit u2) ->
  Z.abs (value E (credit u1)) <= V -> Z.abs (value E (debit u1)) <= V ->
  B + 2 * V < 10 ^ 28 ->
  ledger_entry decode_unicode_escapes (annotate table u1)
  = ledger_entry decode_unicode_escapes (annotate table u2).
Proof.
  intros HE HB Htab Hrow Hc1 Hd1 Hc2 Hd2 Hc Hd Hbc Hbd Hbound.
  unfold row_of in Hrow. injection Hrow as Ht Hth Ha.
  unfold ledger_entry, annotate, ledger_amt.
  cbn [u_tick u_address net_change original_amt default].
  rewrite Ht, Ha.
  set (o := default zero (select_amt table (row_id (u_tick u2) (u_address u2)))).
  assert (Ho : - E <= fexp o /\ Z.abs (value E o) <= B).
  { subst o. destruct (select_amt table _) as [a|] eqn:Hs; cbn [default].
    - apply select_amt_in in Hs. destruct Hs as (r & Hin & <-). apply Htab, Hin.
    - rewrite value_of_zero. unfold zero. cbn [fexp]. split; lia. }
  destruct Ho as [Ho1 Ho2].
  destruct (minus_value E (credit u1) (debit u1) Hc1 Hd1) as [Hm1 Hv1]; [lia|].
  destruct (minus_value E (credit u2) (debit u2) Hc2 Hd2) as [Hm2 Hv2]; [lia|].
  destruct (plus_value E (minus (credit u1) (debit u1)) o Hm1 Ho1) as [Hp1 Hw1]; [lia|].
  destruct (plus_value E (minus (credit u2) (debit u2)) o Hm2 Ho1) as [Hp2 Hw2]; [lia|].
  assert (Hfmt : format_decimal (norm (plus (minus (credit u1) (debit u1)) o))
                 = format_decimal (norm (plus (minus (credit u2) (debit u2)) o))).
  { apply (format_norm_value E); [exact Hp1 | exact Hp2 | |].
    - rewrite Hw1, Hw2, Hv1, Hv2, Hc, Hd. reflexivity.
    - rewrite Hw1, Hv1. lia. }
  unfold id. rewrite Hfmt. reflexivity.
Qed.

Lemma NoDup_map_inj_on {A B : Type} (f : A -> B) (l : list A) :
  (forall x y, In x l -> In y l -> f x = f y -> x = y) ->
  List.NoDup l -> List.NoDup (map f l).
Proof.
  induction l as [|a l IH]; intros Hinj Hnd; cbn [map]; [constructor|].
  apply List.NoDup_cons_iff in Hnd. destruct Hnd as [Ha Hnd].
  constructor.
  - intros Hin. apply in_map_iff in Hin. destruct Hin as (b & Hb & Hin).
    assert (b = a) by (apply Hinj; [right; exact Hin | left; reflexivity | exact Hb]).
    subst b. contradiction.
  - apply IH; [|exact Hnd]. intros x y Hx Hy. apply Hinj; right; assumption.
Qed.

Lemma touched_rows_permutation (l l' : list src20) (r : string * string * string) :
  Permutation l l' -> In r (touched_rows l) -> In r (touched_rows l').
Proof.
  intros Hp. unfold touched_rows. rewrite !in_flat_map.
  intros (d & Hd & Hr). exists d. split; [|exact Hr].
  apply (Permutation_in _ Hp), Hd.
Qed.

(** What [ledger_string] is once the fold has run. *)
Lemma ledger_string_run (table : list balance_row) (processed : list src20)
    (bu : list balance_update) :
  fold_balances processed [] = Ret bu ->
  List.NoDup (map (fun u => row_id (u_tick u) (u_address u)) bu) ->
  ledger_string decode_unicode_escapes table processed
  = Ret (process_balance_updates decode_unicode_escapes (map (annotate table) bu)).
Proof.
  intros Hf Hnd. unfold ledger_string, update_src20_balances. rewrite Hf. cbn [bind].
  pose proof (update_balance_table_annotate bu table Hnd) as Ha.
  destruct bu as [|u bu]; [reflexivity|].
  cbn [bind]. destruct (update_balance_table table (u :: bu)) as [us table'].
  cbn [fst] in Ha. rewrite Ha. reflexivity.
Qed.

End LedgerOrder.

Section LedgerTheorems.
Import Dec Src20 Ledger.

(** X1: update_src20_balances: the fold ends without an exception and leaves
    one dict per row touched, whose credit and debit are the sums of the
    amounts credited to and debited from the row, when the amounts have
    exponents of [-E] at least, not below [Etiny], and add up to less
    than 28 digits. *)
Theorem update_src20_balances_sums (E : Z) (processed : list src20) :
  0 <= E -> Etiny <= - E ->
  (forall d, In d processed -> touched d <> [] ->
     exists a, amt d = Some a /\ - E <= fexp a) ->
  volume E processed < 10 ^ 28 ->
  exists bu,
    fold_balances processed [] = Ret bu
    /\ List.NoDup (map row_of bu)
    /\ (forall r, In r (map row_of bu) <-> In r (touched_rows processed))
    /\ (forall u, In u bu ->
          value E (credit u) = total (credited E (row_of u)) processed
          /\ value E (debit u) = total (debited E (row_of u)) processed).
Proof.
  intros HE _ Hamt Hvol.
  destruct (fold_balances_tracks E processed [] [] HE (tracks_nil E) Hamt Hvol)
    as (bu & Hf & Hnd & Hrows & Hval).
  exists bu. split; [exact Hf|]. split; [exact Hnd|]. split; [exact Hrows|].
  intros u Hu.
  destruct (Hval (row_of u) u (lookup_row_self bu u Hnd Hu)) as (_ & _ & Hc & Hd).
  cbn [app] in Hc, Hd. split; assumption.
Qed.

Context (decode_unicode_escapes : string -> string).

Local Abbreviation entry := (ledger_entry decode_unicode_escapes).
Local Abbreviation key_of := (row_key decode_unicode_escapes).

Lemma insert_by_map (f : balance_update -> string) (k : balance_update -> string)
    (x : balance_update) (us : list balance_update) :
  (forall u, In u (x :: us) -> entry_key (f u) = k u) ->
  StronglySorted (fun u v => Str.leb (k u) (k v) = true) us ->
  exists us',
    insert_by entry_key (f x) (map f us) = map f us'
    /\ Permutation us' (x :: us)
    /\ StronglySorted (fun u v => Str.leb (k u) (k v) = true) us'.
Proof.
  intros Hk. induction us as [|y us IH]; intros Hs.
  - exists [x]. cbn [map insert_by]. split; [reflexivity|]. split; [reflexivity|].
    repeat constructor.
  - cbn [map insert_by].
    rewrite (Hk x) by (left; reflexivity).
    rewrite (Hk y) by (right; left; reflexivity).
    destruct (Str.leb (k x) (k y)) eqn:Hxy.
    + exists (x :: y :: us). split; [reflexivity|]. split; [reflexivity|].
      constructor; [exact Hs|].
      constructor; [exact Hxy|].
      apply StronglySorted_inv in Hs. destruct Hs as [_ Hall].
      rewrite List.Forall_forall in *. intros v Hv.
      apply (leb_trans _ (k y)); [exact Hxy | apply Hall, Hv].
    + pose proof Hs as Hs'. apply StronglySorted_inv in Hs. destruct Hs as [Hs Hall].
      destruct IH as (us' & Hi & Hp & Hss); [|exact Hs|].
      { intros u [<-|Hu]; apply Hk; [left; reflexivity | right; right; exact Hu]. }
      exists (y :: us'). cbn [map]. rewrite Hi. split; [reflexivity|]. split.
      * rewrite Hp. apply perm_swap.
      * constructor; [exact Hss|].
        rewrite List.Forall_forall in *. intros v Hv.
        apply (Permutation_in _ Hp) in Hv. destruct Hv as [<-|Hv].
        -- apply leb_total, Hxy.
        -- apply Hall, Hv.
Qed.

Lemma sorted_by_map (f : balance_update -> string) (k : balance_update -> string)
    (l : list balance_update) :
  (forall u, In u l -> entry_key (f u) = k u) ->
  exists us,
    sorted_by entry_key (map f l) = map f us
    /\ Permutation us l
    /\ StronglySorted (fun u v => Str.leb (k u) (k v) = true) us.
Proof.
  induction l as [|x l IH]; intros Hk.
  - exists []. split; [reflexivity|]. split; [reflexivity | constructor].
  - destruct IH as (us & Hs & Hp & Hss).
    { intros u Hu. apply Hk. right. exact Hu. }
    destruct (insert_by_map f k x us) as (us' & Hi & Hp' & Hss'); [|exact Hss|].
    { intros u [<-|Hu]; apply Hk; [left; reflexivity|].
      right. apply (Permutation_in _ Hp), Hu. }
    exists us'. unfold sorted_by in *. cbn [map fold_right]. rewrite Hs, Hi.
    split; [reflexivity|]. split; [|exact Hss'].
    rewrite Hp'. apply perm_skip, Hp.
Qed.

(** X2: process_balance_updates: the string holds one entry
    tick,address,amt for each balance update, joined with [;], in the
    order of the keys tick_address. *)
Theorem process_balance_updates_sorted (bu : list balance_update) :
  (forall u, In u bu ->
     Str.contains_char "," (display_tick decode_unicode_escapes (u_tick u)) = false
     /\ Str.contains_char "," (u_address u) = false) ->
  exists us,
    Permutation us bu
    /\ process_balance_updates decode_unicode_escapes bu = Str.join ";" (map entry us)
    /\ StronglySorted
         (fun u v => Str.leb (key_of (row_of u)) (key_of (row_of v)) = true) us.
Proof.
  intros Hc.
  destruct (sorted_by_map entry (fun u => key_of (row_of u)) bu) as (us & Hs & Hp & Hss).
  { intros u Hu. destruct (Hc u Hu) as [H1 H2]. apply entry_key_row; assumption. }
  exists us. split; [exact Hp|]. split; [|exact Hss].
  unfold process_balance_updates. rewrite Hs. reflexivity.
Qed.

(** X3: the ledger string of a block does not depend on the order of its
    records, when no sum exceeds the 28 digits of the context, no
    exponent is below [Etiny], and the rows touched have different ids
    and different sort keys. *)
Theorem ledger_string_permutation (E B : Z) (table : list balance_row)
    (processed processed' : list src20) :
  0 <= E -> Etiny <= - E -> 0 <= B ->
  Permutation processed processed' ->
  (forall d, In d processed -> touched d <> [] ->
     exists a, amt d = Some a /\ - E <= fexp a) ->
  (forall r, In r table -> - E <= fexp (b_amt r) /\ Z.abs (value E (b_amt r)) <= B) ->
  B + 2 * volume E processed < 10 ^ 28 ->
  (forall r, In r (touched_rows processed) ->
     Str.contains_char "," (display_tick decode_unicode_escapes (fst (fst r))) = false
     /\ Str.contains_char "," (snd r) = false) ->
  (forall r r', In r (touched_rows processed) -> In r' (touched_rows processed) ->
     row_id (fst (fst r)) (snd r) = row_id (fst (fst r')) (snd r')
     \/ key_of r = key_of r' -> r = r') ->
  exists s,
    ledger_string decode_unicode_escapes table processed = Ret s
    /\ ledger_string decode_unicode_escapes table processed' = Ret s.
Proof.
  intros HE _ HB Hperm Hamt Htab Hbound Hcomma Hinj.
  pose proof (volume_nonneg E processed) as Hvol0.
  assert (Hvol' : volume E processed' = volume E processed).
  { symmetry. apply total_permutation, Hperm. }
  destruct (fold_balances_tracks E processed [] [] HE (tracks_nil E) Hamt)
    as (bu1 & Hf1 & Hnd1 & Hrows1 & Hval1); [cbn [app]; lia|].
  destruct (fold_balances_tracks E processed' [] [] HE (tracks_nil E))
    as (bu2 & Hf2 & Hnd2 & Hrows2 & Hval2).
  { intros d Hd. apply Hamt. apply (Permutation_in _ (Permutation_sym Hperm)), Hd. }
  { cbn [app]. lia. }
  cbn [app] in *.
  assert (Hrows2' : forall r, In r (map row_of bu2) <-> In r (touched_rows processed)).
  { intros r. rewrite Hrows2. split; apply touched_rows_permutation;
      [apply Permutation_sym|]; exact Hperm. }
  assert (Hids : forall bu, (forall r, In r (map row_of bu) <-> In r (touched_rows processed)) ->
                   List.NoDup (map row_of bu) ->
                   List.NoDup (map (fun u => row_id (u_tick u) (u_address u)) bu)).
  { intros bu Hr Hnd.
    rewrite <- (map_map row_of (fun r => row_id (fst (fst r)) (snd r))).
    apply NoDup_map_inj_on; [|exact Hnd].
    intros x y Hx Hy Heq. apply Hinj; [apply Hr, Hx | apply Hr, Hy | left; exact Heq]. }
  rewrite (ledger_string_run _ table processed bu1 Hf1 (Hids bu1 Hrows1 Hnd1)).
  rewrite (ledger_string_run _ table processed' bu2 Hf2 (Hids bu2 Hrows2' Hnd2)).
  eexists. split; [reflexivity|]. f_equal.
  unfold process_balance_updates. f_equal.
  set (F := fun r => match lookup_row r bu1 with
                     | Some u => entry (annotate table u)
                     | None => EmptyString
                     end).
  assert (H1 : map entry (map (annotate table) bu1) = map F (map row_of bu1)).
  { rewrite !map_map. apply map_ext_in. intros u Hu. subst F. cbv beta.
    rewrite (lookup_row_self bu1 u Hnd1 Hu). reflexivity. }
  assert (H2 : map entry (map (annotate table) bu2) = map F (map row_of bu2)).
  { rewrite !map_map. apply map_ext_in. intros u2 Hu2. subst F. cbv beta.
    assert (Hin : In (row_of u2) (map row_of bu1)).
    { apply Hrows1, Hrows2', in_map, Hu2. }
    destruct (lookup_row (row_of u2) bu1) as [u1|] eqn:Hl.
    2:{ apply lookup_row_none in Hl. contradiction. }
    pose proof (lookup_row_in _ _ _ Hl) as [_ Hrow].
    destruct (Hval1 _ _ Hl) as (Ha1 & Ha2 & Ha3 & Ha4).
    destruct (Hval2 _ _ (lookup_row_self bu2 u2 Hnd2 Hu2)) as (Hb1 & Hb2 & Hb3 & Hb4).
    symmetry.
    apply (annotate_entry_eq _ E B (volume E processed)); try assumption.
    - rewrite Ha3, Hb3. apply total_permutation, Hperm.
    - rewrite Ha4, Hb4. apply total_permutation, Hperm.
    - rewrite Ha3. apply total_bound. intros d. apply credited_bound.
    - rewrite Ha4. apply total_bound. intros d. apply debited_bound. }
  rewrite H1, H2. symmetry.
  apply sorted_by_permutation.
  - apply Permutation_map. apply Permutation.NoDup_Permutation; [exact Hnd1 | exact Hnd2|].
    intros r. rewrite Hrows1, Hrows2'. reflexivity.
  - rewrite <- H1, !map_map.
    rewrite (map_ext_in _ (fun u => key_of (row_of u))).
    + rewrite <- (map_map row_of key_of). apply NoDup_map_inj_on; [|exact Hnd1].
      intros x y Hx Hy Heq. apply Hinj; [apply Hrows1, Hx | apply Hrows1, Hy | right; exact Heq].
    + intros u Hu.
      destruct (Hcomma (row_of u)) as [Hc1 Hc2]; [apply Hrows1, in_map, Hu|].
      change (row_of u) with (row_of (annotate table u)).
      apply entry_key_row; assumption.
Qed.

End LedgerTheorems.

Section FormatDecimal.
Import Dec Src20 Ledger.

Lemma aligned_of_Z (z : Z) : aligned 0 (of_Z z) = z.
Proof.
  unfold aligned, of_Z. cbn [fsign fcoef fexp]. rewrite Z.sub_diag, Z.pow_0_r, Z.mul_1_r.
  rewrite N2Z.inj_abs_N.
  destruct (z <? 0) eqn:Hz; [apply Z.ltb_lt in Hz | apply Z.ltb_ge in Hz]; lia.
Qed.

Lemma to_int_aligned (d : fdec) : 0 <= fexp d -> to_int d = aligned 0 d.
Proof.
  intros He. unfold to_int, aligned.
  assert (H : (0 <=? fexp d) = true) by (apply Z.leb_le; exact He).
  rewrite H, Z.sub_0_r. reflexivity.
Qed.

Lemma is_integral_nonneg (d : fdec) : 0 <= fexp d -> is_integral d = true.
Proof.
  intros He. unfold is_integral, eqb, cmp.
  change (fexp (of_Z (to_int d))) with 0.
  rewrite Z.min_r by exact He.
  rewrite aligned_of_Z, to_int_aligned by exact He.
  rewrite Z.compare_refl. reflexivity.
Qed.

(** The normal form of a decimal that is not zero. *)
Lemma norm_shape (a : fdec) :
  (fcoef a < 10 ^ 28)%N -> fcoef a <> 0%N ->
  exists c e,
    norm a = FDec (fsign a) c e
    /\ fexp a <= e
    /\ Z.of_N (fcoef a) = Z.of_N c * 10 ^ (e - fexp a)
    /\ (c mod 10 <> 0)%N.
Proof.
  intros Hb Hc. unfold norm, normalize. rewrite (fix_small a Hb).
  apply N.eqb_neq in Hc. rewrite Hc. apply N.eqb_neq in Hc.
  pose proof (strip_zeros_spec (ndigits (fcoef a)) (fcoef a) (fexp a)) as [H1 H2].
  pose proof (strip_zeros_done (ndigits (fcoef a)) (fcoef a) (fexp a) Hc (ndigits_upper _)) as H3.
  destruct (strip_zeros (ndigits (fcoef a)) (fcoef a) (fexp a)) as [c e].
  cbn [fst snd] in *. exists c, e. auto.
Qed.

Lemma digit_char_code (r : N) : (r < 10)%N -> Str.code (Str.digit_char r) = (48 + r)%N.
Proof.
  intros Hr. unfold Str.code, Str.digit_char. apply N_ascii_embedding. lia.
Qed.

Lemma digit_char_decimal (r : N) : (r < 10)%N -> Str.isdecimal (Str.digit_char r) = true.
Proof.
  intros Hr. unfold Str.isdecimal. rewrite (digit_char_code r Hr).
  apply andb_true_iff. split; apply N.leb_le; lia.
Qed.

Lemma digits_aux_decimal (fuel : nat) :
  forall (n : N) (acc : list ascii),
    forallb Str.isdecimal acc = true ->
    forallb Str.isdecimal (Str.digits_aux fuel n acc) = true.
Proof.
  induction fuel as [|f IH]; intros n acc Hacc; cbn [Str.digits_aux].
  - cbn [forallb]. rewrite Hacc, digit_char_decimal; [reflexivity|].
    apply N.mod_lt. lia.
  - assert (Hd : forallb Str.isdecimal (Str.digit_char (n mod 10) :: acc) = true).
    { cbn [forallb]. rewrite Hacc, digit_char_decimal; [reflexivity|]. apply N.mod_lt. lia. }
    destruct (n <? 10)%N; [exact Hd | apply IH, Hd].
Qed.

Lemma digits_aux_last (fuel : nat) :
  forall (n : N) (acc : list ascii),
    exists init, Str.digits_aux fuel n acc = init ++ Str.digit_char (n mod 10) :: acc.
Proof.
  induction fuel as [|f IH]; intros n acc; cbn [Str.digits_aux].
  - exists []. reflexivity.
  - destruct (n <? 10)%N; [exists []; reflexivity|].
    destruct (IH (n / 10)%N (Str.digit_char (n mod 10) :: acc)) as (init & ->).
    exists (init ++ [Str.digit_char ((n / 10) mod 10)]).
    rewrite <- app_assoc. reflexivity.
Qed.

Lemma decimal_not_point (c : ascii) : Str.isdecimal c = true -> Ascii.eqb "." c = false.
Proof.
  intros H. destruct (Ascii.eqb "." c) eqn:E; [|reflexivity].
  apply Ascii.eqb_eq in E. subst c. discriminate.
Qed.

Lemma of_Z_no_point (z : Z) : Str.contains_char "." (Str.of_Z z) = false.
Proof.
  unfold Str.contains_char, Str.of_Z. rewrite chars_of_chars.
  assert (Hd : forallb Str.isdecimal (Str.digits_of_N (Z.abs_N z)) = true).
  { apply digits_aux_decimal. reflexivity. }
  assert (Hn : existsb (Ascii.eqb ".") (Str.digits_of_N (Z.abs_N z)) = false).
  { induction (Str.digits_of_N (Z.abs_N z)) as [|c l IH]; [reflexivity|].
    cbn [forallb existsb] in *. apply andb_true_iff in Hd. destruct Hd as [Hc Hl].
    rewrite (decimal_not_point c Hc), (IH Hl). reflexivity. }
  destruct (z <? 0); [cbn [existsb]; rewrite Hn; reflexivity | exact Hn].
Qed.

(** X4: format_decimal: an ordinary amount (below 10^27, no exponent
    below Etiny) of 28 digits at most that equals an integer is rendered
    as that integer, without a decimal point. *)
Theorem format_decimal_integer (a : fdec) (z : Z) :
  (fcoef a < 10 ^ 28)%N ->
  ordinary a ->
  Dec.eqb a (of_Z z) = true ->
  format_decimal a = Str.of_Z z
  /\ Str.contains_char "." (format_decimal a) = false.
Proof.
  intros Hb _ Heq.
  assert (Hgoal : format_decimal a = Str.of_Z z); [|split; [exact Hgoal|]].
  2:{ rewrite Hgoal. apply of_Z_no_point. }
  unfold Dec.eqb, cmp in Heq. change (fexp (of_Z z)) with 0 in Heq.
  set (e := Z.min (fexp a) 0) in *.
  destruct (Z.compare_spec (aligned e a) (aligned e (of_Z z))) as [Hv| |]; try discriminate.
  clear Heq.
  assert (Hz : aligned e (of_Z z) = z * 10 ^ (- e)).
  { unfold aligned, of_Z. cbn [fsign fcoef fexp]. rewrite N2Z.inj_abs_N.
    replace (0 - e) with (- e) by lia.
    destruct (z <? 0) eqn:Hs; [apply Z.ltb_lt in Hs | apply Z.ltb_ge in Hs]; lia. }
  rewrite Hz in Hv.
  assert (Hp : 0 < 10 ^ (- e)) by (apply Z.pow_pos_nonneg; subst e; lia).
  destruct (N.eq_dec (fcoef a) 0%N) as [Hc0|Hc0].
  - assert (z = 0).
    { unfold aligned in Hv. rewrite Hc0 in Hv. simpl in Hv.
      destruct (fsign a); nia. }
    subst z. unfold format_decimal. rewrite (norm_zero a Hc0).
    destruct (fsign a); vm_compute; reflexivity.
  - destruct (norm_shape a Hb Hc0) as (c & e' & Hn & He' & Hc & Hm).
    assert (Hae : aligned e a
                  = (if fsign a then - Z.of_N c else Z.of_N c) * 10 ^ (e' - e)).
    { unfold aligned. rewrite Hc.
      replace (e' - e) with ((e' - fexp a) + (fexp a - e)) by lia.
      rewrite Z.pow_add_r by (subst e; lia).
      destruct (fsign a); ring. }
    assert (He0 : 0 <= e').
    { destruct (Z.le_gt_cases 0 (fexp a)) as [Hf|Hf]; [lia|].
      destruct (Z.le_gt_cases 0 e') as [H0|H0]; [exact H0|exfalso].
      assert (He : e = fexp a) by (subst e; lia).
      rewrite Hae, He in Hv.
      assert (Habs : Z.of_N c * 10 ^ (e' - fexp a) = Z.of_N (Z.abs_N z) * 10 ^ (- fexp a)).
      { rewrite N2Z.inj_abs_N.
        assert (0 <= 10 ^ (e' - fexp a)) by (apply Z.pow_nonneg; lia).
        assert (0 <= 10 ^ (- fexp a)) by (apply Z.pow_nonneg; lia).
        destruct (fsign a); nia. }
      destruct (canonical_unique_le c (Z.abs_N z) (e' - fexp a) (- fexp a)) as [_ Hk];
        [lia | exact Hm | exact Habs | lia]. }
    unfold format_decimal. rewrite Hn.
    rewrite (is_integral_nonneg (FDec (fsign a) c e')) by exact He0.
    f_equal. rewrite to_int_aligned by exact He0.
    unfold aligned at 1. cbn [fsign fcoef fexp]. rewrite Z.sub_0_r.
    rewrite Hae in Hv.
    replace (e' - e) with (e' + (- e)) in Hv by lia.
    rewrite Z.pow_add_r in Hv by (subst e; lia).
    destruct (fsign a); nia.
Qed.

Lemma rstrip_char_last (c x : ascii) (l : list ascii) :
  Ascii.eqb c x = false -> Str.rstrip_char c (l ++ [x]) = l ++ [x].
Proof.
  intros H. unfold Str.rstrip_char. rewrite rev_app_distr. cbn [rev app Str.drop_while].
  rewrite H. cbn [rev]. rewrite rev_involutive. reflexivity.
Qed.

(** X5: format_decimal: an ordinary amount (below 10^27, no exponent
    below Etiny) of 28 digits at most that is no integer is rendered in
    fixed-point notation, with a point and a last digit that is not
    zero. *)
Theorem format_decimal_fraction (a : fdec) :
  (fcoef a < 10 ^ 28)%N ->
  ordinary a ->
  is_integral (norm a) = false ->
  exists pre c,
    format_decimal a = Str.of_chars (pre ++ [c])
    /\ format_decimal a = format_f (norm a)
    /\ In "."%char pre
    /\ Str.isdecimal c = true /\ c <> "0"%char.
Proof.
  intros Hb _ Hint.
  destruct (N.eq_dec (fcoef a) 0%N) as [Hc0|Hc0].
  { rewrite (norm_zero a Hc0) in Hint. rewrite is_integral_nonneg in Hint; [discriminate|].
    cbn [fexp]. lia. }
  destruct (norm_shape a Hb Hc0) as (c & e & Hn & He & Hc & Hm).
  rewrite Hn in Hint.
  assert (Hneg : e < 0).
  { destruct (Z.lt_ge_cases e 0) as [H|H]; [exact H|].
    rewrite is_integral_nonneg in Hint; [discriminate | exact H]. }
  destruct (digits_aux_last (N.size_nat c) c []) as (init & Hds).
  fold (Str.digits_of_N c) in Hds.
  set (last := Str.digit_char (c mod 10)) in *.
  assert (Hlt : (c mod 10 < 10)%N) by (apply N.mod_lt; lia).
  assert (Hld : Str.isdecimal last = true) by (apply digit_char_decimal, Hlt).
  assert (Hl0 : last <> "0"%char).
  { intros H. apply (f_equal Str.code) in H. subst last.
    rewrite (digit_char_code _ Hlt) in H. change (Str.code "0") with 48%N in H. lia. }
  assert (Hfmt : exists pre, Str.chars (format_f (FDec (fsign a) c e)) = pre ++ [last]
                             /\ In "."%char pre).
  { unfold format_f. cbn [fexp fcoef fsign].
    assert (H0 : (0 <? e) = false) by (apply Z.ltb_ge; lia). rewrite H0.
    cbn [fexp fcoef fsign]. rewrite Hds.
    set (len := Z.of_nat (List.length (init ++ [last]))).
    assert (Hlen : len = Z.of_nat (List.length init) + 1).
    { subst len. rewrite length_app. cbn [List.length]. lia. }
    destruct (e + len <? 0) eqn:Hdp.
    - rewrite chars_of_chars.
      exists ((if fsign a then ["-"%char] else []) ++ ["0"%char] ++
              "."%char :: repeat "0"%char (Z.to_nat (- (e + len))) ++ init).
      split.
      + destruct (repeat "0"%char (Z.to_nat (- (e + len))) ++ init ++ [last]) eqn:Hr.
        { apply app_eq_nil in Hr. destruct Hr as [_ Hr]. apply app_eq_nil in Hr.
          destruct Hr as [_ Hr]. discriminate. }
        rewrite <- Hr. rewrite <- !app_assoc. cbn [app]. rewrite <- !app_assoc. reflexivity.
      + rewrite in_app_iff. right. right. left. reflexivity.
    - apply Z.ltb_ge in Hdp. rewrite chars_of_chars.
      set (k := Z.to_nat (e + len)).
      assert (Hk : (k <= List.length init)%nat) by (subst k; lia).
      assert (Hsk : skipn k (init ++ [last]) = skipn k init ++ [last]).
      { rewrite skipn_app. replace (k - List.length init)%nat with 0%nat by lia.
        reflexivity. }
      rewrite Hsk.
      exists ((if fsign a then ["-"%char] else []) ++
              match firstn k (init ++ [last]) with [] => ["0"%char] | _ => firstn k (init ++ [last]) end
              ++ "."%char :: skipn k init).
      split.
      + destruct (skipn k init ++ [last]) eqn:Hr.
        { apply app_eq_nil in Hr. destruct Hr as [_ Hr]. discriminate. }
        rewrite <- Hr. rewrite <- !app_assoc. cbn [app]. reflexivity.
      + rewrite !in_app_iff. right. right. left. reflexivity. }
  destruct Hfmt as (pre & Hchars & Hpt).
  assert (Hfd : format_decimal a = Str.of_chars (pre ++ [last])).
  { unfold format_decimal. rewrite Hn, Hint, Hchars.
    rewrite (rstrip_char_last "0" last pre).
    2:{ destruct (Ascii.eqb "0" last) eqn:E; [|reflexivity].
        apply Ascii.eqb_eq in E. congruence. }
    rewrite (rstrip_char_last "." last pre) by (apply decimal_not_point, Hld).
    destruct (pre ++ [last]) eqn:Hr; [|reflexivity].
    apply app_eq_nil in Hr. destruct Hr as [_ Hr]. discriminate. }
  exists pre, last. split; [exact Hfd|]. split.
  - rewrite Hfd, Hn, <- Hchars. rewrite of_chars_chars; reflexivity.
  - auto.
Qed.

(** X6: format_decimal: two decimals of the same value render alike. *)
Theorem format_decimal_value (E : Z) (x y : fdec) :
  - E <= fexp x -> - E <= fexp y ->
  value E x = value E y -> Z.abs (value E x) < 10 ^ 28 ->
  format_decimal x = format_decimal y.
Proof.
  intros Hx Hy Hv Hb.
  destruct (N.eq_dec (fcoef x) 0%N) as [Hz|Hnz].
  - assert (Hzy : fcoef y = 0%N).
    { apply (value_zero E y Hy). rewrite <- Hv. apply (value_zero E x Hx), Hz. }
    unfold format_decimal. rewrite (norm_zero x Hz), (norm_zero y Hzy).
    destruct (fsign x), (fsign y); vm_compute; reflexivity.
  - unfold format_decimal. rewrite (norm_value_eq E x y Hx Hy Hv Hb Hnz). reflexivity.
Qed.

End FormatDecimal.

(** ** Conservation of the supply, and the table after the update *)

Section SupplyFacts.
Import Dec Src20 Ledger Supply.

Lemma sum_map_ext_in {A : Type} (f g : A -> Z) (l : list A) :
  (forall x, In x l -> f x = g x) -> sum (map f l) = sum (map g l).
Proof.
  intros H. rewrite (map_ext_in f g l H). reflexivity.
Qed.

Lemma total_sum (f : src20 -> Z) (l : list src20) : total f l = sum (map f l).
Proof.
  unfold total, sum. induction l as [|d l IH]; cbn [map fold_right]; [reflexivity|].
  rewrite IH. reflexivity.
Qed.

Lemma sum_map_add {A : Type} (f g : A -> Z) (l : list A) :
  sum (map (fun x => f x + g x) l) = sum (map f l) + sum (map g l).
Proof.
  unfold sum. induction l as [|x l IH]; cbn [map fold_right]; lia.
Qed.

Lemma sum_map_zero {A : Type} (l : list A) : sum (map (fun _ => 0) l) = 0.
Proof.
  unfold sum. induction l as [|x l IH]; cbn [map fold_right]; lia.
Qed.

Lemma sum_swap {A B : Type} (g : A -> B -> Z) (l1 : list A) (l2 : list B) :
  sum (map (fun a => sum (map (g a) l2)) l1)
  = sum (map (fun b => sum (map (fun a => g a b) l1)) l2).
Proof.
  induction l1 as [|a l1 IH]; cbn [map].
  - rewrite sum_map_zero. reflexivity.
  - change (sum (?x :: ?l)) with (x + sum l). rewrite IH.
    rewrite <- sum_map_add. reflexivity.
Qed.

(** One row of a list without repetition is counted once. *)
Lemma sum_indicator (rows : list (string * string * string))
    (r0 : string * string * string) (v : Z) :
  List.NoDup rows -> In r0 rows ->
  sum (map (fun r => if decide (r = r0) then v else 0) rows) = v.
Proof.
  induction rows as [|r rows IH]; intros Hnd Hin; [destruct Hin|].
  apply List.NoDup_cons_iff in Hnd. destruct Hnd as [Hr Hnd].
  cbn [map]. change (sum (?x :: ?l)) with (x + sum l).
  destruct (decide (r = r0)) as [->|Hne].
  - rewrite (sum_map_ext_in _ (fun _ => 0)), sum_map_zero; [lia|].
    intros x Hx. rewrite decide_False; [reflexivity|]. intros ->. contradiction.
  - destruct Hin as [->|Hin]; [contradiction|]. rewrite (IH Hnd Hin). lia.
Qed.

(** What one record adds to the rows of a block, all rows together: the
    amount of a MINT, and nothing for a TRANSFER. *)
Lemma record_net (E : Z) (rows : list (string * string * string)) (d : src20) :
  List.NoDup rows ->
  (forall r, In r (touched d) -> In r rows) ->
  sum (map (fun r => credited E r d - debited E r d) rows) = minted_value E d.
Proof.
  intros Hnd Hin. unfold credited, debited, minted_value, touched in *.
  destruct (valid d); cbn [andb].
  2:{ rewrite (sum_map_ext_in _ (fun _ => 0)), sum_map_zero; [reflexivity | intros; lia]. }
  destruct (String.eqb (op d) "MINT"); cbn [orb negb andb].
  - rewrite (sum_map_ext_in _ (fun r => if decide (r = (tick d, tick_hash d, destination d))
                                        then value E (default zero (amt d)) else 0)).
    + apply sum_indicator; [exact Hnd|]. apply Hin. left. reflexivity.
    + intros r _. lia.
  - destruct (String.eqb (op d) "TRANSFER").
    2:{ rewrite (sum_map_ext_in _ (fun _ => 0)), sum_map_zero; [reflexivity | intros; lia]. }
    set (v := value E (default zero (amt d))).
    rewrite (sum_map_ext_in _
               (fun r => (if decide (r = (tick d, tick_hash d, destination d)) then v else 0)
                         + (if decide (r = (tick d, tick_hash d, creator d)) then - v else 0))).
    + rewrite sum_map_add.
      rewrite sum_indicator; [|exact Hnd | apply Hin; right; left; reflexivity].
      rewrite sum_indicator; [|exact Hnd | apply Hin; left; reflexivity].
      lia.
    + intros r _. destruct (decide (r = (tick d, tick_hash d, creator d))); lia.
Qed.

(** X7: update_src20_balances: the net change of all rows together is the
    amount that the block mints; a TRANSFER moves an amount and adds
    nothing.  The amounts have exponents of [-E] at least, not below
    [Etiny], and add up to less than 28 digits. *)
Theorem update_src20_balances_conserves (E : Z) (processed : list src20) :
  0 <= E -> Etiny <= - E ->
  (forall d, In d processed -> touched d <> [] ->
     exists a, amt d = Some a /\ - E <= fexp a) ->
  volume E processed < 10 ^ 28 ->
  exists bu,
    fold_balances processed [] = Ret bu
    /\ net_credit E bu = total (minted_value E) processed.
Proof.
  intros HE _ Hamt Hvol.
  destruct (fold_balances_tracks E processed [] [] HE (tracks_nil E) Hamt Hvol)
    as (bu & Hf & Hnd & Hrows & Hval).
  cbn [app] in *. exists bu. split; [exact Hf|].
  unfold net_credit.
  rewrite (sum_map_ext_in _
             (fun u => sum (map (fun d => credited E (row_of u) d - debited E (row_of u) d)
                                processed))).
  2:{ intros u Hu.
      destruct (Hval (row_of u) u (lookup_row_self bu u Hnd Hu)) as (_ & _ & Hc & Hd).
      rewrite Hc, Hd, !total_sum.
      replace (sum (map (credited E (row_of u)) processed)
               - sum (map (debited E (row_of u)) processed))
        with (sum (map (credited E (row_of u)) processed)
              + sum (map (fun d => - debited E (row_of u) d) processed)).
      - rewrite <- sum_map_add. apply sum_map_ext_in. intros; lia.
      - f_equal. clear. unfold sum.
        induction processed as [|d l IH]; cbn [map fold_right]; lia. }
  rewrite <- (map_map row_of
                (fun r => sum (map (fun d => credited E r d - debited E r d) processed))).
  rewrite (sum_swap (fun r d => credited E r d - debited E r d)).
  rewrite total_sum. apply sum_map_ext_in. intros d Hd.
  apply record_net; [exact Hnd|].
  intros r Hr. apply Hrows. unfold touched_rows. apply in_flat_map.
  exists d. split; assumption.
Qed.

(** ** The balances table after the update *)

Lemma select_amt_upsert_same (u : balance_update) (x : fdec) (table : list balance_row) :
  select_amt (upsert u x table) (id_of u)
  = Some (match select_amt table (id_of u) with
          | Some a => add_exact a x
          | None => x
          end).
Proof.
  unfold select_amt, id_of.
  induction table as [|r table IH]; cbn [upsert find fmap option_fmap option_map].
  - cbn [b_tick b_address]. rewrite String.eqb_refl. reflexivity.
  - destruct (String.eqb (row_id (b_tick r) (b_address r)) (row_id (u_tick u) (u_address u)))
      eqn:E.
    + cbn [find b_tick b_address]. rewrite E. reflexivity.
    + cbn [find]. rewrite E. exact IH.
Qed.

(** X8: update_balance_table: with one dict per row id, the table ends with
    the amount of each row updated raised by the net change of its dict
    (a new row starts at the net change), and every other row keeps its
    amount. *)
Theorem update_balance_table_stored (bu : list balance_update) :
  forall table : list balance_row,
    List.NoDup (map id_of bu) ->
    (forall u, In u bu ->
       select_amt (snd (update_balance_table table bu)) (id_of u)
       = Some (match select_amt table (id_of u) with
               | Some a => add_exact a (minus (credit u) (debit u))
               | None => minus (credit u) (debit u)
               end))
    /\ (forall id, ~ In id (map id_of bu) ->
          select_amt (snd (update_balance_table table bu)) id = select_amt table id).
Proof.
  induction bu as [|u bu IH]; intros table Hnd.
  - split; [intros u []|]. intros id _. reflexivity.
  - cbn [map] in Hnd. apply List.NoDup_cons_iff in Hnd. destruct Hnd as [Hu Hnd].
    cbn [update_balance_table].
    specialize (IH (upsert u (minus (credit u) (debit u)) table) Hnd).
    destruct (update_balance_table (upsert u (minus (credit u) (debit u)) table) bu)
      as [rest' table'].
    cbn [snd] in *. destruct IH as [IH1 IH2]. split.
    + intros v [<-|Hv].
      * rewrite (IH2 _ Hu). apply select_amt_upsert_same.
      * rewrite (IH1 v Hv). rewrite select_amt_upsert; [reflexivity|].
        intros Heq. apply Hu. change (row_id (u_tick u) (u_address u)) with (id_of u) in Heq.
        rewrite Heq. apply in_map, Hv.
    + intros id Hid. cbn [map In] in Hid.
      rewrite IH2 by tauto. apply select_amt_upsert.
      intros Heq. apply Hid. left. exact Heq.
Qed.

End SupplyFacts.

(** ** What the processor does to a record and to the store *)

Section ProcessorFacts.
Import Dec Src20 Verdict.

Lemma same_identity_refl (d : src20) : same_identity d d.
Proof. repeat split. Qed.

Lemma same_identity_trans (a b c : src20) :
  same_identity a b -> same_identity b c -> same_identity a c.
Proof.
  unfold same_identity. intros (?&?&?&?&?&?&?) (?&?&?&?&?&?&?).
  repeat split; congruence.
Qed.

Lemma same_tables_refl (db : store) : same_tables db db.
Proof. repeat split. Qed.

Lemma same_tables_trans (a b c : store) :
  same_tables a b -> same_tables b c -> same_tables a c.
Proof.
  unfold same_tables. intros (?&?&?) (?&?&?). repeat split; congruence.
Qed.

Lemma set_status_refused (c : status_code) (p : processor) :
  is_invalid c = true -> refused p (set_status_and_log c p).
Proof.
  intros Hc. unfold refused, set_status_and_log. cbn. rewrite Hc.
  repeat split. exists c. split; [reflexivity | exact Hc].
Qed.

Lemma set_status_identity (c : status_code) (p : processor) :
  same_identity (src20_dict p) (src20_dict (set_status_and_log c p)).
Proof. repeat split. Qed.

Lemma normalize_and_validate_amt_run (p p' : processor) (oa : option fdec) :
  normalize_and_validate_amt p = Ret (p', oa) ->
  is_valid p' = is_valid p
  /\ valid (src20_dict p') = valid (src20_dict p)
  /\ status (src20_dict p') = status (src20_dict p)
  /\ same_identity (src20_dict p) (src20_dict p').
Proof.
  unfold normalize_and_validate_amt.
  destruct (amt (src20_dict p)) as [a|]; cbn [D bind]; [|discriminate].
  destruct (_ <? _); intros [= <- <-]; cbn; repeat split.
Qed.

Lemma update_valid_transfer_verdict (x y : fdec) (p p' : processor) :
  update_valid_transfer x y p = Ret p' ->
  (accepted p p' \/ refused p p')
  /\ same_identity (src20_dict p) (src20_dict p').
Proof.
  unfold update_valid_transfer.
  destruct (normalize_and_validate_amt p) as [[q oa]|e] eqn:Hn; cbn [bind]; [|discriminate].
  destruct (normalize_and_validate_amt_run _ _ _ Hn) as (H1 & H2 & H3 & H4).
  destruct oa as [a|]; intros [= <-].
  - split; [left | eapply same_identity_trans; [exact H4|]; repeat split].
    unfold accepted. cbn. repeat split; assumption.
  - split.
    + right. destruct (set_status_refused ID q eq_refl) as (G1 & G2 & G3).
      unfold refused. rewrite G1, G2, H2. repeat split. exact G3.
    + eapply same_identity_trans; [exact H4 | apply set_status_identity].
Qed.

Lemma cache_add_tables (t : string) (a : fdec) (db db' : store) :
  cache_add t a db = Ret db' -> same_tables db db'.
Proof.
  unfold cache_add. destruct (_ !! _); [|discriminate]. intros [= <-]. repeat split.
Qed.

Lemma update_valid_mint_verdict (x total : fdec) (db db' : store) (p p' : processor) :
  update_valid_mint x total db p = Ret (p', db') ->
  (accepted p p' \/ refused p p')
  /\ same_identity (src20_dict p) (src20_dict p')
  /\ same_tables db db'.
Proof.
  unfold update_valid_mint.
  destruct (normalize_and_validate_amt p) as [[q oa]|e] eqn:Hn; cbn [bind]; [|discriminate].
  destruct (normalize_and_validate_amt_run _ _ _ Hn) as (H1 & H2 & H3 & H4).
  destruct oa as [a|].
  - destruct (cache_add _ a db) as [db1|e] eqn:Hc; cbn [bind]; [|discriminate].
    intros [= <- <-]. split; [left|split].
    + unfold accepted. cbn. repeat split; assumption.
    + eapply same_identity_trans; [exact H4|]. repeat split.
    + apply (cache_add_tables _ _ _ _ Hc).
  - intros [= <- <-]. split; [right|split].
    + destruct (set_status_refused ID q eq_refl) as (G1 & G2 & G3).
      unfold refused. rewrite G1, G2, H2. repeat split. exact G3.
    + eapply same_identity_trans; [exact H4 | apply set_status_identity].
    + apply same_tables_refl.
Qed.

Lemma get_total_tables (db : store) (t : string) :
  same_tables db (snd (get_total_src20_minted_from_db db t)).
Proof.
  unfold get_total_src20_minted_from_db. destruct (_ !! _); repeat split.
Qed.

Lemma get_running_mint_total_tables (db db1 : store) (processed : list src20)
    (t : string) (total : fdec) :
  get_running_mint_total db processed t = Ret (total, db1) -> same_tables db db1.
Proof.
  unfold get_running_mint_total.
  pose proof (get_total_tables db t) as G.
  destruct (List.find _ _) as [item|].
  - destruct (total_minted item) as [[x|]|]; try discriminate.
    destruct (Dec.eqb x zero).
    + intros [= H]. rewrite H in G. exact G.
    + intros [= <- <-]. apply same_tables_refl.
  - intros [= H]. rewrite H in G. exact G.
Qed.

Lemma reduced_refl (p : processor) : reduced p p.
Proof. unfold reduced. repeat split. left. reflexivity. Qed.

Lemma reduced_trans (a b c : processor) : reduced a b -> reduced b c -> reduced a c.
Proof.
  unfold reduced. intros (H1 & H2 & H3 & H4) (G1 & G2 & G3 & G4).
  split; [congruence|]. split; [congruence|]. split.
  - destruct G3 as [G3|[G3|G3]]; [rewrite G3; exact H3 | right; left; exact G3
                                  | right; right; exact G3].
  - eapply same_identity_trans; eassumption.
Qed.

Lemma handle_mint_verdict (db db' : store) (processed : list src20) (p p' : processor) :
  handle_mint db processed p = Ret (p', db') ->
  (is_valid p' = is_valid p /\ valid (src20_dict p') = true
   /\ (status (src20_dict p') = status (src20_dict p)
       \/ status (src20_dict p') = Some OMA \/ status (src20_dict p') = Some ODL)
   \/ refused p p')
  /\ same_identity (src20_dict p) (src20_dict p')
  /\ same_tables db db'.
Proof.
  unfold handle_mint.
  destruct (if truthy_opt (deploy_lim p) && truthy_opt (deploy_max p)
            then _ else _) as [new_lim|e]; cbn [bind]; [|discriminate].
  set (p0 := Processor (src20_dict p) (is_valid p) (self_dec p) (Some new_lim) (deploy_max p)).
  destruct (get_running_mint_total db processed (tick (src20_dict p0)))
    as [[total db1]|e] eqn:Hrt; cbn [bind]; [|discriminate].
  pose proof (get_running_mint_total_tables _ _ _ _ _ Hrt) as Ht.
  destruct (if truthy_opt (deploy_max p0) then _ else _) as [mint_available|e];
    cbn [bind]; [|discriminate].
  destruct (if truthy_opt (deploy_max p0) then _ else _) as [over|e];
    cbn [bind]; [|discriminate].
  destruct over.
  { intros [= <- <-]. split; [right|split; [|exact Ht]].
    - apply (set_status_refused OM p0 eq_refl).
    - apply (set_status_identity OM p0). }
  destruct (D (amt (src20_dict p0))) as [a|e]; cbn [bind]; [|discriminate].
  set (p1 := if Dec.gtb a mint_available then _ else p0).
  assert (R1 : reduced p0 p1).
  { subst p1. destruct (Dec.gtb a mint_available); [|apply reduced_refl].
    unfold reduced. cbn. repeat split. right. left. reflexivity. }
  clearbody p1.
  destruct (D (amt (src20_dict p1))) as [a1|e]; cbn [bind]; [|discriminate].
  set (p2 := if Dec.gtb a1 new_lim then _ else p1).
  assert (R2 : reduced p1 p2).
  { subst p2. destruct (Dec.gtb a1 new_lim); [|apply reduced_refl].
    unfold reduced. cbn. repeat split. right. right. reflexivity. }
  clearbody p2.
  pose proof (reduced_trans _ _ _ R1 R2) as (Q1 & Q2 & Q3 & Q4).
  destruct (get_running_user_balances db1 _ _ _ processed) as [bs|e]; cbn [bind]; [|discriminate].
  intros Hu. apply update_valid_mint_verdict in Hu. destruct Hu as (Hv & Hi & Hs).
  split; [|split].
  - destruct Hv as [(A1 & A2 & A3)|(B1 & B2 & B3)].
    + left. split; [rewrite A1; exact Q1|]. split; [exact A2|]. rewrite A3. exact Q3.
    + right. unfold refused. split; [exact B1|]. split; [rewrite B2; exact Q2 | exact B3].
  - eapply same_identity_trans; [exact Q4 | exact Hi].
  - eapply same_tables_trans; [exact Ht | exact Hs].
Qed.

Lemma handle_transfer_verdict (db : store) (processed : list src20) (p p' : processor) :
  handle_transfer db processed p = Ret p' ->
  (accepted p p' \/ refused p p')
  /\ same_identity (src20_dict p) (src20_dict p').
Proof.
  unfold handle_transfer.
  destruct (get_running_user_balances _ _ _ _ _) as [bs|e]; cbn [bind]; [|discriminate].
  destruct (D (amt (src20_dict p))) as [a|e]; cbn [bind]; [|discriminate].
  destruct (Dec.ltb _ a).
  - intros [= <-]. split; [right; apply (set_status_refused BB p eq_refl)|].
    apply set_status_identity.
  - apply update_valid_transfer_verdict.
Qed.

Lemma handle_deploy_verdict (p : processor) :
  (accepted p (handle_deploy p) \/ refused p (handle_deploy p))
  /\ same_identity (src20_dict p) (src20_dict (handle_deploy p)).
Proof.
  unfold handle_deploy. destruct (_ && _).
  - split; [left|].
    + unfold accepted, update_valid_deploy. cbn. destruct (dec (src20_dict p)); repeat split.
    + unfold update_valid_deploy. cbn. destruct (dec (src20_dict p)); repeat split.
  - split; [right; apply (set_status_refused DE p eq_refl) | apply set_status_identity].
Qed.

(** X9: validate_and_process_operation, on the record that the validator
    has left and that is not yet marked valid: the record ends marked
    valid exactly when the processor stays valid; a valid record keeps
    its status or carries one of the two reductions, an invalid one
    carries an error status; the keys tick, tick_hash, op, creator,
    destination, max and lim are not written, and neither are the
    tables of the store. *)
Theorem validate_and_process_operation_verdict (db db' : store)
    (processed : list src20) (d : src20) (p' : processor) :
  valid d = false ->
  validate_and_process_operation db processed (init d) = Ret (p', db') ->
  valid (src20_dict p') = is_valid p'
  /\ (if is_valid p'
      then status (src20_dict p') = status d
           \/ status (src20_dict p') = Some OMA \/ status (src20_dict p') = Some ODL
      else exists c, status (src20_dict p') = Some c /\ is_invalid c = true)
  /\ same_identity d (src20_dict p')
  /\ same_tables db db'.
Proof.
  intros Hv Hr.
  assert (Hgoal :
    (is_valid p' = true /\ valid (src20_dict p') = true
     /\ (status (src20_dict p') = status d
         \/ status (src20_dict p') = Some OMA \/ status (src20_dict p') = Some ODL)
     \/ (is_valid p' = false /\ valid (src20_dict p') = false
         /\ exists c, status (src20_dict p') = Some c /\ is_invalid c = true))
    /\ same_identity d (src20_dict p') /\ same_tables db db').
  { revert Hr. unfold validate_and_process_operation. cbn [src20_dict init].
    set (op_amt := String.eqb (Str.upper (op d)) "TRANSFER"
                   || String.eqb (Str.upper (op d)) "MINT").
    destruct (op_amt && negb (truthy_opt (amt d))).
    { intros [= <- <-]. split; [right|split; [repeat split | apply same_tables_refl]].
      cbn. rewrite Hv. repeat split. exists NA. split; reflexivity. }
    destruct (get_src20_deploy db (tick d) processed) as [[l m] dc].
    cbn [is_valid init].
    set (p0 := Processor d true dc l m).
    destruct (negb (truthy_opt l) && negb (truthy_opt m) && op_amt).
    { intros [= <- <-]. split; [right|split; [repeat split | apply same_tables_refl]].
      cbn. rewrite Hv. repeat split. exists ND. split; reflexivity. }
    destruct (String.eqb (Str.upper (op d)) "DEPLOY").
    { intros [= <- <-]. destruct (handle_deploy_verdict p0) as [Hd Hi].
      split; [|split; [exact Hi | apply same_tables_refl]].
      destruct Hd as [(A1 & A2 & A3)|(B1 & B2 & B3)].
      - left. split; [exact A1|]. split; [exact A2|]. left. exact A3.
      - right. split; [exact B1|]. split; [rewrite B2; exact Hv | exact B3]. }
    destruct (String.eqb (Str.upper (op d)) "MINT").
    { intros Hm. apply handle_mint_verdict in Hm. destruct Hm as (Hd & Hi & Hs).
      split; [|split; [exact Hi | exact Hs]].
      destruct Hd as [(A1 & A2 & A3)|(B1 & B2 & B3)].
      - left. split; [exact A1|]. split; [exact A2 | exact A3].
      - right. split; [exact B1|]. split; [rewrite B2; exact Hv | exact B3]. }
    destruct (String.eqb (Str.upper (op d)) "TRANSFER").
    { destruct (handle_transfer db processed p0) as [q|e] eqn:Ht; cbn [bind]; [|discriminate].
      intros [= <- <-]. apply handle_transfer_verdict in Ht. destruct Ht as (Hd & Hi).
      split; [|split; [exact Hi | apply same_tables_refl]].
      destruct Hd as [(A1 & A2 & A3)|(B1 & B2 & B3)].
      - left. split; [exact A1|]. split; [exact A2|]. left. exact A3.
      - right. split; [exact B1|]. split; [rewrite B2; exact Hv | exact B3]. }
    intros [= <- <-]. split; [right|split; [repeat split | apply same_tables_refl]].
    cbn. rewrite Hv. repeat split. exists UO. split; reflexivity. }
  destruct Hgoal as (Hcase & Hi & Hs).
  destruct Hcase as [(A1 & A2 & A3)|(B1 & B2 & B3)].
  - rewrite A1, A2. split; [reflexivity|]. split; [exact A3|]. split; assumption.
  - rewrite B1, B2. split; [reflexivity|]. split; [exact B3|]. split; assumption.
Qed.

End ProcessorFacts.

(** ** The addresses that the lookup of the running balances answers *)

Section LookupAddresses.
Import Dec Src20.







End LookupAddresses.

(** ** What check_format returns, and what it raises *)

Section FormatResult.
Import Dec DecParse Format.
Context (cfg : config) (decode_utf8 : string -> option string).

Lemma check_dict_result (h : Z) (d d' : gmap string pyval) :
  check_dict cfg decode_utf8 h d = Ret (Some d') ->
  exists p,
    d !! "p"%string = Some (PStr p)
    /\ ((Str.lower p = "src-721"%string /\ d' = d)
        \/ (Str.lower p = "src-20"%string
            /\ exists t tv,
                 default (PStr "") (d !! "tick"%string) = PStr t
                 /\ decode_utf8 t = Some tv
                 /\ d' = <["tick"%string := PStr tv]> d
                 /\ tv <> ""%string /\ (String.length tv <= 5)%nat
                 /\ forallb (TICK_PATTERN_SET cfg) (Str.chars tv) = true
                 /\ numeric_checks cfg h d' = true)).
Proof.
  unfold check_dict.
  destruct (d !! "p"%string) as [[| | | | | p | |]|] eqn:Hp; try discriminate.
  cbn [str_method_target bind]. intros H. exists p. split; [reflexivity|].
  destruct (String.eqb (Str.lower p) "src-721") eqn:E1.
  { left. apply String.eqb_eq in E1. split; [exact E1|]. congruence. }
  destruct (String.eqb (Str.lower p) "src-20") eqn:E2; [|discriminate].
  right. apply String.eqb_eq in E2. split; [exact E2|].
  unfold check_src20 in H.
  destruct (default (PStr "") (d !! "tick"%string)) as [| | | | | t | |] eqn:Ht;
    try discriminate.
  cbn [str_method_target bind] in H. unfold convert_to_utf8_string in H.
  destruct (decode_utf8 t) as [tv|] eqn:Hd; [|discriminate]. cbn [bind] in H.
  destruct (String.eqb tv "") eqn:Ee; [discriminate|].
  destruct (matches_any_pattern tv (TICK_PATTERN_SET cfg)) eqn:Em; [|discriminate].
  destruct (5 <? String.length tv)%nat eqn:El; [discriminate|].
  cbn [negb orb] in H.
  destruct (numeric_checks cfg h _) eqn:En; [|discriminate].
  exists t, tv. split; [reflexivity|]. split; [exact Hd|].
  split; [congruence|]. split; [apply String.eqb_neq, Ee|].
  split; [apply Nat.ltb_ge in El; exact El|]. split; [exact Em|].
  injection H as <-. exact En.
Qed.

(** X11: check_format: a payload that is returned holds a string under "p";
    an SRC-721 payload is returned as it came; an SRC-20 payload is
    returned with its tick decoded and no other key changed, and that
    tick holds one to five characters, all of the configured set. *)
Theorem check_format_result (input : cf_input) (tx_hash : string) (h : Z)
    (d' : gmap string pyval) :
  check_format cfg decode_utf8 input tx_hash h = Ret (Some d') ->
  exists d p,
    (input = InDict d
     \/ exists doc ms, input = InText (Some doc) /\ Json.loads doc = Ret (PDict ms)
                       /\ d = Json.to_dict ms)
    /\ d !! "p"%string = Some (PStr p)
    /\ ((Str.lower p = "src-721"%string /\ d' = d)
        \/ (Str.lower p = "src-20"%string
            /\ exists t tv,
                 default (PStr "") (d !! "tick"%string) = PStr t
                 /\ decode_utf8 t = Some tv
                 /\ d' = <["tick"%string := PStr tv]> d
                 /\ tv <> ""%string /\ (String.length tv <= 5)%nat
                 /\ forallb (TICK_PATTERN_SET cfg) (Str.chars tv) = true
                 /\ numeric_checks cfg h d' = true)).
Proof.
  unfold check_format. intros H.
  destruct input as [[doc|] | d |]; try discriminate H.
  - destruct (Json.loads doc) as [[| | | | | | |ms] | []] eqn:Hl; try discriminate H.
    destruct (check_dict_result h _ d' H) as (p & Hp & Hcase).
    exists (Json.to_dict ms), p. split; [right; exists doc, ms; auto|].
    split; assumption.
  - destruct (check_dict_result h d d' H) as (p & Hp & Hcase).
    exists d, p. split; [left; reflexivity|]. split; assumption.
Qed.

Lemma check_dict_raises (h : Z) (d : gmap string pyval) (e : exn) :
  check_dict cfg decode_utf8 h d = Raise e ->
  (e = AttributeError
   /\ ((forall p, d !! "p"%string <> Some (PStr p))
       \/ (forall t, default (PStr "") (d !! "tick"%string) <> PStr t)))
  \/ (e = UnicodeDecodeError
      /\ exists t, d !! "tick"%string = Some (PStr t) /\ decode_utf8 t = None)
  \/ (e = UnicodeDecodeError /\ d !! "tick"%string = None /\ decode_utf8 "" = None).
Proof.
  unfold check_dict.
  destruct (d !! "p"%string) as [[| | | | | p | |]|] eqn:Hp;
    cbn [str_method_target bind];
    try (intros [= <-]; left; split; [reflexivity|]; left; intros p; congruence).
  destruct (String.eqb (Str.lower p) "src-721"); [discriminate|].
  destruct (String.eqb (Str.lower p) "src-20"); [|discriminate].
  unfold check_src20.
  destruct (d !! "tick"%string) as [[| | | | | t | |]|] eqn:Ht;
    cbn [default]; unfold id; cbn [str_method_target bind];
    try (intros [= <-]; left; split; [reflexivity|]; right; intros t'; congruence).
  - unfold convert_to_utf8_string. destruct (decode_utf8 t) eqn:Hd; cbn [bind].
    + destruct (_ || _ || _); [discriminate|]. destruct (numeric_checks _ _ _); discriminate.
    + intros [= <-]. right. left. split; [reflexivity|]. exists t. split; [reflexivity|].
      first [exact Hd | reflexivity].
  - unfold convert_to_utf8_string. destruct (decode_utf8 "") eqn:Hd; cbn [bind].
    + destruct (_ || _ || _); [discriminate|]. destruct (numeric_checks _ _ _); discriminate.
    + intros [= <-]. right. right. split; [reflexivity|]. split; reflexivity.
Qed.

(** X12: check_format: a dict with no string under "p", and a JSON text that
    is not an object, are not answered with None: the call ends in an
    AttributeError; a dict makes it raise only an AttributeError, when
    "p" or the tick of an SRC-20 payload is no string, or a
    UnicodeDecodeError, when the tick does not decode. *)
Theorem check_format_raises (tx_hash : string) (h : Z) :
  (forall d, (forall p, d !! "p"%string <> Some (PStr p)) ->
     check_format cfg decode_utf8 (InDict d) tx_hash h = Raise AttributeError)
  /\ (forall doc v, Json.loads doc = Ret v -> (forall ms, v <> PDict ms) ->
        check_format cfg decode_utf8 (InText (Some doc)) tx_hash h = Raise AttributeError)
  /\ (forall d e,
        check_format cfg decode_utf8 (InDict d) tx_hash h = Raise e ->
        (e = AttributeError
         /\ ((forall p, d !! "p"%string <> Some (PStr p))
             \/ (forall t, default (PStr "") (d !! "tick"%string) <> PStr t)))
        \/ (e = UnicodeDecodeError
            /\ exists t, default (PStr "") (d !! "tick"%string) = PStr t
                         /\ decode_utf8 t = None)).
Proof.
  split; [|split].
  - intros d Hp. unfold check_format, check_dict.
    destruct (d !! "p"%string) as [[| | | | | p | |]|] eqn:E; try reflexivity.
    exfalso. apply (Hp p). reflexivity.
  - intros doc v Hl Hv. unfold check_format. rewrite Hl.
    destruct v; try reflexivity. exfalso. apply (Hv members). reflexivity.
  - intros d e H. unfold check_format in H. apply check_dict_raises in H.
    destruct H as [[-> H]|[[-> (t & Ht & Hd)]|[-> [Ht Hd]]]].
    + left. split; [reflexivity | exact H].
    + right. split; [reflexivity|]. exists t. rewrite Ht. split; [reflexivity | exact Hd].
    + right. split; [reflexivity|]. exists ""%string. rewrite Ht.
      split; [reflexivity | exact Hd].
Qed.

End FormatResult.

(** ** The values that check_format does not look at *)

Section UncheckedMax.
Import Dec DecParse Format.
Context (cfg : config) (decode_utf8 : string -> option string).

Lemma forallb_pointwise {A : Type} (f g : A -> bool) (l : list A) :
  (forall x, f x = g x) -> forallb f l = forallb g l.
Proof.
  intros H. induction l as [|x l IH]; [reflexivity|]. cbn [forallb]. rewrite H, IH. reflexivity.
Qed.

Lemma numeric_checks_max (h : Z) (d : gmap string pyval) (tv : string) (v v' : pyval) :
  d !! "lim"%string = None ->
  numeric_checks cfg h (<["tick"%string := PStr tv]> (<["max"%string := v]> d))
  = numeric_checks cfg h (<["tick"%string := PStr tv]> (<["max"%string := v']> d)).
Proof.
  intros Hlim. unfold numeric_checks, checked_keys, key_sets.
  cbn [flat_map].
  assert (Hd : forall w, has_keys (<["tick"%string := PStr tv]> (<["max"%string := w]> d))
                                  deploy_keys = false).
  { intros w. unfold has_keys, deploy_keys. cbn [forallb].
    rewrite (lookup_insert_ne _ "tick"%string "lim"%string) by discriminate.
    rewrite (lookup_insert_ne _ "max"%string "lim"%string) by discriminate.
    rewrite Hlim. change (bool_decide (is_Some (@None pyval))) with false.
    rewrite !andb_false_r. reflexivity. }
  rewrite !Hd. cbn [app].
  assert (Hk : forall ks,
            has_keys (<["tick"%string := PStr tv]> (<["max"%string := v]> d)) ks
            = has_keys (<["tick"%string := PStr tv]> (<["max"%string := v']> d)) ks).
  { intros ks. unfold has_keys. apply forallb_pointwise. intros x.
    destruct (decide ("tick"%string = x)) as [<-|Hne].
    - rewrite !lookup_insert_eq. reflexivity.
    - rewrite !(lookup_insert_ne _ "tick"%string x) by exact Hne.
      destruct (decide ("max"%string = x)) as [<-|Hne'].
      + rewrite !lookup_insert_eq. reflexivity.
      + rewrite !lookup_insert_ne by exact Hne'. reflexivity. }
  rewrite !Hk.
  assert (Hamt : check_key cfg h (<["tick"%string := PStr tv]> (<["max"%string := v]> d))
                           "amt"
                 = check_key cfg h (<["tick"%string := PStr tv]> (<["max"%string := v']> d))
                             "amt").
  { unfold check_key.
    rewrite !(lookup_insert_ne _ "tick"%string "amt"%string) by discriminate.
    rewrite !(lookup_insert_ne _ "max"%string "amt"%string) by discriminate.
    reflexivity. }
  destruct (has_keys _ transfer_keys), (has_keys _ mint_keys), (has_keys _ bulk_xfer_keys);
    cbn [app forallb]; rewrite ?Hamt; reflexivity.
Qed.

(** X13: without a lim key check_format does not look at max: whatever
    stands under max, the payload is returned, refused or raises alike,
    and what is returned carries that max. *)
Theorem check_format_max_without_lim (d : gmap string pyval) (v v' : pyval)
    (tx_hash : string) (h : Z) :
  d !! "lim"%string = None ->
  check_format cfg decode_utf8 (InDict (<["max"%string := v]> d)) tx_hash h
  = match check_format cfg decode_utf8 (InDict (<["max"%string := v']> d)) tx_hash h with
    | Ret (Some r) => Ret (Some (<["max"%string := v]> r))
    | other => other
    end.
Proof.
  intros Hlim. unfold check_format, check_dict.
  rewrite !(lookup_insert_ne _ "max"%string "p"%string) by discriminate.
  destruct (d !! "p"%string) as [[| | | | | p | |]|]; cbn [str_method_target bind];
    try reflexivity.
  destruct (String.eqb (Str.lower p) "src-721").
  { rewrite insert_insert_eq. reflexivity. }
  destruct (String.eqb (Str.lower p) "src-20"); [|reflexivity].
  unfold check_src20.
  rewrite !(lookup_insert_ne _ "max"%string "tick"%string) by discriminate.
  destruct (str_method_target _) as [t|e]; cbn [bind]; [|reflexivity].
  destruct (convert_to_utf8_string decode_utf8 t) as [tv|e]; cbn [bind]; [|reflexivity].
  destruct (_ || _ || _); [reflexivity|].
  rewrite (numeric_checks_max h d tv v v' Hlim).
  destruct (numeric_checks cfg h _); [|reflexivity].
  f_equal. f_equal.
  rewrite (insert_insert _ "max"%string "tick"%string).
  rewrite decide_False by discriminate.
  rewrite insert_insert_eq. reflexivity.
Qed.

End UncheckedMax.

(** ** The numerals that Src20Validator lets through *)

Section NumeralFacts.
Import Dec DecParse Validator.

Lemma before_final_newline_cases (l : list ascii) :
  (before_final_newline l = l
   /\ forall b, l <> b ++ ["010"%char])
  \/ (exists b, l = b ++ ["010"%char] /\ before_final_newline l = b).
Proof.
  unfold before_final_newline.
  destruct (rev l) as [|c r] eqn:E.
  - left. split; [reflexivity|]. intros b Hb. subst l.
    rewrite rev_app_distr in E. discriminate E.
  - assert (Hl : l = rev r ++ [c]).
    { rewrite <- (rev_involutive l), E. reflexivity. }
    destruct (Ascii.eqb c "010") eqn:Ec.
    + apply Ascii.eqb_eq in Ec. subst c. right. exists (rev r). split; [exact Hl | reflexivity].
    + left. split; [reflexivity|]. intros b Hb. rewrite Hb in Hl.
      apply app_inj_tail in Hl. destruct Hl as [_ Hc]. subst c. discriminate Ec.
Qed.

Lemma span_spec (p : ascii -> bool) (l : list ascii) :
  forall a r, Str.span p l = (a, r) ->
    l = a ++ r /\ forallb p a = true
    /\ match r with [] => True | c :: _ => p c = false end.
Proof.
  induction l as [|c l IH]; intros a r; cbn [Str.span].
  - intros [= <- <-]. repeat split.
  - destruct (p c) eqn:Hc.
    + destruct (Str.span p l) as [a' r'] eqn:Hs. intros [= <- <-].
      destruct (IH a' r' eq_refl) as (H1 & H2 & H3).
      cbn [app forallb]. rewrite Hc, H2. subst l. repeat split. exact H3.
    + intros [= <- <-]. repeat split. exact Hc.
Qed.

(** A string that [num_pattern] matches: digits, a point and digits or
    nothing, and a newline or nothing. *)
Lemma num_pattern_shape (s : string) :
  num_pattern s = true ->
  exists (ip fp : list ascii) (dot nl : bool),
    Str.chars s = (ip ++ (if dot then "."%char :: fp else []))
                  ++ (if nl then ["010"%char] else [])
    /\ forallb Str.isdecimal ip = true /\ forallb Str.isdecimal fp = true
    /\ (dot = false -> fp = []).
Proof.
  unfold num_pattern. intros H.
  destruct (Str.span Str.isdecimal (before_final_newline (Str.chars s))) as [ip r] eqn:Hs.
  destruct (span_spec _ _ _ _ Hs) as (Hb & Hip & _).
  assert (Hr : exists fp (dot : bool),
             r = (if dot then "."%char :: fp else [])
             /\ forallb Str.isdecimal fp = true /\ (dot = false -> fp = [])).
  { destruct r as [|c r'].
    - exists [], false. repeat split.
    - apply andb_true_iff in H. destruct H as [Hc Hfp].
      apply Ascii.eqb_eq in Hc. subst c. exists r', true. repeat split.
      + exact Hfp.
      + discriminate. }
  destruct Hr as (fp & dot & -> & Hfp & Hd).
  destruct (before_final_newline_cases (Str.chars s)) as [[Hn _]|(b & Hl & Hn)].
  - exists ip, fp, dot, false. rewrite app_nil_r. rewrite Hn in Hb. auto.
  - exists ip, fp, dot, true. rewrite Hn in Hb. subst b. auto.
Qed.

Lemma decimal_not_space (c : ascii) : Str.isdecimal c = true -> Str.isspace c = false.
Proof.
  intros H. exact (proj1 (plain_char_facts c (decimal_is_plain c H))).
Qed.

Lemma strip_body (body : list ascii) (nl : bool) :
  forallb (fun c => negb (Str.isspace c)) body = true ->
  Str.strip (body ++ (if nl then ["010"%char] else [])) = body.
Proof.
  intros Hb. destruct nl; [|rewrite app_nil_r; apply strip_no_space, Hb].
  unfold Str.strip.
  destruct body as [|c body].
  - reflexivity.
  - cbn [forallb] in Hb. apply andb_true_iff in Hb. destruct Hb as [Hc Hb].
    apply negb_true_iff in Hc.
    cbn [app Str.drop_while]. rewrite Hc.
    change (c :: body ++ ["010"%char]) with ((c :: body) ++ ["010"%char]).
    rewrite rev_app_distr. cbn [rev app Str.drop_while].
    change (Str.isspace "010") with true. cbv iota.
    rewrite drop_while_head; [apply (rev_involutive (c :: body))|].
    rewrite forallb_forall. intros x Hx.
    change (rev body ++ [c]) with (rev (c :: body)) in Hx. apply in_rev in Hx.
    destruct Hx as [<-|Hx]; [rewrite Hc; reflexivity|].
    rewrite forallb_forall in Hb. apply Hb, Hx.
Qed.

(** What the constructor reads in a string that [num_pattern] matches:
    nothing when the string holds no digit, else all its digits, with
    as many decimal places as there are digits after the point. *)
Lemma of_string_pattern (ip fp : list ascii) (dot nl : bool) :
  forallb Str.isdecimal ip = true -> forallb Str.isdecimal fp = true ->
  (dot = false -> fp = []) ->
  Z.of_nat (List.length (ip ++ fp)) < MAX_EMAX ->
  of_string (Str.of_chars ((ip ++ (if dot then "."%char :: fp else []))
                           ++ (if nl then ["010"%char] else [])))
  = match ip ++ fp with
    | [] => None
    | _ => Some (DFin (FDec false (Str.N_of_digits (ip ++ fp))
                            (- Z.of_nat (List.length fp))))
    end.
Proof.
  intros Hip Hfp Hd Hlen.
  destruct (ip ++ fp) as [|x xs] eqn:Hcat.
  { apply app_eq_nil in Hcat. destruct Hcat as [-> ->].
    destruct dot, nl; vm_compute; reflexivity. }
  rewrite <- Hcat in *.
  set (body := ip ++ (if dot then "."%char :: fp else [])).
  assert (Hplain : forallb Json.plain_char body = true).
  { unfold body. rewrite forallb_app. apply andb_true_iff. split.
    - exact (forallb_weaken _ _ _ decimal_is_plain Hip).
    - destruct dot; [|reflexivity].
      change (true && forallb Json.plain_char fp = true).
      exact (forallb_weaken _ _ _ decimal_is_plain Hfp). }
  unfold of_string. rewrite chars_of_chars, strip_body.
  2:{ apply (forallb_weaken Json.plain_char); [|exact Hplain]. intros c Hc.
      destruct (plain_char_facts c Hc) as (-> & _). reflexivity. }
  rewrite (filter_all (fun c => negb (Ascii.eqb c "_"))).
  2:{ apply (forallb_weaken Json.plain_char); [|exact Hplain]. intros c Hc.
      destruct (plain_char_facts c Hc) as (_ & -> & _). reflexivity. }
  assert (Hsign : parse_sign body = (false, body)).
  { unfold body. destruct ip as [|d ip'].
    - destruct dot; reflexivity.
    - cbn [forallb] in Hip. apply andb_true_iff in Hip. destruct Hip as [Hd0 _].
      clear - Hd0. cbn [app parse_sign].
      destruct d as [[] [] [] [] [] [] [] []]; try discriminate Hd0; reflexivity. }
  rewrite Hsign. unfold parse_numeric, body.
  rewrite (span_decimal ip _ Hip) by (destruct dot; [reflexivity | exact I]).
  assert (Hfp' : (match (if dot then "."%char :: fp else []) with
                  | "."%char :: r => Str.span Str.isdecimal r
                  | _ => ([], if dot then "."%char :: fp else [])
                  end) = (fp, [])).
  { destruct dot.
    - rewrite <- (app_nil_r fp) at 1. apply span_decimal; [exact Hfp | exact I].
    - rewrite (Hd eq_refl). reflexivity. }
  rewrite Hfp'. rewrite Hcat. rewrite <- Hcat.
  replace (within_limits (Str.N_of_digits (ip ++ fp)) (0 - Z.of_nat (List.length fp)))
    with true; [now rewrite Z.sub_0_l|].
  symmetry. unfold within_limits.
  assert (Hall' : forallb Str.isdecimal (ip ++ fp) = true)
    by (rewrite forallb_app; now rewrite Hip, Hfp).
  pose proof (N_of_digits_bound _ Hall') as Hb.
  assert (Hk : (1 <= List.length (ip ++ fp))%nat) by (rewrite Hcat; simpl; lia).
  pose proof (ndigits_le _ _ Hk Hb) as Hnd.
  rewrite length_app in *. unfold MAX_EMAX in *.
  apply andb_true_iff. split; [apply Z.leb_le; lia|].
  destruct (Str.N_of_digits (ip ++ fp) =? 0)%N; apply Z.leb_le; lia.
Qed.

Lemma parse_special_plain (neg : bool) (c : ascii) (r : list ascii) :
  Json.plain_char c = true -> parse_special neg (c :: r) = None.
Proof.
  destruct c as [[] [] [] [] [] [] [] []]; intros H; try discriminate H; reflexivity.
Qed.

(** The constructor never reads a negative number, an exponent or a
    special value in a string that [num_pattern] matches. *)
Lemma num_pattern_parse (s : string) (d : Decimal) :
  num_pattern s = true -> of_string s = Some d ->
  exists x, d = DFin x /\ fsign x = false /\ fexp x <= 0.
Proof.
  intros Hp Hd.
  destruct (num_pattern_shape s Hp) as (ip & fp & dot & nl & Hs & Hip & Hfp & Hdot).
  rewrite <- (of_chars_chars s), Hs in Hd.
  unfold of_string in Hd. rewrite chars_of_chars in Hd.
  set (body := ip ++ (if dot then "."%char :: fp else [])) in *.
  assert (Hplain : forallb Json.plain_char body = true).
  { unfold body. rewrite forallb_app. apply andb_true_iff. split.
    - exact (forallb_weaken _ _ _ decimal_is_plain Hip).
    - destruct dot; [|reflexivity].
      change (true && forallb Json.plain_char fp = true).
      exact (forallb_weaken _ _ _ decimal_is_plain Hfp). }
  rewrite strip_body in Hd.
  2:{ apply (forallb_weaken Json.plain_char); [|exact Hplain]. intros c Hc.
      destruct (plain_char_facts c Hc) as (-> & _). reflexivity. }
  rewrite (filter_all (fun c => negb (Ascii.eqb c "_"))) in Hd.
  2:{ apply (forallb_weaken Json.plain_char); [|exact Hplain]. intros c Hc.
      destruct (plain_char_facts c Hc) as (_ & -> & _). reflexivity. }
  assert (Hsign : parse_sign body = (false, body)).
  { unfold body. destruct ip as [|d0 ip'].
    - destruct dot; reflexivity.
    - cbn [forallb] in Hip. apply andb_true_iff in Hip. destruct Hip as [Hd0 _].
      clear - Hd0. cbn [app parse_sign].
      destruct d0 as [[] [] [] [] [] [] [] []]; try discriminate Hd0; reflexivity. }
  rewrite Hsign in Hd.
  assert (Hspecial : parse_special false body = None).
  { destruct body as [|c r] eqn:Hb; [reflexivity|].
    cbn [forallb] in Hplain. apply andb_true_iff in Hplain.
    apply parse_special_plain, Hplain. }
  rewrite Hspecial in Hd.
  unfold parse_numeric, body in Hd.
  rewrite (span_decimal ip _ Hip) in Hd by (destruct dot; [reflexivity | exact I]).
  assert (Hfp' : (match (if dot then "."%char :: fp else []) with
                  | "."%char :: r => Str.span Str.isdecimal r
                  | _ => ([], if dot then "."%char :: fp else [])
                  end) = (fp, [])).
  { destruct dot.
    - rewrite <- (app_nil_r fp) at 1. apply span_decimal; [exact Hfp | exact I].
    - rewrite (Hdot eq_refl). reflexivity. }
  rewrite Hfp' in Hd.
  destruct (ip ++ fp) as [|y ys]; [discriminate Hd|].
  destruct (within_limits _ _); [|discriminate Hd].
  injection Hd as <-. eexists. split; [reflexivity|]. cbn [fsign fexp].
  split; [reflexivity | lia].
Qed.

End NumeralFacts.

Section ValidatorFacts.
Import Dec DecParse Validator.
Context (float_repr : spec_float -> string) (container_repr : pyval -> string).

Local Abbreviation validate := (apply_regex_validation float_repr container_repr).

Lemma quantize_int_down_shape (x q : fdec) :
  quantize_int_down default_prec x = Some q ->
  fexp q = 0 /\ (fcoef q < 10 ^ 28)%N /\ fsign q = fsign x.
Proof.
  unfold quantize_int_down.
  set (c := if 0 <=? fexp x then _ else _).
  destruct (c =? 0)%N; [intros [= <-]; cbn; repeat split; lia|].
  destruct (ndigits c <=? default_prec)%nat eqn:Hn; [|discriminate].
  intros [= <-]. cbn [fexp fcoef fsign]. repeat split.
  apply Nat.leb_le in Hn. pose proof (ndigits_upper c) as Hu.
  eapply N.lt_le_trans; [exact Hu|]. apply N.pow_le_mono_r; [lia|].
  unfold default_prec in Hn. lia.
Qed.

(** X14: an accepted max or lim is a whole number of at most 28 digits,
    which is not negative unless it came as a Decimal; the only other
    value that is let through is a quiet NaN that came as a Decimal. *)
Theorem validator_max_lim_whole (key : string) (value v : pyval) :
  In key ["max"; "lim"]%string ->
  validate key value = Ret (Stored v) ->
  (exists q, v = PDec (DFin q) /\ fexp q = 0 /\ (fcoef q < 10 ^ 28)%N
             /\ ((forall d, value <> PDec d) -> fsign q = false))
  \/ (exists neg, value = PDec (DNaN neg false) /\ v = value).
Proof.
  intros Hkey. unfold apply_regex_validation.
  assert (H1 : existsb (String.eqb key) ["max"; "lim"; "amt"]%string = true).
  { destruct Hkey as [<-|[<-|[]]]; reflexivity. }
  assert (H2 : existsb (String.eqb key) ["max"; "lim"]%string = true).
  { destruct Hkey as [<-|[<-|[]]]; reflexivity. }
  rewrite H1.
  assert (Hstored : forall d sgn,
            (match d with DFin x => sgn = true -> fsign x = false | _ => sgn = false end) ->
            (let* q := quantize_down d in Ret (Stored (PDec q))) = Ret (Stored v) ->
            (exists q, v = PDec (DFin q) /\ fexp q = 0 /\ (fcoef q < 10 ^ 28)%N
                       /\ (sgn = true -> fsign q = false))
            \/ (exists neg, d = DNaN neg false /\ v = PDec d)).
  { intros d sgn Hs. destruct d as [x|neg|neg [|]]; cbn [quantize_down bind]; try discriminate.
    - destruct (quantize_int_down default_prec x) as [q|] eqn:Hq; cbn [bind]; [|discriminate].
      intros [= <-]. left. exists q.
      destruct (quantize_int_down_shape x q Hq) as (E1 & E2 & E3).
      split; [reflexivity|]. split; [exact E1|]. split; [exact E2|].
      intros Ht. rewrite E3. apply Hs, Ht.
    - intros [= <-]. right. exists neg. split; reflexivity. }
  assert (Hother : forall s,
            (let* stored :=
               (if num_pattern s
                then match of_string s with
                     | Some d => Ret (Some d)
                     | None => Raise InvalidOperation
                     end
                else Ret None) in
             match stored with
             | None => Ret (Rejected (String.append "NN: INVALID NUM for " key))
             | Some d =>
                 if existsb (String.eqb key) ["max"; "lim"]%string
                 then let* q := quantize_down d in Ret (Stored (PDec q))
                 else Ret (Stored (PDec d))
             end) = Ret (Stored v) ->
            exists q, v = PDec (DFin q) /\ fexp q = 0 /\ (fcoef q < 10 ^ 28)%N
                      /\ fsign q = false).
  { intros s. destruct (num_pattern s) eqn:Hp; cbn [bind]; [|discriminate].
    destruct (of_string s) as [d|] eqn:Hd; cbn [bind]; [|discriminate].
    rewrite H2. intros Hq.
    destruct (num_pattern_parse s d Hp Hd) as (x & -> & Hsx & _).
    destruct (Hstored (DFin x) true (fun _ => Hsx) Hq) as [(q & E1 & E2 & E3 & E4)|(neg & E & _)];
      [|discriminate E].
    exists q. auto. }
  destruct value as [| b | z | f | d | s | items | members];
    try (intros H; apply Hother in H; destruct H as (q & E1 & E2 & E3 & E4);
         left; exists q; auto).
  cbn [bind]. rewrite H2. intros H.
  destruct (Hstored d false) as [(q & E1 & E2 & E3 & _)|(neg & E1 & E2)].
  - destruct d; [discriminate | reflexivity | reflexivity].
  - exact H.
  - left. exists q. split; [exact E1|]. split; [exact E2|]. split; [exact E3|].
    intros Hv. exfalso. apply (Hv d). reflexivity.
  - right. exists neg. subst d. split; [reflexivity | exact E2].
Qed.

Lemma before_final_newline_digit (init : list ascii) (c : ascii) :
  Str.isdecimal c = true -> before_final_newline (init ++ [c]) = init ++ [c].
Proof.
  intros Hc. unfold before_final_newline. rewrite rev_app_distr. cbn [rev app].
  destruct (Ascii.eqb c "010") eqn:E; [|reflexivity].
  apply Ascii.eqb_eq in E. subst c. discriminate Hc.
Qed.

Lemma digits_of_N_shape (n : N) :
  exists init c, Str.digits_of_N n = init ++ [c] /\ Str.isdecimal c = true
                 /\ forallb Str.isdecimal (Str.digits_of_N n) = true.
Proof.
  unfold Str.digits_of_N.
  destruct (digits_aux_last (N.size_nat n) n []) as (init & Hl).
  exists init, (Str.digit_char (n mod 10)). split; [exact Hl|]. split.
  - apply digit_char_decimal. apply N.mod_lt. lia.
  - apply digits_aux_decimal. reflexivity.
Qed.

Lemma dec_pattern_of_Z (n : Z) : dec_pattern (Str.of_Z n) = (0 <=? n).
Proof.
  unfold dec_pattern, Str.of_Z. rewrite chars_of_chars.
  destruct (digits_of_N_shape (Z.abs_N n)) as (init & c & Hl & Hc & Hall).
  destruct (n <? 0) eqn:Hn.
  - apply Z.ltb_lt in Hn. replace (0 <=? n) with false by (symmetry; apply Z.leb_gt; lia).
    rewrite Hl. change ("-"%char :: init ++ [c]) with (("-"%char :: init) ++ [c]).
    rewrite (before_final_newline_digit _ c Hc). reflexivity.
  - apply Z.ltb_ge in Hn. replace (0 <=? n) with true by (symmetry; apply Z.leb_le; lia).
    rewrite Hl, (before_final_newline_digit _ c Hc), <- Hl.
    destruct (Str.digits_of_N (Z.abs_N n)) eqn:E; [|exact Hall].
    destruct init; discriminate Hl.
Qed.

(** X15: dec is accepted exactly as an integer from 0 to 18: whatever is
    stored is such an integer; an int in that range is stored as it is
    and any other int is refused with an NN error; the Decimal and the
    decimal numeral of such an integer are stored as that integer. *)
Theorem validator_dec_range :
  (forall value v, validate "dec" value = Ret (Stored v) ->
     exists n, v = PInt n /\ 0 <= n <= 18)
  /\ (forall n, validate "dec" (PInt n)
               = Ret (if (0 <=? n) && (n <=? 18) then Stored (PInt n)
                      else Rejected "NN: INVALID DEC VAL dec"))
  /\ (forall n, 0 <= n <= 18 ->
        validate "dec" (PDec (DFin (of_Z n))) = Ret (Stored (PInt n))
        /\ validate "dec" (PStr (Str.of_Z n)) = Ret (Stored (PInt n))).
Proof.
  split; [|split].
  - intros value v. unfold apply_regex_validation.
    change (existsb (String.eqb "dec") ["max"; "lim"; "amt"]%string) with false.
    change (String.eqb "dec" "dec") with true. cbv iota.
    destruct (dec_pattern _); [|discriminate].
    destruct (py_int value) as [n|e]; cbn [bind]; [|discriminate].
    destruct ((0 <=? n) && (n <=? 18)) eqn:Hr; [|discriminate].
    intros [= <-]. exists n. split; [reflexivity|].
    apply andb_true_iff in Hr. destruct Hr as [Ha Hb].
    apply Z.leb_le in Ha, Hb. lia.
  - intros n. unfold apply_regex_validation.
    change (existsb (String.eqb "dec") ["max"; "lim"; "amt"]%string) with false.
    change (String.eqb "dec" "dec") with true. cbv iota.
    cbn [py_str py_int bind]. rewrite dec_pattern_of_Z.
    destruct (0 <=? n); [|reflexivity]. destruct (n <=? 18); reflexivity.
  - intros n Hn.
    assert (Hc : exists k : nat, (k <= 18)%nat /\ n = Z.of_nat k)
      by (exists (Z.to_nat n); lia).
    destruct Hc as (k & Hk & ->).
    do 19 (destruct k as [|k]; [split; vm_compute; reflexivity|]).
    lia.
Qed.

Lemma no_digit_nil (l : list ascii) :
  forallb Str.isdecimal l = true -> existsb Str.isdecimal l = false -> l = [].
Proof.
  destruct l as [|c l]; [reflexivity|]. cbn [forallb existsb].
  intros H1 H2. apply andb_true_iff in H1. apply orb_false_iff in H2.
  destruct H1 as [H1 _], H2 as [H2 _]. congruence.
Qed.

Lemma digitless_raises (key s : string) :
  In key ["max"; "lim"; "amt"]%string ->
  num_pattern s = true ->
  existsb Str.isdecimal (Str.chars s) = false ->
  validate key (PStr s) = Raise InvalidOperation.
Proof.
  intros Hkey Hp Hn.
  destruct (num_pattern_shape s Hp) as (ip & fp & dot & nl & Hs & Hip & Hfp & Hdot).
  rewrite Hs, !existsb_app in Hn.
  apply orb_false_iff in Hn. destruct Hn as [Hn _].
  apply orb_false_iff in Hn. destruct Hn as [Hn1 Hn2].
  pose proof (no_digit_nil ip Hip Hn1) as ->.
  assert (fp = []) as ->.
  { destruct dot; [|apply Hdot; reflexivity].
    cbn [existsb] in Hn2. apply orb_false_iff in Hn2.
    apply (no_digit_nil fp Hfp), Hn2. }
  rewrite <- (of_chars_chars s), Hs.
  destruct Hkey as [<-|[<-|[<-|[]]]]; destruct dot, nl; vm_compute; reflexivity.
Qed.

Lemma N_of_digits_app (a b : list ascii) :
  Str.N_of_digits (a ++ b)
  = (Str.N_of_digits a * 10 ^ N.of_nat (List.length b) + Str.N_of_digits b)%N.
Proof.
  unfold Str.N_of_digits. rewrite fold_left_app.
  generalize (fold_left (fun acc c => (10 * acc + Str.digit_val c)%N) a 0%N) as x.
  induction b as [|c b IH]; intros x; cbn [fold_left List.length].
  - cbn. lia.
  - rewrite IH, (IH (10 * 0 + Str.digit_val c)%N).
    rewrite Nat2N.inj_succ, N.pow_succ_r'. lia.
Qed.

(** X16: a numeral of digits, with or without a point, is stored under
    amt as the Decimal that it writes, with as many decimal places as it
    has digits after the point; under max and lim its integer part is
    stored, when that has at most 28 digits. *)
Theorem validator_numeral (ip fp : list ascii) (dot nl : bool) :
  forallb Str.isdecimal ip = true -> forallb Str.isdecimal fp = true ->
  (dot = false -> fp = []) -> ip ++ fp <> [] ->
  Z.of_nat (List.length (ip ++ fp)) < MAX_EMAX ->
  let s := Str.of_chars ((ip ++ (if dot then "."%char :: fp else []))
                         ++ (if nl then ["010"%char] else [])) in
  validate "amt" (PStr s)
  = Ret (Stored (PDec (DFin (FDec false (Str.N_of_digits (ip ++ fp))
                                  (- Z.of_nat (List.length fp))))))
  /\ ((List.length ip <= 28)%nat ->
      validate "max" (PStr s) = Ret (Stored (PDec (DFin (FDec false (Str.N_of_digits ip) 0))))
      /\ validate "lim" (PStr s) = Ret (Stored (PDec (DFin (FDec false (Str.N_of_digits ip) 0))))).
Proof.
  intros Hip Hfp Hdot Hne Hlen s.
  assert (Hp : num_pattern s = true).
  { unfold num_pattern, s. rewrite chars_of_chars.
    assert (Hb : before_final_newline
                   ((ip ++ (if dot then "."%char :: fp else []))
                    ++ (if nl then ["010"%char] else []))
                 = ip ++ (if dot then "."%char :: fp else [])).
    { destruct nl.
      - unfold before_final_newline. rewrite rev_app_distr. cbn [rev app].
        rewrite Ascii.eqb_refl. apply rev_involutive.
      - rewrite app_nil_r.
        destruct (before_final_newline_cases (ip ++ (if dot then "."%char :: fp else [])))
          as [[H _]|(b & Hl & _)]; [exact H|].
        exfalso.
        assert (Hin : In "010"%char (ip ++ (if dot then "."%char :: fp else []))).
        { rewrite Hl. apply in_or_app. right. left. reflexivity. }
        apply in_app_or in Hin. destruct Hin as [Hin|Hin].
        + rewrite forallb_forall in Hip. specialize (Hip _ Hin). discriminate Hip.
        + destruct dot; [|destruct Hin]. destruct Hin as [Hin|Hin]; [discriminate Hin|].
          rewrite forallb_forall in Hfp. specialize (Hfp _ Hin). discriminate Hfp. }
    rewrite Hb.
    rewrite (span_decimal ip _ Hip) by (destruct dot; [reflexivity | exact I]).
    destruct dot; [|reflexivity]. cbn [Ascii.eqb andb]. exact Hfp. }
  assert (Hd : of_string s
               = Some (DFin (FDec false (Str.N_of_digits (ip ++ fp))
                                  (- Z.of_nat (List.length fp))))).
  { unfold s. rewrite (of_string_pattern ip fp dot nl Hip Hfp Hdot Hlen).
    destruct (ip ++ fp); [contradiction | reflexivity]. }
  unfold apply_regex_validation. cbn [py_str].
  change (existsb (String.eqb "amt") ["max"; "lim"; "amt"]%string) with true.
  change (existsb (String.eqb "max") ["max"; "lim"; "amt"]%string) with true.
  change (existsb (String.eqb "lim") ["max"; "lim"; "amt"]%string) with true.
  change (existsb (String.eqb "amt") ["max"; "lim"]%string) with false.
  change (existsb (String.eqb "max") ["max"; "lim"]%string) with true.
  change (existsb (String.eqb "lim") ["max"; "lim"]%string) with true.
  cbv iota. rewrite Hp, Hd. cbn [bind]. split; [reflexivity|].
  intros Hk.
  assert (Hq : quantize_int_down default_prec
                 (FDec false (Str.N_of_digits (ip ++ fp)) (- Z.of_nat (List.length fp)))
               = Some (FDec false (Str.N_of_digits ip) 0)).
  { unfold quantize_int_down. cbn [fexp fcoef fsign].
    assert (Hc : (if 0 <=? - Z.of_nat (List.length fp)
                  then (Str.N_of_digits (ip ++ fp)
                        * 10 ^ Z.to_N (- Z.of_nat (List.length fp)))%N
                  else (Str.N_of_digits (ip ++ fp)
                        / 10 ^ Z.to_N (- - Z.of_nat (List.length fp)))%N)
                 = Str.N_of_digits ip).
    { rewrite N_of_digits_app.
      pose proof (N_of_digits_bound fp Hfp) as Hb.
      destruct (0 <=? - Z.of_nat (List.length fp)) eqn:E.
      - apply Z.leb_le in E. assert (Hz : List.length fp = 0%nat) by lia.
        rewrite Hz in *. cbn in Hb.
        replace (Z.to_N (- Z.of_nat 0)) with 0%N by lia. cbn. lia.
      - replace (Z.to_N (- - Z.of_nat (List.length fp))) with (N.of_nat (List.length fp)) by lia.
        assert (Hpos : (10 ^ N.of_nat (List.length fp) <> 0)%N) by (apply N.pow_nonzero; lia).
        rewrite N.add_comm, N.div_add by exact Hpos.
        rewrite N.div_small by exact Hb. lia. }
    rewrite Hc.
    destruct (Str.N_of_digits ip =? 0)%N eqn:Hz.
    { apply N.eqb_eq in Hz. rewrite Hz. reflexivity. }
    assert (Hn : (ndigits (Str.N_of_digits ip) <= default_prec)%nat).
    { destruct ip as [|c ip'] eqn:Hi; [discriminate Hz|]. rewrite <- Hi in *.
      apply (Nat.le_trans _ (List.length ip)); [|exact Hk].
      apply ndigits_le; [rewrite Hi; cbn; lia|]. apply N_of_digits_bound, Hip. }
    apply Nat.leb_le in Hn. rewrite Hn. reflexivity. }
  unfold quantize_down. rewrite Hq. cbn [bind]. split; reflexivity.
Qed.

Context (py_lower py_upper escape_non_ascii_characters sha3_256_hex : string -> string).

(** X17: the pattern of max, lim and amt lets through the strings that
    hold no digit; the empty one is cleared to None by process_values,
    and on the others (a point, a newline, a point and a newline) the
    Decimal constructor raises InvalidOperation, which the validator
    does not catch. *)
Theorem process_values_digitless (key s : string) :
  In key ["max"; "lim"; "amt"]%string ->
  num_pattern s = true ->
  existsb Str.isdecimal (Str.chars s) = false ->
  process_value float_repr container_repr py_lower py_upper
                escape_non_ascii_characters sha3_256_hex key (PStr s)
  = if String.eqb s "" then Ret Cleared else Raise InvalidOperation.
Proof.
  intros Hkey Hp Hn. destruct s as [|c s']; [reflexivity|].
  change (String.eqb (String c s') "") with false. cbv iota.
  unfold process_value.
  assert (H1 : String.eqb key "tick" = false)
    by (destruct Hkey as [<-|[<-|[<-|[]]]]; reflexivity).
  assert (H2 : existsb (String.eqb key) ["p"; "op"; "holders_of"]%string = false)
    by (destruct Hkey as [<-|[<-|[<-|[]]]]; reflexivity).
  assert (H3 : existsb (String.eqb key) ["max"; "lim"; "amt"; "dec"]%string = true)
    by (destruct Hkey as [<-|[<-|[<-|[]]]]; reflexivity).
  rewrite H1, H2, H3. apply digitless_raises; assumption.
Qed.

End ValidatorFacts.

(** ** Reading back what format_decimal writes *)

Section RoundTrip.
Import Dec DecParse Src20 Ledger.

Lemma digit_val_char (r : N) : (r < 10)%N -> Str.digit_val (Str.digit_char r) = r.
Proof.
  intros Hr. unfold Str.digit_val. rewrite (digit_char_code r Hr). lia.
Qed.

Lemma N_of_digits_snoc (l : list ascii) (c : ascii) :
  Str.N_of_digits (l ++ [c]) = (10 * Str.N_of_digits l + Str.digit_val c)%N.
Proof. unfold Str.N_of_digits. rewrite fold_left_app. reflexivity. Qed.

Lemma digits_aux_value (fuel : nat) :
  forall (n : N) (acc : list ascii),
    (n < 10 ^ N.of_nat (S fuel))%N ->
    exists ds, Str.digits_aux fuel n acc = ds ++ acc /\ Str.N_of_digits ds = n.
Proof.
  induction fuel as [|f IH]; intros n acc Hn; cbn [Str.digits_aux].
  - exists [Str.digit_char (n mod 10)]. split; [reflexivity|].
    change (N.of_nat 1) with 1%N in Hn. rewrite N.pow_1_r in Hn.
    rewrite N.mod_small by exact Hn.
    unfold Str.N_of_digits. cbn [fold_left]. rewrite digit_val_char by exact Hn. lia.
  - destruct (n <? 10)%N eqn:E.
    + apply N.ltb_lt in E. exists [Str.digit_char (n mod 10)]. split; [reflexivity|].
      rewrite N.mod_small by exact E.
      unfold Str.N_of_digits. cbn [fold_left]. rewrite digit_val_char by exact E. lia.
    + destruct (IH (n / 10)%N (Str.digit_char (n mod 10) :: acc)) as (ds & Hd & Hv).
      { rewrite Nat2N.inj_succ, N.pow_succ_r' in Hn.
        apply N.Div0.div_lt_upper_bound. exact Hn. }
      exists (ds ++ [Str.digit_char (n mod 10)]). split.
      * rewrite Hd, <- app_assoc. reflexivity.
      * rewrite N_of_digits_snoc, Hv, digit_val_char by (apply N.mod_lt; lia).
        pose proof (N.div_mod n 10 ltac:(lia)). lia.
Qed.

(** The digits of a number denote it. *)
Lemma N_of_digits_of_N (n : N) : Str.N_of_digits (Str.digits_of_N n) = n.
Proof.
  unfold Str.digits_of_N.
  destruct (digits_aux_value (N.size_nat n) n []) as (ds & Hd & Hv).
  - pose proof (size_nat_bound n) as Hb.
    eapply N.lt_le_trans; [exact Hb|].
    rewrite Nat2N.inj_succ, N.pow_succ_r'.
    assert (2 ^ N.of_nat (N.size_nat n) <= 10 ^ N.of_nat (N.size_nat n))%N
      by (apply N.pow_le_mono_l; lia).
    assert (0 < 10 ^ N.of_nat (N.size_nat n))%N by (apply N.neq_0_lt_0, N.pow_nonzero; lia).
    lia.
  - rewrite Hd, app_nil_r. exact Hv.
Qed.

Lemma cmp_value (E : Z) (x y : fdec) :
  - E <= fexp x -> - E <= fexp y ->
  cmp x y = (value E x ?= value E y).
Proof.
  intros Hx Hy. unfold cmp, value.
  set (e := Z.min (fexp x) (fexp y)).
  rewrite (aligned_scale e E x), (aligned_scale e E y) by (subst e; lia).
  assert (Hp : 0 < 10 ^ (e + E)) by (apply Z.pow_pos_nonneg; subst e; lia).
  set (P := 10 ^ (e + E)) in *.
  destruct (Z.compare_spec (aligned e x) (aligned e y));
    destruct (Z.compare_spec (aligned e x * P) (aligned e y * P));
    try reflexivity; nia.
Qed.

Lemma eqb_value (E : Z) (x y : fdec) :
  - E <= fexp x -> - E <= fexp y ->
  (Dec.eqb x y = true <-> value E x = value E y).
Proof.
  intros Hx Hy. unfold Dec.eqb. rewrite (cmp_value E x y Hx Hy).
  destruct (Z.compare_spec (value E x) (value E y)); split; intros; try discriminate;
    try reflexivity; lia.
Qed.

Lemma norm_value (E : Z) (a : fdec) :
  0 <= E -> - E <= fexp a -> (fcoef a < 10 ^ 28)%N ->
  - E <= fexp (norm a) /\ value E (norm a) = value E a.
Proof.
  intros HE Ha Hb.
  destruct (N.eq_dec (fcoef a) 0%N) as [Hz|Hnz].
  - rewrite (norm_zero a Hz). cbn [fexp]. split; [lia|].
    unfold value, aligned. cbn [fsign fcoef fexp]. rewrite Hz. cbn.
    destruct (fsign a); reflexivity.
  - destruct (norm_shape a Hb Hnz) as (c & e & Hn & He & Hc & _).
    rewrite Hn. cbn [fexp]. split; [lia|].
    unfold value, aligned. cbn [fsign fcoef fexp]. rewrite Hc.
    replace (e - - E) with ((e - fexp a) + (fexp a - - E)) by lia.
    rewrite Z.pow_add_r by lia.
    destruct (fsign a); ring.
Qed.

Lemma N_of_digits_zeros (k : nat) (l : list ascii) :
  Str.N_of_digits (repeat "0"%char k ++ l) = Str.N_of_digits l.
Proof.
  unfold Str.N_of_digits. induction k as [|k IH]; [reflexivity|].
  cbn [repeat app fold_left]. exact IH.
Qed.

Lemma N_of_digits_zero_head (l : list ascii) :
  Str.N_of_digits ("0"%char :: l) = Str.N_of_digits l.
Proof. reflexivity. Qed.

Lemma forallb_repeat_zero (k : nat) : forallb Str.isdecimal (repeat "0"%char k) = true.
Proof. induction k as [|k IH]; [reflexivity | exact IH]. Qed.

(** [format(d, "f")] of a decimal with a negative exponent: a sign, an
    integer part, a point, and as many digits as the exponent tells. *)
Lemma format_f_shape (s : bool) (c : N) (e : Z) :
  e < 0 ->
  exists ip init,
    format_f (FDec s c e)
    = Str.of_chars ((if s then ["-"%char] else []) ++ ip
                    ++ "."%char :: init ++ [Str.digit_char (c mod 10)])
    /\ Json.digits ip = true
    /\ forallb Str.isdecimal (init ++ [Str.digit_char (c mod 10)]) = true
    /\ Z.of_nat (List.length (init ++ [Str.digit_char (c mod 10)])) = - e
    /\ Str.N_of_digits (ip ++ init ++ [Str.digit_char (c mod 10)]) = c.
Proof.
  intros He. unfold format_f. cbn [fexp fcoef fsign].
  assert (H0 : (0 <? e) = false) by (apply Z.ltb_ge; lia). rewrite H0.
  cbn [fexp fcoef fsign].
  destruct (digits_of_N_shape c) as (init0 & c0 & Hl & _ & Hall).
  destruct (digits_aux_last (N.size_nat c) c []) as (init & Hds).
  fold (Str.digits_of_N c) in Hds.
  set (last := Str.digit_char (c mod 10)) in *.
  pose proof (N_of_digits_of_N c) as Hval.
  set (ds := Str.digits_of_N c) in *. clearbody ds. clear Hl init0 c0.
  subst ds.
  set (len := Z.of_nat (List.length (init ++ [last]))).
  assert (Hlen : len = Z.of_nat (List.length init) + 1).
  { subst len. rewrite length_app. cbn [List.length]. lia. }
  destruct (e + len <? 0) eqn:Hdp.
  - apply Z.ltb_lt in Hdp.
    exists ["0"%char], (repeat "0"%char (Z.to_nat (- (e + len))) ++ init).
    split; [|split; [reflexivity|split; [|split]]].
    + destruct (repeat "0"%char (Z.to_nat (- (e + len))) ++ init ++ [last]) eqn:Hr.
      { apply app_eq_nil in Hr. destruct Hr as [_ Hr]. apply app_eq_nil in Hr.
        destruct Hr as [_ Hr]. discriminate. }
      rewrite <- Hr. rewrite <- !app_assoc. reflexivity.
    + rewrite <- app_assoc, forallb_app, forallb_repeat_zero. exact Hall.
    + rewrite <- app_assoc, length_app, repeat_length. fold len. lia.
    + rewrite <- app_assoc. cbn [app]. rewrite N_of_digits_zero_head, N_of_digits_zeros.
      exact Hval.
  - apply Z.ltb_ge in Hdp.
    set (k := Z.to_nat (e + len)).
    assert (Hk : (k <= List.length init)%nat) by (subst k; lia).
    assert (Hsk : skipn k (init ++ [last]) = skipn k init ++ [last]).
    { rewrite skipn_app. replace (k - List.length init)%nat with 0%nat by lia. reflexivity. }
    assert (Hfk : firstn k (init ++ [last]) = firstn k init).
    { rewrite firstn_app. replace (k - List.length init)%nat with 0%nat by lia.
      cbn [firstn]. apply app_nil_r. }
    rewrite Hsk, Hfk.
    assert (Hinit : forallb Str.isdecimal init = true /\ Str.isdecimal last = true).
    { rewrite forallb_app in Hall. apply andb_true_iff in Hall. destruct Hall as [H1 H2].
      cbn [forallb] in H2. rewrite andb_true_r in H2. auto. }
    destruct Hinit as [Hi Hla].
    assert (Hfi : forallb Str.isdecimal (firstn k init) = true).
    { rewrite <- (firstn_skipn k init), forallb_app in Hi.
      apply andb_true_iff in Hi. apply Hi. }
    assert (Hsi : forallb Str.isdecimal (skipn k init) = true).
    { rewrite <- (firstn_skipn k init), forallb_app in Hi.
      apply andb_true_iff in Hi. apply Hi. }
    exists (match firstn k init with [] => ["0"%char] | _ => firstn k init end), (skipn k init).
    split; [|split; [|split; [|split]]].
    + destruct (skipn k init ++ [last]) eqn:Hr.
      { apply app_eq_nil in Hr. destruct Hr as [_ Hr]. discriminate. }
      rewrite <- Hr. reflexivity.
    + destruct (firstn k init) eqn:Hf; [reflexivity | exact Hfi].
    + rewrite forallb_app, Hsi. cbn [forallb]. rewrite Hla. reflexivity.
    + rewrite length_app, length_skipn. cbn [List.length]. subst k. lia.
    + destruct (firstn k init) eqn:Hf.
      * cbn [app]. rewrite N_of_digits_zero_head.
        rewrite <- Hval. f_equal.
        rewrite <- (firstn_skipn k init) at 2. rewrite Hf. reflexivity.
      * rewrite <- Hf, app_assoc, firstn_skipn. exact Hval.
Qed.

Lemma snoc_match {A B : Type} (l : list A) (x : A) (b : B) (f : list A -> B) :
  match l ++ [x] with [] => b | _ => f (l ++ [x]) end = f (l ++ [x]).
Proof. destruct l; reflexivity. Qed.

(** What [format_decimal] writes: a sign, digits, and a point with
    digits or nothing; the decimal that this numeral writes equals the
    amount. *)
Lemma format_decimal_numeral (a : fdec) :
  (fcoef a < 10 ^ 28)%N ->
  exists (neg : bool) (ip fp : list ascii),
    format_decimal a
    = Str.of_chars ((if neg then ["-"%char] else []) ++ ip
                    ++ match fp with [] => [] | _ => "."%char :: fp end)
    /\ Json.digits ip = true /\ forallb Str.isdecimal fp = true
    /\ Dec.eqb (FDec neg (Str.N_of_digits (ip ++ fp)) (- Z.of_nat (List.length fp))) a
       = true.
Proof.
  intros Hb.
  set (E := Z.max 0 (- fexp a)).
  assert (HE : 0 <= E) by (subst E; lia).
  assert (Ha : - E <= fexp a) by (subst E; lia).
  destruct (norm_value E a HE Ha Hb) as [Hne Hnv].
  destruct (is_integral (norm a)) eqn:Hint.
  - set (z := to_int (norm a)).
    exists (z <? 0), (Str.digits_of_N (Z.abs_N z)), [].
    destruct (digits_of_N_shape (Z.abs_N z)) as (init & c & Hl & Hc & Hall).
    split; [|split; [|split; [reflexivity|]]].
    + unfold format_decimal. rewrite Hint. fold z. unfold Str.of_Z.
      rewrite app_nil_r. destruct (z <? 0); reflexivity.
    + unfold Json.digits. destruct (Str.digits_of_N (Z.abs_N z)) eqn:Hd; [|exact Hall].
      destruct init; discriminate Hl.
    + rewrite app_nil_r, N_of_digits_of_N. cbn [List.length].
      change (FDec (z <? 0) (Z.abs_N z) (- Z.of_nat 0)) with (of_Z z).
      unfold is_integral in Hint. fold z in Hint.
      apply (eqb_value E) in Hint; [|exact Hne | cbn [fexp of_Z]; lia].
      apply (eqb_value E); [cbn [fexp of_Z]; lia | exact Ha|].
      rewrite <- Hint. exact Hnv.
  - destruct (N.eq_dec (fcoef a) 0%N) as [Hc0|Hc0].
    { rewrite (norm_zero a Hc0) in Hint. rewrite is_integral_nonneg in Hint; [discriminate|].
      cbn [fexp]. lia. }
    destruct (norm_shape a Hb Hc0) as (c & e & Hn & He & Hc & Hm).
    assert (Hneg : e < 0).
    { destruct (Z.lt_ge_cases e 0) as [H|H]; [exact H|].
      rewrite Hn, is_integral_nonneg in Hint; [discriminate | exact H]. }
    destruct (format_f_shape (fsign a) c e Hneg) as (ip & init & Hf & Hip & Hfp & Hlen & Hval).
    set (last := Str.digit_char (c mod 10)) in *.
    assert (Hlt : (c mod 10 < 10)%N) by (apply N.mod_lt; lia).
    assert (Hl0 : Ascii.eqb "0" last = false).
    { destruct (Ascii.eqb "0" last) eqn:E0; [|reflexivity].
      apply Ascii.eqb_eq in E0. apply (f_equal Str.code) in E0. subst last.
      rewrite (digit_char_code _ Hlt) in E0. change (Str.code "0") with 48%N in E0. lia. }
    assert (Hlp : Ascii.eqb "." last = false).
    { apply decimal_not_point. apply digit_char_decimal, Hlt. }
    exists (fsign a), ip, (init ++ [last]).
    split; [|split; [exact Hip|split; [exact Hfp|]]].
    + unfold format_decimal. rewrite Hint, Hn, Hf, chars_of_chars.
      assert (Hsnoc : (if fsign a then ["-"%char] else []) ++ ip ++ "."%char :: init ++ [last]
                      = ((if fsign a then ["-"%char] else []) ++ ip ++ "."%char :: init)
                        ++ [last]).
      { rewrite <- !app_assoc. reflexivity. }
      rewrite Hsnoc, (rstrip_char_last "0" last _ Hl0), (rstrip_char_last "." last _ Hlp).
      transitivity (Str.of_chars
                      (((if fsign a then ["-"%char] else []) ++ ip ++ "."%char :: init)
                       ++ [last])).
      { apply (snoc_match _ last _ Str.of_chars). }
      rewrite <- Hsnoc. f_equal. f_equal. f_equal.
      symmetry. apply (snoc_match init last [] (fun l => "."%char :: l)).
    + rewrite Hval, Hlen. replace (- - e) with e by lia. rewrite <- Hn.
      apply (eqb_value E); [exact Hne | exact Ha | exact Hnv].
Qed.

(** X18: what format_decimal writes for an ordinary amount (below 10^27,
    no exponent below Etiny) of 28 digits at most is read back by the
    Decimal constructor as a number equal to the amount. *)
Theorem format_decimal_parses (a : fdec) :
  (fcoef a < 10 ^ 28)%N ->
  ordinary a ->
  Z.of_nat (String.length (format_decimal a)) < MAX_EMAX ->
  exists d, of_string (format_decimal a) = Some (DFin d) /\ Dec.eqb d a = true.
Proof.
  intros Hb _ Hlen.
  destruct (format_decimal_numeral a Hb) as (neg & ip & fp & Hf & Hip & Hfp & Heq).
  eexists. split; [|exact Heq].
  rewrite Hf. apply of_string_plain; [exact Hip | exact Hfp|].
  rewrite Hf, string_length_chars, chars_of_chars in Hlen.
  rewrite !length_app in Hlen. rewrite length_app.
  destruct fp; cbn [List.length] in *; lia.
Qed.

End RoundTrip.

(** ** parse_balances reads the ledger string back *)

Section ParseBalances.
Import Dec DecParse Src20 Ledger Balances.

Lemma norm_coef_bound (d : fdec) : (fcoef (norm d) < 10 ^ 28)%N.
Proof.
  unfold norm, normalize. pose proof (fix_coef_bound d) as Hb.
  set (x := fix_ default_prec d) in *.
  destruct (fcoef x =? 0)%N eqn:Hz; [cbn; lia|].
  pose proof (strip_zeros_spec (ndigits (fcoef x)) (fcoef x) (fexp x)) as [H1 H2].
  destruct (strip_zeros (ndigits (fcoef x)) (fcoef x) (fexp x)) as [c e].
  cbn [fst snd fcoef] in *.
  assert (1 <= 10 ^ (e - fexp x)) by (apply Z.lt_pred_le, Z.pow_pos_nonneg; lia).
  assert (Z.of_N c <= Z.of_N (fcoef x)) by nia.
  lia.
Qed.

Lemma split_chars_no_sep (sep : ascii) (l : list ascii) :
  existsb (Ascii.eqb sep) l = false -> Str.split_chars sep l = [l].
Proof.
  induction l as [|c l IH]; intros H; [reflexivity|].
  cbn [existsb] in H. apply orb_false_iff in H. destruct H as [Hc Hl].
  cbn [Str.split_chars]. rewrite (IH Hl), Ascii.eqb_sym, Hc. reflexivity.
Qed.

Lemma split_no_sep (sep : ascii) (s : string) :
  Str.contains_char sep s = false -> Str.split sep s = [s].
Proof.
  intros H. unfold Str.split. rewrite (split_chars_no_sep sep _ H).
  cbn [map]. rewrite of_chars_chars. reflexivity.
Qed.

(** [";".join(l).split(";")] gives the list back. *)
Lemma split_join (es : list string) :
  es <> [] -> (forall e, In e es -> Str.contains_char ";" e = false) ->
  Str.split ";" (Str.join ";" es) = es.
Proof.
  induction es as [|e es IH]; intros Hne Hall; [contradiction|].
  destruct es as [|e' es'].
  - cbn [Str.join]. apply split_no_sep, Hall. left. reflexivity.
  - change (Str.join ";" (e :: e' :: es'))
      with (String.append e (String.append ";" (Str.join ";" (e' :: es')))).
    unfold Str.split. rewrite chars_append.
    change (Str.chars (String.append ";" (Str.join ";" (e' :: es'))))
      with (";"%char :: Str.chars (Str.join ";" (e' :: es'))).
    rewrite split_chars_app by (apply Hall; left; reflexivity).
    cbn [map]. rewrite of_chars_chars. f_equal.
    apply IH; [discriminate|]. intros x Hx. apply Hall. right. exact Hx.
Qed.

(** What [format_decimal] writes holds no comma and no semicolon. *)
Lemma format_decimal_plain (a : fdec) :
  (fcoef a < 10 ^ 28)%N ->
  forallb Json.plain_char (Str.chars (format_decimal a)) = true.
Proof.
  intros Hb.
  destruct (format_decimal_numeral a Hb) as (neg & ip & fp & Hf & Hip & Hfp & _).
  rewrite Hf, chars_of_chars, !forallb_app.
  destruct (digits_spec ip Hip) as [_ Hall].
  rewrite (forallb_weaken _ _ _ decimal_is_plain Hall).
  assert (Hs : forallb Json.plain_char (if neg then ["-"%char] else []) = true)
    by (destruct neg; reflexivity).
  rewrite Hs. destruct fp as [|f fp]; [reflexivity|].
  change (true && (true && forallb Json.plain_char (f :: fp)) = true).
  rewrite (forallb_weaken _ _ _ decimal_is_plain Hfp). reflexivity.
Qed.

Lemma plain_no_char (c : ascii) (l : list ascii) :
  Json.plain_char c = false ->
  forallb Json.plain_char l = true -> existsb (Ascii.eqb c) l = false.
Proof.
  intros Hc. induction l as [|x l IH]; [reflexivity|].
  cbn [forallb existsb]. intros H. apply andb_true_iff in H. destruct H as [Hx Hl].
  rewrite (IH Hl), orb_false_r.
  destruct (Ascii.eqb c x) eqn:E; [|reflexivity].
  apply Ascii.eqb_eq in E. subst x. congruence.
Qed.

Context (decode_unicode_escapes : string -> string).

Local Abbreviation entry := (ledger_entry decode_unicode_escapes).
Local Abbreviation shown := (display_tick decode_unicode_escapes).

Lemma parse_entry_ledger (u : balance_update) :
  Str.contains_char "," (shown (u_tick u)) = false ->
  Str.contains_char "," (u_address u) = false ->
  Z.of_nat (String.length (format_decimal (ledger_amt u))) < MAX_EMAX ->
  exists d, parse_entry (entry u) = Ret (shown (u_tick u), u_address u, DFin d)
            /\ Dec.eqb d (ledger_amt u) = true.
Proof.
  intros Ht Ha Hlen.
  pose proof (norm_coef_bound (plus (default zero (net_change u))
                                    (default zero (original_amt u)))) as Hb.
  fold (ledger_amt u) in Hb.
  destruct (format_decimal_numeral _ Hb) as (neg & ip & fp & Hf & Hip & Hfp & Heq).
  exists (FDec neg (Str.N_of_digits (ip ++ fp)) (- Z.of_nat (List.length fp))).
  split; [|exact Heq].
  unfold parse_entry, ledger_entry. rewrite (split_entry _ _ _ Ht Ha).
  rewrite split_no_sep.
  2:{ apply plain_no_char; [reflexivity | apply format_decimal_plain, Hb]. }
  rewrite Hf. rewrite of_string_plain; [reflexivity | exact Hip | exact Hfp|].
  rewrite Hf, string_length_chars, chars_of_chars in Hlen.
  rewrite !length_app in Hlen. rewrite length_app.
  destruct fp; cbn [List.length] in *; lia.
Qed.

Lemma entry_no_semicolon (u : balance_update) :
  Str.contains_char ";" (shown (u_tick u)) = false ->
  Str.contains_char ";" (u_address u) = false ->
  Str.contains_char ";" (entry u) = false.
Proof.
  intros Ht Ha.
  pose proof (norm_coef_bound (plus (default zero (net_change u))
                                    (default zero (original_amt u)))) as Hb.
  fold (ledger_amt u) in Hb.
  unfold Str.contains_char, ledger_entry in *.
  rewrite !chars_append, !existsb_app, Ht, Ha.
  rewrite (plain_no_char ";" _ eq_refl (format_decimal_plain _ Hb)). reflexivity.
Qed.

Lemma balance_store (t a t' a' : string) (d : Decimal)
    (m : gmap string (gmap string Decimal)) :
  balance (store_balance t a d m) t' a'
  = if decide ((t, a) = (t', a')) then Some d else balance m t' a'.
Proof.
  unfold balance, store_balance.
  destruct (decide (t = t')) as [<-|Ht].
  - rewrite lookup_insert_eq.
    destruct (decide (a = a')) as [<-|Ha].
    + rewrite lookup_insert_eq, decide_True by reflexivity. reflexivity.
    + rewrite lookup_insert_ne by exact Ha.
      rewrite decide_False by congruence.
      destruct (m !! t); [reflexivity | apply lookup_empty].
  - rewrite lookup_insert_ne by exact Ht. rewrite decide_False by congruence. reflexivity.
Qed.

Lemma parse_entries_ledger (us : list balance_update) :
  forall m : gmap string (gmap string Decimal),
    (forall u, In u us ->
       Str.contains_char "," (shown (u_tick u)) = false
       /\ Str.contains_char "," (u_address u) = false
       /\ Z.of_nat (String.length (format_decimal (ledger_amt u))) < MAX_EMAX) ->
    List.NoDup (map (fun u => (shown (u_tick u), u_address u)) us) ->
    exists m',
      parse_entries (map entry us) m = Ret m'
      /\ (forall u, In u us ->
            exists d, balance m' (shown (u_tick u)) (u_address u) = Some (DFin d)
                      /\ Dec.eqb d (ledger_amt u) = true)
      /\ (forall t a, ~ In (t, a) (map (fun u => (shown (u_tick u), u_address u)) us) ->
            balance m' t a = balance m t a).
Proof.
  induction us as [|u us IH]; intros m Hall Hnd.
  - exists m. split; [reflexivity|]. split; [intros u []|]. intros t a _. reflexivity.
  - cbn [map] in Hnd. apply List.NoDup_cons_iff in Hnd. destruct Hnd as [Hu Hnd].
    destruct (Hall u (or_introl eq_refl)) as (Ht & Ha & Hlen).
    destruct (parse_entry_ledger u Ht Ha Hlen) as (d & Hp & Hd).
    cbn [map parse_entries]. rewrite Hp. cbn [bind].
    destruct (IH (store_balance (shown (u_tick u)) (u_address u) (DFin d) m))
      as (m' & Hrun & Hin & Hout); [intros v Hv; apply Hall; right; exact Hv | exact Hnd|].
    exists m'. split; [exact Hrun|]. split.
    + intros v [<-|Hv]; [|apply Hin, Hv].
      exists d. split; [|exact Hd].
      rewrite (Hout _ _ Hu), balance_store, decide_True by reflexivity. reflexivity.
    + intros t a Hn. cbn [map In] in Hn.
      rewrite Hout by tauto. rewrite balance_store, decide_False; [reflexivity|].
      intros Heq. apply Hn. left. exact Heq.
Qed.

(** X19: parse_balances reads back the ledger string that
    process_balance_updates writes: for every balance update it holds,
    under the tick as shown and the address, a Decimal equal to the
    amount of the entry (the net change and the original amount being
    ordinary amounts); the empty ledger string of a block without
    updates is refused with a ValueError. *)
Theorem parse_balances_round_trip (bu : list balance_update) :
  (forall u, In u bu ->
     Str.contains_char "," (shown (u_tick u)) = false
     /\ Str.contains_char "," (u_address u) = false
     /\ Str.contains_char ";" (shown (u_tick u)) = false
     /\ Str.contains_char ";" (u_address u) = false
     /\ Z.of_nat (String.length (format_decimal (ledger_amt u))) < MAX_EMAX
     /\ ordinary (default zero (net_change u))
     /\ ordinary (default zero (original_amt u))) ->
  List.NoDup (map (fun u => (shown (u_tick u), u_address u)) bu) ->
  match bu with
  | [] => parse_balances (process_balance_updates decode_unicode_escapes bu)
          = Raise ValueError
  | _ =>
      exists balances,
        parse_balances (process_balance_updates decode_unicode_escapes bu) = Ret balances
        /\ forall u, In u bu ->
             exists d, balance balances (shown (u_tick u)) (u_address u) = Some (DFin d)
                       /\ Dec.eqb d (ledger_amt u) = true
  end.
Proof.
  intros Hall Hnd.
  destruct bu as [|u0 bu0] eqn:Hbu; [reflexivity|]. rewrite <- Hbu in *.
  assert (Hne : bu <> []) by (rewrite Hbu; discriminate).
  clear Hbu u0 bu0.
  unfold parse_balances, process_balance_updates.
  pose proof (sorted_by_perm entry_key (map entry bu)) as Hperm.
  apply Permutation_map_inv in Hperm.
  destruct Hperm as (us & Hes & Hp).
  rewrite Hes.
  assert (Hus : forall u, In u us -> In u bu).
  { intros u Hu. apply (Permutation_in _ (Permutation_sym Hp)), Hu. }
  rewrite split_join.
  - destruct (parse_entries_ledger us ∅) as (m' & Hrun & Hin & _).
    + intros u Hu. destruct (Hall u (Hus u Hu)) as (H1 & H2 & _ & _ & H5 & _). auto.
    + eapply Permutation_NoDup; [|exact Hnd]. apply Permutation_map, Hp.
    + exists m'. split; [exact Hrun|]. intros u Hu.
      apply Hin. apply (Permutation_in _ Hp), Hu.
  - intros Hnil. apply map_eq_nil in Hnil. subst us.
    apply Permutation_sym, Permutation_nil in Hp. contradiction.
  - intros e He. apply in_map_iff in He. destruct He as (u & <- & Hu).
    destruct (Hall u (Hus u Hu)) as (_ & _ & H3 & H4 & _).
    apply entry_no_semicolon; assumption.
Qed.

End ParseBalances.

(** ** The flag of decode_base64 *)

Section CodecFlag.
Import Codec.
Context (cfg : config) (b64decode pybase64_b64decode : string -> option string).

(** X20: decode_base64: the flag is [True] exactly when data is returned and
    [None] otherwise, never [False]; data comes from the padded string
    at or below the repair cut-off and from the string as given above
    it, where pybase64 is asked only after base64 has failed; at or
    above the p2wsh activation no data is returned for a string that
    fails the validation. *)
Theorem decode_base64_flag (s : string) (h : Z) :
  let r := decode_base64 cfg b64decode pybase64_b64decode s h in
  (fst r = None <-> snd r = None)
  /\ (snd r = None \/ snd r = Some true)
  /\ (forall data, fst r = Some data ->
        (CP_P2WSH_FEAT_BLOCK_START cfg <= h -> check_valid_base64_string s = true)
        /\ (if h <=? STOP_BASE64_REPAIR cfg
            then b64decode (repair_padding s) = Some data
            else b64decode s = Some data
                 \/ (b64decode s = None /\ pybase64_b64decode s = Some data))).
Proof.
  cbv zeta. unfold decode_base64, decode_base64_with_repair, base64_cli.
  destruct (CP_P2WSH_FEAT_BLOCK_START cfg <=? h) eqn:Hcp;
    destruct (check_valid_base64_string s) eqn:Hv; cbn [negb andb];
    try (split; [split; reflexivity | split; [left; reflexivity | intros data; discriminate]]);
    (destruct (h <=? STOP_BASE64_REPAIR cfg);
     [ destruct (b64decode (repair_padding s)) as [x|]
     | destruct (b64decode s) as [x|]; [|destruct (pybase64_b64decode s) as [y|]] ];
     cbn [fst snd];
     (split; [split; intros; congruence|]);
     (split; [first [left; reflexivity | right; reflexivity]|]);
     intros data Hd; try discriminate Hd;
     (split; [intros Hh; first [reflexivity | apply Z.leb_gt in Hcp; lia]|]);
     first [exact Hd | left; exact Hd | right; split; [reflexivity | exact Hd]]).
Qed.

End CodecFlag.

(** ** The digest of create_base62_hash *)

Section DigestFacts.
Import Cpid.
Context (sha256 : string -> list ascii).

Lemma index_of_bound (c : ascii) (l : list ascii) (i : N) :
  index_of c l = Some i -> (i < N.of_nat (List.length l))%N.
Proof.
  revert i. induction l as [|x l IH]; intros i; cbn [index_of]; [discriminate|].
  destruct (Ascii.eqb c x).
  - intros [= <-]. cbn [List.length]. lia.
  - destruct (index_of c l) as [j|]; [|discriminate].
    intros [= <-]. specialize (IH j eq_refl). cbn [List.length]. lia.
Qed.

Lemma value_step_none (l : list ascii) : fold_left value_step l None = None.
Proof. induction l as [|c l IH]; [reflexivity | exact IH]. Qed.

(** A numeral of [k] digits denotes a number below [62^k]. *)
Lemma base62_value_bound (l : list ascii) :
  forall a n, fold_left value_step l (Some a) = Some n ->
    (n < (a + 1) * 62 ^ N.of_nat (List.length l))%N.
Proof.
  induction l as [|c l IH]; intros a n; cbn [fold_left List.length].
  - intros [= <-]. cbn. lia.
  - unfold value_step at 2.
    destruct (digit_of c) as [d|] eqn:Hd; [|rewrite value_step_none; discriminate].
    intros H. apply IH in H.
    apply index_of_bound in Hd. change (N.of_nat _) with 62%N in Hd.
    rewrite Nat2N.inj_succ, N.pow_succ_r'.
    assert (0 < 62 ^ N.of_nat (List.length l))%N
      by (apply N.neq_0_lt_0, N.pow_nonzero; lia).
    nia.
Qed.

Lemma base62_encode_length (n : N) (k : nat) :
  (62 ^ (N.of_nat k - 1) <= n)%N -> (1 <= k)%nat ->
  (k <= List.length (Str.chars (base62_encode n)))%nat.
Proof.
  intros Hn Hk.
  pose proof (base62_encode_value n) as Hv. unfold base62_value in Hv.
  apply base62_value_bound in Hv. rewrite N.add_0_l, N.mul_1_l in Hv.
  destruct (Nat.le_gt_cases k (List.length (Str.chars (base62_encode n)))) as [H|H];
    [exact H|].
  exfalso.
  assert (62 ^ N.of_nat (List.length (Str.chars (base62_encode n)))
          <= 62 ^ (N.of_nat k - 1))%N by (apply N.pow_le_mono_r; lia).
  lia.
Qed.

(** X21: create_base62_hash: a length outside 12..20 is a ValueError;
    otherwise the digest holds at most [length] characters, all of the
    alphabet, and exactly [length] of them when the hash is not below
    [62^(length-1)]. *)
Theorem create_base62_hash_digest (str1 str2 : string) (length : Z) :
  match create_base62_hash sha256 str1 str2 length with
  | Raise e => e = ValueError /\ (length < 12 \/ 20 < length)
  | Ret s =>
      12 <= length <= 20
      /\ (String.length s <= Z.to_nat length)%nat
      /\ Forall (fun c => exists d, (d < 62)%N /\ c = char_at d) (Str.chars s)
      /\ ((62 ^ (Z.to_N length - 1) <= hash_int sha256 str1 str2)%N ->
          String.length s = Z.to_nat length)
  end.
Proof.
  unfold create_base62_hash.
  destruct ((12 <=? length) && (length <=? 20)) eqn:Hr; cbn [negb].
  - apply andb_true_iff in Hr. destruct Hr as [H1 H2].
    apply Z.leb_le in H1, H2. split; [lia|].
    unfold prefix. rewrite string_length_chars, !chars_of_chars.
    split; [rewrite length_firstn; lia|]. split.
    + destruct (base62_encode_canonical (hash_int sha256 str1 str2)) as [Ha _].
      rewrite <- (firstn_skipn (Z.to_nat length)) in Ha.
      apply Forall_app in Ha. apply Ha.
    + intros Hh. rewrite length_firstn. apply Nat.min_l.
      apply base62_encode_length; [|lia].
      replace (N.of_nat (Z.to_nat length)) with (Z.to_N length) by lia. exact Hh.
  - split; [reflexivity|].
    apply andb_false_iff in Hr. destruct Hr as [H|H]; apply Z.leb_gt in H; lia.
Qed.

End DigestFacts.

(** ** Which counter a stamp draws from *)

Section CounterFacts.
Import Stamp.
Context (cfg : config).

(** X22: parse_stamp: a record that reaches the rules with no flag set draws
    from the 'stamp' counter exactly when its ident is known, it has no
    asset_longname, and its cpid starts with A, with no OP_RETURN and a
    valid suffix; it stays without a number exactly when it has no
    asset_longname and either no cpid, or an ident UNKNOWN with such a
    cpid, suffix and no OP_RETURN; every other record is cursed. *)
Theorem parse_stamp_counter (sd : stamp_data) (c : counters) :
  flag_set (is_btc_stamp sd) = false -> flag_set (is_cursed sd) = false ->
  let clean :=
    str_truthy (cpid sd) && startswith_A (cpid sd) && negb (is_op_return sd)
    && negb (invalid_suffix cfg (file_suffix sd)) in
  let named := bool_decide (is_Some (asset_longname sd)) in
  let unknown := String.eqb (ident sd) "UNKNOWN" in
  snd (fst (assign_number (classify cfg sd) c))
  = if negb named && clean && negb unknown then Some CStamp
    else if negb named && (negb (str_truthy (cpid sd)) || clean && unknown) then None
    else Some CCursed.
Proof.
  intros Hb Hc. cbv zeta. unfold classify, assign_number.
  destruct (String.eqb (ident sd) "UNKNOWN");
    destruct (bool_decide (is_Some (asset_longname sd)));
    destruct (str_truthy (cpid sd));
    destruct (startswith_A (cpid sd));
    destruct (is_op_return sd);
    destruct (invalid_suffix cfg (file_suffix sd));
    cbn [negb andb orb is_btc_stamp is_cursed flag_set Z.eqb];
    rewrite ?Hb, ?Hc; reflexivity.
Qed.

End CounterFacts.

(** ** The theorems above on sample data *)

(** X1 on the three operations of the sample block. *)
Lemma update_src20_balances_sums_witness :
  exists bu,
    Ledger.fold_balances Samples.dogs_block [] = Ret bu
    /\ List.NoDup (map Ledger.row_of bu)
    /\ (forall r, In r (map Ledger.row_of bu) <-> In r (Ledger.touched_rows Samples.dogs_block))
    /\ (forall u, In u bu ->
          Dec.value 0 (Ledger.credit u)
          = Ledger.total (Ledger.credited 0 (Ledger.row_of u)) Samples.dogs_block
          /\ Dec.value 0 (Ledger.debit u)
             = Ledger.total (Ledger.debited 0 (Ledger.row_of u)) Samples.dogs_block).
Proof.
  apply (update_src20_balances_sums 0 Samples.dogs_block).
  - lia.
  - vm_compute. discriminate.
  - intros d [<-|[<-|[<-|[]]]] _; eexists; (split; [reflexivity | vm_compute; discriminate]).
  - vm_compute. reflexivity.
Defined.

(** X2 on the balance updates of the sample block. *)
Lemma process_balance_updates_sorted_witness :
  exists us,
    Permutation us Samples.dogs_updates
    /\ Ledger.process_balance_updates (fun s => s) Samples.dogs_updates
       = Str.join ";" (map (Ledger.ledger_entry (fun s => s)) us)
    /\ StronglySorted
         (fun u v => Str.leb (Ledger.row_key (fun s => s) (Ledger.row_of u))
                             (Ledger.row_key (fun s => s) (Ledger.row_of v)) = true) us.
Proof.
  apply (process_balance_updates_sorted (fun s => s) Samples.dogs_updates).
  intros u [<-|[<-|[<-|[]]]]; split; vm_compute; reflexivity.
Defined.

(** X3 on the sample block and the same block with its first two
    records exchanged. *)
Lemma ledger_string_permutation_witness :
  exists s,
    Ledger.ledger_string (fun s => s) (Src20.balances Samples.dogs_db) Samples.dogs_block = Ret s
    /\ Ledger.ledger_string (fun s => s) (Src20.balances Samples.dogs_db)
         Samples.dogs_block_swapped = Ret s.
Proof.
  apply (ledger_string_permutation (fun s => s) 0 1000).
  - lia.
  - vm_compute. discriminate.
  - lia.
  - apply perm_swap.
  - intros d [<-|[<-|[<-|[]]]] _; eexists; (split; [reflexivity | vm_compute; discriminate]).
  - intros r [<-|[]]. split; vm_compute; discriminate.
  - vm_compute. reflexivity.
  - intros r Hr. vm_compute in Hr.
    destruct Hr as [<-|[<-|[<-|[<-|[<-|[]]]]]]; split; vm_compute; reflexivity.
  - intros r r' Hr Hr' H. vm_compute in Hr, Hr'.
    destruct Hr as [<-|[<-|[<-|[<-|[<-|[]]]]]];
      destruct Hr' as [<-|[<-|[<-|[<-|[<-|[]]]]]];
      try reflexivity; exfalso; destruct H as [H|H]; vm_compute in H; discriminate H.
Defined.

(** X4 on 15.00. *)
Lemma format_decimal_integer_witness :
  Ledger.format_decimal (Dec.FDec false 1500 (-2)) = Str.of_Z 15
  /\ Str.contains_char "." (Ledger.format_decimal (Dec.FDec false 1500 (-2))) = false.
Proof.
  apply (format_decimal_integer (Dec.FDec false 1500 (-2)) 15);
    [vm_compute; reflexivity | split; vm_compute; discriminate | vm_compute; reflexivity].
Defined.

(** X5 on 1.250. *)
Lemma format_decimal_fraction_witness :
  exists pre c,
    Ledger.format_decimal (Dec.FDec false 1250 (-3)) = Str.of_chars (pre ++ [c])
    /\ Ledger.format_decimal (Dec.FDec false 1250 (-3))
       = Dec.format_f (Dec.norm (Dec.FDec false 1250 (-3)))
    /\ In "."%char pre /\ Str.isdecimal c = true /\ c <> "0"%char.
Proof.
  apply (format_decimal_fraction (Dec.FDec false 1250 (-3)));
    [vm_compute; reflexivity | split; vm_compute; discriminate | vm_compute; reflexivity].
Defined.

(** X6 on 1.250 and 1.25. *)
Lemma format_decimal_value_witness :
  Ledger.format_decimal (Dec.FDec false 1250 (-3)) = Ledger.format_decimal (Dec.FDec false 125 (-2)).
Proof.
  apply (format_decimal_value 3); [simpl; lia | simpl; lia | vm_compute; reflexivity | vm_compute; reflexivity].
Defined.

(** X7 on the three operations of the sample block. *)
Lemma update_src20_balances_conserves_witness :
  exists bu,
    Ledger.fold_balances Samples.dogs_block [] = Ret bu
    /\ Supply.net_credit 0 bu = Ledger.total (Supply.minted_value 0) Samples.dogs_block.
Proof.
  apply (update_src20_balances_conserves 0 Samples.dogs_block).
  - lia.
  - vm_compute. discriminate.
  - intros d [<-|[<-|[<-|[]]]] _; eexists; (split; [reflexivity | vm_compute; discriminate]).
  - vm_compute. reflexivity.
Defined.

(** X8 on the balance updates of the sample block and the table of the
    sample store. *)
Lemma update_balance_table_stored_witness :
  (forall u, In u Samples.dogs_updates ->
     Ledger.select_amt
       (snd (Ledger.update_balance_table (Src20.balances Samples.dogs_db) Samples.dogs_updates))
       (Supply.id_of u)
     = Some (match Ledger.select_amt (Src20.balances Samples.dogs_db) (Supply.id_of u) with
             | Some a => Dec.add_exact a (Dec.minus (Ledger.credit u) (Ledger.debit u))
             | None => Dec.minus (Ledger.credit u) (Ledger.debit u)
             end))
  /\ (forall id, ~ In id (map Supply.id_of Samples.dogs_updates) ->
        Ledger.select_amt
          (snd (Ledger.update_balance_table (Src20.balances Samples.dogs_db) Samples.dogs_updates))
          id
        = Ledger.select_amt (Src20.balances Samples.dogs_db) id).
Proof.
  apply (update_balance_table_stored Samples.dogs_updates (Src20.balances Samples.dogs_db)).
  vm_compute.
  repeat (apply List.NoDup_cons; [intros H; repeat (destruct H as [H|H]; [discriminate H|]); exact H|]).
  apply List.NoDup_nil.
Defined.

(** X9 on a TRANSFER of 25 from A, who holds 60. *)
Lemma validate_and_process_operation_verdict_witness :
  exists p' db',
    Src20.validate_and_process_operation Samples.dogs_db []
      (Src20.init (Samples.dogs_op "TRANSFER" 25 "A" "B")) = Ret (p', db')
    /\ (Src20.valid (Src20.src20_dict p') = Src20.is_valid p'
        /\ (if Src20.is_valid p'
            then Src20.status (Src20.src20_dict p')
                 = Src20.status (Samples.dogs_op "TRANSFER" 25 "A" "B")
                 \/ Src20.status (Src20.src20_dict p') = Some Src20.OMA
                 \/ Src20.status (Src20.src20_dict p') = Some Src20.ODL
            else exists c, Src20.status (Src20.src20_dict p') = Some c
                           /\ Src20.is_invalid c = true)
        /\ Verdict.same_identity (Samples.dogs_op "TRANSFER" 25 "A" "B") (Src20.src20_dict p')
        /\ Verdict.same_tables Samples.dogs_db db').
Proof.
  eexists. eexists.
  refine ((fun H => conj H (validate_and_process_operation_verdict
                               Samples.dogs_db _ [] (Samples.dogs_op "TRANSFER" 25 "A" "B")
                               _ eq_refl H)) _).
  vm_compute. reflexivity.
Defined.

(** X11 on a MINT payload of the tick abc. *)
Lemma check_format_result_witness :
  exists d p,
    (Format.InDict (Samples.mint_payload (PStr "5")) = Format.InDict d
     \/ exists doc ms, Format.InDict (Samples.mint_payload (PStr "5")) = Format.InText (Some doc)
                       /\ Json.loads doc = Ret (PDict ms) /\ d = Json.to_dict ms)
    /\ d !! "p"%string = Some (PStr p)
    /\ ((Str.lower p = "src-721"%string
         /\ <["tick"%string := PStr "abc"]> (Samples.mint_payload (PStr "5")) = d)
        \/ (Str.lower p = "src-20"%string
            /\ exists t tv,
                 default (PStr "") (d !! "tick"%string) = PStr t
                 /\ Samples.decode_ascii t = Some tv
                 /\ <["tick"%string := PStr "abc"]> (Samples.mint_payload (PStr "5"))
                    = <["tick"%string := PStr tv]> d
                 /\ tv <> ""%string /\ (String.length tv <= 5)%nat
                 /\ forallb (TICK_PATTERN_SET Samples.cfg) (Str.chars tv) = true
                 /\ Format.numeric_checks Samples.cfg 833000
                      (<["tick"%string := PStr "abc"]> (Samples.mint_payload (PStr "5")))
                    = true)).
Proof.
  apply (check_format_result Samples.cfg Samples.decode_ascii
           (Format.InDict (Samples.mint_payload (PStr "5"))) "tx" 833000).
  vm_compute. reflexivity.
Defined.

(** X13 on the MINT payload, which has no lim, with two values under max. *)
Lemma check_format_max_without_lim_witness :
  Format.check_format Samples.cfg Samples.decode_ascii
    (Format.InDict (<["max"%string := PStr "x"]> (Samples.mint_payload (PStr "5")))) "tx" 833000
  = match Format.check_format Samples.cfg Samples.decode_ascii
            (Format.InDict (<["max"%string := PInt 7]> (Samples.mint_payload (PStr "5"))))
            "tx" 833000 with
    | Ret (Some r) => Ret (Some (<["max"%string := PStr "x"]> r))
    | other => other
    end.
Proof.
  apply (check_format_max_without_lim Samples.cfg Samples.decode_ascii
           (Samples.mint_payload (PStr "5")) (PStr "x") (PInt 7) "tx" 833000).
  vm_compute. reflexivity.
Defined.

(** X14 on the max 21000000.99, which is stored as 21000000. *)
Lemma validator_max_lim_whole_witness :
  (exists q, PDec (Dec.DFin (Dec.FDec false 21000000 0)) = PDec (Dec.DFin q)
             /\ Dec.fexp q = 0 /\ (Dec.fcoef q < 10 ^ 28)%N
             /\ ((forall d, PStr "21000000.99" <> PDec d) -> Dec.fsign q = false))
  \/ (exists neg, PStr "21000000.99" = PDec (Dec.DNaN neg false)
                  /\ PDec (Dec.DFin (Dec.FDec false 21000000 0)) = PStr "21000000.99").
Proof.
  apply (validator_max_lim_whole (fun _ => ""%string) (fun _ => ""%string) "max").
  - left. reflexivity.
  - vm_compute. reflexivity.
Defined.

(** X16 on the numeral 21000000.99. *)
Lemma validator_numeral_witness :
  Validator.apply_regex_validation (fun _ => ""%string) (fun _ => ""%string)
    "amt" (PStr "21000000.99")
  = Ret (Validator.Stored (PDec (Dec.DFin (Dec.FDec false 2100000099 (-2)))))
  /\ ((8 <= 28)%nat ->
      Validator.apply_regex_validation (fun _ => ""%string) (fun _ => ""%string)
        "max" (PStr "21000000.99")
      = Ret (Validator.Stored (PDec (Dec.DFin (Dec.FDec false 21000000 0))))
      /\ Validator.apply_regex_validation (fun _ => ""%string) (fun _ => ""%string)
           "lim" (PStr "21000000.99")
         = Ret (Validator.Stored (PDec (Dec.DFin (Dec.FDec false 21000000 0))))).
Proof.
  apply (validator_numeral (fun _ => ""%string) (fun _ => ""%string)
           (Str.chars "21000000") (Str.chars "99") true false).
  - vm_compute. reflexivity.
  - vm_compute. reflexivity.
  - discriminate.
  - vm_compute. discriminate.
  - vm_compute. reflexivity.
Defined.

(** X17 on a max that is a single point. *)
Lemma process_values_digitless_witness :
  Validator.process_value (fun _ => ""%string) (fun _ => ""%string)
    (fun s => s) (fun s => s) (fun s => s) (fun s => s) "max" (PStr ".")
  = Raise InvalidOperation.
Proof.
  apply (process_values_digitless (fun _ => ""%string) (fun _ => ""%string)
           (fun s => s) (fun s => s) (fun s => s) (fun s => s) "max" ".").
  - left. reflexivity.
  - vm_compute. reflexivity.
  - vm_compute. reflexivity.
Defined.

(** X18 on 1.250. *)
Lemma format_decimal_parses_witness :
  exists d,
    DecParse.of_string (Ledger.format_decimal (Dec.FDec false 1250 (-3))) = Some (Dec.DFin d)
    /\ Dec.eqb d (Dec.FDec false 1250 (-3)) = true.
Proof.
  apply (format_decimal_parses (Dec.FDec false 1250 (-3))).
  - vm_compute. reflexivity.
  - split; vm_compute; discriminate.
  - vm_compute. reflexivity.
Defined.

(** X19 on the updates of a token with two decimals, whose ledger string
    is "cents,A,1.75;cents,B,2.5". *)
Lemma parse_balances_round_trip_witness :
  Ledger.process_balance_updates (fun s => s) Samples.cents_ledger
  = "cents,A,1.75;cents,B,2.5"%string
  /\ exists balances,
       Balances.parse_balances
         (Ledger.process_balance_updates (fun s => s) Samples.cents_ledger)
       = Ret balances
       /\ forall u, In u Samples.cents_ledger ->
            exists d,
              Balances.balance balances (Ledger.display_tick (fun s => s) (Ledger.u_tick u))
                (Ledger.u_address u) = Some (Dec.DFin d)
              /\ Dec.eqb d (Ledger.ledger_amt u) = true.
Proof.
  split; [vm_compute; reflexivity|].
  apply (parse_balances_round_trip (fun s => s) Samples.cents_ledger).
  - intros u [<-|[<-|[]]];
      (split; [vm_compute; reflexivity|]); (split; [vm_compute; reflexivity|]);
      (split; [vm_compute; reflexivity|]); (split; [vm_compute; reflexivity|]);
      (split; [vm_compute; reflexivity|]);
      split; split; vm_compute; discriminate.
  - vm_compute.
    repeat (apply List.NoDup_cons;
            [intros H; repeat (destruct H as [H|H]; [discriminate H|]); exact H|]).
    apply List.NoDup_nil.
Defined.

(** X22 on an image stamp with a numeric asset. *)
Lemma parse_stamp_counter_witness :
  snd (fst (Stamp.assign_number (Stamp.classify Samples.cfg Samples.sd_image)
              (Stamp.Counters 10 3)))
  = Some Stamp.CStamp.
Proof.
  apply (parse_stamp_counter Samples.cfg Samples.sd_image (Stamp.Counters 10 3));
    reflexivity.
Defined.

